(* ===== verification/_CoqProject ===== *)
-Q . S2P
Prelude.v
Buffer.v
TimerNode.v
FourHeap.v
Expired.v
TimerQueue.v
ServerTimers.v
Regex.v
SqlConnPool.v
HttpRequest.v
Forms.v
Parsing.v
RequestTypes.v
Accounts.v
HttpResponse.v
HttpContext.v
WebPage.v
SmoothScroll.v
Channel.v
TcpConnection.v
ConnectionProofs.v
EventLoop.v
LoopThread.v
HttpServer.v
Serving.v
Clients.v
SharedPoller.v
Reactor.v
Service.v
Determined.v
Refinement.v
Login.v
Isolation.v
Iteration.v
Log.v
ThreadPool.v
TcpServer.v
Table.v
ServerDown.v
LoopLife.v
Sockets.v
Startup.v
Program.v
