(* ===== verification/Prelude.v ===== *)
(** * TinyHttpServer: verification development

    TinyHttpServer is a small HTTP server in C++ with a reactor: a main loop
    accepts connections and hands each to one of several event loops; a loop
    waits in epoll, runs the handlers of the ready channels and then the
    functors other threads queued; a connection reads into a buffer, the HTTP
    context parses a request out of it, makes a response, and the connection
    writes it. Timers, a log with a thread of its own, a pool of MySQL
    connections and a thread pool stand beside. The pages it serves carry two
    small scripts.

    ** Reading the model

    Code that can fail has type [result]: the value, or the [fault] that ends
    it (a failing assertion, an exception, an access that is undefined
    behaviour, a null pointer). Every [assert] of the code is there, since the
    build does not define NDEBUG. Integers have the width of the code, with
    [u64], [s32] and so on where an operation wraps. Strings and buffers are
    lists of characters. System calls, the MySQL client, the file system,
    jQuery and [std::priority_queue] are arguments or type classes; what is
    assumed of them are named hypotheses, each instantiated in a witness. Code
    of several threads is a step relation, or a list of operations, one for
    each stretch that no other thread can observe from inside; all theorems
    about it hold for every interleaving.

    ** The files, and the code they model (paths under src/)

    - Prelude: faults, the result monad, machine integers, byte strings, list
      lemmas, tactics and hints.
    - Buffer (base/buffer.h, buffer.cc): every call. [buffer_refines_queue]:
      any sequence of calls behaves as a queue of bytes.
    - TimerNode, FourHeap, Expired, TimerQueue (base/timernode.h, four_heap,
      timerqueue): the timer heap and the queue on it. [heap_refines_map]: as a
      container the heap is a finite map from ids to timers, and its sifting
      loops end within as many rounds as there are nodes (their fuel). The
      order of the heap is only kept for up to four timers
      ([small_heap_root_min], [push_climbs_one_level]). [get_k] gets arbitrary
      fuel; with two expired timers none is enough ([handle_read_hangs]), with
      one two rounds are ([handle_read_fires_root]). [dopending_refines]:
      functors that add, cancel and extend timers act as the map operations.
    - ServerTimers (httpserver.h, EventLoop::run_after): the two timers the
      server sets, composed with the queue and the heap. [server_wakeup] says
      what every wake-up of the timerfd does with them.
    - Regex, HttpRequest, Forms, Parsing, Accounts (http/httprequest): a
      matcher for the constructs the two patterns use, the parser, the form
      decoder, login and registration. The table of accounts is a class,
      [UserTable]: its collation decides which names are one, queries may fail
      and results may be lost. [parse_request] is a round trip from a
      printed request; [ParseRequestLine_accepts] and [ParseHeader_outcome] say
      exactly what the patterns accept; [parse_answers]: on any data the parser
      ends, within as many rounds as the buffer has bytes (its fuel), and
      leaves a suffix in a well-formed buffer. The form loop's fuel is the
      length of the body.
    - RequestTypes (http/httprequest): what the fields of a request may hold in
      each state of the parser; [parse_typed]: parsing any bytes keeps to it.
    - SqlConnPool (sql/sqlconnpool, sqlconnRAII.h): the queue and the
      semaphore, also as the interleaved steps of verifications, which give
      their connection back twice, and of [ClosePool]. [pop_never_empty]: until
      the pool is closed a granted thread finds a connection; after that it may
      not.
    - HttpResponse, HttpContext (http/httpresponse, httpcontext): status,
      headers and the mapped file; [get_is_served] puts parser and response
      together.
    - Channel (event/channel, pollbase, epoller): channels, the poller's map
      and the kernel's epoll set as one state. [registry_mirrors_kernel]: they
      agree after every sequence of calls.
    - EventLoop (event/eventloop.cc): queued functors and the wakeup
      descriptor. [functors_run_in_order], [no_lost_wakeup].
    - LoopLife (event/eventloop, base/timerqueue.cc): constructors and
      destructors of a loop and its timer queue, with their channels in the
      poller, the descriptors they open and the pointer to the thread's loop.
      [loop_lifecycle]: whatever happens to other channels in between, a loop
      that does not run is destroyed without a trace.
    - LoopThread (server/eventloopthread): a thread with a loop. The owner and
      the thread interleave, over the steps of EventLoop.
      [start_loop_returns_ready]; [thread_destructor_returns]: every way a
      destructor can end, the join and the call into a loop that is gone; and
      what goes wrong at the edges, [early_destructor_hangs],
      [owner_misses_loop].
    - TcpConnection, ConnectionProofs (server/tcpconnection): every call and
      handler of a connection, and what holds of any sequence of them:
      [bytes_in_order] (nothing sent is lost, repeated or reordered),
      [waiting_output_is_watched], [status_moves_forward].
    - TcpServer (server/tcpserver, eventloopthreadpool): the table of
      connections and the work that goes between loops. The server sees a
      connection as a status and a channel state; [lifecycle_refines] proves
      that this view is what the connection does, and [server_never_asserts]
      that no order of events fails an assertion. Fewer than 2^31 - 1
      connections are assumed, since their number is an [int].
    - ServerDown (server/tcpserver.cc, tcpconnection.cc, server/entry.h): the
      destructor of a server and the pointers that keep connections alive.
      [server_destructor]: it succeeds exactly when no connection is left.
    - Sockets (server/inetaddress, socketserver, event/acceptor): addresses
      read and printed ([address_roundtrip]), the options of a socket, and the
      acceptor from constructor to destructor ([acceptor_set_up],
      [acceptor_destroyed]).
    - Startup (httpserver.h, server/tcpserver.cc): constructors and [start] of
      both servers put acceptor, pool, wheel and timers together.
      [server_starts]: what stands after them, and that accepted descriptors
      become connections.
    - HttpServer (httpserver.h, httpserver.cc, server/entry.h): the wheel of
      idle connections ([idle_timeout]) and the message handler;
      [get_reaches_the_wire] follows a request from the received bytes through
      parser, response and connection to the socket.
    - Serving: a connection that stays open. Its client sends requests, the
      socket takes the answers in pieces and the wheel turns, in any order.
      [requests_in_order]: every request is answered, completely and in order;
      [answers_delivered]: the answers get to the kernel;
      [split_request_answered_twice]: what a request in two segments gets.
    - Clients: any number of such connections in one loop, with one wheel.
      [clients_undisturbed]: each client gets its own answers, whatever the
      order of events.
    - SharedPoller: TcpConnection keeps the poller in the connection's state;
      here every call of a connection is shown to do on a shared poller what it
      does on the part that is its own channel's (the class [Local]).
    - Reactor (httpserver, server/tcpserver.cc, tcpconnection.cc, entry.h): the
      state of a loop that serves (its connections, one poller, the wheel, the
      accounts and the open files) and its events: a connection comes, a
      callback or a functor runs, the wheel turns, an object goes.
      [handlers_separate]: connections do not notice each other.
    - Service: an abstract answer to any text, without parser state, buffers
      and mappings: [understand] says how far a text is read and whether it
      asks the accounts something, [sheet_of] what the page it is led to looks
      like, [responds] and [refuses] put them together: a text has an answer,
      or it brings the server down. The accounts are the interface [Books]; the
      database behind its pool is one instance. Determined: what is understood
      of requests and forms as they are printed; a text is the print of at most
      one request.
    - Refinement: an abstract server, whose clients are live, idle, gone or
      removed; [serves] are its steps, [breaks] the events that end it: a form
      that cannot be decoded, a question that the pool or the database cannot
      answer, a page that cannot be mapped, the second end of a connection.
      [loop_implements_service]: the loop does what this server may do,
      whatever the order of events, and fails only where it breaks;
      [files_accounted]: each mapping belongs to a connection that is there, or
      was lost by a page that begins with four bytes FF.
    - Login: logins and registrations from the bytes received to the bytes
      sent, for names and passwords that are plain text to SQL, failing queries
      included. [login_through_loop]: only the password opens the welcome page;
      [register_through_loop]: a name is registered once;
      [accounts_only_grow]: as long as what is asked is plain text, no account
      is changed or removed;
      [relogin_not_checked]: the second login of a connection is not looked at.
    - Isolation: one client in two runs. [clients_are_isolated]: while no
      account is added it is sent the same, whoever else is there.
    - Iteration (event/eventloop.cc, channel.cc): rounds of [EventLoop::loop],
      from the poller's report over the callbacks to the queued functors.
      [loop_serves]: they are runs of the abstract server, to their end or to
      an event at which it breaks. What else is kept of the connections hears
      of every event, through the class [Ledger].
    - Table (server/tcpserver.cc): the server's table as such a ledger; it
      lists exactly the connections that have not been removed.
    - Program (httpserver.h, eventloop.cc, timerqueue.cc, acceptor.cc,
      unit_test/web_test): everything in one thread, from the constructors on:
      the channels of the eventfd, the timer and the acceptor in the loop's
      poller, the timer queue that turns the wheel, the acceptor that brings
      connections, the table and the rounds of Iteration. [program_serves]: it
      serves, or breaks where the abstract server does, or comes to a wake-up
      of the timer that finds both timers expired and never returns.
    - Log (base/log.h, log.cc): the double-buffered log ([log_in_order],
      [loading_flushes]).
    - ThreadPool (threadpool.h): workers and tasks ([no_task_forgotten],
      [destructor_joins]).
    - WebPage (resources/js/custom.js, magnific-popup-options.js): the page's
      scripts over an interface of jQuery. [click_after_load]: what a click
      does to the page, to the end or to the exception.
    - SmoothScroll (resources/js/smoothscroll.js): the scrolling plugins, over
      an interface of the document and with JavaScript's numbers and objects.
      [scroll_within_page], [local_click], [script_binds],
      [queued_axes_share_object].

    ** How the parts fit

    Buffer serves HttpRequest, HttpResponse, TcpConnection and Log through its
    lemmas on [contents] and [wf]. Channel serves TcpConnection, LoopLife and
    Sockets through [mirrors] and the case lemmas [with_events_cases] and
    [remove_cases]. LoopThread takes the loop of EventLoop as it is; Serving
    composes HttpServer with the proofs on connections, Clients lifts it to
    many. The top of the development is the chain SharedPoller, Reactor,
    Service, Refinement, Iteration: what the kernel reports, by the registry's
    agreement with it (Channel), is an event that can happen; an event is a
    handler of one connection on its own part of the poller; a message is
    answered by parser, accounts and files as Service says; and the relation
    [represents] ties connections, wheel, poller, accounts and mappings to the
    abstract server, for any [Books]: Login and the theorems on the loop take
    the pool and the database themselves, Isolation a table of accounts.
    Iteration's theorems are proved against the class [LedgerOk]; Table
    discharges it with the two operations [enrol] and [strike] of TcpServer,
    and Program joins the result with LoopLife, Startup, ServerTimers and
    Sockets. ServerDown and Startup build on the server's invariant
    [server_inv], and Startup joins it with the acceptor, the wheel and the
    timers. The MySQL client and the file system are the classes [MySQL] and
    [FileSystem] that the parser and the response are written against; Accounts
    and HttpResponse state their laws.

    ** Behaviour the theorems pin down that the code does not mean

    Several theorems state what the code does where its intention is another:
    [handle_read_hangs], [server_wakeup] where both timers have expired,
    [self_cancel_hits_root], [push_climbs_one_level],
    [escape_not_decoded], [truncated_escape], [pipelined_request_lost],
    [bad_request_answers_404], [login_duplicates_connection],
    [register_correct], [register_through_loop], [empty_file_crashes],
    [disabled_channel_stuck],
    [force_close_never_closes], [shutdown_with_output_is_lost],
    [destroy_while_connected_asserts], [early_quit_is_lost],
    [spare_descriptor_unused], [acceptor_set_up], [early_log_asserts],
    [destructor_writes_closed_file], [split_request_answered_twice],
    [queued_axes_share_object], [early_destructor_hangs], [owner_misses_loop],
    [server_destructor], [relogin_not_checked], [urgent_hangup_asserts],
    [ff_file_leaks], [thread_destructor_returns] for a loop that is gone
    before the wakeup, [pop_never_empty] after [ClosePool], and
    [loop_lifecycle] for the pointer to the thread's loop.

    ** Bounds of the theorems about the loop

    A buffer never shrinks, so a run must fit: [page_limit] bounds the longest
    answer of the site, [total_cost] adds it to the bytes received, message by
    message, and the sum may be up to [max_size - 2048]. What clients send is
    not restricted: whole requests, pieces, bad lines, forms that cannot be
    decoded, forms for an empty pool and pages that cannot be mapped are
    answered or end the server as the specification says. Restrictions on what
    is sent are those of single theorems: Login and [accounts_only_grow] take
    names and passwords that are plain text to SQL, of at most a hundred
    characters where they go into the statement, because the code puts them
    there unescaped, and [clients_are_isolated] a pool with connections and a
    database that answers. The kernel is assumed to report watched channels,
    each once, and to deliver nothing but an end or an error with a hang-up
    that comes without input. With several loops, Iteration is about one of
    them with the wheel to itself: the code lets all loops change the one wheel
    without a lock. [launch] takes the number of threads as an argument;
    web_test asks for six, [program_serves] is about the server without threads
    of its own, whose connections are all the first loop's. web_test never sets
    up the pool, so there a posted form ends the server: the witness of
    [program_serves] runs it both ways. The clock is assumed not to go back,
    and a wake-up of the timer needs two rounds of [get_k] (its fuel) when at
    most one timer has expired; with both, no fuel is enough ([hangs]).

    ** What is not modelled

    The formatting of log lines, memory exhaustion, failing [epoll_create1] and
    [timerfd_create] (which are only logged), the handler that ignores SIGPIPE,
    [read_timer_fd] (never called), and data races on members the code does
    not protect (the wheel, the ids of timers, the log's file). The vendored
    scripts, pages and styles and main.cpp, which only becomes a daemon, have
    no logic of the program. *)

From stdpp Require Import base list numbers strings gmap pretty.
From Stdlib Require Import ZArith Lia.

Local Open Scope Z_scope.

(** ** Faults and the result monad

    The C++ code either finishes a call, or leaves the behaviour the program
    means to have: an [assert] aborts, an exception escapes, memory outside an
    object is touched.  Every one of these is a value. *)

Inductive fault : Type :=
  | AssertFailed   (** a failing [assert] (the build does not define NDEBUG) *)
  | OutOfRange     (** an access outside a container: undefined behaviour *)
  | LengthError    (** [std::length_error] of a container that cannot grow *)
  | NullDeref      (** a null or invalid pointer is dereferenced *)
  | TypeError      (** a JavaScript [TypeError] *)
  | SyntaxError    (** a selector jQuery refuses to parse *)
  | ReferenceError (** a JavaScript name that is not defined *)
  | Aborted        (** [abort()] *)
  | Blocked        (** a wait nobody in this thread can end *)
  | OutOfFuel      (** a loop did not finish within the fuel it was given *).

#[export] Instance fault_eq_dec : EqDecision fault.
Proof. solve_decision. Defined.

Inductive result (A : Type) : Type :=
  | Ok (a : A)
  | Fault (f : fault).
Arguments Ok {A} a.
Arguments Fault {A} f.

#[export] Instance result_ret : MRet result := @Ok.
#[export] Instance result_bind : MBind result := fun A B k m =>
  match m with Ok a => k a | Fault f => Fault f end.
#[export] Instance result_fmap : FMap result := fun A B g m =>
  match m with Ok a => Ok (g a) | Fault f => Fault f end.

#[export] Instance result_eq_dec `{EqDecision A} : EqDecision (result A).
Proof. solve_decision. Defined.

Definition assert_ (b : bool) : result unit :=
  if b then Ok tt else Fault AssertFailed.

(** [guard_ f b]: the access is defined only when [b] holds. *)
Definition guard_ (f : fault) (b : bool) : result unit :=
  if b then Ok tt else Fault f.

Definition of_option {A} (f : fault) (o : option A) : result A :=
  match o with Some a => Ok a | None => Fault f end.

Declare Scope result_scope.
Delimit Scope result_scope with result.
Notation "'assert!' b ; k" := (mbind (fun _ : unit => k) (assert_ b))
  (at level 20, b at level 100, k at level 200, only parsing) : result_scope.

Section result_laws.
Context {A B C : Type}.
Implicit Types (m : result A).

Lemma bind_ok (a : A) (k : A -> result B) : (Ok a ≫= k) = k a.
Proof. reflexivity. Qed.

Lemma bind_ret m : (m ≫= mret) = m.
Proof. by destruct m. Qed.

Lemma bind_assoc m (k : A -> result B) (h : B -> result C) :
  ((m ≫= k) ≫= h) = (m ≫= fun a => k a ≫= h).
Proof. by destruct m. Qed.

Lemma bind_ok_inv m (k : A -> result B) b :
  (m ≫= k) = Ok b -> exists a, m = Ok a /\ k a = Ok b.
Proof. destruct m; simpl; naive_solver. Qed.

Lemma assert_true (b : bool) (k : unit -> result B) :
  b = true -> (assert_ b ≫= k) = k tt.
Proof. by intros ->. Qed.

Lemma assert_ok_inv (b : bool) (k : unit -> result B) r :
  (assert_ b ≫= k) = Ok r -> b = true /\ k tt = Ok r.
Proof. destruct b; simpl; naive_solver. Qed.
End result_laws.

(** The call does not run out of fuel. *)
Definition terminates {A} (m : result A) : Prop := m <> Fault OutOfFuel.

Lemma terminates_ok {A} (a : A) : terminates (Ok a).
Proof. discriminate. Qed.

Lemma terminates_bind {A B} (m : result A) (k : A -> result B) :
  terminates m -> (forall a, terminates (k a)) -> terminates (m ≫= k).
Proof. unfold terminates. destruct m; cbn; naive_solver. Qed.

Lemma terminates_assert b : terminates (assert_ b).
Proof. by destruct b. Qed.

Lemma terminates_guard f b : f <> OutOfFuel -> terminates (guard_ f b).
Proof. destruct b; [done|]. unfold terminates. simpl. congruence. Qed.

Lemma terminates_of_option {A} f (o : option A) : f <> OutOfFuel -> terminates (of_option f o).
Proof. destruct o; [done|]. unfold terminates. simpl. congruence. Qed.

Create HintDb terminates.
#[export] Hint Resolve terminates_ok terminates_bind terminates_assert terminates_guard
  terminates_of_option : terminates.
#[export] Hint Extern 1 (_ <> OutOfFuel) => discriminate : terminates.

(** Peel one successful bind off a hypothesis. *)
Ltac inv_bind H :=
  match type of H with
  | (assert_ ?b ≫= _) = Ok _ =>
      let Hb := fresh "Hassert" in
      apply assert_ok_inv in H as [Hb H]
  | (_ ≫= _) = Ok _ =>
      let a := fresh "a" in let Ha := fresh "Ha" in
      apply bind_ok_inv in H as (a & Ha & H)
  end.

(** Turn the boolean comparisons of the code into propositions. *)
Ltac zbool :=
  repeat match goal with
  | H : (_ <? _)%Z = true |- _ => apply Z.ltb_lt in H
  | H : (_ <? _)%Z = false |- _ => apply Z.ltb_ge in H
  | H : (_ <=? _)%Z = true |- _ => apply Z.leb_le in H
  | H : (_ <=? _)%Z = false |- _ => apply Z.leb_gt in H
  | H : (_ =? _)%Z = true |- _ => apply Z.eqb_eq in H
  | H : (_ =? _)%Z = false |- _ => apply Z.eqb_neq in H
  end.

(** Case analysis on the first boolean comparison of the goal. *)
Ltac zcase :=
  match goal with
  | |- context [(?a <? ?b)%Z] => destruct (Z.ltb_spec a b)
  | |- context [(?a <=? ?b)%Z] => destruct (Z.leb_spec a b)
  | |- context [(?a =? ?b)%Z] => destruct (Z.eqb_spec a b)
  end.

(** ** Machine integers *)

(** [size_t] is 64 bits, [int] is 32 bits, [char] is a signed byte. *)
Definition u64 (z : Z) : Z := z mod 2 ^ 64.
Definition s32 (z : Z) : Z := (z + 2 ^ 31) mod 2 ^ 32 - 2 ^ 31.
Definition s64 (z : Z) : Z := (z + 2 ^ 63) mod 2 ^ 64 - 2 ^ 63.
Definition s8 (z : Z) : Z := (z + 2 ^ 7) mod 2 ^ 8 - 2 ^ 7.

Lemma u64_small z : 0 <= z < 2 ^ 64 -> u64 z = z.
Proof. intros. unfold u64. apply Z.mod_small. lia. Qed.

Lemma s32_small z : - 2 ^ 31 <= z < 2 ^ 31 -> s32 z = z.
Proof. intros. unfold s32. rewrite Z.mod_small; lia. Qed.

Lemma s64_small z : - 2 ^ 63 <= z < 2 ^ 63 -> s64 z = z.
Proof. intros. unfold s64. rewrite Z.mod_small; lia. Qed.

Lemma s8_small z : - 2 ^ 7 <= z < 2 ^ 7 -> s8 z = z.
Proof. intros. unfold s8. rewrite Z.mod_small; lia. Qed.

Lemma u64_range z : 0 <= u64 z < 2 ^ 64.
Proof. apply Z.mod_pos_bound. lia. Qed.

Lemma s32_range z : - 2 ^ 31 <= s32 z < 2 ^ 31.
Proof. unfold s32. pose proof (Z.mod_pos_bound (z + 2 ^ 31) (2 ^ 32)). lia. Qed.

(** The largest vector of [char]: [PTRDIFF_MAX] elements. *)
Definition max_size : Z := 2 ^ 63 - 1.

(** ** Byte strings *)

(** [std::string], [std::string_view] and [std::vector<char>] are lists of
    characters; a C++ string literal is the list of its characters. *)
Abbreviation bytes := (list Ascii.ascii).

Definition lit (s : string) : bytes := String.list_ascii_of_string s.

Definition nul : Ascii.ascii := Ascii.zero.
Definition CR : Ascii.ascii := Ascii.ascii_of_nat 13.
Definition LF : Ascii.ascii := Ascii.ascii_of_nat 10.

Definition CRLF : bytes := [CR; LF].

(** The value of a [char] as an [int] (signed [char]), and back. *)
Definition char_code (c : Ascii.ascii) : Z := s8 (Z.of_N (Ascii.N_of_ascii c)).
Definition code_char (z : Z) : Ascii.ascii := Ascii.ascii_of_N (Z.to_N (z mod 256)).

(** [std::to_string] of an integer. *)
Definition to_string (z : Z) : bytes := lit (pretty z).

(** ** Lists *)

Section lists.
Context {A : Type}.
Implicit Types (l d s : list A) (off n : nat).

Definition slice l off n : list A := take n (drop off l).

(** Overwrite the elements of [d] from [off] on with [s]. *)
Definition blit d off s : list A := take off d ++ s ++ drop (off + length s) d.

Lemma length_slice l off n :
  (off + n <= length l)%nat -> length (slice l off n) = n.
Proof. intros. unfold slice. rewrite length_take, length_drop. lia. Qed.

Lemma length_blit d off s :
  (off + length s <= length d)%nat -> length (blit d off s) = length d.
Proof.
  intros. unfold blit. rewrite !length_app, length_take, length_drop. lia.
Qed.

Lemma slice_blit_same d off s :
  (off <= length d)%nat -> slice (blit d off s) off (length s) = s.
Proof.
  intros. unfold slice, blit.
  rewrite drop_app_length' by (rewrite length_take; lia).
  by rewrite take_app_length.
Qed.

Lemma take_blit_before d off s n :
  (n <= off)%nat -> (off <= length d)%nat -> take n (blit d off s) = take n d.
Proof.
  intros. unfold blit.
  rewrite take_app_le by (rewrite length_take; lia).
  rewrite take_take. f_equal. lia.
Qed.

Lemma slice_take_drop l off n : slice l off n = drop off (take (off + n) l).
Proof. unfold slice. by rewrite take_drop_commute. Qed.

Lemma slice_blit_before d off s p n :
  (p + n <= off)%nat -> (off <= length d)%nat ->
  slice (blit d off s) p n = slice d p n.
Proof. intros. by rewrite !slice_take_drop, take_blit_before by lia. Qed.

Lemma slice_split l off n m :
  slice l off (n + m) = slice l off n ++ slice l (off + n) m.
Proof.
  unfold slice. rewrite <-drop_drop.
  rewrite <-(take_drop n (take (n + m) (drop off l))) at 1.
  rewrite take_take, skipn_firstn_comm. f_equal; f_equal; lia.
Qed.

Lemma slice_app_l l l' off n :
  (off + n <= length l)%nat -> slice (l ++ l') off n = slice l off n.
Proof. intros. rewrite !slice_take_drop, take_app_le by lia. done. Qed.

Lemma slice_blit_snoc d off s p :
  (p <= off)%nat -> (off + length s <= length d)%nat ->
  slice (blit d off s) p (off - p + length s) = slice d p (off - p) ++ s.
Proof.
  intros. rewrite slice_split. f_equal.
  - apply slice_blit_before; lia.
  - replace (p + (off - p))%nat with off by lia. apply slice_blit_same. lia.
Qed.

Lemma drop_slice l off n k : drop k (slice l off n) = slice l (off + k) (n - k).
Proof. unfold slice. by rewrite skipn_firstn_comm, drop_drop. Qed.

Lemma take_slice l off n k :
  (k <= n)%nat -> take k (slice l off n) = slice l off k.
Proof. intros. unfold slice. rewrite take_take. f_equal. lia. Qed.

(** Exchange two positions ([std::swap] of two vector elements). *)
Definition exchange l (i j : nat) : list A :=
  match l !! i, l !! j with
  | Some a, Some b => <[j := a]> (<[i := b]> l)
  | _, _ => l
  end.

Lemma length_exchange l i j : length (exchange l i j) = length l.
Proof. unfold exchange. repeat case_match; by rewrite ?length_insert. Qed.

Lemma exchange_lookup l i j k :
  (i < length l)%nat -> (j < length l)%nat ->
  exchange l i j !! k =
    if decide (k = j) then l !! i else if decide (k = i) then l !! j else l !! k.
Proof.
  intros [a Ha]%lookup_lt_is_Some [b Hb]%lookup_lt_is_Some.
  pose proof (lookup_lt_Some _ _ _ Ha). pose proof (lookup_lt_Some _ _ _ Hb).
  unfold exchange. rewrite Ha, Hb.
  repeat case_decide; subst;
    rewrite ?list_lookup_insert_eq, ?list_lookup_insert_ne by (rewrite ?length_insert; lia);
    rewrite ?list_lookup_insert_eq by lia; congruence.
Qed.

Lemma Permutation_lookup_insert l i a x :
  l !! i = Some a -> a :: <[i := x]> l ≡ₚ x :: l.
Proof.
  intros Hi. pose proof (lookup_lt_Some _ _ _ Hi).
  rewrite insert_take_drop by done.
  rewrite <-(take_drop_middle l i a Hi) at 3. solve_Permutation.
Qed.
Lemma exchange_Permutation l i j : exchange l i j ≡ₚ l.
Proof.
  unfold exchange.
  destruct (l !! i) as [a|] eqn:Ha; [|done].
  destruct (l !! j) as [b|] eqn:Hb; [|done].
  pose proof (lookup_lt_Some _ _ _ Ha).
  assert (Hb' : <[i:=b]> l !! j = Some b).
  { rewrite list_lookup_insert. case_decide; naive_solver. }
  apply (Permutation_cons_inv (a := b)).
  rewrite (Permutation_lookup_insert _ _ _ _ Hb').
  by apply Permutation_lookup_insert.
Qed.
End lists.
