(* ===== verification/Buffer.v ===== *)
(** * Buffer: the growable byte queue (src/base/buffer.h, src/base/buffer.cc)

    A [std::vector<char>] with a read and a write index.  The bytes between
    the indices are the contents; the state is kept as the class keeps it,
    [size_t] arithmetic included, and pointers into the vector are offsets.
    The abstract view is the byte string [contents b]: appending adds at its
    end, retrieving drops from its front. *)

From stdpp Require Import base list numbers strings.
From Stdlib Require Import ZArith Lia.
From S2P Require Import Prelude.

Local Open Scope Z_scope.
Local Open Scope result_scope.

(** ** State and operations *)

Record Buffer : Type := mkBuffer {
  buffer_ : bytes;
  reader_index_ : Z;
  writer_index_ : Z
}.

Definition cheap_prepend : Z := 8.
Definition initial_size_default : Z := 1024.
Definition extrabuf_size : Z := 65535.

Definition new_buffer (initial_size : Z) : Buffer :=
  mkBuffer (replicate (Z.to_nat (u64 (cheap_prepend + initial_size))) nul)
           cheap_prepend cheap_prepend.

Definition vsize (b : Buffer) : Z := Z.of_nat (length (buffer_ b)).

Definition read_able_bytes (b : Buffer) : Z := u64 (writer_index_ b - reader_index_ b).
Definition write_able_bytes (b : Buffer) : Z := u64 (vsize b - writer_index_ b).
Definition prepend_able_bytes (b : Buffer) : Z := reader_index_ b.

Definition peek (b : Buffer) : Z := reader_index_ b.
Definition begin_write (b : Buffer) : Z := writer_index_ b.

(** The [len] bytes from offset [off] on, as a [std::string] built from a
    pointer and a length reads them. *)
Definition read_bytes (b : Buffer) (off len : Z) : result bytes :=
  guard_ OutOfRange (off + len <=? vsize b) ≫= fun _ =>
  Ok (slice (buffer_ b) (Z.to_nat off) (Z.to_nat len)).

(** [std::copy] of [data] to offset [off]. *)
Definition copy_to (b : Buffer) (off : Z) (data : bytes) : result Buffer :=
  guard_ OutOfRange (off + Z.of_nat (length data) <=? vsize b) ≫= fun _ =>
  Ok (mkBuffer (blit (buffer_ b) (Z.to_nat off) data) (reader_index_ b) (writer_index_ b)).

Definition retrieve_all (b : Buffer) : Buffer :=
  mkBuffer (buffer_ b) cheap_prepend cheap_prepend.

Definition retrieve (len : Z) (b : Buffer) : result Buffer :=
  assert! (len <=? read_able_bytes b);
  if len <? read_able_bytes b
  then Ok (mkBuffer (buffer_ b) (u64 (reader_index_ b + len)) (writer_index_ b))
  else Ok (retrieve_all b).

Definition retrieve_unitil (end_ : Z) (b : Buffer) : result Buffer :=
  assert! (peek b <=? end_);
  assert! (end_ <=? begin_write b);
  retrieve (end_ - peek b) b.

Definition retrieve_string (len : Z) (b : Buffer) : result (bytes * Buffer) :=
  assert! (len <=? read_able_bytes b);
  res ← read_bytes b (peek b) len;
  b' ← retrieve len b;
  Ok (res, b').

Definition retrieve_all_string (b : Buffer) : result (bytes * Buffer) :=
  retrieve_string (read_able_bytes b) b.

(** [std::vector::resize]. *)
Definition resize (n : Z) (v : bytes) : result bytes :=
  guard_ LengthError (n <=? max_size) ≫= fun _ =>
  Ok (take (Z.to_nat n) v ++ replicate (Z.to_nat n - length v) nul).

Definition makespace (len : Z) (b : Buffer) : result Buffer :=
  if u64 (write_able_bytes b + prepend_able_bytes b) <? u64 (len + cheap_prepend)
  then
    v ← resize (u64 (writer_index_ b + len)) (buffer_ b);
    Ok (mkBuffer v (reader_index_ b) (writer_index_ b))
  else
    assert! (cheap_prepend <? reader_index_ b);
    let readable := read_able_bytes b in
    data ← read_bytes b (reader_index_ b) (writer_index_ b - reader_index_ b);
    b1 ← copy_to b cheap_prepend data;
    let b2 := mkBuffer (buffer_ b1) cheap_prepend (u64 (cheap_prepend + readable)) in
    assert! (readable =? read_able_bytes b2);
    Ok b2.

Definition ensure (len : Z) (b : Buffer) : result Buffer :=
  if write_able_bytes b <? len then makespace len b else Ok b.

Definition has_written (len : Z) (b : Buffer) : Buffer :=
  mkBuffer (buffer_ b) (reader_index_ b) (u64 (writer_index_ b + len)).

Definition append (data : bytes) (b : Buffer) : result Buffer :=
  let len := Z.of_nat (length data) in
  b1 ← ensure len b;
  b2 ← copy_to b1 (begin_write b1) data;
  Ok (has_written len b2).

Definition prepend (data : bytes) (len : Z) (b : Buffer) : result Buffer :=
  assert! (len <=? prepend_able_bytes b);
  let b1 := mkBuffer (buffer_ b) (u64 (reader_index_ b - len)) (writer_index_ b) in
  guard_ OutOfRange (len <=? Z.of_nat (length data)) ≫= fun _ =>
  copy_to b1 (reader_index_ b1) (take (Z.to_nat len) data).

(** [shrink] swaps the vector with a copy of itself: the elements stay. *)
Definition shrink (b : Buffer) : Buffer :=
  mkBuffer (take (length (buffer_ b)) (buffer_ b)) (reader_index_ b) (writer_index_ b).

Definition swap (lhs rhs : Buffer) : Buffer * Buffer :=
  (mkBuffer (buffer_ rhs) (reader_index_ rhs) (writer_index_ rhs),
   mkBuffer (buffer_ lhs) (reader_index_ lhs) (writer_index_ lhs)).

(** [print] writes every element of the vector, not only the contents. *)
Definition print (b : Buffer) : bytes := buffer_ b ++ [LF].

(** The answer of a system call that moves bytes. *)
Inductive io (A : Type) : Type :=
  | IoErr (errno : Z)
  | IoOk (a : A).
Arguments IoErr {A} errno.
Arguments IoOk {A} a.

(** [read_fd]: the kernel fills the writable part of the vector first and
    [extrabuf] after it; the result is the [ssize_t], the value stored through
    [save_errno] (if any) and the new state. *)
Definition read_fd (readv : io bytes) (b : Buffer) : result (Z * option Z * Buffer) :=
  let write_size := write_able_bytes b in
  match readv with
  | IoErr errno => Ok (-1, Some errno, b)
  | IoOk data =>
      let len := Z.of_nat (length data) in
      b1 ← copy_to b (writer_index_ b) (take (Z.to_nat write_size) data);
      if len <=? write_size
      then Ok (len, None, has_written len b1)
      else
        let b2 := mkBuffer (buffer_ b1) (reader_index_ b1) (vsize b1) in
        b3 ← append (drop (Z.to_nat write_size) data) b2;
        Ok (len, None, b3)
  end.

(** [write_fd]: [::write] takes a prefix of the contents. *)
Definition write_fd (written : io Z) (b : Buffer) : Z * option Z * Buffer :=
  match written with
  | IoErr errno => (-1, Some errno, b)
  | IoOk len =>
      (len, None, mkBuffer (buffer_ b) (u64 (reader_index_ b + len)) (writer_index_ b))
  end.

(** ** Invariant and abstraction *)

Definition wf (b : Buffer) : Prop :=
  0 <= reader_index_ b <= writer_index_ b /\ writer_index_ b <= vsize b /\
  cheap_prepend <= vsize b <= max_size.

Definition contents (b : Buffer) : bytes :=
  slice (buffer_ b) (Z.to_nat (reader_index_ b))
        (Z.to_nat (writer_index_ b - reader_index_ b)).

(** ** Lemmas *)

Ltac unfold_wf :=
  unfold wf, vsize in *; simpl in *; unfold cheap_prepend, max_size in *.

Section lemmas.
Implicit Types (b : Buffer) (d : bytes).

Lemma read_able_wf b : wf b -> read_able_bytes b = writer_index_ b - reader_index_ b.
Proof. unfold read_able_bytes. unfold_wf. intros. apply u64_small. lia. Qed.

Lemma write_able_wf b : wf b -> write_able_bytes b = vsize b - writer_index_ b.
Proof. unfold write_able_bytes. unfold_wf. intros. apply u64_small. lia. Qed.

Lemma length_contents b :
  wf b -> Z.of_nat (length (contents b)) = writer_index_ b - reader_index_ b.
Proof. unfold_wf. intros. unfold contents. rewrite length_slice; lia. Qed.

Lemma read_able_contents b :
  wf b -> read_able_bytes b = Z.of_nat (length (contents b)).
Proof. intros. by rewrite read_able_wf, length_contents. Qed.

Lemma new_buffer_wf n :
  0 <= n <= max_size - 8 -> wf (new_buffer n) /\ contents (new_buffer n) = [].
Proof.
  intros. split; [|done].
  unfold_wf. unfold new_buffer, cheap_prepend; simpl.
  rewrite length_replicate, u64_small; lia.
Qed.

Lemma retrieve_all_wf b : wf b -> wf (retrieve_all b) /\ contents (retrieve_all b) = [].
Proof. intros. split; [|done]. unfold_wf. lia. Qed.

Lemma read_bytes_wf b off len :
  wf b -> 0 <= off -> 0 <= len -> off + len <= vsize b ->
  read_bytes b off len = Ok (slice (buffer_ b) (Z.to_nat off) (Z.to_nat len)).
Proof.
  intros. unfold read_bytes, guard_.
  by destruct (Z.leb_spec (off + len) (vsize b)); [|lia].
Qed.

Lemma copy_to_ok b off d :
  off + Z.of_nat (length d) <= vsize b ->
  copy_to b off d =
    Ok (mkBuffer (blit (buffer_ b) (Z.to_nat off) d) (reader_index_ b) (writer_index_ b)).
Proof.
  intros. unfold copy_to, guard_.
  by destruct (Z.leb_spec (off + Z.of_nat (length d)) (vsize b)); [|lia].
Qed.

(** Retrieving drops from the front; retrieving everything resets both
    indices, which makes no difference to the contents. *)
Lemma retrieve_spec len b :
  wf b -> 0 <= len <= Z.of_nat (length (contents b)) ->
  exists b', retrieve len b = Ok b' /\ wf b' /\
    contents b' = drop (Z.to_nat len) (contents b) /\ buffer_ b' = buffer_ b.
Proof.
  intros Hwf Hlen. pose proof (read_able_contents b Hwf) as Hr.
  pose proof (length_contents b Hwf) as Hc.
  unfold retrieve. rewrite assert_true by lia.
  destruct (Z.ltb_spec len (read_able_bytes b)).
  - eexists. split; [reflexivity|].
    assert (u64 (reader_index_ b + len) = reader_index_ b + len) as ->.
    { apply u64_small. unfold_wf. lia. }
    split; [unfold_wf; lia|]. split; [|done].
    unfold contents; simpl. rewrite drop_slice.
    f_equal; unfold_wf; lia.
  - exists (retrieve_all b). split; [done|].
    destruct (retrieve_all_wf b Hwf) as [? ->]. split; [done|]. split; [|done].
    rewrite drop_ge; [done|lia].
Qed.

Lemma retrieve_assert len b :
  wf b -> Z.of_nat (length (contents b)) < len -> retrieve len b = Fault AssertFailed.
Proof.
  intros Hwf Hlen. unfold retrieve, assert_.
  rewrite (read_able_contents b Hwf).
  by destruct (Z.leb_spec len (Z.of_nat (length (contents b)))); [lia|].
Qed.

Lemma retrieve_string_spec len b :
  wf b -> 0 <= len <= Z.of_nat (length (contents b)) ->
  exists b', retrieve_string len b = Ok (take (Z.to_nat len) (contents b), b') /\
    wf b' /\ contents b' = drop (Z.to_nat len) (contents b) /\ buffer_ b' = buffer_ b.
Proof.
  intros Hwf Hlen. destruct (retrieve_spec len b Hwf Hlen) as (b' & Hret & Hwf' & Hc & Hb).
  exists b'. split; [|done].
  pose proof (length_contents b Hwf) as Hl.
  unfold retrieve_string. rewrite assert_true.
  2: { rewrite read_able_contents by done. lia. }
  unfold peek. rewrite read_bytes_wf; [|done|unfold_wf; lia..].
  rewrite bind_ok, Hret, bind_ok. unfold contents.
  by rewrite take_slice by lia.
Qed.

Lemma retrieve_all_string_spec b :
  wf b -> exists b', retrieve_all_string b = Ok (contents b, b') /\
    wf b' /\ contents b' = [] /\ buffer_ b' = buffer_ b.
Proof.
  intros Hwf. unfold retrieve_all_string. rewrite read_able_contents by done.
  edestruct (retrieve_string_spec (Z.of_nat (length (contents b))) b)
    as (b' & -> & ? & Hc & ?); [done|lia|].
  exists b'. rewrite Nat2Z.id in *. by rewrite firstn_all, drop_all in *.
Qed.

Lemma retrieve_unitil_spec end_ b :
  wf b -> peek b <= end_ <= begin_write b ->
  exists b', retrieve_unitil end_ b = Ok b' /\ wf b' /\
    contents b' = drop (Z.to_nat (end_ - peek b)) (contents b) /\ buffer_ b' = buffer_ b.
Proof.
  intros Hwf Hend. pose proof (length_contents b Hwf).
  unfold retrieve_unitil. rewrite !assert_true by lia.
  apply retrieve_spec; [done|]. unfold peek, begin_write in *. lia.
Qed.

(** The slow path of [ensure]: the vector grows, or the contents move back
    to offset 8.  The assertion about the read index never fails. *)
Lemma makespace_grow len b :
  wf b -> 0 <= len -> writer_index_ b + len <= max_size ->
  write_able_bytes b < len ->
  write_able_bytes b + prepend_able_bytes b < len + cheap_prepend ->
  exists b', makespace len b = Ok b' /\ wf b' /\ contents b' = contents b /\
    writer_index_ b' + len = vsize b'.
Proof.
  intros Hwf Hl Hm Hw Hlt. rewrite write_able_wf in * by done.
  unfold makespace, prepend_able_bytes in *. rewrite write_able_wf by done.
  rewrite !u64_small by (unfold_wf; lia).
  destruct (Z.ltb_spec (vsize b - writer_index_ b + reader_index_ b) (len + cheap_prepend)); [|lia].
  unfold resize, guard_.
  destruct (Z.leb_spec (writer_index_ b + len) max_size); [|lia]. simpl.
  eexists. split; [reflexivity|].
  set (v := take _ _ ++ _).
  assert (Z.of_nat (length v) = writer_index_ b + len) as Hv.
  { unfold v. rewrite length_app, length_take, length_replicate. unfold_wf; lia. }
  split; [unfold_wf; lia|]. split.
  - unfold contents; simpl. unfold v.
    rewrite (take_ge (buffer_ b)) by (unfold_wf; lia).
    apply slice_app_l. unfold_wf; lia.
  - unfold vsize; simpl. lia.
Qed.

Lemma makespace_compact len b :
  wf b -> 0 <= len -> len + cheap_prepend < 2 ^ 64 -> write_able_bytes b < len ->
  len + cheap_prepend <= write_able_bytes b + prepend_able_bytes b ->
  exists b', makespace len b = Ok b' /\ wf b' /\ contents b' = contents b /\
    writer_index_ b' + len <= vsize b' /\ vsize b' = vsize b.
Proof.
  intros Hwf Hl Hm Hw Hlt. rewrite write_able_wf in * by done.
  unfold makespace, prepend_able_bytes in *. rewrite write_able_wf by done.
  rewrite !u64_small by (unfold_wf; lia).
  destruct (Z.ltb_spec (vsize b - writer_index_ b + reader_index_ b) (len + cheap_prepend)); [lia|].
  rewrite assert_true by (unfold_wf; lia).
  rewrite read_bytes_wf; [|done|unfold_wf; lia..]. rewrite bind_ok.
  fold (contents b). pose proof (length_contents b Hwf) as Hc.
  rewrite copy_to_ok by (unfold_wf; lia). rewrite bind_ok; simpl.
  rewrite read_able_wf by done.
  assert (u64 (cheap_prepend + (writer_index_ b - reader_index_ b)) =
          cheap_prepend + (writer_index_ b - reader_index_ b)) as ->.
  { apply u64_small. unfold_wf; lia. }
  rewrite assert_true.
  2: { unfold read_able_bytes; simpl. rewrite u64_small; unfold_wf; lia. }
  eexists. split; [reflexivity|].
  assert (length (blit (buffer_ b) (Z.to_nat cheap_prepend) (contents b)) = length (buffer_ b)).
  { apply length_blit. unfold_wf; lia. }
  split; [unfold_wf; lia|]. split; [|unfold_wf; lia].
  unfold contents at 1; simpl.
  replace (Z.to_nat (cheap_prepend + (writer_index_ b - reader_index_ b) - cheap_prepend))
    with (length (contents b)) by lia.
  apply slice_blit_same. unfold_wf; lia.
Qed.

Lemma ensure_spec len b :
  wf b -> 0 <= len -> writer_index_ b + len <= max_size ->
  exists b', ensure len b = Ok b' /\ wf b' /\ contents b' = contents b /\
    writer_index_ b' + len <= vsize b' /\ vsize b' <= Z.max (vsize b) (vsize b + len).
Proof.
  intros Hwf Hl Hm. unfold ensure.
  destruct (Z.ltb_spec (write_able_bytes b) len).
  - destruct (Z.lt_ge_cases (write_able_bytes b + prepend_able_bytes b) (len + cheap_prepend)).
    + destruct (makespace_grow len b) as (b' & H1 & H2 & H3 & H4); try done.
      exists b'. do 3 (split; [done|]). split; [lia|]. revert H1.
      unfold makespace, prepend_able_bytes in *. rewrite write_able_wf in * by done.
      rewrite !u64_small by (unfold_wf; lia).
      destruct (Z.ltb_spec (vsize b - writer_index_ b + reader_index_ b) (len + cheap_prepend)); [|lia].
      unfold resize, guard_.
      destruct (Z.leb_spec (writer_index_ b + len) max_size); [|lia]. simpl.
      intros [= <-]. unfold_wf. lia.
    + destruct (makespace_compact len b) as (b' & H1 & H2 & H3 & H4 & H5); try done.
      { unfold_wf; lia. }
      exists b'. do 3 (split; [done|]). lia.
  - exists b. rewrite write_able_wf in * by done. repeat (split; try done; try lia).
Qed.

Lemma append_spec d b :
  wf b -> writer_index_ b + Z.of_nat (length d) <= max_size ->
  exists b', append d b = Ok b' /\ wf b' /\ contents b' = contents b ++ d /\
    vsize b' <= vsize b + Z.of_nat (length d).
Proof.
  intros Hwf Hm. unfold append.
  destruct (ensure_spec (Z.of_nat (length d)) b) as (b1 & -> & Hwf1 & Hc1 & Hs1 & Hs2); [done|lia..|].
  rewrite bind_ok. unfold begin_write. rewrite copy_to_ok by lia. rewrite bind_ok.
  eexists. split; [reflexivity|].
  assert (length (blit (buffer_ b1) (Z.to_nat (writer_index_ b1)) d) = length (buffer_ b1)).
  { apply length_blit. unfold_wf; lia. }
  assert (u64 (writer_index_ b1 + Z.of_nat (length d)) = writer_index_ b1 + Z.of_nat (length d)) as Hu.
  { apply u64_small. unfold_wf; lia. }
  unfold has_written; simpl. rewrite Hu. split; [unfold_wf; lia|]. split; [|unfold_wf; lia].
  unfold contents at 1; simpl.
  replace (Z.to_nat (writer_index_ b1 + Z.of_nat (length d) - reader_index_ b1))
    with (Z.to_nat (writer_index_ b1) - Z.to_nat (reader_index_ b1) + length d)%nat
    by (unfold_wf; lia).
  rewrite slice_blit_snoc by (unfold_wf; lia).
  rewrite <-Hc1. unfold contents. do 2 f_equal. unfold_wf; lia.
Qed.

Lemma prepend_spec d len b :
  wf b -> 0 <= len <= reader_index_ b -> len <= Z.of_nat (length d) ->
  exists b', prepend d len b = Ok b' /\ wf b' /\
    contents b' = take (Z.to_nat len) d ++ contents b.
Proof.
  intros Hwf Hl Hd. unfold prepend, prepend_able_bytes. rewrite assert_true by lia. simpl.
  assert (u64 (reader_index_ b - len) = reader_index_ b - len) as ->.
  { apply u64_small. unfold_wf; lia. }
  unfold guard_. destruct (Z.leb_spec len (Z.of_nat (length d))); [|lia]. simpl.
  assert (Hld : length (take (Z.to_nat len) d) = Z.to_nat len) by (rewrite length_take; lia).
  rewrite copy_to_ok by (rewrite Hld; unfold_wf; lia). simpl.
  eexists. split; [reflexivity|].
  assert (length (blit (buffer_ b) (Z.to_nat (reader_index_ b - len)) (take (Z.to_nat len) d))
          = length (buffer_ b)) by (apply length_blit; unfold_wf; lia).
  split; [unfold_wf; lia|].
  unfold contents; simpl.
  replace (Z.to_nat (writer_index_ b - (reader_index_ b - len)))
    with (length (take (Z.to_nat len) d) + Z.to_nat (writer_index_ b - reader_index_ b))%nat
    by (unfold_wf; lia).
  rewrite slice_split. f_equal; [apply slice_blit_same; unfold_wf; lia|].
  unfold slice, blit. rewrite Hld.
  replace (Z.to_nat (reader_index_ b - len) + Z.to_nat len)%nat
    with (Z.to_nat (reader_index_ b)) by lia.
  f_equal. rewrite app_assoc, drop_app_length'; [done|].
  rewrite length_app, length_take, Hld. unfold_wf; lia.
Qed.

Lemma read_fd_spec d b :
  wf b -> vsize b + Z.of_nat (length d) <= max_size ->
  exists b', read_fd (IoOk d) b = Ok (Z.of_nat (length d), None, b') /\ wf b' /\
    contents b' = contents b ++ d /\ vsize b' <= vsize b + Z.of_nat (length d).
Proof.
  intros Hwf Hm. unfold read_fd. rewrite write_able_wf by done.
  set (ws := vsize b - writer_index_ b).
  set (d1 := take (Z.to_nat ws) d). set (d2 := drop (Z.to_nat ws) d).
  assert (Hd : d = d1 ++ d2) by (symmetry; apply take_drop).
  assert (Hl1 : length d1 = Nat.min (Z.to_nat ws) (length d)) by apply length_take.
  assert (Hl2 : length d2 = (length d - Z.to_nat ws)%nat) by apply length_drop.
  rewrite copy_to_ok by (unfold ws in *; unfold_wf; lia). rewrite bind_ok.
  set (b1 := mkBuffer (blit (buffer_ b) (Z.to_nat (writer_index_ b)) d1) _ _).
  assert (Hlen : length (buffer_ b1) = length (buffer_ b)).
  { apply length_blit. unfold ws in *; unfold_wf; lia. }
  assert (Hcopy : forall w, w = writer_index_ b + Z.of_nat (length d1) ->
    contents (mkBuffer (buffer_ b1) (reader_index_ b1) w) = contents b ++ d1).
  { intros w ->. unfold contents; simpl.
    replace (Z.to_nat (writer_index_ b + Z.of_nat (length d1) - reader_index_ b))
      with (Z.to_nat (writer_index_ b) - Z.to_nat (reader_index_ b) + length d1)%nat
      by (unfold_wf; lia).
    rewrite slice_blit_snoc by (unfold ws in *; unfold_wf; lia).
    do 2 f_equal. unfold_wf; lia. }
  destruct (Z.leb_spec (Z.of_nat (length d)) ws).
  - eexists. split; [reflexivity|]. unfold has_written. simpl.
    rewrite u64_small by (unfold ws in *; unfold_wf; lia).
    split; [unfold ws in *; unfold_wf; lia|]. split; [|unfold_wf; lia].
    etransitivity; [apply Hcopy; lia|].
    rewrite Hd. destruct d2; [by rewrite app_nil_r|simpl in *; lia].
  - set (b2 := mkBuffer (buffer_ b1) (reader_index_ b1) (vsize b1)).
    assert (Hwf2 : wf b2) by (unfold ws in *; unfold_wf; lia).
    destruct (append_spec d2 b2) as (b3 & -> & Hwf3 & Hc3 & Hs3); [done|unfold_wf; lia|].
    rewrite bind_ok. eexists. split; [reflexivity|]. split; [done|].
    unfold b2 in *. split; [|unfold_wf; lia].
    rewrite Hc3, Hcopy by (unfold ws in *; unfold_wf; lia).
    by rewrite <-app_assoc, <-Hd.
Qed.

Lemma write_fd_spec n b :
  wf b -> 0 <= n <= Z.of_nat (length (contents b)) ->
  exists b', write_fd (IoOk n) b = (n, None, b') /\ wf b' /\
    contents b' = drop (Z.to_nat n) (contents b) /\ buffer_ b' = buffer_ b.
Proof.
  intros Hwf Hn. pose proof (length_contents b Hwf). unfold write_fd.
  rewrite u64_small by (unfold_wf; lia).
  eexists. split; [reflexivity|]. split; [unfold_wf; lia|]. split; [|done].
  unfold contents; simpl. rewrite drop_slice. f_equal; unfold_wf; lia.
Qed.
End lemmas.

(** ** The byte-queue specification *)

(** One call on the buffer, with the arguments it is given. *)
Inductive buf_op : Type :=
  | OpAppend (d : bytes)
  | OpEnsure (len : Z)
  | OpRetrieve (len : Z)
  | OpRetrieveAll
  | OpRetrieveString (len : Z)
  | OpShrink
  | OpReadFd (answer : io bytes)
  | OpWriteFd (answer : io Z).

Definition silent (m : result Buffer) : result (bytes * Buffer) :=
  b ← m; Ok ([], b).

(** The call on the concrete buffer; the output is the string returned. *)
Definition buf_step (b : Buffer) (op : buf_op) : result (bytes * Buffer) :=
  match op with
  | OpAppend d => silent (append d b)
  | OpEnsure len => silent (ensure len b)
  | OpRetrieve len => silent (retrieve len b)
  | OpRetrieveAll => Ok ([], retrieve_all b)
  | OpRetrieveString len => retrieve_string len b
  | OpShrink => Ok ([], shrink b)
  | OpReadFd answer => '(_, _, b') ← read_fd answer b; Ok ([], b')
  | OpWriteFd answer => let '(_, _, b') := write_fd answer b in Ok ([], b')
  end.

(** The call on a queue of bytes; [None] where the code asserts. *)
Definition queue_step (q : bytes) (op : buf_op) : option (bytes * bytes) :=
  match op with
  | OpAppend d | OpReadFd (IoOk d) => Some ([], q ++ d)
  | OpRetrieve len =>
      if len <=? Z.of_nat (length q) then Some ([], drop (Z.to_nat len) q) else None
  | OpRetrieveString len =>
      if len <=? Z.of_nat (length q)
      then Some (take (Z.to_nat len) q, drop (Z.to_nat len) q) else None
  | OpRetrieveAll => Some ([], [])
  | OpWriteFd (IoOk n) => Some ([], drop (Z.to_nat n) q)
  | OpEnsure _ | OpShrink | OpReadFd (IoErr _) | OpWriteFd (IoErr _) => Some ([], q)
  end.

(** What callers and the kernel guarantee: lengths are not negative and
    [::write] accepts at most what it was offered. *)
Definition op_ok (q : bytes) (op : buf_op) : Prop :=
  match op with
  | OpEnsure len | OpRetrieve len | OpRetrieveString len => 0 <= len
  | OpWriteFd (IoOk n) => 0 <= n <= Z.of_nat (length q)
  | _ => True
  end.

(** The room a call may need. *)
Definition demand (op : buf_op) : Z :=
  match op with
  | OpAppend d | OpReadFd (IoOk d) => Z.of_nat (length d)
  | OpEnsure len => len
  | _ => 0
  end.

Fixpoint buf_run (b : Buffer) (ops : list buf_op) : result (list bytes * Buffer) :=
  match ops with
  | [] => Ok ([], b)
  | op :: ops =>
      '(o, b1) ← buf_step b op;
      '(os, b2) ← buf_run b1 ops;
      Ok (o :: os, b2)
  end.

Fixpoint queue_run (q : bytes) (ops : list buf_op) : option (list bytes * bytes) :=
  match ops with
  | [] => Some ([], q)
  | op :: ops =>
      '(o, q1) ← queue_step q op;
      '(os, q2) ← queue_run q1 ops;
      Some (o :: os, q2)
  end.

Fixpoint ops_ok (q : bytes) (ops : list buf_op) : Prop :=
  match ops with
  | [] => True
  | op :: ops => op_ok q op /\
      match queue_step q op with Some (_, q1) => ops_ok q1 ops | None => True end
  end.

Definition total_demand (ops : list buf_op) : Z :=
  foldr (fun op n => demand op + n) 0 ops.

Lemma total_demand_nonneg ops :
  Forall (fun op => 0 <= demand op) ops -> 0 <= total_demand ops.
Proof. induction 1; simpl; lia. Qed.

Lemma buf_step_refines b op :
  wf b -> op_ok (contents b) op -> 0 <= demand op -> vsize b + demand op <= max_size ->
  match queue_step (contents b) op with
  | Some (o, q) => exists b', buf_step b op = Ok (o, b') /\ wf b' /\
      contents b' = q /\ vsize b' <= vsize b + demand op
  | None => buf_step b op = Fault AssertFailed
  end.
Proof.
  intros Hwf Hok Hd Hm. destruct op as [d|len|len| |len| |[e|d]|[e|n]];
    cbn [buf_step queue_step demand op_ok] in *; unfold silent.
  - destruct (append_spec d b) as (b' & -> & ?); [done|unfold_wf; lia|].
    exists b'. naive_solver.
  - destruct (ensure_spec len b) as (b' & -> & ? & ? & ? & ?); [done|done|unfold_wf; lia|].
    exists b'. repeat (split; try done). lia.
  - destruct (Z.leb_spec len (Z.of_nat (length (contents b)))).
    + destruct (retrieve_spec len b) as (b' & -> & ? & ? & Hb); [done|lia|].
      exists b'. repeat (split; try done). unfold vsize. rewrite Hb. lia.
    + by rewrite retrieve_assert.
  - exists (retrieve_all b). destruct (retrieve_all_wf b Hwf).
    repeat (split; try done). unfold vsize; simpl; lia.
  - destruct (Z.leb_spec len (Z.of_nat (length (contents b)))).
    + destruct (retrieve_string_spec len b) as (b' & -> & ? & ? & Hb); [done|lia|].
      exists b'. repeat (split; try done). unfold vsize. rewrite Hb. lia.
    + unfold retrieve_string. rewrite read_able_contents by done.
      by destruct (Z.leb_spec len (Z.of_nat (length (contents b)))); [lia|].
  - exists (shrink b). split; [done|]. unfold shrink. rewrite firstn_all.
    destruct b; simpl. split; [done|]. split; [done|]. unfold vsize; simpl; lia.
  - exists b. repeat (split; try done). lia.
  - destruct (read_fd_spec d b) as (b' & -> & ? & ? & ?); [done|done|].
    exists b'. naive_solver.
  - exists b. repeat (split; try done). lia.
  - destruct (write_fd_spec n b) as (b' & [= <-] & ? & ? & Hb); [done|done|].
    eexists. split; [reflexivity|]. repeat (split; try done). unfold vsize; simpl; lia.
Qed.

(** C14: The buffer implements a queue of bytes.  Any sequence of calls whose
    demand for room stays under the largest vector returns what the queue
    returns and leaves the queue's bytes, [readv] and [write] included; where
    a call asks for more bytes than the queue holds, the run stops in the
    code's assertion.  No call reaches memory outside the vector and no
    internal assertion fails. *)
Theorem buffer_refines_queue (ops : list buf_op) (b : Buffer) :
  wf b -> ops_ok (contents b) ops -> Forall (fun op => 0 <= demand op) ops ->
  vsize b + total_demand ops <= max_size ->
  match queue_run (contents b) ops with
  | Some (outs, q) => exists b', buf_run b ops = Ok (outs, b') /\ wf b' /\ contents b' = q
  | None => buf_run b ops = Fault AssertFailed
  end.
Proof.
  revert b. induction ops as [|op ops IH]; intros b Hwf Hok Hdem Hm; simpl in *.
  { by exists b. }
  destruct Hok as [Hop Hrest]. apply Forall_cons in Hdem as [Hd Hdem].
  pose proof (total_demand_nonneg _ Hdem).
  pose proof (buf_step_refines b op Hwf Hop Hd) as Hs.
  destruct (queue_step (contents b) op) as [[o q1]|]; simpl; [|by rewrite Hs by lia].
  destruct Hs as (b1 & -> & Hwf1 & Hc1 & Hv1); [lia|]. simpl. subst q1.
  specialize (IH b1 Hwf1 Hrest Hdem).
  destruct (queue_run (contents b1) ops) as [[os q2]|]; simpl; [|by rewrite IH by lia].
  destruct IH as (b2 & -> & Hwf2 & Hc2); [lia|]. simpl. by exists b2.
Qed.

Definition demo_ops : list buf_op :=
  [OpAppend (lit "GET /"); OpRetrieve 4; OpReadFd (IoOk (lit "index")); OpWriteFd (IoOk 1);
   OpRetrieveString 3].

(** The run returns "ind" at the end. *)
Definition demo_outs : list bytes := [[]; []; []; []; lit "ind"].

Theorem buffer_refines_queue_witness :
  exists b', buf_run (new_buffer 16) demo_ops = Ok (demo_outs, b') /\
    wf b' /\ contents b' = lit "ex".
Proof.
  apply (buffer_refines_queue demo_ops (new_buffer 16)).
  - apply new_buffer_wf. unfold max_size. lia.
  - vm_compute. intuition discriminate.
  - unfold demo_ops. repeat constructor; simpl; lia.
  - vm_compute. discriminate.
Defined.

(** [append] has to grow the vector: the free room before and after the
    contents, less the reserved prefix, is too small. *)
Definition must_grow (len : Z) (b : Buffer) : bool :=
  (write_able_bytes b <? len) &&
  (write_able_bytes b + prepend_able_bytes b <? len + cheap_prepend).

Lemma append_compact d b :
  wf b -> Z.of_nat (length d) <= max_size -> must_grow (Z.of_nat (length d)) b = false ->
  exists b1, ensure (Z.of_nat (length d)) b = Ok b1 /\ wf b1 /\ contents b1 = contents b /\
    writer_index_ b1 + Z.of_nat (length d) <= max_size /\
    append d b1 = append d b.
Proof.
  intros Hwf Hl Hg. unfold must_grow in Hg. unfold append, ensure.
  destruct (Z.ltb_spec (write_able_bytes b) (Z.of_nat (length d))) as [Hw|Hw]; simpl in Hg; zbool.
  - destruct (makespace_compact (Z.of_nat (length d)) b) as (b1 & -> & Hwf1 & Hc1 & Hs1 & Hv1);
      [done|lia|unfold max_size, cheap_prepend in *; lia|done|done|].
    exists b1. do 3 (split; [done|]). rewrite write_able_wf by done.
    split; [unfold_wf; lia|].
    by destruct (Z.ltb_spec (vsize b1 - writer_index_ b1) (Z.of_nat (length d))); [lia|].
  - exists b. rewrite write_able_wf in * by done. do 3 (split; [done|]).
    split; [unfold_wf; lia|].
    by destruct (Z.ltb_spec (vsize b - writer_index_ b) (Z.of_nat (length d))); [lia|].
Qed.

Lemma append_cases (d : bytes) (b : Buffer) :
  wf b -> Z.of_nat (length d) <= max_size ->
  if must_grow (Z.of_nat (length d)) b && (max_size <? writer_index_ b + Z.of_nat (length d))
  then append d b = Fault LengthError
  else exists b', append d b = Ok b' /\ wf b' /\ contents b' = contents b ++ d.
Proof.
  intros Hwf Hl. destruct (must_grow _ b) eqn:Hg; simpl.
  - destruct (Z.ltb_spec max_size (writer_index_ b + Z.of_nat (length d))) as [Hm|Hm].
    + unfold must_grow in Hg. apply andb_prop in Hg as [Hw Hg]. zbool.
      unfold append, ensure, makespace, prepend_able_bytes in *.
      rewrite write_able_wf in * by done.
      destruct (Z.ltb_spec (vsize b - writer_index_ b) (Z.of_nat (length d))); [|lia].
      rewrite !u64_small by (unfold_wf; lia).
      destruct (Z.ltb_spec (vsize b - writer_index_ b + reader_index_ b)
                  (Z.of_nat (length d) + cheap_prepend)); [|lia].
      unfold resize, guard_.
      by destruct (Z.leb_spec (writer_index_ b + Z.of_nat (length d)) max_size); [lia|].
    + destruct (append_spec d b) as (b' & ? & ? & ? & _); [done..|]. by exists b'.
  - destruct (append_compact d b) as (b1 & _ & Hwf1 & Hc1 & Hm1 & <-); [done..|].
    destruct (append_spec d b1) as (b' & ? & ? & Hc & _); [done..|].
    exists b'. by rewrite <-Hc1.
Qed.

Lemma append_ok_inv d b b' :
  wf b -> Z.of_nat (length d) <= max_size -> append d b = Ok b' ->
  wf b' /\ contents b' = contents b ++ d.
Proof.
  intros Hwf Hl Ha. pose proof (append_cases d b Hwf Hl) as Hc.
  destruct (_ && _); [congruence|]. destruct Hc as (b1 & Hb1 & ? & ?).
  rewrite Hb1 in Ha. by simplify_eq.
Qed.

Lemma retrieve_ok_inv len b b' :
  wf b -> 0 <= len -> retrieve len b = Ok b' ->
  wf b' /\ contents b' = drop (Z.to_nat len) (contents b) /\ len <= Z.of_nat (length (contents b)).
Proof.
  intros Hwf Hl Hr. destruct (Z.leb_spec len (Z.of_nat (length (contents b)))) as [Hle|Hgt].
  - destruct (retrieve_spec len b Hwf) as (b1 & Hb1 & ? & ? & _); [lia|].
    rewrite Hb1 in Hr. by simplify_eq.
  - by rewrite (retrieve_assert len b Hwf Hgt) in Hr.
Qed.

(** Every outcome of [append].  It fails only with [std::length_error],
    exactly when the free room cannot hold the data and the vector would pass
    its largest size; otherwise it succeeds and the data is at the end of the
    contents.  In particular the assertion in [makespace] holds on every call. *)
Theorem append_outcome (d : bytes) (b : Buffer) :
  wf b -> Z.of_nat (length d) <= max_size ->
  if must_grow (Z.of_nat (length d)) b && (max_size <? writer_index_ b + Z.of_nat (length d))
  then append d b = Fault LengthError
  else exists b', append d b = Ok b' /\ wf b' /\ contents b' = contents b ++ d.
Proof. apply append_cases. Qed.

Theorem append_outcome_witness :
  exists b', append (lit "0123456789abcdef") (new_buffer 4) = Ok b' /\ wf b' /\
    contents b' = lit "0123456789abcdef".
Proof.
  apply (append_outcome (lit "0123456789abcdef") (new_buffer 4)).
  - apply new_buffer_wf. unfold max_size. lia.
  - vm_compute. discriminate.
Defined.

(** [prepend] on every branch: with no more bytes than the room before
    the contents (and no more than the view holds) they become the front of
    the contents; asking for more room fails the assertion, and reading past
    the view is out of range. *)
Theorem prepend_outcome (d : bytes) (len : Z) (b : Buffer) :
  wf b -> 0 <= len ->
  if prepend_able_bytes b <? len then prepend d len b = Fault AssertFailed
  else if Z.of_nat (length d) <? len then prepend d len b = Fault OutOfRange
  else exists b', prepend d len b = Ok b' /\ wf b' /\
         contents b' = take (Z.to_nat len) d ++ contents b.
Proof.
  intros Hwf Hl. destruct (Z.ltb_spec (prepend_able_bytes b) len) as [H|H].
  { unfold prepend, assert_. by destruct (Z.leb_spec len (prepend_able_bytes b)); [lia|]. }
  destruct (Z.ltb_spec (Z.of_nat (length d)) len) as [H'|H'].
  - unfold prepend. rewrite assert_true by lia. unfold guard_.
    by destruct (Z.leb_spec len (Z.of_nat (length d))); [lia|].
  - by apply prepend_spec.
Qed.

Theorem prepend_outcome_witness :
  exists b', prepend (lit "xx") 2 (new_buffer 16) = Ok b' /\ wf b' /\ contents b' = lit "xx".
Proof.
  destruct (prepend_outcome (lit "xx") 2 (new_buffer 16)) as (b' & ? & ? & ?);
    [apply new_buffer_wf; unfold max_size; lia|lia|].
  by exists b'.
Defined.
