(* ===== verification/TimerNode.v ===== *)
(** * TimerNode: one timer (src/base/timernode.h)

    A node carries its sequence number, its expiry on the steady clock in
    nanoseconds, the repeat interval, the repeat flag and the callback.
    Intervals arrive as C++ [float]s: they are IEEE 754 binary32 numbers here
    ([SpecFloat] with 24 bits of precision), so the product with 1000000 and
    the truncations to [int64_t] and [int] are the ones the code computes. *)

From stdpp Require Import base list numbers.
From Stdlib Require Import ZArith Lia SpecFloat.
From S2P Require Import Prelude.

Local Open Scope Z_scope.

(** ** binary32 *)

Abbreviation f32 := spec_float (only parsing).

Definition f32_mul (x y : f32) : f32 := SFmul 24 128 x y.
Definition f32_of_Z (z : Z) : f32 := binary_normalize 24 128 z 0 false.
Definition f32_positive (x : f32) : bool := SFltb (S754_zero false) x.

(** Truncation towards zero; infinities and NaN have no integer value. *)
Definition f32_trunc (x : f32) : option Z :=
  match x with
  | S754_zero _ => Some 0
  | S754_finite s m e =>
      let a := if 0 <=? e then Z.shiftl (Z.pos m) e else Z.shiftr (Z.pos m) (- e) in
      Some (if s then - a else a)
  | _ => None
  end.

Definition in_s64 (z : Z) : bool := (- 2 ^ 63 <=? z) && (z <? 2 ^ 63).
Definition in_s32 (z : Z) : bool := (- 2 ^ 31 <=? z) && (z <? 2 ^ 31).

(** A conversion whose result the integer type cannot hold is undefined. *)
Definition f32_to_int (fits : Z -> bool) (x : f32) : result Z :=
  z ← of_option OutOfRange (f32_trunc x);
  guard_ OutOfRange (fits z) ≫= fun _ => Ok z.

(** ** The node *)

(** A callback is known by its number; the timer queue interprets it. *)
Abbreviation TimerOutCallBack := nat (only parsing).
Abbreviation TimerStamp := Z (only parsing).
Abbreviation TimerId := Z (only parsing).

Record TimerNode : Type := mkTimerNode {
  node_seq_ : Z;
  interval_ : Z;
  repeat_ : bool;
  timer_ : TimerStamp;
  cb_ : TimerOutCallBack
}.

#[export] Instance TimerNode_eq_dec : EqDecision TimerNode.
Proof. solve_decision. Defined.

Definition kmicrosecond : Z := 1000 * 1000.

(** Microseconds of an interval in seconds. *)
Definition tarns_mirco (interval : f32) : result Z :=
  f32_to_int in_s64 (f32_mul interval (f32_of_Z kmicrosecond)).

(** [time_point + microseconds]: the sum is in nanoseconds, and leaving the
    64-bit range is undefined. *)
Definition stamp_add (t : TimerStamp) (us : Z) : result TimerStamp :=
  guard_ OutOfRange (in_s64 (us * 1000) && in_s64 (t + us * 1000)) ≫= fun _ =>
  Ok (t + us * 1000).

(** The constructor: the [float] interval is stored in an [int]. *)
Definition make_node (node_seq : Z) (interval : f32) (timer : TimerStamp)
    (cb : TimerOutCallBack) (repeat : bool) : result TimerNode :=
  secs ← f32_to_int in_s32 interval;
  Ok (mkTimerNode node_seq secs repeat timer cb).

Definition get_node_seq (n : TimerNode) : Z := node_seq_ n.
Definition get_timer (n : TimerNode) : TimerStamp := timer_ n.
Definition get_interval (n : TimerNode) : f32 := f32_of_Z (interval_ n).
Definition get_repeat_ (n : TimerNode) : bool := repeat_ n.

Definition set_timer_stamp (t : TimerStamp) (n : TimerNode) : TimerNode :=
  mkTimerNode (node_seq_ n) (interval_ n) (repeat_ n) t (cb_ n).
Definition set_repeat (r : bool) (n : TimerNode) : TimerNode :=
  mkTimerNode (node_seq_ n) (interval_ n) r (timer_ n) (cb_ n).
Definition set_call_back (cb : TimerOutCallBack) (n : TimerNode) : TimerNode :=
  mkTimerNode (node_seq_ n) (interval_ n) (repeat_ n) (timer_ n) cb.

Definition add (interval : f32) (n : TimerNode) : result TimerNode :=
  us ← tarns_mirco interval;
  t ← stamp_add (timer_ n) us;
  Ok (set_timer_stamp t n).

(** [operator<] and [operator<=] compare expiries only. *)
Definition node_ltb (a b : TimerNode) : bool := timer_ a <? timer_ b.
Definition node_leb (a b : TimerNode) : bool := timer_ a <=? timer_ b.

(** ** Intervals *)

Definition whole_seconds : list Z := map Z.of_nat (seq 0 1074).

Lemma tarns_mirco_whole_list :
  forallb (fun k => bool_decide (tarns_mirco (f32_of_Z k) = Ok (k * kmicrosecond)))
          whole_seconds = true.
Proof. vm_compute. reflexivity. Qed.

Lemma whole_seconds_elem k : 0 <= k <= 1073 -> k ∈ whole_seconds.
Proof.
  intros. unfold whole_seconds. apply list_elem_of_fmap. exists (Z.to_nat k).
  split; [lia|]. apply elem_of_seq. lia.
Qed.

(** A whole number of seconds up to 1073 converts to exactly that many
    microseconds: the [float] product does not round. *)
Theorem tarns_mirco_whole (k : Z) :
  0 <= k <= 1073 -> tarns_mirco (f32_of_Z k) = Ok (k * kmicrosecond).
Proof.
  intros Hk%whole_seconds_elem. pose proof tarns_mirco_whole_list as Hall.
  rewrite forallb_forall in Hall. apply list_elem_of_In in Hk.
  by apply Hall, bool_decide_eq_true in Hk.
Qed.

(** A fractional interval loses its fraction in the node: half a second is
    scheduled correctly the first time and repeats every zero seconds. *)
Example half_second_interval :
  let half := S754_finite false 8388608 (-24) in
  tarns_mirco half = Ok 500000 /\
  make_node 1 half 0 0 true = Ok (mkTimerNode 1 0 true 0 0%nat).
Proof. split; reflexivity. Qed.
