(* ===== verification/FourHeap.v ===== *)
(** * FourHeap: the timer heap (src/base/four_heap.h, src/base/four_heap.cc)

    A vector of nodes and a hash map from sequence numbers to positions.  The
    arithmetic is the code's: [pos << 2 + 1] is [pos << 3], [shif_up_]
    recomputes the parent of the position it was called with, positions pass
    through [int], and [index_\[id\]] inserts 0 for a missing key.

    The abstract view is the finite map [nodes h] from sequence numbers to
    nodes. *)

From stdpp Require Import base list numbers gmap sorting.
From Stdlib Require Import ZArith Lia SpecFloat.
From S2P Require Import Prelude TimerNode.

Local Open Scope Z_scope.
Local Open Scope result_scope.

(** ** State and operations *)

Record FourHeap : Type := mkFourHeap {
  heap_ : list TimerNode;
  index_ : gmap Z Z
}.

Definition empty_heap : FourHeap := mkFourHeap [] ∅.

Definition clear (h : FourHeap) : FourHeap := empty_heap.

Definition hsize (h : FourHeap) : Z := Z.of_nat (length (heap_ h)).

Definition heap_empty (h : FourHeap) : bool := hsize h =? 0.

(** [heap_\[k\]] for an [int] or [size_t] position. *)
Definition heap_at (h : FourHeap) (k : Z) : result TimerNode :=
  guard_ OutOfRange (0 <=? k) ≫= fun _ =>
  of_option OutOfRange (heap_ h !! Z.to_nat k).

(** [index_\[id\]]: the value, and the map with the key present. *)
Definition index_at (h : FourHeap) (id : Z) : Z * FourHeap :=
  match index_ h !! id with
  | Some p => (p, h)
  | None => (0, mkFourHeap (heap_ h) (<[id := 0]> (index_ h)))
  end.

(** [heap_\[k\] = x]. *)
Definition heap_set (h : FourHeap) (k : Z) (x : TimerNode) : result FourHeap :=
  _ ← heap_at h k;
  Ok (mkFourHeap (<[Z.to_nat k := x]> (heap_ h)) (index_ h)).

Definition swap_ (h : FourHeap) (l_pos r_pos : Z) : result FourHeap :=
  _ ← heap_at h l_pos;
  _ ← heap_at h r_pos;
  let heap' := exchange (heap_ h) (Z.to_nat l_pos) (Z.to_nat r_pos) in
  let h' := mkFourHeap heap' (index_ h) in
  l ← heap_at h' l_pos;
  r ← heap_at h' r_pos;
  Ok (mkFourHeap heap'
        (<[get_node_seq r := s32 r_pos]> (<[get_node_seq l := s32 l_pos]> (index_ h)))).

(** The inner loop of [shif_down_]: [steps] positions from [k] on. *)
Fixpoint mini_loop (steps : nat) (h : FourHeap) (n k : Z) (mini : TimerStamp)
    (mini_index : Z) : result Z :=
  match steps with
  | O => Ok mini_index
  | S steps' =>
      if k <? n then
        nk ← heap_at h k;
        if get_timer nk <? mini
        then mini_loop steps' h n (k + 1) (get_timer nk) k
        else mini_loop steps' h n (k + 1) mini mini_index
      else Ok mini_index
  end.

Fixpoint shif_down_loop (fuel : nat) (h : FourHeap) (n i j cnt : Z) : result (FourHeap * Z) :=
  match fuel with
  | O => Fault OutOfFuel
  | S fuel' =>
      if j <? n then
        ni ← heap_at h i;
        mini_index ← mini_loop 4 h n j (get_timer ni) (-1);
        if mini_index =? -1 then Ok (h, cnt)
        else
          h' ← swap_ h i mini_index;
          shif_down_loop fuel' h' n mini_index (s32 (Z.shiftl mini_index (2 + 1))) (cnt + 1)
      else Ok (h, cnt)
  end.

(** Every round moves to a larger position, so one round per node is enough. *)
Definition shif_down_ (h : FourHeap) (pos : Z) : result (FourHeap * Z) :=
  shif_down_loop (S (length (heap_ h))) h (s32 (hsize h)) (s32 pos)
    (s32 (u64 (Z.shiftl pos (2 + 1)))) 0.

Fixpoint shif_up_loop (fuel : nat) (h : FourHeap) (pos i j cnt : Z) : result (FourHeap * Z) :=
  match fuel with
  | O => Fault OutOfFuel
  | S fuel' =>
      if 0 <=? j then
        nj ← heap_at h j;
        ni ← heap_at h i;
        if node_leb nj ni then Ok (h, cnt)
        else
          h' ← swap_ h i j;
          shif_up_loop fuel' h' pos j (s32 (Z.shiftr (u64 (pos - 1)) 2)) (cnt + 1)
      else Ok (h, cnt)
  end.

Definition shif_up_ (h : FourHeap) (pos : Z) : result (FourHeap * Z) :=
  shif_up_loop (S (length (heap_ h))) h pos (s32 pos)
    (s32 (Z.shiftr (u64 (pos - 1)) 2)) 0.

(** [if (shif_down_(pos) == 0) shif_up_(pos);] *)
Definition sift (h : FourHeap) (pos : Z) : result FourHeap :=
  '(h1, cnt) ← shif_down_ h pos;
  if cnt =? 0 then fst <$> shif_up_ h1 pos else Ok h1.

Definition destory_ (h : FourHeap) (pos : Z) : result FourHeap :=
  let n := u64 (hsize h - 1) in
  assert! (pos <=? n);
  h1 ← (if pos <? n then swap_ h pos n else Ok h);
  back ← of_option OutOfRange (last (heap_ h1));
  let h2 := mkFourHeap (take (length (heap_ h1) - 1) (heap_ h1))
                       (delete (get_node_seq back) (index_ h1)) in
  if pos <? hsize h2 then sift h2 pos else Ok h2.

Definition push (h : FourHeap) (node : TimerNode) : result FourHeap :=
  let seq := get_node_seq node in
  match index_ h !! seq with
  | None =>
      let pos := s32 (hsize h) in
      let h1 := mkFourHeap (heap_ h ++ [node]) (<[seq := pos]> (index_ h)) in
      if hsize h1 =? 1 then Ok h1 else fst <$> shif_up_ h1 (u64 pos)
  | Some pos =>
      h1 ← heap_set h pos node;
      sift h1 (u64 pos)
  end.

Definition front (h : FourHeap) : result TimerNode := heap_at h 0.

Definition find (h : FourHeap) (id : Z) : bool := bool_decide (is_Some (index_ h !! id)).

Definition pop (h : FourHeap) : result FourHeap :=
  assert! (0 <? hsize h);
  h1 ← swap_ h 0 (u64 (hsize h - 1));
  destory_ h1 (u64 (hsize h1 - 1)).

Definition remove (h : FourHeap) (id : Z) : result (FourHeap * bool) :=
  match index_ h !! id with
  | None => Ok (h, false)
  | Some pos => h' ← destory_ h (u64 pos); Ok (h', true)
  end.

Definition reset (h : FourHeap) (id : Z) (timer : TimerStamp) : result FourHeap :=
  let '(pos, h1) := index_at h id in
  nd ← heap_at h1 pos;
  h2 ← heap_set h1 pos (set_timer_stamp timer nd);
  let '(pos', h3) := index_at h2 id in
  fst <$> shif_down_ h3 (u64 pos').

(** What [extend] does to the node it finds. *)
Definition extend_node (interval : f32) (repeat : bool) (nd : TimerNode) : result TimerNode :=
  let nd1 := set_repeat repeat nd in
  add (if f32_positive interval then interval else get_interval nd1) nd1.

Definition extend (h : FourHeap) (interval : f32) (id : Z) (repeat : bool) : result FourHeap :=
  let '(pos, h1) := index_at h id in
  nd ← heap_at h1 pos;
  nd' ← extend_node interval repeat nd;
  h2 ← heap_set h1 pos nd';
  fst <$> shif_down_ h2 (u64 pos).

(** ** The index invariant *)

(** Position and sequence number determine each other, and positions fit the
    [int]s that carry them (also after [<< 3]). *)
Record Inv (h : FourHeap) : Prop := mkInv {
  inv_index : forall i nd, heap_ h !! i = Some nd ->
    index_ h !! node_seq_ nd = Some (Z.of_nat i);
  inv_heap : forall s p, index_ h !! s = Some p ->
    exists i nd, p = Z.of_nat i /\ heap_ h !! i = Some nd /\ node_seq_ nd = s;
  inv_small : hsize h < 2 ^ 28
}.

Definition nodes_of (l : list TimerNode) : gmap Z TimerNode :=
  list_to_map ((fun nd => (node_seq_ nd, nd)) <$> l).

(** The abstract view: the timers by sequence number. *)
Definition nodes (h : FourHeap) : gmap Z TimerNode := nodes_of (heap_ h).

Lemma inv_empty : Inv empty_heap.
Proof. split; [done|..]; simpl; [|done]. intros s p. by rewrite lookup_empty. Qed.

Section heap_lemmas.
Implicit Types (h : FourHeap) (nd : TimerNode) (i j pos : nat).

Lemma heap_at_lookup h i nd : heap_ h !! i = Some nd -> heap_at h (Z.of_nat i) = Ok nd.
Proof.
  intros Hi. unfold heap_at, guard_. destruct (Z.leb_spec 0 (Z.of_nat i)); [|lia].
  simpl. by rewrite Nat2Z.id, Hi.
Qed.

Lemma heap_at_ok h k nd :
  heap_at h k = Ok nd -> 0 <= k < hsize h /\ heap_ h !! Z.to_nat k = Some nd.
Proof.
  unfold heap_at, guard_, hsize. destruct (Z.leb_spec 0 k); [|done]. simpl.
  destruct (heap_ h !! Z.to_nat k) eqn:Hk; [|done]. simpl. intros [= ->].
  apply lookup_lt_Some in Hk as ?. split; [lia|done].
Qed.

Lemma heap_at_lt h i : (i < length (heap_ h))%nat -> exists nd, heap_at h (Z.of_nat i) = Ok nd.
Proof. intros [nd Hi]%lookup_lt_is_Some. exists nd. by apply heap_at_lookup. Qed.

Lemma inv_seqs_NoDup h : Inv h -> NoDup (node_seq_ <$> heap_ h).
Proof.
  intros Hinv. apply NoDup_alt. intros i j s.
  rewrite !list_lookup_fmap.
  destruct (heap_ h !! i) as [a|] eqn:Ha; [|done].
  destruct (heap_ h !! j) as [b|] eqn:Hb; [|done]. simpl. intros [= Hs] [= Hs'].
  apply (inv_index _ Hinv) in Ha, Hb. rewrite Hs in Ha. rewrite Hs' in Hb.
  rewrite Ha in Hb. simplify_eq. lia.
Qed.

Lemma nodes_of_fst (l : list TimerNode) :
  ((fun nd => (node_seq_ nd, nd)) <$> l).*1 = node_seq_ <$> l.
Proof. by rewrite <-list_fmap_compose. Qed.

Lemma nodes_of_perm (l l' : list TimerNode) :
  NoDup (node_seq_ <$> l) -> l ≡ₚ l' -> nodes_of l = nodes_of l'.
Proof.
  intros Hnd Hp. unfold nodes_of. apply list_to_map_proper.
  - by rewrite nodes_of_fst.
  - by rewrite Hp.
Qed.

Lemma nodes_lookup h s nd :
  Inv h -> nodes h !! s = Some nd <-> nd ∈ heap_ h /\ node_seq_ nd = s.
Proof.
  intros Hinv. unfold nodes, nodes_of.
  rewrite <-elem_of_list_to_map by (rewrite nodes_of_fst; by apply inv_seqs_NoDup).
  rewrite list_elem_of_fmap. split; [intros (x & [= -> ->] & ?)|intros [? <-]]; eauto.
Qed.

Lemma nodes_index h s : Inv h -> is_Some (nodes h !! s) <-> is_Some (index_ h !! s).
Proof.
  intros Hinv. split.
  - intros [nd [Hin Hs]%nodes_lookup]; [|done].
    apply list_elem_of_lookup in Hin as [i Hi].
    apply (inv_index _ Hinv) in Hi. rewrite Hs in Hi. eauto.
  - intros [p (i & nd & -> & Hi & Hs)%inv_heap]; [|done].
    exists nd. apply nodes_lookup; [done|]. split; [|done].
    by apply list_elem_of_lookup_2 in Hi.
Qed.

(** Exchanging two positions keeps the invariant and the nodes. *)
Lemma swap_spec h i j :
  Inv h -> (i < length (heap_ h))%nat -> (j < length (heap_ h))%nat ->
  exists h', swap_ h (Z.of_nat i) (Z.of_nat j) = Ok h' /\
    heap_ h' = exchange (heap_ h) i j /\ Inv h'.
Proof.
  intros Hinv Hi Hj.
  pose proof (inv_small _ Hinv) as Hsm. unfold hsize in Hsm.
  pose proof Hi as [a Ha]%lookup_lt_is_Some. pose proof Hj as [b Hb]%lookup_lt_is_Some.
  pose proof (exchange_lookup (heap_ h) i j i Hi Hj) as Hxi.
  pose proof (exchange_lookup (heap_ h) i j j Hi Hj) as Hxj.
  rewrite decide_True in Hxj by done.
  assert (Hxi' : exchange (heap_ h) i j !! i = Some b).
  { rewrite Hxi. case_decide; [by subst|]. by rewrite decide_True. }
  clear Hxi.
  unfold swap_. rewrite (heap_at_lookup h i a), (heap_at_lookup h j b) by done.
  rewrite !bind_ok, !Nat2Z.id.
  rewrite (heap_at_lookup _ i b), bind_ok by done.
  rewrite (heap_at_lookup _ j a), bind_ok by (simpl; congruence).
  unfold get_node_seq. rewrite !s32_small by lia.
  eexists. split; [reflexivity|]. split; [done|].
  assert (Hkey : forall k nd, exchange (heap_ h) i j !! k = Some nd ->
    exists k', heap_ h !! k' = Some nd /\
      k = if decide (k' = i) then j else if decide (k' = j) then i else k').
  { intros k nd. rewrite exchange_lookup by done.
    repeat case_decide; intros Hk; eexists; split; try done; repeat case_decide; naive_solver. }
  split; simpl.
  - intros k nd Hk. destruct (Hkey k nd Hk) as (k' & Hk' & ->).
    pose proof (inv_index _ Hinv _ _ Hk') as Hkx.
    pose proof (inv_index _ Hinv _ _ Ha) as Hax. pose proof (inv_index _ Hinv _ _ Hb) as Hbx.
    rewrite !lookup_insert. repeat case_decide; simplify_eq; try done; try congruence;
      match goal with
      | E : node_seq_ _ = node_seq_ nd |- _ => rewrite <-E in Hkx; simplify_eq; lia
      end.
  - intros s p. rewrite !lookup_insert. case_decide as Hs1; [|case_decide as Hs2].
    + intros [= <-]. exists j, a. split; [done|]. split; [congruence|done].
    + intros [= <-]. exists i, b. done.
    + intros (k & nd & -> & Hk & <-)%(inv_heap _ Hinv).
      exists k, nd. split; [done|]. split; [|done]. rewrite exchange_lookup by done.
      repeat case_decide; subst; try done; simplify_eq.
  - unfold hsize; simpl. rewrite length_exchange. lia.
Qed.

(** Overwriting a node by one with the same sequence number. *)
Lemma heap_set_spec h i nd nd' :
  Inv h -> heap_ h !! i = Some nd -> node_seq_ nd' = node_seq_ nd ->
  exists h', heap_set h (Z.of_nat i) nd' = Ok h' /\ Inv h' /\
    heap_ h' = <[i := nd']> (heap_ h) /\ index_ h' = index_ h.
Proof.
  intros Hinv Hi Hs. unfold heap_set. rewrite (heap_at_lookup _ _ _ Hi). simpl.
  rewrite Nat2Z.id. eexists. split; [reflexivity|]. split; [|done].
  pose proof (lookup_lt_Some _ _ _ Hi).
  split; simpl.
  - intros k x. rewrite list_lookup_insert. case_decide as Hk.
    + destruct Hk as [-> ?]. intros [= <-]. rewrite Hs. by apply (inv_index _ Hinv).
    + apply (inv_index _ Hinv).
  - intros s p Hp. destruct (inv_heap _ Hinv _ _ Hp) as (k & x & -> & Hk & <-).
    exists k. destruct (decide (i = k)) as [->|Hne].
    + exists nd'. rewrite list_lookup_insert_eq by done. simplify_eq. done.
    + exists x. by rewrite list_lookup_insert_ne.
  - unfold hsize. simpl. rewrite length_insert. apply (inv_small _ Hinv).
Qed.

Lemma nodes_heap_set h h' i nd nd' :
  Inv h -> heap_ h !! i = Some nd -> node_seq_ nd' = node_seq_ nd ->
  heap_ h' = <[i := nd']> (heap_ h) -> Inv h' ->
  nodes h' = <[node_seq_ nd := nd']> (nodes h).
Proof.
  intros Hinv Hi Hs Hh Hinv'. pose proof (lookup_lt_Some _ _ _ Hi).
  pose proof (Permutation_lookup_insert _ _ _ nd' Hi) as Hp. rewrite <-Hh in Hp.
  assert (Hd : heap_ h ≡ₚ nd :: delete i (heap_ h)) by (by apply delete_Permutation).
  assert (Hp' : heap_ h' ≡ₚ nd' :: delete i (heap_ h)).
  { apply (Permutation_cons_inv (a := nd)). rewrite Hp. etransitivity; [apply perm_skip, Hd|apply perm_swap]. }
  unfold nodes.
  rewrite (nodes_of_perm _ _ (inv_seqs_NoDup _ Hinv') Hp').
  rewrite (nodes_of_perm _ _ (inv_seqs_NoDup _ Hinv) Hd).
  unfold nodes_of; simpl. by rewrite Hs, insert_insert_eq.
Qed.

Lemma nodes_perm h h' : Inv h -> heap_ h' ≡ₚ heap_ h -> nodes h' = nodes h.
Proof.
  intros Hinv Hp. symmetry. apply nodes_of_perm; [by apply inv_seqs_NoDup|done].
Qed.
End heap_lemmas.

(** ** The sifting loops *)

(** The expiry at a position. *)
Definition tm (h : FourHeap) (k : nat) : option Z := timer_ <$> heap_ h !! k.

Section sift_lemmas.
Implicit Types (h : FourHeap) (nd : TimerNode) (i j k pos steps fuel : nat).

(** The inner loop finds the first strict minimum of its window, or keeps
    what it had when nothing in the window is strictly smaller. *)
Lemma mini_loop_spec steps h k mini mi :
  exists r, mini_loop steps h (hsize h) (Z.of_nat k) mini mi = Ok r /\
    ((r = mi /\ forall k' t, (k <= k' < k + steps)%nat -> tm h k' = Some t -> mini <= t) \/
     (exists r' tr, r = Z.of_nat r' /\ (k <= r' < k + steps)%nat /\ tm h r' = Some tr /\
       tr < mini /\
       forall k' t, (k <= k' < k + steps)%nat -> tm h k' = Some t -> tr <= t)).
Proof.
  revert k mini mi. induction steps as [|steps IH]; intros k mini mi; simpl.
  { exists mi. split; [done|]. left. split; [done|]. lia. }
  destruct (Z.ltb_spec (Z.of_nat k) (hsize h)) as [Hk|Hk].
  2: { exists mi. split; [done|]. left. split; [done|]. intros k' t Hk' Ht.
       unfold tm in Ht. rewrite lookup_ge_None_2 in Ht; [done|]. unfold hsize in Hk. lia. }
  unfold hsize in Hk. destruct (lookup_lt_is_Some_2 (heap_ h) k) as [nk Hnk]; [lia|].
  rewrite (heap_at_lookup _ _ _ Hnk), bind_ok. unfold get_timer.
  replace (Z.of_nat k + 1) with (Z.of_nat (S k)) by lia.
  assert (Htk : tm h k = Some (timer_ nk)) by (unfold tm; by rewrite Hnk).
  destruct (Z.ltb_spec (timer_ nk) mini) as [Hlt|Hge].
  - destruct (IH (S k) (timer_ nk) (Z.of_nat k)) as (r & -> & [[-> Hr]|(r' & tr & -> & Hr' & Ht & Hlt' & Hall)]).
    + eexists. split; [reflexivity|]. right. exists k, (timer_ nk).
      split; [done|]. split; [lia|]. do 2 (split; [done|]). intros k' t Hk' Ht.
      destruct (decide (k' = k)) as [->|]; [simplify_eq; lia|]. apply (Hr k'); [lia|done].
    + eexists. split; [reflexivity|]. right. exists r', tr.
      split; [done|]. split; [lia|]. split; [done|]. split; [lia|]. intros k' t Hk' Ht'.
      destruct (decide (k' = k)) as [->|]; [simplify_eq; lia|]. apply (Hall k'); [lia|done].
  - destruct (IH (S k) mini mi) as (r & -> & [[-> Hr]|(r' & tr & -> & Hr' & Ht & Hlt' & Hall)]).
    + eexists. split; [reflexivity|]. left. split; [done|]. intros k' t Hk' Ht.
      destruct (decide (k' = k)) as [->|]; [simplify_eq; lia|]. apply (Hr k'); [lia|done].
    + eexists. split; [reflexivity|]. right. exists r', tr.
      split; [done|]. split; [lia|]. do 2 (split; [done|]). intros k' t Hk' Ht'.
      destruct (decide (k' = k)) as [->|]; [simplify_eq; lia|]. apply (Hall k'); [lia|done].
Qed.

Lemma shif_down_loop_spec fuel h i cnt :
  Inv h -> (i < length (heap_ h))%nat -> (length (heap_ h) - i < fuel)%nat -> 0 <= cnt ->
  exists h' cnt', shif_down_loop fuel h (hsize h) (Z.of_nat i) (8 * Z.of_nat i) cnt = Ok (h', cnt') /\
    Inv h' /\ heap_ h' ≡ₚ heap_ h /\ cnt <= cnt' /\ (cnt' = cnt -> h' = h).
Proof.
  revert h i cnt. induction fuel as [|fuel IH]; intros h i cnt Hinv Hi Hf Hc; [lia|].
  pose proof (inv_small _ Hinv) as Hsm. cbn [shif_down_loop].
  destruct (Z.ltb_spec (8 * Z.of_nat i) (hsize h)) as [Hj|Hj].
  2: { exists h, cnt. repeat (split; try done). }
  destruct (lookup_lt_is_Some_2 _ _ Hi) as [ni Hni].
  rewrite (heap_at_lookup _ _ _ Hni), bind_ok.
  replace (8 * Z.of_nat i) with (Z.of_nat (8 * i)) by lia.
  destruct (mini_loop_spec 4 h (8 * i) (get_timer ni) (-1))
    as (r & -> & [[-> _]|(r' & tr & -> & Hr & Ht & Hlt & _)]).
  { rewrite bind_ok. exists h, cnt. repeat (split; try done). }
  rewrite bind_ok. destruct (Z.eqb_spec (Z.of_nat r') (-1)) as [|_]; [lia|].
  assert (Hr' : (r' < length (heap_ h))%nat).
  { unfold tm in Ht. destruct (heap_ h !! r') eqn:E; [|done]. by apply lookup_lt_Some in E. }
  assert (r' <> i).
  { intros ->. unfold tm in Ht. rewrite Hni in Ht. simpl in Ht. injection Ht as <-.
    unfold get_timer in Hlt. lia. }
  destruct (swap_spec h i r' Hinv Hi Hr') as (h1 & -> & Hh1 & Hinv1). rewrite bind_ok.
  assert (Hlen : length (heap_ h1) = length (heap_ h)) by (rewrite Hh1; apply length_exchange).
  rewrite Z.shiftl_mul_pow2 by lia. unfold hsize in *.
  rewrite s32_small by lia. rewrite <-Hlen.
  replace (Z.of_nat r' * 2 ^ (2 + 1)) with (8 * Z.of_nat r') by lia.
  destruct (IH h1 r' (cnt + 1)) as (h' & cnt' & -> & Hinv' & Hp & Hle & _); [done|lia..|].
  exists h', cnt'. do 2 (split; [done|]). split; [|lia].
  rewrite Hp, Hh1. apply exchange_Permutation.
Qed.

Lemma shif_down_unfold h pos :
  Inv h -> (pos < length (heap_ h))%nat ->
  shif_down_ h (Z.of_nat pos) =
    shif_down_loop (S (length (heap_ h))) h (hsize h) (Z.of_nat pos) (8 * Z.of_nat pos) 0.
Proof.
  intros Hinv Hpos. pose proof (inv_small _ Hinv) as Hsm. unfold shif_down_, hsize in *.
  rewrite Z.shiftl_mul_pow2 by lia. rewrite u64_small, !s32_small by lia.
  f_equal. lia.
Qed.

Lemma shif_down_spec h pos :
  Inv h -> (pos < length (heap_ h))%nat ->
  exists h' cnt, shif_down_ h (Z.of_nat pos) = Ok (h', cnt) /\
    Inv h' /\ heap_ h' ≡ₚ heap_ h /\ 0 <= cnt /\ (cnt = 0 -> h' = h).
Proof.
  intros Hinv Hpos. rewrite shif_down_unfold by done.
  apply shif_down_loop_spec; [done|done|lia|lia].
Qed.

(** The position [shif_up_] compares with. *)
Definition parent pos : nat := (pos - 1) / 4.

(** [shif_up_] compares with the parent once and exchanges at most once: the
    second round compares a position with itself. *)
Definition shif_up_once h pos : FourHeap * Z :=
  match heap_ h !! parent pos, heap_ h !! pos with
  | Some p, Some nd =>
      if node_leb p nd then (h, 0)
      else (mkFourHeap (exchange (heap_ h) pos (parent pos))
              (<[node_seq_ nd := Z.of_nat (parent pos)]>
                (<[node_seq_ p := Z.of_nat pos]> (index_ h))), 1)
  | _, _ => (h, 0)
  end.

Lemma shif_up_parent pos :
  (0 < pos)%nat -> Z.of_nat pos < 2 ^ 28 ->
  s32 (Z.shiftr (u64 (Z.of_nat pos - 1)) 2) = Z.of_nat (parent pos).
Proof.
  intros. unfold parent. rewrite u64_small by lia.
  rewrite Z.shiftr_div_pow2 by lia. rewrite Nat2Z.inj_div, Nat2Z.inj_sub by lia.
  change (Z.of_nat 1) with 1. change (Z.of_nat 4) with (2 ^ 2). apply s32_small.
  assert (0 <= (Z.of_nat pos - 1) / 2 ^ 2 < 2 ^ 28); [|lia].
  split; [apply Z.div_pos; lia|apply Z.div_lt_upper_bound; lia].
Qed.

Lemma parent_lt pos : (0 < pos)%nat -> (parent pos < pos)%nat.
Proof.
  intros. unfold parent. apply Nat.Div0.div_lt_upper_bound. lia.
Qed.

Lemma shif_up_root h : heap_ h <> [] -> shif_up_ h 0 = Ok (h, 0).
Proof.
  intros. unfold shif_up_.
  replace (s32 (Z.shiftr (u64 (0 - 1)) 2)) with (-1) by reflexivity. done.
Qed.

Lemma shif_up_spec h pos :
  Inv h -> (0 < pos < length (heap_ h))%nat ->
  shif_up_ h (Z.of_nat pos) = Ok (shif_up_once h pos) /\ Inv (shif_up_once h pos).1 /\
  heap_ (shif_up_once h pos).1 ≡ₚ heap_ h.
Proof.
  intros Hinv Hpos. pose proof (inv_small _ Hinv) as Hsm. unfold hsize in Hsm.
  pose proof (parent_lt pos ltac:(lia)) as Hpar.
  destruct (lookup_lt_is_Some_2 (heap_ h) pos) as [nd Hnd]; [lia|].
  destruct (lookup_lt_is_Some_2 (heap_ h) (parent pos)) as [p Hp]; [lia|].
  unfold shif_up_. rewrite shif_up_parent, s32_small by lia.
  unfold shif_up_once. rewrite Hp, Hnd.
  destruct (length (heap_ h)) as [|[|m]] eqn:Hlen; [lia|lia|].
  cbn [shif_up_loop]. destruct (Z.leb_spec 0 (Z.of_nat (parent pos))); [|lia].
  rewrite (heap_at_lookup _ _ _ Hp), (heap_at_lookup _ _ _ Hnd), !bind_ok.
  destruct (node_leb p nd) eqn:Hle; [done|].
  destruct (swap_spec h pos (parent pos)) as (h1 & Hsw & Hh1 & Hinv1); [done|lia|lia|].
  assert (Hx1 : exchange (heap_ h) pos (parent pos) !! pos = Some p).
  { rewrite exchange_lookup by lia. rewrite decide_False by lia. by rewrite decide_True. }
  assert (Hx2 : exchange (heap_ h) pos (parent pos) !! parent pos = Some nd).
  { rewrite exchange_lookup by lia. by rewrite decide_True. }
  assert (h1 = mkFourHeap (exchange (heap_ h) pos (parent pos))
              (<[node_seq_ nd := Z.of_nat (parent pos)]>
                (<[node_seq_ p := Z.of_nat pos]> (index_ h)))) as ->.
  { revert Hsw. unfold swap_.
    rewrite (heap_at_lookup _ _ _ Hp), (heap_at_lookup _ _ _ Hnd), !bind_ok, !Nat2Z.id.
    rewrite (heap_at_lookup _ pos p), (heap_at_lookup _ (parent pos) nd), !bind_ok by done.
    unfold get_node_seq. rewrite !s32_small by lia. by intros [= <-]. }
  rewrite Hsw, bind_ok. rewrite shif_up_parent by lia.
  destruct (Z.leb_spec 0 (Z.of_nat (parent pos))); [|lia].
  rewrite (heap_at_lookup _ (parent pos) nd), !bind_ok by done.
  unfold node_leb at 1. rewrite Z.leb_refl. split; [done|]. split; [done|].
  apply exchange_Permutation.
Qed.

Lemma sift_spec h pos :
  Inv h -> (pos < length (heap_ h))%nat ->
  exists h', sift h (Z.of_nat pos) = Ok h' /\ Inv h' /\ heap_ h' ≡ₚ heap_ h.
Proof.
  intros Hinv Hpos. unfold sift.
  destruct (shif_down_spec h pos Hinv Hpos) as (h1 & cnt & -> & Hinv1 & Hp1 & Hc & Heq).
  simpl. destruct (Z.eqb_spec cnt 0) as [->|]; [|by exists h1].
  rewrite Heq by done. destruct pos as [|pos].
  - exists h. rewrite shif_up_root; [done|]. by destruct (heap_ h); simpl in *; [lia|].
  - destruct (shif_up_spec h (S pos)) as (-> & ? & ?); [done|lia|]. simpl. eauto.
Qed.
End sift_lemmas.

(** ** Operations against the finite map *)

Section op_lemmas.
Implicit Types (h : FourHeap) (nd : TimerNode) (i j k pos : nat).

Lemma nodes_cons h h' nd :
  Inv h -> Inv h' -> heap_ h ≡ₚ nd :: heap_ h' ->
  nodes h = <[node_seq_ nd := nd]> (nodes h') /\ nodes h' !! node_seq_ nd = None.
Proof.
  intros Hinv Hinv' Hp. pose proof (inv_seqs_NoDup _ Hinv) as Hnd.
  split.
  - unfold nodes. by rewrite (nodes_of_perm _ _ Hnd Hp).
  - destruct (nodes h' !! node_seq_ nd) as [x|] eqn:Hx; [|done].
    apply nodes_lookup in Hx as [Hin Hs]; [|done].
    rewrite Hp in Hnd. apply NoDup_cons in Hnd as [Hnin _].
    destruct Hnin. apply list_elem_of_fmap. eauto.
Qed.

Lemma nodes_uncons h h' nd :
  Inv h -> Inv h' -> heap_ h ≡ₚ nd :: heap_ h' ->
  nodes h' = delete (node_seq_ nd) (nodes h).
Proof.
  intros Hinv Hinv' Hp. destruct (nodes_cons h h' nd) as [-> ?]; [done..|].
  by rewrite delete_insert_id.
Qed.

Lemma size_nodes h : Inv h -> size (nodes h) = length (heap_ h).
Proof.
  intros Hinv. unfold nodes, nodes_of. rewrite map_size_list_to_map.
  - by rewrite length_fmap.
  - rewrite nodes_of_fst. by apply inv_seqs_NoDup.
Qed.

Lemma drop_last_spec h nd :
  Inv h -> last (heap_ h) = Some nd ->
  Inv (mkFourHeap (take (length (heap_ h) - 1) (heap_ h)) (delete (node_seq_ nd) (index_ h))) /\
  heap_ h ≡ₚ nd :: take (length (heap_ h) - 1) (heap_ h).
Proof.
  intros Hinv Hl. apply last_Some in Hl as [l Hl].
  assert (Htake : take (length (heap_ h) - 1) (heap_ h) = l).
  { rewrite Hl, length_app, take_app_le; simpl; [|lia]. apply take_ge. lia. }
  rewrite Htake. split.
  2: { rewrite Hl. by rewrite Permutation_app_comm. }
  assert (Hlast : index_ h !! node_seq_ nd = Some (Z.of_nat (length l))).
  { apply (inv_index _ Hinv). rewrite Hl, lookup_app_r by lia. by rewrite Nat.sub_diag. }
  split; simpl.
  - intros i x Hi. pose proof (lookup_lt_Some _ _ _ Hi).
    assert (Hi' : heap_ h !! i = Some x) by (rewrite Hl; by apply lookup_app_l_Some).
    apply (inv_index _ Hinv) in Hi'. rewrite lookup_delete_ne; [done|].
    intros Heq. rewrite Heq, Hi' in Hlast. simplify_eq. lia.
  - intros s p [Hne Hp]%lookup_delete_Some.
    destruct (inv_heap _ Hinv _ _ Hp) as (i & x & -> & Hi & <-).
    exists i, x. split; [done|]. split; [|done].
    rewrite Hl in Hi. apply lookup_app_Some in Hi as [?|[? Hi]]; [done|].
    apply list_lookup_singleton_Some in Hi as [_ <-]. done.
  - pose proof (inv_small _ Hinv) as Hsm. unfold hsize in *. simpl.
    rewrite Hl, length_app in Hsm. lia.
Qed.

(** Destroying a position removes exactly its node. *)
Lemma destory_spec h pos nd :
  Inv h -> heap_ h !! pos = Some nd ->
  exists h', destory_ h (Z.of_nat pos) = Ok h' /\ Inv h' /\ heap_ h ≡ₚ nd :: heap_ h'.
Proof.
  intros Hinv Hpos. pose proof (lookup_lt_Some _ _ _ Hpos) as Hlt.
  pose proof (inv_small _ Hinv) as Hsm. unfold hsize in Hsm.
  unfold destory_; cbv zeta.
  replace (u64 (hsize h - 1)) with (Z.of_nat (length (heap_ h) - 1))
    by (unfold hsize; rewrite u64_small by lia; lia).
  rewrite assert_true by (apply Z.leb_le; lia).
  assert (exists h1, (if Z.of_nat pos <? Z.of_nat (length (heap_ h) - 1)
      then swap_ h (Z.of_nat pos) (Z.of_nat (length (heap_ h) - 1)) else Ok h) = Ok h1 /\
    Inv h1 /\ heap_ h1 ≡ₚ heap_ h /\ last (heap_ h1) = Some nd)
    as (h1 & -> & Hinv1 & Hp1 & Hlast1).
  { destruct (Z.ltb_spec (Z.of_nat pos) (Z.of_nat (length (heap_ h) - 1))).
    - destruct (swap_spec h pos (length (heap_ h) - 1)) as (h1 & -> & Hh1 & Hinv1); [done|lia|lia|].
      exists h1. do 2 (split; [done|]). rewrite Hh1. split; [apply exchange_Permutation|].
      rewrite last_lookup, length_exchange, <-Nat.sub_1_r.
      rewrite exchange_lookup by lia. by rewrite decide_True.
    - exists h. do 3 (split; [done|]). rewrite last_lookup, <-Nat.sub_1_r.
      by replace (length (heap_ h) - 1)%nat with pos by lia. }
  rewrite bind_ok, Hlast1. simpl.
  destruct (drop_last_spec h1 nd Hinv1 Hlast1) as [Hinv2 Hp2].
  set (h2 := mkFourHeap (take _ _) _) in *.
  destruct (Z.ltb_spec (Z.of_nat pos) (hsize h2)) as [Hps|Hps].
  - destruct (sift_spec h2 pos Hinv2) as (h' & -> & Hinv' & Hp'); [unfold hsize in Hps; simpl in *; lia|].
    exists h'. do 2 (split; [done|]). rewrite Hp', <-Hp1. done.
  - exists h2. do 2 (split; [done|]). rewrite <-Hp1. done.
Qed.

Lemma push_fresh_inv h nd :
  Inv h -> index_ h !! node_seq_ nd = None -> hsize h + 1 < 2 ^ 28 ->
  Inv (mkFourHeap (heap_ h ++ [nd]) (<[node_seq_ nd := s32 (hsize h)]> (index_ h))).
Proof.
  intros Hinv Hnone Hs. unfold hsize in *. rewrite s32_small by lia. split; simpl.
  - intros i x [Hi|[Hge Hi]]%lookup_app_Some.
    + pose proof (inv_index _ Hinv _ _ Hi) as Hx. rewrite lookup_insert_ne; [done|].
      intros Heq. rewrite Heq in Hnone. congruence.
    + apply list_lookup_singleton_Some in Hi as [Hi <-].
      rewrite lookup_insert_eq. f_equal. lia.
  - intros s p. rewrite lookup_insert. case_decide as Hs'.
    + intros [= <-]. exists (length (heap_ h)), nd. split; [done|]. split; [|done].
      rewrite lookup_app_r, Nat.sub_diag by lia. done.
    + intros (i & x & -> & Hi & <-)%(inv_heap _ Hinv). exists i, x.
      split; [done|]. split; [|done]. by apply lookup_app_l_Some.
  - unfold hsize; simpl. rewrite length_app. simpl. lia.
Qed.

(** Pushing a fresh node adds it and keeps the others. *)
Lemma push_fresh_spec h nd :
  Inv h -> index_ h !! node_seq_ nd = None -> hsize h + 1 < 2 ^ 28 ->
  exists h', push h nd = Ok h' /\ Inv h' /\ heap_ h' ≡ₚ nd :: heap_ h.
Proof.
  intros Hinv Hnone Hs. pose proof (push_fresh_inv h nd Hinv Hnone Hs) as Hinv1.
  unfold push, get_node_seq. rewrite Hnone.
  set (h1 := mkFourHeap _ _) in *.
  assert (Hp1 : heap_ h1 ≡ₚ nd :: heap_ h) by (simpl; by rewrite Permutation_app_comm).
  destruct (Z.eqb_spec (hsize h1) 1) as [|H1]; [by exists h1|].
  unfold hsize in *. simpl in H1. rewrite length_app in H1; simpl in H1.
  rewrite s32_small, u64_small by lia.
  destruct (shif_up_spec h1 (length (heap_ h))) as (-> & Hinv2 & Hp2);
    [done|simpl; rewrite length_app; simpl; lia|].
  simpl. eexists. split; [reflexivity|]. split; [done|]. by rewrite Hp2.
Qed.

Lemma push_spec h nd :
  Inv h -> (index_ h !! node_seq_ nd = None -> hsize h + 1 < 2 ^ 28) ->
  exists h', push h nd = Ok h' /\ Inv h' /\ nodes h' = <[node_seq_ nd := nd]> (nodes h).
Proof.
  intros Hinv Hs. destruct (index_ h !! node_seq_ nd) as [p|] eqn:Hi.
  - destruct (inv_heap _ Hinv _ _ Hi) as (i & x & -> & Hx & Hseq).
    destruct (heap_set_spec h i x nd) as (h1 & Hset & Hinv1 & Hh1 & _); [done..|].
    unfold push, get_node_seq. rewrite Hi, Hset, bind_ok.
    pose proof (lookup_lt_Some _ _ _ Hx).
    pose proof (inv_small _ Hinv) as Hsm. unfold hsize in Hsm.
    rewrite u64_small by lia.
    destruct (sift_spec h1 i Hinv1) as (h' & -> & Hinv' & Hp');
      [rewrite Hh1, length_insert; lia|].
    exists h'. do 2 (split; [done|]). rewrite (nodes_perm h1) by done.
    rewrite <-Hseq. by apply (nodes_heap_set h h1 i).
  - destruct (push_fresh_spec h nd Hinv Hi) as (h' & -> & Hinv' & Hp'); [by apply Hs|].
    exists h'. do 2 (split; [done|]). by apply nodes_cons.
Qed.

Lemma remove_spec h id :
  Inv h -> exists h', remove h id = Ok (h', bool_decide (is_Some (nodes h !! id))) /\
    Inv h' /\ nodes h' = delete id (nodes h).
Proof.
  intros Hinv. unfold remove. pose proof (nodes_index h id Hinv) as Hiff.
  destruct (index_ h !! id) as [p|] eqn:Hi.
  - destruct (inv_heap _ Hinv _ _ Hi) as (i & x & -> & Hx & <-).
    pose proof (lookup_lt_Some _ _ _ Hx).
    pose proof (inv_small _ Hinv) as Hsm. unfold hsize in Hsm.
    rewrite u64_small by lia.
    destruct (destory_spec h i x Hinv Hx) as (h' & -> & Hinv' & Hp').
    exists h'. rewrite bind_ok, bool_decide_true by naive_solver.
    do 2 (split; [done|]). by apply nodes_uncons.
  - exists h. assert (Hnone : nodes h !! id = None).
    { apply eq_None_not_Some. rewrite Hiff. by intros [? ?]. }
    rewrite bool_decide_false by (rewrite Hiff; by intros [? ?]).
    do 2 (split; [done|]). by rewrite delete_id.
Qed.

(** [pop] removes the node at the root, the one [front] returns. *)
Lemma pop_spec h nd :
  Inv h -> front h = Ok nd ->
  exists h', pop h = Ok h' /\ Inv h' /\ nodes h' = delete (node_seq_ nd) (nodes h).
Proof.
  intros Hinv [Hsz Hnd]%heap_at_ok. unfold pop.
  pose proof (inv_small _ Hinv) as Hsm. unfold hsize in *.
  rewrite assert_true by (apply Z.ltb_lt; unfold hsize; lia).
  rewrite u64_small by lia.
  replace (Z.of_nat (length (heap_ h)) - 1) with (Z.of_nat (length (heap_ h) - 1)) by lia.
  change 0 with (Z.of_nat 0) at 1.
  destruct (swap_spec h 0 (length (heap_ h) - 1)) as (h1 & -> & Hh1 & Hinv1); [done|lia|lia|].
  rewrite bind_ok.
  assert (Hl1 : length (heap_ h1) = length (heap_ h)) by (rewrite Hh1; apply length_exchange).
  rewrite Hl1, u64_small by lia.
  replace (Z.of_nat (length (heap_ h)) - 1) with (Z.of_nat (length (heap_ h) - 1)) by lia.
  destruct (destory_spec h1 (length (heap_ h) - 1) nd) as (h' & -> & Hinv' & Hp'); [done| |].
  { rewrite Hh1, exchange_lookup by lia. by rewrite decide_True. }
  exists h'. do 2 (split; [done|]). rewrite (nodes_uncons h1 h' nd) by done.
  f_equal. apply nodes_perm; [done|]. rewrite Hh1. apply exchange_Permutation.
Qed.

(** Overwriting a node in place and sifting down. *)
Lemma update_down_spec h i nd nd' :
  Inv h -> heap_ h !! i = Some nd -> node_seq_ nd' = node_seq_ nd ->
  exists h', (h2 ← heap_set h (Z.of_nat i) nd'; fst <$> shif_down_ h2 (u64 (Z.of_nat i))) = Ok h' /\
    Inv h' /\ nodes h' = <[node_seq_ nd := nd']> (nodes h).
Proof.
  intros Hinv Hi Hs. destruct (heap_set_spec h i nd nd') as (h1 & -> & Hinv1 & Hh1 & _); [done..|].
  pose proof (lookup_lt_Some _ _ _ Hi). pose proof (inv_small _ Hinv) as Hsm. unfold hsize in Hsm.
  rewrite bind_ok, u64_small by lia.
  destruct (shif_down_spec h1 i Hinv1) as (h' & cnt & -> & Hinv' & Hp' & _);
    [rewrite Hh1, length_insert; lia|].
  exists h'. do 2 (split; [done|]). rewrite (nodes_perm h1) by done.
  by apply (nodes_heap_set h h1 i).
Qed.

Lemma reset_spec h id t nd :
  Inv h -> nodes h !! id = Some nd ->
  exists h', reset h id t = Ok h' /\ Inv h' /\
    nodes h' = <[id := set_timer_stamp t nd]> (nodes h).
Proof.
  intros Hinv [Hin <-]%nodes_lookup; [|done].
  apply list_elem_of_lookup in Hin as [i Hi].
  pose proof (inv_index _ Hinv _ _ Hi) as Hx.
  unfold reset, index_at. rewrite Hx. rewrite (heap_at_lookup _ _ _ Hi), bind_ok.
  destruct (update_down_spec h i nd (set_timer_stamp t nd)) as (h' & Heq & Hinv' & Hn); [done..|].
  exists h'. split; [|done]. rewrite <-Heq.
  destruct (heap_set_spec h i nd (set_timer_stamp t nd)) as (h1 & -> & _ & _ & Hidx); [done..|].
  rewrite !bind_ok, Hidx, Hx. done.
Qed.

Lemma extend_spec h interval id repeat nd :
  Inv h -> nodes h !! id = Some nd ->
  match extend_node interval repeat nd with
  | Ok nd' => exists h', extend h interval id repeat = Ok h' /\ Inv h' /\
      nodes h' = <[id := nd']> (nodes h)
  | Fault f => extend h interval id repeat = Fault f
  end.
Proof.
  intros Hinv [Hin <-]%nodes_lookup; [|done].
  apply list_elem_of_lookup in Hin as [i Hi].
  pose proof (inv_index _ Hinv _ _ Hi) as Hx.
  unfold extend, index_at. rewrite Hx, (heap_at_lookup _ _ _ Hi), bind_ok.
  destruct (extend_node interval repeat nd) as [nd'|f] eqn:He; [|done].
  rewrite bind_ok. apply update_down_spec; [done..|].
  unfold extend_node, add in He. inv_bind He. inv_bind He. by simplify_eq.
Qed.

Lemma find_nodes h id : Inv h -> find h id = bool_decide (is_Some (nodes h !! id)).
Proof. intros Hinv. unfold find. apply bool_decide_ext. symmetry. by apply nodes_index. Qed.
End op_lemmas.

(** ** The timer-map specification *)

(** Calls on the heap, as the timer queue makes them. *)
Inductive heap_op : Type :=
  | HPush (nd : TimerNode)
  | HRemove (id : TimerId)
  | HFind (id : TimerId)
  | HReset (id : TimerId) (timer : TimerStamp)
  | HExtend (interval : f32) (id : TimerId) (repeat : bool)
  | HClear.

Definition quiet (m : result FourHeap) : result (bool * FourHeap) :=
  h ← m; Ok (false, h).

(** The call on the heap; the output is the [bool] of [find] and [remove]. *)
Definition heap_step (h : FourHeap) (op : heap_op) : result (bool * FourHeap) :=
  match op with
  | HPush nd => quiet (push h nd)
  | HRemove id => '(h', b) ← remove h id; Ok (b, h')
  | HFind id => Ok (find h id, h)
  | HReset id t => quiet (reset h id t)
  | HExtend interval id r => quiet (extend h interval id r)
  | HClear => Ok (false, clear h)
  end.

Definition map_step (m : gmap Z TimerNode) (op : heap_op) : result (bool * gmap Z TimerNode) :=
  match op with
  | HPush nd => Ok (false, <[node_seq_ nd := nd]> m)
  | HRemove id => Ok (bool_decide (is_Some (m !! id)), delete id m)
  | HFind id => Ok (bool_decide (is_Some (m !! id)), m)
  | HReset id t => Ok (false, alter (set_timer_stamp t) id m)
  | HExtend interval id r =>
      nd ← of_option OutOfRange (m !! id);
      nd' ← extend_node interval r nd;
      Ok (false, <[id := nd']> m)
  | HClear => Ok (false, ∅)
  end.

(** [reset] and [extend] are meant for timers that are present; positions have
    to stay small enough for the [int] arithmetic. *)
Definition heap_op_ok (m : gmap Z TimerNode) (op : heap_op) : Prop :=
  match op with
  | HPush _ => Z.of_nat (size m) + 1 < 2 ^ 28
  | HReset id _ | HExtend _ id _ => is_Some (m !! id)
  | _ => True
  end.

Fixpoint heap_run (h : FourHeap) (ops : list heap_op) : result (list bool * FourHeap) :=
  match ops with
  | [] => Ok ([], h)
  | op :: ops =>
      '(o, h1) ← heap_step h op;
      '(os, h2) ← heap_run h1 ops;
      Ok (o :: os, h2)
  end.

Fixpoint map_run (m : gmap Z TimerNode) (ops : list heap_op)
    : result (list bool * gmap Z TimerNode) :=
  match ops with
  | [] => Ok ([], m)
  | op :: ops =>
      '(o, m1) ← map_step m op;
      '(os, m2) ← map_run m1 ops;
      Ok (o :: os, m2)
  end.

Fixpoint heap_ops_ok (m : gmap Z TimerNode) (ops : list heap_op) : Prop :=
  match ops with
  | [] => True
  | op :: ops => heap_op_ok m op /\
      match map_step m op with Ok (_, m1) => heap_ops_ok m1 ops | Fault _ => True end
  end.

Lemma heap_step_refines h op :
  Inv h -> heap_op_ok (nodes h) op ->
  match map_step (nodes h) op with
  | Ok (o, m) => exists h', heap_step h op = Ok (o, h') /\ Inv h' /\ nodes h' = m
  | Fault f => heap_step h op = Fault f
  end.
Proof.
  intros Hinv Hok. destruct op as [nd|id|id|id t|interval id r|];
    cbn [map_step heap_step heap_op_ok] in *; unfold quiet.
  - destruct (push_spec h nd Hinv) as (h' & -> & ? & ?).
    { intros _. rewrite size_nodes in Hok by done. done. }
    by exists h'.
  - destruct (remove_spec h id Hinv) as (h' & -> & ? & ?). by exists h'.
  - rewrite find_nodes by done. by exists h.
  - destruct Hok as [nd Hnd]. destruct (reset_spec h id t nd Hinv Hnd) as (h' & -> & ? & Hn).
    exists h'. split; [done|]. split; [done|]. rewrite Hn. apply map_eq. intros s.
    rewrite lookup_insert, lookup_alter. case_decide; [subst; by rewrite Hnd|done].
  - destruct Hok as [nd Hnd]. rewrite Hnd. simpl.
    pose proof (extend_spec h interval id r nd Hinv Hnd) as He.
    destruct (extend_node interval r nd) as [nd'|f]; simpl; [|by rewrite He].
    destruct He as (h' & -> & ? & ?). by exists h'.
  - exists empty_heap. split; [done|]. split; [apply inv_empty|done].
Qed.

(** C17: The heap implements a finite map from timer ids to timers.  Any sequence
    of calls gives the answers the map gives and leaves the map's timers: a
    push adds or replaces exactly one, [remove] drops exactly the one asked
    for, [reset] and [extend] change exactly the one they name, whatever the
    sifting does.  No call reads or writes outside the vector, and every
    sifting loop finishes. *)
Theorem heap_refines_map (ops : list heap_op) (h : FourHeap) :
  Inv h -> heap_ops_ok (nodes h) ops ->
  match map_run (nodes h) ops with
  | Ok (outs, m) => exists h', heap_run h ops = Ok (outs, h') /\ Inv h' /\ nodes h' = m
  | Fault f => heap_run h ops = Fault f
  end.
Proof.
  revert h. induction ops as [|op ops IH]; intros h Hinv Hok; cbn [map_run heap_run].
  { by exists h. }
  destruct Hok as [Hop Hrest]. pose proof (heap_step_refines h op Hinv Hop) as Hs.
  destruct (map_step (nodes h) op) as [[o m1]|f]; simpl; [|by rewrite Hs].
  destruct Hs as (h1 & -> & Hinv1 & <-). simpl. specialize (IH h1 Hinv1 Hrest).
  destruct (map_run (nodes h1) ops) as [[os m2]|f]; simpl; [|by rewrite IH].
  destruct IH as (h2 & -> & ? & ?). by exists h2.
Qed.

Definition demo_node (id t : Z) : TimerNode := mkTimerNode id 1 true t 0.

Definition demo_heap_ops : list heap_op :=
  [HPush (demo_node 1 50); HPush (demo_node 2 40); HPush (demo_node 3 30); HRemove 2;
   HFind 2; HReset 1 10; HFind 1].

Theorem heap_refines_map_witness :
  exists h', heap_run empty_heap demo_heap_ops =
      Ok ([false; false; false; true; false; false; true], h') /\ Inv h' /\
    nodes h' = <[1 := demo_node 1 10]> {[3 := demo_node 3 30]}.
Proof.
  refine (heap_refines_map demo_heap_ops empty_heap inv_empty _).
  vm_compute. repeat split. eauto.
Defined.

(** [pop] takes out the node [front] shows and nothing else. *)
Theorem pop_removes_front (h : FourHeap) :
  Inv h ->
  match front h with
  | Ok nd => exists h', pop h = Ok h' /\ Inv h' /\ nodes h' = delete (node_seq_ nd) (nodes h)
  | Fault _ => pop h = Fault AssertFailed
  end.
Proof.
  intros Hinv. destruct (front h) as [nd|f] eqn:Hf; [by apply pop_spec|].
  unfold pop, hsize. destruct (heap_ h) as [|x l] eqn:Hl; [done|].
  unfold front, heap_at in Hf. by rewrite Hl in Hf.
Qed.

Definition demo_heap : FourHeap :=
  mkFourHeap [demo_node 7 5; demo_node 9 8] (<[9 := 1]> {[7 := 0]}).

Lemma demo_heap_inv : Inv demo_heap.
Proof.
  split.
  - intros [|[|i]] nd [= <-]; reflexivity.
  - intros s p. unfold demo_heap; simpl.
    rewrite lookup_insert_Some, lookup_singleton_Some.
    intros [[<- <-]|(_ & <- & <-)]; [exists 1%nat|exists 0%nat]; eexists; done.
  - vm_compute. reflexivity.
Qed.

Theorem pop_removes_front_witness :
  exists h', pop demo_heap = Ok h' /\ Inv h' /\ nodes h' = delete 7 (nodes demo_heap).
Proof. exact (pop_removes_front demo_heap demo_heap_inv). Defined.

(** ** Order: what the sifting keeps *)

(** The root expires no later than any node. *)
Definition root_min (h : FourHeap) : Prop :=
  forall t0 k t, tm h 0 = Some t0 -> tm h k = Some t -> t0 <= t.

(** The same, but for the node at one position. *)
Definition root_min_but (pos : nat) (h : FourHeap) : Prop :=
  forall t0 k t, k <> pos -> tm h 0 = Some t0 -> tm h k = Some t -> t0 <= t.

Section order_lemmas.
Implicit Types (h : FourHeap) (nd : TimerNode) (i j k pos : nat).

Lemma tm_elem h t : (exists k, tm h k = Some t) <-> exists x, x ∈ heap_ h /\ timer_ x = t.
Proof.
  unfold tm. split.
  - intros [k Hk]. destruct (heap_ h !! k) as [x|] eqn:Hx; [|done]. simpl in Hk. simplify_eq.
    exists x. split; [|done]. by apply list_elem_of_lookup_2 in Hx.
  - intros (x & [k Hk]%list_elem_of_lookup & <-). exists k. by rewrite Hk.
Qed.

Lemma root_min_perm h h' :
  heap_ h' ≡ₚ heap_ h -> tm h' 0 = tm h 0 -> root_min h -> root_min h'.
Proof.
  intros Hp H0 Hm t0 k t Ht0 Ht. rewrite H0 in Ht0.
  destruct (proj1 (tm_elem h' t) (ex_intro _ k Ht)) as (x & Hx & Htx).
  rewrite Hp in Hx. destruct (proj2 (tm_elem h t) (ex_intro _ x (conj Hx Htx))) as [k' Hk'].
  by apply (Hm t0 k').
Qed.

Lemma tm_exchange h i j k h' :
  heap_ h' = exchange (heap_ h) i j -> (i < length (heap_ h))%nat -> (j < length (heap_ h))%nat ->
  tm h' k = if decide (k = j) then tm h i else if decide (k = i) then tm h j else tm h k.
Proof. intros Hh Hi Hj. unfold tm. rewrite Hh, exchange_lookup by done. by repeat case_decide. Qed.

(** Beyond position 0 a heap of at most eight nodes has no position the code
    takes for a child. *)
Lemma shif_down_leaf h pos :
  Inv h -> (0 < pos < length (heap_ h))%nat -> (length (heap_ h) <= 8)%nat ->
  shif_down_ h (Z.of_nat pos) = Ok (h, 0).
Proof.
  intros Hinv Hpos Hlen. rewrite shif_down_unfold by (done || lia). cbn [shif_down_loop].
  unfold hsize. by destruct (Z.ltb_spec (8 * Z.of_nat pos) (Z.of_nat (length (heap_ h)))); [lia|].
Qed.

(** With at most four nodes, sifting the root down brings up the minimum. *)
Lemma shif_down_root h :
  Inv h -> (0 < length (heap_ h) <= 4)%nat ->
  exists h' cnt, shif_down_ h 0 = Ok (h', cnt) /\ Inv h' /\ heap_ h' ≡ₚ heap_ h /\
    root_min h' /\ (cnt = 0 -> h' = h).
Proof.
  intros Hinv Hlen. change 0 with (Z.of_nat 0) at 1.
  rewrite shif_down_unfold by (done || lia).
  destruct (lookup_lt_is_Some_2 (heap_ h) 0) as [r Hr]; [lia|].
  destruct (length (heap_ h)) as [|m] eqn:Hl; [lia|]. cbn [shif_down_loop].
  change (8 * Z.of_nat 0) with (Z.of_nat 0).
  unfold hsize at 1. destruct (Z.ltb_spec (Z.of_nat 0) (Z.of_nat (length (heap_ h)))); [|lia].
  rewrite (heap_at_lookup _ _ _ Hr), bind_ok.
  assert (Hbound : forall k t, tm h k = Some t -> (0 <= k < 0 + 4)%nat).
  { intros k t Ht. unfold tm in Ht. destruct (heap_ h !! k) eqn:E; [|done].
    apply lookup_lt_Some in E. lia. }
  assert (H0 : tm h 0 = Some (timer_ r)) by (unfold tm; by rewrite Hr).
  destruct (mini_loop_spec 4 h 0 (get_timer r) (-1))
    as (x & -> & [[-> Hall]|(r' & tr & -> & Hr' & Ht & Hlt & Hall)]); rewrite bind_ok.
  - simpl. exists h, 0. repeat (split; try done). intros t0 k t Ht0 Ht.
    rewrite H0 in Ht0. simplify_eq. apply (Hall k t); [by apply (Hbound k t)|done].
  - destruct (Z.eqb_spec (Z.of_nat r') (-1)) as [|_]; [lia|].
    unfold get_timer in Hlt.
    assert (r' <> 0)%nat by (intros ->; rewrite H0 in Ht; simplify_eq; lia).
    assert (Hr'l : (r' < length (heap_ h))%nat).
    { unfold tm in Ht. destruct (heap_ h !! r') eqn:E; [|done]. by apply lookup_lt_Some in E. }
    destruct (swap_spec h 0 r' Hinv ltac:(lia) Hr'l) as (h1 & -> & Hh1 & Hinv1). rewrite bind_ok.
    rewrite Z.shiftl_mul_pow2, s32_small by lia.
    destruct m as [|m]; [lia|]. cbn [shif_down_loop]. unfold hsize.
    destruct (Z.ltb_spec (Z.of_nat r' * 2 ^ (2 + 1)) (Z.of_nat (length (heap_ h)))); [lia|].
    exists h1, (0 + 1). do 2 (split; [done|]). rewrite Hh1. split; [apply exchange_Permutation|].
    split; [|done]. intros t0 k t. rewrite !(tm_exchange h 0 r' _ h1) by (done || lia).
    rewrite decide_False by lia. rewrite decide_True by done. intros Ht0 Htk.
    assert (tr = t0) as -> by congruence.
    repeat case_decide; apply (Hall _ _ (Hbound _ _ Htk) Htk).
Qed.

Lemma tm_lt h pos : (pos < length (heap_ h))%nat -> is_Some (tm h pos).
Proof. intros [nd Hnd]%lookup_lt_is_Some. unfold tm. rewrite Hnd. by eexists. Qed.

(** A possibly misplaced node of a small heap climbs to the root if it expires
    before it. *)
Lemma shif_up_root_min h pos :
  Inv h -> (0 < pos < length (heap_ h))%nat -> (pos <= 4)%nat -> root_min_but pos h ->
  exists h' cnt, shif_up_ h (Z.of_nat pos) = Ok (h', cnt) /\ root_min h'.
Proof.
  intros Hinv Hpos Hlen Hm. destruct (shif_up_spec h pos Hinv) as (-> & _ & Hp); [lia|].
  destruct (shif_up_once h pos) as [h' cnt] eqn:Honce. exists h', cnt. split; [reflexivity|].
  assert (Hpar : parent pos = 0%nat) by (unfold parent; apply Nat.div_small; lia).
  destruct (lookup_lt_is_Some_2 (heap_ h) pos) as [nd Hnd]; [lia|].
  destruct (lookup_lt_is_Some_2 (heap_ h) 0) as [p Hp0]; [lia|].
  assert (Ht0 : tm h 0 = Some (timer_ p)) by (unfold tm; by rewrite Hp0).
  assert (Htp : tm h pos = Some (timer_ nd)) by (unfold tm; by rewrite Hnd).
  unfold shif_up_once in Honce. rewrite Hpar, Hp0, Hnd in Honce. unfold node_leb in Honce.
  destruct (Z.leb_spec (timer_ p) (timer_ nd)); injection Honce as <- _.
  - intros t0 k t Hk0 Hk. destruct (decide (k = pos)) as [->|]; [congruence|by apply (Hm t0 k t)].
  - match goal with |- root_min ?h1 =>
      pose proof (fun k => tm_exchange h pos 0 k h1 eq_refl ltac:(lia) ltac:(lia)) as Hx
    end.
    intros t0 k t. rewrite !Hx. rewrite decide_True by done. intros Hk0 Hk.
    assert (t0 = timer_ nd) as -> by congruence. repeat case_decide; simplify_eq; try lia; [].
    assert (timer_ p <= t) by (by apply (Hm (timer_ p) k t)). lia.
Qed.

(** Sifting one possibly misplaced node of a small heap. *)
Lemma sift_root_min h pos :
  Inv h -> (pos < length (heap_ h))%nat -> (length (heap_ h) <= 4)%nat ->
  (pos <> 0%nat -> root_min_but pos h) ->
  exists h', sift h (Z.of_nat pos) = Ok h' /\ root_min h'.
Proof.
  intros Hinv Hpos Hlen Hm. unfold sift. destruct pos as [|pos].
  - destruct (shif_down_root h Hinv ltac:(lia)) as (h' & cnt & Hd & _ & Hp & Hrm & Heq).
    change (Z.of_nat 0) with 0. rewrite Hd, bind_ok. cbv beta iota.
    destruct (Z.eqb_spec cnt 0); [|by exists h'].
    rewrite shif_up_root; [by exists h'|]. intros Hnil. rewrite Hnil in Hp.
    apply Permutation_nil_l in Hp. rewrite <-Hp in Hpos. simpl in Hpos. lia.
  - rewrite shif_down_leaf, bind_ok by (done || lia). cbv beta iota. rewrite Z.eqb_refl.
    destruct (shif_up_root_min h (S pos) Hinv) as (h' & cnt & -> & Hrm); [lia|lia|by apply Hm|].
    by exists h'.
Qed.

Lemma root_min_set h i nd h' :
  root_min h -> heap_ h' = <[i := nd]> (heap_ h) -> i <> 0%nat -> root_min_but i h'.
Proof.
  intros Hm Hh Hi t0 k t Hk. unfold tm. rewrite Hh.
  rewrite !list_lookup_insert_ne by done. apply Hm.
Qed.
End order_lemmas.

Section small_heaps.
Implicit Types (h : FourHeap) (nd : TimerNode) (i : nat).

Lemma index_node h id p :
  Inv h -> index_ h !! id = Some p ->
  exists i nd, p = Z.of_nat i /\ heap_ h !! i = Some nd /\ node_seq_ nd = id /\
    (i < length (heap_ h))%nat /\ u64 (Z.of_nat i) = Z.of_nat i.
Proof.
  intros Hinv (i & nd & -> & Hi & Hs)%(inv_heap _ Hinv). exists i, nd.
  pose proof (lookup_lt_Some _ _ _ Hi). pose proof (inv_small _ Hinv) as Hsm.
  unfold hsize in Hsm. repeat (split; try done). apply u64_small. lia.
Qed.

Lemma push_root_min h nd :
  Inv h -> root_min h -> (length (heap_ h) <= 4)%nat ->
  exists h', push h nd = Ok h' /\ root_min h'.
Proof.
  intros Hinv Hm Hlen. unfold push, get_node_seq.
  destruct (index_ h !! node_seq_ nd) as [p|] eqn:Hi.
  - destruct (index_node h _ p Hinv Hi) as (i & x & -> & Hx & Hs & Hil & Hu). rewrite Hu.
    destruct (heap_set_spec h i x nd) as (h1 & -> & Hinv1 & Hh1 & _); [done..|]. rewrite bind_ok.
    assert (length (heap_ h1) = length (heap_ h)) by (rewrite Hh1; apply length_insert).
    apply sift_root_min; [done|lia|lia|]. intros. by apply (root_min_set h i nd).
  - pose proof (push_fresh_inv h nd Hinv Hi) as Hinv1. unfold hsize in *.
    specialize (Hinv1 ltac:(lia)). rewrite s32_small in * by lia.
    set (h1 := mkFourHeap _ _) in *. simpl. rewrite length_app; simpl.
    assert (Hl1 : length (heap_ h1) = S (length (heap_ h))).
    { unfold h1. simpl. rewrite length_app. simpl. lia. }
    destruct (Z.eqb_spec (Z.of_nat (length (heap_ h) + 1)) 1) as [H1|H1].
    + exists h1. split; [done|]. intros t0 [|k] t Ht0 Ht; [by simplify_eq; lia|].
      unfold tm in Ht. rewrite lookup_ge_None_2 in Ht; [done|lia].
    + rewrite u64_small by lia.
      assert (Hold : forall k t, k <> length (heap_ h) -> tm h1 k = Some t -> tm h k = Some t).
      { intros k t Hk. unfold tm, h1. simpl.
        destruct (lt_dec k (length (heap_ h))); [by rewrite lookup_app_l|].
        rewrite lookup_ge_None_2; [done|]. rewrite length_app. simpl. lia. }
      destruct (shif_up_root_min h1 (length (heap_ h)) Hinv1) as (h' & cnt & -> & Hrm); [lia|lia| |by exists h'].
      intros t0 k t Hk Ht0 Ht. apply (Hm t0 k t); apply Hold; (done || lia).
Qed.

(** The first step of [destory_]: the node goes to the end. *)
Lemma moved_to_last h i x h1 :
  Inv h -> heap_ h !! i = Some x -> (i < length (heap_ h))%nat ->
  (if Z.of_nat i <? Z.of_nat (length (heap_ h) - 1)
   then swap_ h (Z.of_nat i) (Z.of_nat (length (heap_ h) - 1)) else Ok h) = Ok h1 ->
  Inv h1 /\ length (heap_ h1) = length (heap_ h) /\ last (heap_ h1) = Some x /\
  (i <> 0%nat -> forall k, k <> i -> k <> (length (heap_ h) - 1)%nat -> tm h1 k = tm h k).
Proof.
  intros Hinv Hx Hil. destruct (Z.ltb_spec (Z.of_nat i) (Z.of_nat (length (heap_ h) - 1))); intros Ha.
  - destruct (swap_spec h i (length (heap_ h) - 1)) as (h2 & Hsw & Hh2 & Hinv2); [done|lia|lia|].
    assert (h1 = h2) as -> by congruence. split; [done|].
    rewrite last_lookup, Hh2, length_exchange, <-Nat.sub_1_r. split; [done|]. split.
    + rewrite exchange_lookup by lia. by rewrite decide_True.
    + intros _ k Hk1 Hk2. rewrite (tm_exchange h i (length (heap_ h) - 1)) by (done || lia).
      by rewrite !decide_False.
  - simplify_eq. repeat (split; try done). rewrite last_lookup, <-Nat.sub_1_r.
    by replace (length (heap_ h1) - 1)%nat with i by lia.
Qed.

Lemma remove_root_min h id h' b :
  Inv h -> root_min h -> (length (heap_ h) <= 5)%nat ->
  remove h id = Ok (h', b) -> root_min h'.
Proof.
  intros Hinv Hm Hlen. unfold remove.
  destruct (index_ h !! id) as [p|] eqn:Hi; [|by intros [= <- _]].
  destruct (index_node h id p Hinv Hi) as (i & x & -> & Hx & Hs & Hil & ->).
  intros Hrem. inv_bind Hrem. simplify_eq. revert Ha. unfold destory_; cbv zeta.
  replace (u64 (hsize h - 1)) with (Z.of_nat (length (heap_ h) - 1))
    by (unfold hsize; rewrite u64_small by lia; lia).
  rewrite assert_true by (apply Z.leb_le; lia).
  intros Hd. inv_bind Hd. rename a into h1.
  destruct (moved_to_last h i x h1 Hinv Hx Hil Ha) as (Hinv1 & Hl1 & Hlast & Hsame).
  rewrite Hlast in Hd. simpl in Hd.
  destruct (drop_last_spec h1 x Hinv1 Hlast) as [Hinv2 Hp2].
  set (h2 := mkFourHeap (take _ _) _) in *.
  assert (Hl2 : length (heap_ h2) = (length (heap_ h) - 1)%nat).
  { unfold h2; simpl. rewrite length_take. lia. }
  assert (Hbut : i <> 0%nat -> root_min_but i h2).
  { intros Hi0 t0 k t Hk Ht0 Ht.
    assert (Htm : forall k t, k <> i -> tm h2 k = Some t -> tm h k = Some t).
    { clear - Hsame Hi0 Hl1. intros k t Hk Ht. unfold tm, h2 in Ht. simpl in Ht.
      destruct (take _ _ !! k) as [y|] eqn:E; [|done].
      apply lookup_take_Some in E as [E Hkl].
      rewrite <-Hsame; [unfold tm; by rewrite E|done|done|lia]. }
    apply (Hm t0 k t); apply Htm; done. }
  revert Hd. destruct (Z.ltb_spec (Z.of_nat i) (hsize h2)) as [Hlt|Hge]; intros Hd.
  - unfold hsize in Hlt. destruct (sift_root_min h2 i) as (h3 & Hsift & Hrm);
      [done|lia|lia|done|]. rewrite Hsift in Hd. by simplify_eq.
  - assert (h' = h2) as -> by congruence. unfold hsize in Hge.
    destruct (decide (i = 0%nat)) as [->|Hi0].
    + intros t0 k t Ht0. unfold tm in Ht0. rewrite lookup_ge_None_2 in Ht0; [done|lia].
    + intros t0 k t Ht0 Ht. apply (Hbut Hi0 t0 k t); [|done|done]. intros ->.
      unfold tm in Ht. rewrite lookup_ge_None_2 in Ht; [done|lia].
Qed.

Lemma update_root_min h i nd nd' h' :
  Inv h -> root_min h -> (length (heap_ h) <= 4)%nat ->
  heap_ h !! i = Some nd -> node_seq_ nd' = node_seq_ nd -> timer_ nd <= timer_ nd' ->
  (h2 ← heap_set h (Z.of_nat i) nd'; fst <$> shif_down_ h2 (u64 (Z.of_nat i))) = Ok h' ->
  root_min h'.
Proof.
  intros Hinv Hm Hlen Hi Hs Ht. destruct (heap_set_spec h i nd nd') as (h1 & -> & Hinv1 & Hh1 & _); [done..|].
  pose proof (lookup_lt_Some _ _ _ Hi).
  assert (Hl1 : length (heap_ h1) = length (heap_ h)) by (rewrite Hh1; apply length_insert).
  rewrite bind_ok, u64_small by lia. destruct i as [|i].
  - change (Z.of_nat 0) with 0.
    destruct (shif_down_root h1 Hinv1) as (h2 & cnt & -> & _ & _ & Hrm & _); [lia|].
    simpl. by intros [= <-].
  - rewrite shif_down_leaf by (done || lia). simpl. intros [= <-].
    pose proof (root_min_set h (S i) nd' h1 Hm Hh1 ltac:(done)) as Hbut.
    intros t0 k t Ht0 Htk. destruct (decide (k = S i)) as [->|]; [|by apply (Hbut t0 k t)].
    unfold tm in Ht0, Htk. rewrite Hh1 in *. rewrite list_lookup_insert_ne in Ht0 by done.
    rewrite list_lookup_insert_eq in Htk by done. simpl in Htk. simplify_eq.
    assert (t0 <= timer_ nd); [|lia]. apply (Hm t0 (S i)); unfold tm; [done|by rewrite Hi].
Qed.

Lemma reset_root_min h id t nd h' :
  Inv h -> root_min h -> (length (heap_ h) <= 4)%nat -> nodes h !! id = Some nd -> timer_ nd <= t ->
  reset h id t = Ok h' -> root_min h'.
Proof.
  intros Hinv Hm Hsz Hnd Ht Hr. apply nodes_lookup in Hnd as [Hin Hid]; [|done].
  apply list_elem_of_lookup in Hin as [i Hi]. pose proof (inv_index _ Hinv _ _ Hi) as Hx. rewrite Hid in Hx.
  unfold reset, index_at in Hr. rewrite Hx in Hr. rewrite (heap_at_lookup _ _ _ Hi), bind_ok in Hr.
  apply (update_root_min h i nd (set_timer_stamp t nd)); [done..|].
  revert Hr. destruct (heap_set_spec h i nd (set_timer_stamp t nd)) as (h1 & -> & _ & _ & Hidx);
    [done..|]. by rewrite !bind_ok, Hidx, Hx.
Qed.
End small_heaps.

(** The calls a queue of timers makes: a timer that is rescheduled moves
    later, never earlier. *)
Definition postpones (m : gmap Z TimerNode) (op : heap_op) : Prop :=
  match op with
  | HReset id t => forall nd, m !! id = Some nd -> timer_ nd <= t
  | HExtend interval id r => forall nd nd', m !! id = Some nd ->
      extend_node interval r nd = Ok nd' -> timer_ nd <= timer_ nd'
  | _ => True
  end.

(** With at most four timers the root is always one that expires first: every
    call keeps it so, although the heap as a whole is not ordered.  (The web
    server itself runs two timers.) *)
Theorem small_heap_root_min (h h' : FourHeap) (op : heap_op) (o : bool) :
  Inv h -> root_min h -> (size (nodes h) <= 4)%nat ->
  heap_op_ok (nodes h) op -> postpones (nodes h) op ->
  heap_step h op = Ok (o, h') -> Inv h' /\ root_min h'.
Proof.
  intros Hinv Hm Hsz Hok Hpost Hstep. split.
  { pose proof (heap_step_refines h op Hinv Hok) as Hr.
    destruct (map_step _ _) as [[o' m]|]; [|congruence].
    destruct Hr as (h2 & Hh2 & ? & _). congruence. }
  rewrite size_nodes in Hsz by done.
  destruct op as [nd|id|id|id t|interval id r|]; cbn [heap_step heap_op_ok postpones] in *;
    unfold quiet in *.
  - destruct (push_root_min h nd Hinv Hm Hsz) as (h2 & Hp & ?).
    rewrite Hp in Hstep. by simplify_eq/=.
  - inv_bind Hstep. destruct a as [h2 b]. simplify_eq.
    apply (remove_root_min h id h' o); [done|done|lia|done].
  - by simplify_eq.
  - destruct Hok as [nd Hnd]. inv_bind Hstep. simplify_eq.
    by apply (reset_root_min h id t nd); [..|apply Hpost|].
  - destruct Hok as [nd Hnd]. pose proof Hnd as [Hin Hid]%nodes_lookup; [|done].
    apply list_elem_of_lookup in Hin as [i Hi]. pose proof (inv_index _ Hinv _ _ Hi) as Hx.
    rewrite Hid in Hx.
    inv_bind Hstep. simplify_eq. unfold extend, index_at in Ha. rewrite Hx in Ha.
    rewrite (heap_at_lookup _ _ _ Hi), bind_ok in Ha.
    inv_bind Ha. rename a into nd'.
    apply (update_root_min h i nd nd' h'); try done; [|by apply (Hpost nd nd')].
    unfold extend_node, add in Ha0. inv_bind Ha0. inv_bind Ha0. by simplify_eq.
  - simplify_eq. by intros t0 k t Ht0.
Qed.

Lemma demo_heap_root_min : root_min demo_heap.
Proof.
  intros t0 k t Ht0 Ht. vm_compute in Ht0. simplify_eq.
  destruct k as [|[|k]]; vm_compute in Ht; by simplify_eq.
Qed.

Theorem small_heap_root_min_witness :
  exists h', heap_step demo_heap (HPush (demo_node 3 1)) = Ok (false, h') /\ Inv h' /\ root_min h'.
Proof.
  eexists. split; [vm_compute; reflexivity|].
  refine (small_heap_root_min demo_heap _ (HPush (demo_node 3 1)) false
            demo_heap_inv demo_heap_root_min _ _ I _).
  - vm_compute. lia.
  - vm_compute. reflexivity.
  - vm_compute. reflexivity.
Defined.

(** Beyond five timers the order is lost: a sixth timer that expires before
    all others climbs one level only, and the front is not the earliest. *)
Definition six_pushes : list heap_op :=
  map (fun '(id, t) => HPush (demo_node id t))
      [(1, 10); (2, 10); (3, 10); (4, 10); (5, 10); (6, 1)].

(** [shif_up_] recomputes [j] from the position it was called with, so the
    loop stops after one exchange.  Pushing six timers, the last of them the
    earliest, leaves a later one at the front. *)
Theorem push_climbs_one_level :
  (forall (h : FourHeap) (pos : nat), Inv h -> (0 < pos < length (heap_ h))%nat ->
     shif_up_ h (Z.of_nat pos) = Ok (shif_up_once h pos)) /\
  exists outs h, heap_run empty_heap six_pushes = Ok (outs, h) /\
    front h = Ok (demo_node 1 10) /\ nodes h !! 6 = Some (demo_node 6 1).
Proof.
  split.
  - intros h pos Hinv Hpos. by destruct (shif_up_spec h pos).
  - eexists _, _. split; [vm_compute; reflexivity|]. split; vm_compute; reflexivity.
Qed.

(** ** A missing id *)

(** A stray key in the index. *)
Definition stray (id : Z) (h : FourHeap) : FourHeap :=
  mkFourHeap (heap_ h) (<[id := 0]> (index_ h)).

Section stray_lemmas.
Context (id : Z).
Implicit Types (h : FourHeap).

Definition absent h : Prop := forall nd, nd ∈ heap_ h -> node_seq_ nd <> id.

Lemma heap_at_stray h k : heap_at (stray id h) k = heap_at h k.
Proof. done. Qed.

Lemma mini_loop_stray steps h n k mini mi :
  mini_loop steps (stray id h) n k mini mi = mini_loop steps h n k mini mi.
Proof.
  revert k mini mi. induction steps as [|steps IH]; intros k mini mi; simpl; [done|].
  rewrite heap_at_stray. destruct (k <? n); [|done].
  destruct (heap_at h k); simpl; [|done]. by destruct (_ <? _).
Qed.

Lemma heap_at_elem h k nd : heap_at h k = Ok nd -> nd ∈ heap_ h.
Proof. intros [_ Hk]%heap_at_ok. by apply list_elem_of_lookup_2 in Hk. Qed.

Lemma swap_stray h l r :
  absent h -> swap_ (stray id h) l r = stray id <$> swap_ h l r.
Proof.
  intros Habs. unfold swap_. rewrite !heap_at_stray.
  destruct (heap_at h l) as [a|]; simpl; [|done].
  destruct (heap_at h r) as [b|]; simpl; [|done].
  set (hx := exchange _ _ _).
  assert (Hx : forall k nd, heap_at (mkFourHeap hx (index_ h)) k = Ok nd -> node_seq_ nd <> id).
  { intros k nd Hk%heap_at_elem. simpl in Hk. apply Habs.
    unfold hx in Hk. by rewrite exchange_Permutation in Hk. }
  assert (Hat : forall m k, heap_at (mkFourHeap hx m) k = heap_at (mkFourHeap hx (index_ h)) k)
    by done.
  rewrite (Hat (<[id:=0]> (index_ h)) l), (Hat (<[id:=0]> (index_ h)) r).
  destruct (heap_at _ l) as [x|] eqn:Hl; simpl; [|done].
  destruct (heap_at _ r) as [y|] eqn:Hr; simpl; [|done].
  apply Hx in Hl, Hr. unfold stray; simpl. do 2 f_equal. unfold get_node_seq.
  rewrite (insert_insert_ne _ (node_seq_ x) id), (insert_insert_ne _ (node_seq_ y) id) by done.
  done.
Qed.

Lemma swap_absent h l r h' : absent h -> swap_ h l r = Ok h' -> absent h'.
Proof.
  intros Habs Hsw nd Hnd. apply Habs. unfold swap_ in Hsw.
  do 4 inv_bind Hsw. simplify_eq. simpl in Hnd. by rewrite exchange_Permutation in Hnd.
Qed.

Lemma shif_down_loop_stray fuel h n i j cnt :
  absent h -> shif_down_loop fuel (stray id h) n i j cnt =
    prod_map (stray id) (fun c => c) <$> shif_down_loop fuel h n i j cnt.
Proof.
  revert h i j cnt. induction fuel as [|fuel IH]; intros h i j cnt Habs;
    cbn [shif_down_loop]; [done|].
  destruct (j <? n); [|done]. rewrite heap_at_stray.
  destruct (heap_at h i) as [ni|]; [|done]. rewrite !bind_ok, mini_loop_stray.
  destruct (mini_loop 4 h n j (get_timer ni) (-1)) as [mi|]; [|done]. rewrite !bind_ok.
  destruct (mi =? -1); [done|]. rewrite swap_stray by done.
  destruct (swap_ h i mi) as [h1|] eqn:Hsw; [|done].
  simpl. apply IH. by apply (swap_absent h i mi).
Qed.
End stray_lemmas.

(** [reset] of an id that is not in the heap does not fail: [index_\[id\]]
    inserts position 0, so the timer at the root is the one rescheduled, and
    from then on [find] answers that the absent id is present.  On an empty
    heap the access is out of range. *)
Lemma reset_missing (h : FourHeap) (id : TimerId) (t : TimerStamp) :
  Inv h -> index_ h !! id = None ->
  match heap_ h !! 0%nat with
  | Some root => exists h', reset h id t = Ok h' /\ find h' id = true /\
      nodes h' = <[node_seq_ root := set_timer_stamp t root]> (nodes h) /\
      nodes h' !! id = None
  | None => reset h id t = Fault OutOfRange
  end.
Proof.
  intros Hinv Hid. destruct (heap_ h !! 0%nat) as [root|] eqn:Hroot.
  2: { unfold reset, index_at. rewrite Hid. unfold heap_at. cbn -[lookup].
       change (Z.to_nat 0) with 0%nat. by rewrite Hroot. }
  unfold reset, index_at. rewrite Hid.
  rewrite (heap_at_stray id h 0 : heap_at (mkFourHeap _ _) 0 = _).
  rewrite (heap_at_lookup h 0 root Hroot : heap_at h 0 = _), bind_ok.
  destruct (heap_set_spec h 0 root (set_timer_stamp t root)) as (h1 & Hset & Hinv1 & Hh1 & Hidx);
    [done..|].
  assert (heap_set (mkFourHeap (heap_ h) (<[id := 0]> (index_ h))) 0 (set_timer_stamp t root)
    = Ok (stray id h1)) as ->.
  { unfold heap_set in *. change (Z.of_nat 0) with 0 in Hset.
    rewrite (heap_at_stray id h 0 : heap_at (mkFourHeap _ _) 0 = _).
    inv_bind Hset. rewrite Ha, bind_ok. simplify_eq. done. }
  rewrite bind_ok. simpl. rewrite lookup_insert_eq.
  change (u64 0) with (Z.of_nat 0).
  destruct (shif_down_spec h1 0 Hinv1) as (h2 & cnt & Hd & Hinv2 & Hp2 & _).
  { rewrite Hh1, length_insert. by apply lookup_lt_Some in Hroot. }
  assert (Hn1 : nodes h1 = <[node_seq_ root := set_timer_stamp t root]> (nodes h)).
  { by apply (nodes_heap_set h h1 0). }
  assert (Hid1 : nodes h1 !! id = None).
  { apply eq_None_not_Some. rewrite nodes_index by done. rewrite Hidx, Hid. by intros [? ?]. }
  assert (Habs : absent id h1).
  { intros nd Hnd Hs. assert (nodes h1 !! id = Some nd) by (by apply nodes_lookup). congruence. }
  assert (shif_down_ (stray id h1) (Z.of_nat 0) = Ok (stray id h2, cnt)) as ->.
  { unfold shif_down_ in *. change (heap_ (stray id h1)) with (heap_ h1).
    change (hsize (stray id h1)) with (hsize h1).
    rewrite (shif_down_loop_stray id) by done. by rewrite Hd. }
  exists (stray id h2). split; [done|]. split.
  - unfold find, stray. simpl. rewrite lookup_insert_eq. by apply bool_decide_true.
  - change (nodes (stray id h2)) with (nodes h2). rewrite (nodes_perm h1 h2) by done.
    by rewrite Hn1 in *.
Qed.
