(* ===== verification/Expired.v ===== *)
(** * Expired: collecting the expired timers ([FourHeap::get_k] in
    src/base/four_heap.cc)

    [get_k] walks the heap through a [std::priority_queue].  The queue is a
    type class here ([PriorityQueue]): the theorems hold for every container
    with the documented behaviour of [top] and [pop], and [list_pq] is one.
    The walk computes the next positions as [index_\[seq\] >> 2], and the queue
    is a max-heap: the theorems say what that returns, and that it returns
    nothing at all once every timer has expired. *)

From stdpp Require Import base list numbers gmap sorting.
From Stdlib Require Import ZArith Lia.
From S2P Require Import Prelude TimerNode FourHeap.

Local Open Scope Z_scope.

(** ** The priority queue and [get_k] *)

(** [std::priority_queue<TimerNode>] is a max-heap for [operator<]: [top] is
    some element with the largest expiry; which of several is up to the
    implementation. *)
Class PriorityQueue : Type := {
  pq_top : list TimerNode -> option (TimerNode * list TimerNode);
  pq_top_empty : pq_top [] = None;
  pq_top_some : forall q, q <> [] -> is_Some (pq_top q);
  pq_top_perm : forall q x q', pq_top q = Some (x, q') -> q ≡ₚ x :: q';
  pq_top_max : forall q x q', pq_top q = Some (x, q') ->
    Forall (fun y => timer_ y <= timer_ x) q'
}.

(** The inner loop: push the nodes at [top + i], [i = 1 .. 4]. *)
Fixpoint push_children (steps : nat) (h : FourHeap) (n k : Z) (q : list TimerNode)
    : result (list TimerNode) :=
  match steps with
  | O => Ok q
  | S steps' =>
      if k <? n then
        nk ← heap_at h k;
        push_children steps' h n (k + 1) (nk :: q)
      else Ok q
  end.

Section get_k.
Context {PQ : PriorityQueue}.

Fixpoint get_k_loop (fuel : nat) (h : FourHeap) (n timer : Z) (q res : list TimerNode)
    : result (list TimerNode * FourHeap) :=
  match fuel with
  | O => Fault OutOfFuel
  | S fuel' =>
      match pq_top q with
      | None => Ok (res, h)
      | Some (curr_node, q1) =>
          if timer <? get_timer curr_node then Ok (res, h)
          else
            let '(p, h1) := index_at h (get_node_seq curr_node) in
            let top := Z.shiftr p 2 in
            q2 ← push_children 4 h1 n (top + 1) q1;
            get_k_loop fuel' h1 n timer q2 (res ++ [curr_node])
      end
  end.

(** [fuel] bounds the number of rounds; [OutOfFuel] for every fuel means
    that the code does not return. *)
Definition get_k (fuel : nat) (h : FourHeap) (timer : TimerStamp)
    : result (list TimerNode * FourHeap) :=
  if hsize h =? 0 then Ok ([], h)
  else
    root ← heap_at h 0;
    get_k_loop fuel h (s32 (hsize h)) timer [root] [].
End get_k.

(** A list with its first maximum taken out. *)
Fixpoint take_max (x : TimerNode) (l : list TimerNode) : TimerNode * list TimerNode :=
  match l with
  | [] => (x, [])
  | y :: l' =>
      let '(m, r) := take_max y l' in
      if node_leb m x then (x, m :: r) else (m, x :: r)
  end.

Lemma take_max_perm x l m r : take_max x l = (m, r) -> x :: l ≡ₚ m :: r.
Proof.
  revert x m r. induction l as [|y l IH]; intros x m r; simpl; [by intros [= <- <-]|].
  destruct (take_max y l) as [m' r'] eqn:E. specialize (IH _ _ _ E).
  destruct (node_leb m' x); intros [= <- <-].
  - by rewrite IH.
  - rewrite IH. apply perm_swap.
Qed.

Lemma take_max_max x l m r :
  take_max x l = (m, r) -> Forall (fun y => timer_ y <= timer_ m) r.
Proof.
  revert x m r. induction l as [|y l IH]; intros x m r; simpl; [by intros [= <- <-]|].
  destruct (take_max y l) as [m' r'] eqn:E. specialize (IH _ _ _ E). unfold node_leb.
  destruct (Z.leb_spec (timer_ m') (timer_ x)); intros [= <- <-].
  - apply Forall_cons. split; [done|]. eapply Forall_impl; [done|]. simpl. lia.
  - apply Forall_cons. split; [lia|done].
Qed.

#[export] Program Instance list_pq : PriorityQueue := {|
  pq_top q := match q with [] => None | x :: l => Some (take_max x l) end
|}.
Next Obligation. done. Qed.
Next Obligation. intros [|x l] ?; [done|]. by eexists. Qed.
Next Obligation. intros [|y l] x q' H; [done|]. injection H as H. by apply take_max_perm. Qed.
Next Obligation. intros [|y l] x q' H; [done|]. injection H as H. by eapply take_max_max. Qed.

(** ** Lemmas *)

Section get_k_lemmas.
Context {PQ : PriorityQueue}.
Implicit Types (h : FourHeap) (q res : list TimerNode).

(** Every node in the queue is a node of the heap. *)
Definition queued h q : Prop := forall x, x ∈ q -> x ∈ heap_ h.

Lemma index_at_elem h x :
  Inv h -> x ∈ heap_ h ->
  exists i, index_at h (node_seq_ x) = (Z.of_nat i, h) /\ heap_ h !! i = Some x.
Proof.
  intros Hinv [i Hi]%list_elem_of_lookup. exists i. split; [|done].
  unfold index_at. by rewrite (inv_index _ Hinv _ _ Hi).
Qed.

Lemma push_children_spec steps h k q :
  queued h q ->
  exists q', push_children steps h (hsize h) (Z.of_nat k) q = Ok (q' ++ q) /\
    queued h (q' ++ q) /\
    (forall i x, (k <= i < k + steps)%nat -> heap_ h !! i = Some x -> x ∈ q') /\
    (forall x, x ∈ q' -> exists i, (k <= i < k + steps)%nat /\ heap_ h !! i = Some x).
Proof.
  revert k q. induction steps as [|steps IH]; intros k q Hq; simpl.
  { exists []. split; [done|]. split; [done|]. split; [lia|]. intros x []%not_elem_of_nil. }
  destruct (Z.ltb_spec (Z.of_nat k) (hsize h)) as [Hk|Hk]; unfold hsize in Hk.
  - destruct (lookup_lt_is_Some_2 (heap_ h) k) as [nk Hnk]; [lia|].
    rewrite (heap_at_lookup _ _ _ Hnk), bind_ok.
    replace (Z.of_nat k + 1) with (Z.of_nat (S k)) by lia.
    destruct (IH (S k) (nk :: q)) as (q' & -> & Hq' & Hin & Hfrom).
    { intros x [->|Hx]%elem_of_cons; [|by apply Hq]. by apply list_elem_of_lookup_2 in Hnk. }
    exists (q' ++ [nk]). rewrite <-app_assoc. simpl. split; [done|]. split; [done|]. split.
    + intros i x Hi Hx. apply elem_of_app. destruct (decide (i = k)) as [->|].
      * right. apply list_elem_of_singleton. congruence.
      * left. apply (Hin i); [lia|done].
    + intros x [Hx|Hx]%elem_of_app.
      * destruct (Hfrom x Hx) as (i & ? & ?). exists i. split; [lia|done].
      * apply list_elem_of_singleton in Hx as ->. exists k. split; [lia|done].
  - exists []. split; [done|]. split; [done|]. split.
    + intros i x Hi Hx. apply lookup_lt_Some in Hx. lia.
    + intros x []%not_elem_of_nil.
Qed.

(** One round on a queue of heap nodes: it stops at an unexpired maximum, or
    takes it and pushes the (wrongly computed) children. *)
Lemma get_k_round h fuel now q res :
  Inv h -> queued h q -> q <> [] ->
  exists x q1 i, pq_top q = Some (x, q1) /\ x ∈ q /\ x ∈ heap_ h /\ heap_ h !! i = Some x /\
    if now <? timer_ x then get_k_loop (S fuel) h (hsize h) now q res = Ok (res, h)
    else exists q', get_k_loop (S fuel) h (hsize h) now q res
                    = get_k_loop fuel h (hsize h) now (q' ++ q1) (res ++ [x]) /\
      queued h (q' ++ q1) /\
      (forall k y, (i / 4 < k <= i / 4 + 4)%nat -> heap_ h !! k = Some y -> y ∈ q') /\
      (forall y, y ∈ q' -> exists k, (i / 4 < k <= i / 4 + 4)%nat /\ heap_ h !! k = Some y).
Proof.
  intros Hinv Hq Hne. destruct (pq_top_some q Hne) as [[x q1] Htop].
  pose proof (pq_top_perm _ _ _ Htop) as Hperm.
  assert (Hx : x ∈ q) by (rewrite Hperm; apply elem_of_cons; by left).
  destruct (index_at_elem h x Hinv (Hq x Hx)) as (i & Hix & Hi).
  exists x, q1, i. split; [done|]. split; [done|]. split; [by apply Hq|]. split; [done|].
  cbn [get_k_loop]. rewrite Htop. unfold get_timer.
  destruct (Z.ltb_spec now (timer_ x)); [done|].
  unfold get_node_seq. rewrite Hix.
  rewrite Z.shiftr_div_pow2 by lia. change (2 ^ 2) with (Z.of_nat 4). rewrite <-Nat2Z.inj_div.
  replace (Z.of_nat (i / 4) + 1) with (Z.of_nat (S (i / 4))) by lia.
  destruct (push_children_spec 4 h (S (i / 4)) q1) as (q' & -> & Hq' & Hin & Hfrom).
  { intros y Hy. apply Hq. rewrite Hperm. apply elem_of_cons. by right. }
  exists q'. split; [done|]. split; [done|]. split.
  - intros k y Hk. apply Hin. lia.
  - intros y Hy. destruct (Hfrom y Hy) as (k & ? & ?). exists k. split; [lia|done].
Qed.

Lemma get_k_loop_sound fuel h now q res res' h' :
  Inv h -> queued h q -> Forall (fun x => x ∈ heap_ h /\ timer_ x <= now) res ->
  get_k_loop fuel h (hsize h) now q res = Ok (res', h') ->
  h' = h /\ Forall (fun x => x ∈ heap_ h /\ timer_ x <= now) res' /\ res `prefix_of` res'.
Proof.
  revert q res. induction fuel as [|fuel IH]; intros q res Hinv Hq Hres; [done|].
  destruct (decide (q = [])) as [->|Hne].
  { simpl. rewrite pq_top_empty. by intros [= <- <-]. }
  destruct (get_k_round h fuel now q res Hinv Hq Hne) as (x & q1 & i & _ & _ & Hx & _ & Hround).
  destruct (Z.ltb_spec now (timer_ x)); [rewrite Hround; by intros [= <- <-]|].
  destruct Hround as (q' & -> & Hq' & _). intros Hrun.
  assert (Hres' : Forall (fun x => x ∈ heap_ h /\ timer_ x <= now) (res ++ [x])).
  { apply Forall_app. split; [done|]. by apply Forall_singleton. }
  destruct (IH _ _ Hinv Hq' Hres' Hrun) as (-> & ? & Hpre).
  split; [done|]. split; [done|]. etransitivity; [|done]. by apply prefix_app_r.
Qed.

Lemma s32_hsize h : Inv h -> s32 (hsize h) = hsize h.
Proof. intros Hinv. pose proof (inv_small _ Hinv). unfold hsize in *. apply s32_small. lia. Qed.

Lemma get_k_start fuel h now root :
  Inv h -> heap_ h !! 0%nat = Some root ->
  get_k fuel h now = get_k_loop fuel h (hsize h) now [root] [].
Proof.
  intros Hinv Hroot. pose proof (lookup_lt_Some _ _ _ Hroot). unfold get_k.
  destruct (Z.eqb_spec (hsize h) 0) as [H0|]; [unfold hsize in H0; lia|].
  rewrite (heap_at_lookup h 0 root Hroot : heap_at h 0 = _), bind_ok.
  by rewrite s32_hsize.
Qed.

Lemma queued_root h root : heap_ h !! 0%nat = Some root -> queued h [root].
Proof. intros Hr x ->%list_elem_of_singleton. by apply list_elem_of_lookup_2 in Hr. Qed.
End get_k_lemmas.

(** ** What [get_k] returns *)

(** Whatever [get_k] returns is in the heap and has expired, the root first;
    the heap is not changed (expired nodes stay in it). *)
Theorem get_k_sound {PQ : PriorityQueue} (fuel : nat) (h h' : FourHeap) (now : TimerStamp)
    (res : list TimerNode) :
  Inv h -> get_k fuel h now = Ok (res, h') ->
  h' = h /\ Forall (fun x => x ∈ heap_ h /\ timer_ x <= now) res.
Proof.
  intros Hinv. destruct (heap_ h !! 0%nat) as [root|] eqn:Hroot.
  - rewrite (get_k_start fuel h now root) by done. intros Hrun.
    destruct (get_k_loop_sound fuel h now [root] [] res h') as (? & ? & _); try done.
    by apply queued_root.
  - unfold get_k. apply lookup_ge_None in Hroot.
    destruct (Z.eqb_spec (hsize h) 0) as [|H0]; [by intros [= <- <-]|].
    unfold hsize in H0. lia.
Qed.

(** When [get_k] returns at once: nothing when the root has not expired, and
    only the root when one of the positions 1 to 4 has not expired or there
    is no other timer.  Two rounds of the loop are enough.  Other expired
    timers are then left out, because the queue is read from its latest end. *)
Lemma get_k_returns {PQ : PriorityQueue} (fuel : nat) (h : FourHeap) (now : TimerStamp)
    (root : TimerNode) :
  Inv h -> heap_ h !! 0%nat = Some root ->
  if now <? timer_ root then get_k (S fuel) h now = Ok ([], h)
  else (length (heap_ h) = 1%nat \/
        exists k nd, (1 <= k <= 4)%nat /\ heap_ h !! k = Some nd /\ now < timer_ nd) ->
       get_k (S (S fuel)) h now = Ok ([root], h).
Proof.
  intros Hinv Hroot. rewrite !(get_k_start _ h now root) by done.
  assert (Hround := fun f => get_k_round h f now [root] [] Hinv (queued_root h root Hroot)
                       ltac:(done)).
  destruct (Hround fuel) as (x & q1 & i & Htop & Hx & _ & Hi & Hr).
  apply list_elem_of_singleton in Hx as ->.
  destruct (Z.ltb_spec now (timer_ root)); [done|]. clear Hr. intros Hsome.
  destruct (Hround (S fuel)) as (x & q2 & i' & Htop' & Hx & _ & Hi' & Hr).
  apply list_elem_of_singleton in Hx as ->.
  destruct (Z.ltb_spec now (timer_ root)); [lia|]. destruct Hr as (q' & -> & Hq' & Hin & Hfrom).
  assert (q1 = []) as ->.
  { apply pq_top_perm in Htop. apply Permutation_length in Htop. destruct q1; [done|]. simpl in Htop; lia. }
  assert (q2 = []) as -> by congruence. rewrite app_nil_r in *.
  assert (i' = 0%nat) as ->.
  { pose proof (inv_index _ Hinv _ _ Hi') as Hix. pose proof (inv_index _ Hinv _ _ Hroot) as Hix0.
    rewrite Hix in Hix0. simplify_eq. lia. }
  change (0 / 4)%nat with 0%nat in *.
  destruct Hsome as [Hone|(k & nd & Hk & Hnd & Hlate)].
  - assert (q' = []) as ->.
    { destruct q' as [|y q']; [done|]. destruct (Hfrom y) as (k & Hk & Hy); [by left|].
      apply lookup_lt_Some in Hy. lia. }
    simpl. by rewrite pq_top_empty.
  - assert (Hndq : nd ∈ q') by (apply (Hin k); [lia|done]).
    destruct (get_k_round h fuel now q' ([] ++ [root]) Hinv Hq') as (y & q3 & j & Htopq & _ & _ & _ & Hr).
    { intros ->. by apply not_elem_of_nil in Hndq. }
    destruct (Z.ltb_spec now (timer_ y)); [done|].
    rewrite (pq_top_perm _ _ _ Htopq) in Hndq. apply elem_of_cons in Hndq as [->|Hndq]; [lia|].
    pose proof (pq_top_max _ _ _ Htopq) as Hmax. rewrite Forall_forall in Hmax.
    specialize (Hmax nd Hndq). simpl in Hmax. lia.
Qed.

(** With two or more timers, all of them expired, [get_k] never returns: the
    positions it pushes always contain nodes it has already taken, the queue
    never empties, and the loop has no other way out.  No amount of rounds is
    enough. *)
Lemma get_k_diverges {PQ : PriorityQueue} (h : FourHeap) (now : TimerStamp) :
  Inv h -> (2 <= length (heap_ h))%nat -> Forall (fun x => timer_ x <= now) (heap_ h) ->
  forall fuel, get_k fuel h now = Fault OutOfFuel.
Proof.
  intros Hinv Hlen Hall fuel.
  destruct (lookup_lt_is_Some_2 (heap_ h) 0) as [root Hroot]; [lia|].
  rewrite (get_k_start _ h now root) by done.
  assert (Hgen : forall q res, queued h q -> q <> [] ->
    get_k_loop fuel h (hsize h) now q res = Fault OutOfFuel).
  2: { apply Hgen; [by apply queued_root|done]. }
  induction fuel as [|fuel IH]; intros q res Hq Hne; [done|].
  destruct (get_k_round h fuel now q res Hinv Hq Hne) as (x & q1 & i & _ & _ & Hx & Hi & Hr).
  rewrite Forall_forall in Hall. specialize (Hall x Hx). simpl in Hall.
  destruct (Z.ltb_spec now (timer_ x)); [lia|]. destruct Hr as (q' & -> & Hq' & Hin & _).
  apply IH; [done|].
  pose proof (lookup_lt_Some _ _ _ Hi).
  assert (i / 4 + 1 < length (heap_ h))%nat as Hlt.
  { assert (i / 4 <= (length (heap_ h) - 1) / 4)%nat by (apply Nat.Div0.div_le_mono; lia).
    assert ((length (heap_ h) - 1) / 4 < length (heap_ h) - 1)%nat by (apply Nat.div_lt; lia). lia. }
  destruct (lookup_lt_is_Some_2 (heap_ h) (i / 4 + 1)) as [y Hy]; [lia|].
  specialize (Hin (i / 4 + 1)%nat y ltac:(lia) Hy). intros Hnil.
  apply app_eq_nil in Hnil as [-> _]. by apply not_elem_of_nil in Hin.
Qed.

(** ** Witnesses *)

Theorem get_k_sound_witness :
  get_k 5 demo_heap 6 = Ok ([demo_node 7 5], demo_heap) /\ demo_heap = demo_heap /\
  Forall (fun x => x ∈ heap_ demo_heap /\ timer_ x <= 6) [demo_node 7 5].
Proof.
  split; [vm_compute; reflexivity|].
  exact (get_k_sound (PQ := list_pq) 5 demo_heap demo_heap 6 [demo_node 7 5] demo_heap_inv
           ltac:(vm_compute; reflexivity)).
Defined.
