(* ===== verification/TimerQueue.v ===== *)
(** * TimerQueue: timers of an event loop (src/base/timerqueue.h, src/base/timerqueue.cc)

    The queue hands out ids, keeps the timers in a [FourHeap] and arms one
    timerfd for the front of the heap.  What it shares with its surroundings
    is part of the state: how often the steady clock has been read, the
    timerfd, the functors handed to the event loop from other threads, and the
    callbacks run so far.

    The clock is a sequence of readings, and a callback is a list of calls
    back into the queue; both are parameters. *)

From stdpp Require Import base list numbers gmap sorting.
From Stdlib Require Import ZArith Lia SpecFloat.
From S2P Require Import Prelude TimerNode FourHeap Expired.

Local Open Scope Z_scope.
Local Open Scope result_scope.

(** ** State *)

(** A relative [timespec]. *)
Record timespec : Type := mkTimespec { tv_sec : Z; tv_nsec : Z }.

(** The timerfd: what it was last armed with, and whether it has expired
    since ([timerfd_settime] and a [read] make it unreadable again). *)
Record timerfd : Type := mkTimerfd { armed : option timespec; readable : bool }.

(** A functor bound for the loop thread. *)
Inductive tq_task : Type :=
  | TaskAdd (node : TimerNode)
  | TaskExtend (interval : f32) (id : TimerId) (repeat : bool)
  | TaskCancel (id : TimerId).

(** What a callback may ask of the queue. *)
Inductive tq_cmd : Type :=
  | CmdAdd (interval : f32) (cb : TimerOutCallBack) (repeat : bool)
  | CmdExtend (interval : f32) (id : TimerId) (repeat : bool)
  | CmdCancel (id : TimerId).

Record TimerQueue : Type := mkTimerQueue {
  timer_list_ : FourHeap;
  cancel_set_ : gset Z;
  seq_ : list Z;
  seq_limit_ : Z;
  tq_index_ : Z;
  calling_expired_ : bool;
  readings_ : nat;
  timerfd_ : timerfd;
  pending_ : list tq_task;
  fired_ : list TimerOutCallBack
}.

Definition set_list (h : FourHeap) (q : TimerQueue) : TimerQueue :=
  mkTimerQueue h (cancel_set_ q) (seq_ q) (seq_limit_ q) (tq_index_ q) (calling_expired_ q)
    (readings_ q) (timerfd_ q) (pending_ q) (fired_ q).
Definition set_cancel (c : gset Z) (q : TimerQueue) : TimerQueue :=
  mkTimerQueue (timer_list_ q) c (seq_ q) (seq_limit_ q) (tq_index_ q) (calling_expired_ q)
    (readings_ q) (timerfd_ q) (pending_ q) (fired_ q).
Definition set_ids (s : list Z) (limit index : Z) (q : TimerQueue) : TimerQueue :=
  mkTimerQueue (timer_list_ q) (cancel_set_ q) s limit index (calling_expired_ q)
    (readings_ q) (timerfd_ q) (pending_ q) (fired_ q).
Definition set_calling (b : bool) (q : TimerQueue) : TimerQueue :=
  mkTimerQueue (timer_list_ q) (cancel_set_ q) (seq_ q) (seq_limit_ q) (tq_index_ q) b
    (readings_ q) (timerfd_ q) (pending_ q) (fired_ q).
Definition set_readings (n : nat) (q : TimerQueue) : TimerQueue :=
  mkTimerQueue (timer_list_ q) (cancel_set_ q) (seq_ q) (seq_limit_ q) (tq_index_ q)
    (calling_expired_ q) n (timerfd_ q) (pending_ q) (fired_ q).
Definition set_timerfd (t : timerfd) (q : TimerQueue) : TimerQueue :=
  mkTimerQueue (timer_list_ q) (cancel_set_ q) (seq_ q) (seq_limit_ q) (tq_index_ q)
    (calling_expired_ q) (readings_ q) t (pending_ q) (fired_ q).
Definition set_pending (p : list tq_task) (q : TimerQueue) : TimerQueue :=
  mkTimerQueue (timer_list_ q) (cancel_set_ q) (seq_ q) (seq_limit_ q) (tq_index_ q)
    (calling_expired_ q) (readings_ q) (timerfd_ q) p (fired_ q).
Definition set_fired (f : list TimerOutCallBack) (q : TimerQueue) : TimerQueue :=
  mkTimerQueue (timer_list_ q) (cancel_set_ q) (seq_ q) (seq_limit_ q) (tq_index_ q)
    (calling_expired_ q) (readings_ q) (timerfd_ q) (pending_ q) f.

(** The constructor leaves [seq_limit_] and [index_] uninitialised: their
    first values are whatever the memory holds. *)
Definition new_queue (garbage_limit garbage_index : Z) : TimerQueue :=
  mkTimerQueue empty_heap ∅ [] (u64 garbage_limit) (u64 garbage_index) false 0
    (mkTimerfd None false) [] [].

(** ** Ids *)

Definition LIMIT : nat := 1024.

(** The refill loop of [get_]. *)
Fixpoint refill (n : nat) (q : TimerQueue) : TimerQueue :=
  match n with
  | O => q
  | S n' =>
      let limit := u64 (seq_limit_ q + 1) in
      refill n' (set_ids (seq_ q ++ [s32 limit]) limit (u64 (tq_index_ q + 1)) q)
  end.

Definition get_ (q : TimerQueue) : result (Z * TimerQueue) :=
  let q1 := match seq_ q with [] => refill LIMIT q | _ => q end in
  match seq_ q1 with
  | [] => Fault OutOfRange
  | s :: rest => Ok (s, set_ids rest (seq_limit_ q1) (tq_index_ q1) q1)
  end.

Definition del_ (node : TimerNode) (q : TimerQueue) : TimerQueue :=
  let q1 := set_ids (seq_ q ++ [get_node_seq node]) (seq_limit_ q) (tq_index_ q) q in
  if tq_index_ q1 =? seq_limit_ q1 then set_ids [] 0 0 q1
  else set_ids (seq_ q1) (seq_limit_ q1) (u64 (tq_index_ q1 - 1)) q1.

Definition clear_ (q : TimerQueue) : TimerQueue :=
  set_cancel ∅ (set_list (clear (timer_list_ q)) q).

(** ** The timerfd *)

(** [duration<double, micro>] of a difference in nanoseconds: a binary64
    division by 1000, truncated to [int64_t].  For a 64-bit difference the
    quotient is finite and fits; the other branch is the value the conversion
    instruction of the platform gives. *)
Definition micros_of_ns (ns : Z) : Z :=
  match f32_trunc (SFdiv 53 1024 (binary_normalize 53 1024 ns 0 false)
                                 (binary_normalize 53 1024 1000 0 false)) with
  | Some z => z
  | None => - 2 ^ 63
  end.

(** [time_from_now]: at least 100 microseconds. *)
Definition timespec_of_micros (micro : Z) : timespec :=
  let micro := if micro <? 100 then 100 else micro in
  mkTimespec (Z.quot micro kmicrosecond) (Z.rem micro kmicrosecond * 1000).

Section with_environment.
Context {PQ : PriorityQueue}.
Context (clock : nat -> TimerStamp).
Context (callback : TimerOutCallBack -> list tq_cmd).

Definition now (q : TimerQueue) : TimerStamp * TimerQueue :=
  (clock (readings_ q), set_readings (S (readings_ q)) q).

Definition time_from_now (timer : TimerNode) (q : TimerQueue) : timespec * TimerQueue :=
  let '(t, q1) := now q in
  (timespec_of_micros (micros_of_ns (get_timer timer - t)), q1).

Definition reset_timerfd (expiration : TimerNode) (q : TimerQueue) : TimerQueue :=
  let '(ts, q1) := time_from_now expiration q in
  set_timerfd (mkTimerfd (Some ts) false) q1.

(** ** Calls run in the loop thread *)

Definition add_timer_in_loop_ (node : TimerNode) (q : TimerQueue) : result TimerQueue :=
  h ← push (timer_list_ q) node;
  let q1 := set_list h q in
  f ← front h;
  Ok (if node_leb node f then reset_timerfd node q1 else q1).

Definition cancel_timer_in_loop_ (id : TimerId) (q : TimerQueue) : result TimerQueue :=
  if find (timer_list_ q) id then
    '(h, _) ← remove (timer_list_ q) id;
    Ok (set_list h q)
  else if calling_expired_ q then Ok (set_cancel ({[id]} ∪ cancel_set_ q) q)
  else Ok q.

Definition extend_timer_in_loop_ (interval : f32) (id : TimerId) (repeat : bool)
    (q : TimerQueue) : result TimerQueue :=
  if find (timer_list_ q) id then
    h ← extend (timer_list_ q) interval id repeat;
    Ok (set_list h q)
  else Ok q.

Definition run_task (t : tq_task) (q : TimerQueue) : result TimerQueue :=
  match t with
  | TaskAdd node => add_timer_in_loop_ node q
  | TaskExtend interval id r => extend_timer_in_loop_ interval id r q
  | TaskCancel id => cancel_timer_in_loop_ id q
  end.

(** [EventLoop::run_in_loop]: at once in the loop thread, queued otherwise. *)
Definition run_in_loop (in_loop : bool) (t : tq_task) (q : TimerQueue) : result TimerQueue :=
  if in_loop then run_task t q else Ok (set_pending (pending_ q ++ [t]) q).

(** ** The public calls *)

Definition add_timer (in_loop : bool) (interval : f32) (cb : TimerOutCallBack) (repeat : bool)
    (q : TimerQueue) : result (TimerId * TimerQueue) :=
  '(node_seq, q1) ← get_ q;
  assert! (0 <=? node_seq);
  let '(t, q2) := now q1 in
  us ← tarns_mirco interval;
  timer ← stamp_add t us;
  node ← make_node node_seq interval timer cb repeat;
  q3 ← run_in_loop in_loop (TaskAdd node) q2;
  Ok (node_seq, q3).

(** The C++ function is declared to return an id and returns none. *)
Definition extend_timer (in_loop : bool) (interval : f32) (id : TimerId) (repeat : bool)
    (q : TimerQueue) : result TimerQueue :=
  run_in_loop in_loop (TaskExtend interval id repeat) q.

Definition cancel (in_loop : bool) (id : TimerId) (q : TimerQueue) : result TimerQueue :=
  run_in_loop in_loop (TaskCancel id) q.

(** The loop runs the functors queued so far, in order. *)
Fixpoint run_tasks (ts : list tq_task) (q : TimerQueue) : result TimerQueue :=
  match ts with
  | [] => Ok q
  | t :: ts => q1 ← run_task t q; run_tasks ts q1
  end.

Definition dopending (q : TimerQueue) : result TimerQueue :=
  run_tasks (pending_ q) (set_pending [] q).

(** ** Expiry *)

Definition run_cmd (c : tq_cmd) (q : TimerQueue) : result TimerQueue :=
  match c with
  | CmdAdd interval cb r => snd <$> add_timer true interval cb r q
  | CmdExtend interval id r => extend_timer true interval id r q
  | CmdCancel id => cancel true id q
  end.

Fixpoint run_cmds (cs : list tq_cmd) (q : TimerQueue) : result TimerQueue :=
  match cs with
  | [] => Ok q
  | c :: cs => q1 ← run_cmd c q; run_cmds cs q1
  end.

(** [e.run()] for every expired node. *)
Fixpoint run_callbacks (expired : list TimerNode) (q : TimerQueue) : result TimerQueue :=
  match expired with
  | [] => Ok q
  | e :: es =>
      q1 ← run_cmds (callback (cb_ e)) (set_fired (fired_ q ++ [cb_ e]) q);
      run_callbacks es q1
  end.

Definition get_expired_ (fuel : nat) (q : TimerQueue)
    : result (list TimerNode * TimerQueue) :=
  let '(ts, q1) := now q in
  '(res, h) ← get_k fuel (timer_list_ q1) ts;
  Ok (res, set_list h q1).

(** One turn of the loop in [reset_]. *)
Definition reset_one (e : TimerNode) (q : TimerQueue) : result TimerQueue :=
  q1 ← (if get_repeat_ e && bool_decide (get_node_seq e ∉ cancel_set_ q) then
          let '(t, q') := now q in
          us ← tarns_mirco (get_interval e);
          timer ← stamp_add t us;
          h ← reset (timer_list_ q') (get_node_seq e) timer;
          Ok (set_list h q')
        else Ok q);
  if negb (get_repeat_ e) then cancel_timer_in_loop_ (get_node_seq e) q1 else Ok q1.

Fixpoint reset_each (expired : list TimerNode) (q : TimerQueue) : result TimerQueue :=
  match expired with
  | [] => Ok q
  | e :: es => q1 ← reset_one e q; reset_each es q1
  end.

Definition reset_ (expired : list TimerNode) (q : TimerQueue) : result TimerQueue :=
  q1 ← reset_each expired q;
  if negb (heap_empty (timer_list_ q1)) then
    new_expire ← front (timer_list_ q1);
    Ok (reset_timerfd new_expire q1)
  else Ok q1.

(** [handle_read_]: the timerfd itself is not read. *)
Definition handle_read_ (fuel : nat) (q : TimerQueue) : result TimerQueue :=
  '(expired, q1) ← get_expired_ fuel q;
  q2 ← run_callbacks expired (set_cancel ∅ (set_calling true q1));
  reset_ expired (set_calling false q2).
End with_environment.

(** ** Ids *)

Fixpoint get_run (n : nat) (q : TimerQueue) : result (list Z * TimerQueue) :=
  match n with
  | O => Ok ([], q)
  | S n' =>
      '(s, q1) ← get_ q;
      '(ss, q2) ← get_run n' q1;
      Ok (s :: ss, q2)
  end.

(** The ids still queued are the ones from [a] up to the limit. *)
Definition ids_from (a : Z) (q : TimerQueue) : Prop :=
  0 <= seq_limit_ q /\ a <= seq_limit_ q + 1 /\
  seq_ q = seqZ a (seq_limit_ q + 1 - a).

Lemma refill_spec n q :
  0 <= seq_limit_ q -> seq_limit_ q + Z.of_nat n < 2 ^ 31 ->
  seq_ (refill n q) = seq_ q ++ seqZ (seq_limit_ q + 1) (Z.of_nat n) /\
  seq_limit_ (refill n q) = seq_limit_ q + Z.of_nat n.
Proof.
  revert q. induction n as [|n IH]; intros q H0 Hn; cbn [refill].
  { rewrite app_nil_r. split; [done|lia]. }
  rewrite u64_small by lia. rewrite s32_small by lia.
  destruct (IH (set_ids (seq_ q ++ [seq_limit_ q + 1]) (seq_limit_ q + 1) (u64 (tq_index_ q + 1)) q))
    as [-> ->]; simpl; [lia|lia|].
  split; [|lia]. rewrite <-app_assoc. f_equal. rewrite (seqZ_cons (seq_limit_ q + 1)) by lia.
  simpl. f_equal. f_equal; lia.
Qed.

Lemma refill_prefix n q : exists l, seq_ (refill n q) = seq_ q ++ l.
Proof.
  revert q. induction n as [|n IH]; intros q; cbn [refill]; [exists []; by rewrite app_nil_r|].
  match goal with |- context [refill n ?q1] => destruct (IH q1) as [l ->] end.
  simpl. eexists. by rewrite <-app_assoc.
Qed.

(** The first id a refill of an empty queue gives out. *)
Lemma refill_head n q :
  seq_ q = [] -> exists rest, seq_ (refill (S n) q) = s32 (u64 (seq_limit_ q + 1)) :: rest.
Proof.
  intros Hs. cbn [refill].
  match goal with |- context [refill n ?q1] => destruct (refill_prefix n q1) as [l ->] end.
  simpl. rewrite Hs. by eexists.
Qed.

Lemma get_spec a q :
  ids_from a q -> a + Z.of_nat LIMIT < 2 ^ 31 ->
  exists q', get_ q = Ok (a, q') /\ ids_from (a + 1) q'.
Proof.
  intros (H0 & Ha & Hs) Hlim. unfold get_.
  assert (Hcons : forall q1, 0 <= seq_limit_ q1 -> a <= seq_limit_ q1 ->
    seq_ q1 = seqZ a (seq_limit_ q1 + 1 - a) ->
    exists q', match seq_ q1 with
               | [] => Fault OutOfRange
               | s :: rest => Ok (s, set_ids rest (seq_limit_ q1) (tq_index_ q1) q1)
               end = Ok (a, q') /\ ids_from (a + 1) q').
  { intros q1 Hq0 Hq1 ->. rewrite seqZ_cons by lia. eexists. split; [reflexivity|].
    split; simpl; [done|]. split; [lia|]. f_equal; lia. }
  destruct (seq_ q) as [|s rest] eqn:Hseq.
  - assert (a = seq_limit_ q + 1) as ->.
    { destruct (Z.eq_dec a (seq_limit_ q + 1)); [done|]. rewrite seqZ_cons in Hs by lia. done. }
    destruct (refill_spec LIMIT q) as [Hr Hl]; [done|lia|].
    apply Hcons; rewrite ?Hr, ?Hl, ?Hseq; [unfold LIMIT in *; lia..|].
    simpl. f_equal. lia.
  - pose proof (Hcons q H0) as Hc. rewrite Hseq in *. apply Hc; [|done].
    destruct (Z.eq_dec a (seq_limit_ q + 1)); [|lia].
    rewrite seqZ_nil in Hs by lia. done.
Qed.

(** From a zero-initialised limit the queue hands out the ids 1, 2, 3, ...:
    consecutive, so all different, as long as they stay below the largest
    [int] less one refill. *)
Theorem ids_consecutive (n : nat) (a : Z) (q : TimerQueue) :
  ids_from a q -> a + Z.of_nat n + Z.of_nat LIMIT < 2 ^ 31 ->
  exists q', get_run n q = Ok (seqZ a (Z.of_nat n), q') /\ ids_from (a + Z.of_nat n) q'.
Proof.
  revert a q. induction n as [|n IH]; intros a q Hids Hn; cbn [get_run].
  { exists q. split; [done|]. by rewrite Z.add_0_r. }
  destruct (get_spec a q Hids) as (q1 & -> & Hids1); [lia|]. rewrite bind_ok.
  destruct (IH (a + 1) q1 Hids1) as (q2 & -> & Hids2); [lia|]. rewrite bind_ok.
  exists q2. rewrite (seqZ_cons a) by lia.
  replace (a + Z.of_nat (S n)) with (a + 1 + Z.of_nat n) by lia.
  by replace (Z.pred (Z.of_nat (S n))) with (Z.of_nat n) by lia.
Qed.

Theorem ids_consecutive_witness :
  exists q', get_run 1500 (new_queue 0 0) = Ok (seqZ 1 1500, q') /\ ids_from 1501 q'.
Proof. apply (ids_consecutive 1500 1 (new_queue 0 0)); [done|vm_compute; done]. Defined.

(** The limit is never initialised.  When the memory it occupies happens to
    hold a value whose successor has bit 31 set, the first id is negative and
    [add_timer] stops in its assertion, before anything is scheduled. *)
Theorem add_timer_garbage_limit {PQ : PriorityQueue} (clock : nat -> TimerStamp)
    (g i : Z) (in_loop : bool) (interval : f32) (cb : TimerOutCallBack) (repeat : bool) :
  s32 (u64 (u64 g + 1)) < 0 ->
  add_timer clock in_loop interval cb repeat (new_queue g i) = Fault AssertFailed.
Proof.
  intros Hneg. unfold add_timer, get_.
  change (seq_ (new_queue g i)) with (@nil Z). cbv iota.
  destruct (refill_head 1023 (new_queue g i)) as [rest Hseq]; [done|].
  change (S 1023) with LIMIT in Hseq. change (seq_limit_ (new_queue g i)) with (u64 g) in Hseq.
  rewrite Hseq, bind_ok. cbv beta iota. unfold assert_.
  destruct (Z.leb_spec 0 (s32 (u64 (u64 g + 1)))); [lia|done].
Qed.

Theorem add_timer_garbage_limit_witness :
  add_timer (fun _ => 0) true (f32_of_Z 1) 0 true (new_queue (2 ^ 31 - 1) 0) = Fault AssertFailed.
Proof. apply (add_timer_garbage_limit (fun _ => 0) (2 ^ 31 - 1) 0). vm_compute. done. Defined.

(** ** The timerfd is never disarmed by accident *)

(** What [time_from_now] gives to [timerfd_settime] is a valid relative time,
    never zero (zero would disarm the timer) and never less than 100
    microseconds; above that it is exact. *)
Theorem timespec_valid (micro : Z) :
  let ts := timespec_of_micros micro in
  0 <= tv_sec ts /\ 0 <= tv_nsec ts < 1000000000 /\
  tv_sec ts * 1000000000 + tv_nsec ts = Z.max micro 100 * 1000.
Proof.
  unfold timespec_of_micros; simpl.
  assert (Hm : (if micro <? 100 then 100 else micro) = Z.max micro 100).
  { destruct (Z.ltb_spec micro 100); lia. }
  rewrite Hm. set (m := Z.max micro 100). assert (100 <= m) by (unfold m; lia).
  pose proof (Z.quot_rem' m kmicrosecond). pose proof (Z.rem_bound_pos m kmicrosecond).
  pose proof (Z.quot_pos m kmicrosecond). unfold kmicrosecond in *. lia.
Qed.

(** ** Functors from other threads *)

(** The effect of a functor on the timers. *)
Definition map_task (t : tq_task) (m : gmap Z TimerNode) : result (gmap Z TimerNode) :=
  match t with
  | TaskAdd nd => Ok (<[node_seq_ nd := nd]> m)
  | TaskCancel id => Ok (delete id m)
  | TaskExtend interval id r =>
      match m !! id with
      | None => Ok m
      | Some nd => nd' ← extend_node interval r nd; Ok (<[id := nd']> m)
      end
  end.

Fixpoint map_tasks (ts : list tq_task) (m : gmap Z TimerNode) : result (gmap Z TimerNode) :=
  match ts with
  | [] => Ok m
  | t :: ts => m1 ← map_task t m; map_tasks ts m1
  end.

(** The view of a queue: its timers. *)
Definition timers (q : TimerQueue) : gmap Z TimerNode := nodes (timer_list_ q).

Lemma front_exists h : heap_ h <> [] -> exists f, front h = Ok f /\ heap_ h !! 0%nat = Some f.
Proof.
  intros Hne. destruct (heap_ h) as [|f l] eqn:Hh; [done|]. exists f. split; [|done].
  unfold front, heap_at. cbn -[lookup]. change (Z.to_nat 0) with 0%nat. by rewrite Hh.
Qed.

Lemma push_nonempty h nd h' :
  Inv h' -> nodes h' = <[node_seq_ nd := nd]> (nodes h) -> heap_ h' <> [].
Proof.
  intros Hinv Hn Hnil. apply (f_equal (lookup (node_seq_ nd))) in Hn.
  rewrite lookup_insert_eq in Hn. apply nodes_lookup in Hn as [Hin _]; [|done].
  rewrite Hnil in Hin. by apply not_elem_of_nil in Hin.
Qed.

Section environment_lemmas.
Context {PQ : PriorityQueue}.
Context (clock : nat -> TimerStamp).
Context (callback : TimerOutCallBack -> list tq_cmd).

Lemma run_task_refines t q :
  Inv (timer_list_ q) -> hsize (timer_list_ q) + 1 < 2 ^ 28 -> calling_expired_ q = false ->
  match map_task t (timers q) with
  | Ok m => exists q', run_task clock t q = Ok q' /\ Inv (timer_list_ q') /\ timers q' = m /\
      hsize (timer_list_ q') <= hsize (timer_list_ q) + 1 /\
      calling_expired_ q' = false /\ pending_ q' = pending_ q
  | Fault f => run_task clock t q = Fault f
  end.
Proof.
  intros Hinv Hsz Hcall. unfold timers. destruct t as [nd|interval id r|id]; cbn [map_task run_task].
  - unfold add_timer_in_loop_.
    destruct (push_spec (timer_list_ q) nd Hinv) as (h & -> & Hinv' & Hn); [by intros|].
    rewrite bind_ok. destruct (front_exists h) as (f & -> & _); [by eapply push_nonempty|].
    rewrite bind_ok. eexists. split; [reflexivity|].
    assert (hsize h <= hsize (timer_list_ q) + 1).
    { unfold hsize. rewrite <-!size_nodes, Hn by done.
      rewrite map_size_insert. destruct (_ !! _); simpl; lia. }
    by destruct (node_leb nd f).
  - unfold extend_timer_in_loop_. rewrite find_nodes by done.
    destruct (nodes (timer_list_ q) !! id) as [nd|] eqn:Hnd.
    + rewrite bool_decide_true by eauto.
      pose proof (extend_spec (timer_list_ q) interval id r nd Hinv Hnd) as He.
      destruct (extend_node interval r nd) as [nd'|f]; simpl; [|by rewrite He].
      destruct He as (h & -> & Hinv' & Hn). simpl. eexists. split; [reflexivity|].
      simpl. do 2 (split; [done|]). split; [|done].
      unfold hsize. rewrite <-!size_nodes, Hn by done.
      rewrite map_size_insert, Hnd. simpl. lia.
    + rewrite bool_decide_false by (by intros [? ?]). exists q.
      repeat (split; try done). lia.
  - unfold cancel_timer_in_loop_. rewrite find_nodes by done.
    destruct (remove_spec (timer_list_ q) id Hinv) as (h & Hrem & Hinv' & Hn).
    case_bool_decide as Hsome.
    + rewrite Hrem. simpl. eexists. split; [reflexivity|]. simpl.
      do 2 (split; [done|]). split; [|done].
      unfold hsize. rewrite <-!size_nodes, Hn by done. rewrite map_size_delete.
      destruct (_ !! _); simpl; lia.
    + rewrite Hcall. exists q. split; [done|]. split; [done|]. split; [|split; [lia|done]].
      symmetry. apply delete_id. by apply eq_None_not_Some.
Qed.

(** Functors queued by other threads take effect in the order in which they
    were queued: draining them gives the timers the map operations give, and
    stops early only where an extension overflows the clock. *)
Lemma run_tasks_refines ts q :
  Inv (timer_list_ q) -> hsize (timer_list_ q) + Z.of_nat (length ts) < 2 ^ 28 ->
  calling_expired_ q = false ->
  match map_tasks ts (timers q) with
  | Ok m => exists q', run_tasks clock ts q = Ok q' /\ Inv (timer_list_ q') /\ timers q' = m /\
      pending_ q' = pending_ q
  | Fault f => run_tasks clock ts q = Fault f
  end.
Proof.
  revert q. induction ts as [|t ts IH]; intros q Hinv Hsz Hcall; cbn [map_tasks run_tasks].
  { by exists q. }
  simpl in Hsz. pose proof (run_task_refines t q Hinv ltac:(lia) Hcall) as Ht.
  destruct (map_task t (timers q)) as [m1|f]; simpl; [|by rewrite Ht].
  destruct Ht as (q1 & -> & Hinv1 & <- & Hs1 & Hc1 & Hp1). simpl.
  specialize (IH q1 Hinv1 ltac:(lia) Hc1). rewrite Hp1 in IH. done.
Qed.
End environment_lemmas.

(** C35: The functors that other threads queued with [run_in_loop] take effect in
    the order in which they were queued: draining them turns the timers into
    what the corresponding map operations give, and leaves nothing queued.  It
    stops early only where an extension leaves the range of the clock. *)
Theorem dopending_refines {PQ : PriorityQueue} (clock : nat -> TimerStamp) (q : TimerQueue) :
  Inv (timer_list_ q) -> hsize (timer_list_ q) + Z.of_nat (length (pending_ q)) < 2 ^ 28 ->
  calling_expired_ q = false ->
  match map_tasks (pending_ q) (timers q) with
  | Ok m => exists q', dopending clock q = Ok q' /\ Inv (timer_list_ q') /\ timers q' = m /\
      pending_ q' = []
  | Fault f => dopending clock q = Fault f
  end.
Proof.
  intros Hinv Hsz Hcall. unfold dopending.
  exact (run_tasks_refines clock (pending_ q) (set_pending [] q) Hinv Hsz Hcall).
Qed.

Definition demo_queue : TimerQueue :=
  set_pending [TaskAdd (demo_node 1 50); TaskAdd (demo_node 2 40); TaskCancel 1] (new_queue 0 0).

Theorem dopending_refines_witness :
  exists q', dopending (fun _ => 0) demo_queue = Ok q' /\ Inv (timer_list_ q') /\
    timers q' = {[2 := demo_node 2 40]} /\ pending_ q' = [].
Proof.
  refine (dopending_refines (PQ := list_pq) (fun _ => 0) demo_queue inv_empty _ _).
  - vm_compute. reflexivity.
  - reflexivity.
Defined.

(** ** The expiry handler *)

(** Arm the timerfd for the front of the heap, if there is one. *)
Definition rearm (clock : nat -> TimerStamp) (q : TimerQueue) : TimerQueue :=
  match heap_ (timer_list_ q) !! 0%nat with
  | Some f => reset_timerfd clock f q
  | None => q
  end.

Definition ns_per_s : Z := 1000000000.

Section handle_read.
Context {PQ : PriorityQueue}.
Context (clock : nat -> TimerStamp).
Context (callback : TimerOutCallBack -> list tq_cmd).

Lemma rearm_spec q :
  (if negb (heap_empty (timer_list_ q)) then
     new_expire ← front (timer_list_ q); Ok (reset_timerfd clock new_expire q)
   else Ok q) = Ok (rearm clock q).
Proof.
  unfold rearm, heap_empty, hsize. destruct (heap_ (timer_list_ q)) as [|f l] eqn:Hh; [done|].
  destruct (Z.eqb_spec (Z.of_nat (length (f :: l))) 0) as [H0|_]; [simpl in H0; lia|].
  destruct (front_exists (timer_list_ q)) as (f' & -> & Hf'); [by rewrite Hh|].
  rewrite Hh in Hf'. by simplify_eq/=.
Qed.

Lemma interval_add root t :
  0 <= interval_ root <= 1073 -> in_s64 (t + interval_ root * ns_per_s) = true ->
  tarns_mirco (get_interval root) = Ok (interval_ root * kmicrosecond) /\
  stamp_add t (interval_ root * kmicrosecond) = Ok (t + interval_ root * ns_per_s).
Proof.
  intros Hk Ht. split; [by apply tarns_mirco_whole|].
  unfold stamp_add, guard_. unfold kmicrosecond, ns_per_s in *.
  replace (interval_ root * (1000 * 1000) * 1000) with (interval_ root * 1000000000) by lia.
  rewrite Ht, andb_true_r. unfold in_s64.
  destruct (Z.leb_spec (- 2 ^ 63) (interval_ root * 1000000000)); [|lia].
  destruct (Z.ltb_spec (interval_ root * 1000000000) (2 ^ 63)); [done|lia].
Qed.

(** The nodes [get_k] returns when it returns after the root. *)
Definition only_root_due (h : FourHeap) (t : TimerStamp) (root : TimerNode) : Prop :=
  heap_ h !! 0%nat = Some root /\ timer_ root <= t /\
  (length (heap_ h) = 1%nat \/
   exists k nd, (1 <= k <= 4)%nat /\ heap_ h !! k = Some nd /\ t < timer_ nd).

Lemma get_expired_root fuel q root :
  Inv (timer_list_ q) -> only_root_due (timer_list_ q) (clock (readings_ q)) root ->
  get_expired_ clock (S (S fuel)) q =
    Ok ([root], set_readings (S (readings_ q)) q).
Proof.
  intros Hinv (Hroot & Hle & Hsome). unfold get_expired_, now. simpl timer_list_.
  pose proof (get_k_returns fuel (timer_list_ q) (clock (readings_ q)) root Hinv Hroot) as Hk.
  destruct (Z.ltb_spec (clock (readings_ q)) (timer_ root)); [lia|].
  rewrite Hk by done. by destruct q.
Qed.

(** The queue after one due timer, with the new heap [h]. *)
Definition fired_queue (q : TimerQueue) (root : TimerNode) (h : FourHeap) (reads : nat)
    : TimerQueue :=
  mkTimerQueue h ∅ (seq_ q) (seq_limit_ q) (tq_index_ q) false reads (timerfd_ q)
    (pending_ q) (fired_ q ++ [cb_ root]).

(** [reset_] on a timer that is still in the heap. *)
Lemma reset_one_root q root :
  Inv (timer_list_ q) -> timers q !! node_seq_ root = Some root ->
  cancel_set_ q = ∅ -> calling_expired_ q = false ->
  0 <= interval_ root <= 1073 ->
  in_s64 (clock (readings_ q) + interval_ root * ns_per_s) = true ->
  exists h', reset_one clock root q =
      Ok (set_list h' (set_readings (if repeat_ root then S (readings_ q) else readings_ q) q)) /\
    Inv h' /\ nodes h' =
      (if repeat_ root
      then <[node_seq_ root :=
               set_timer_stamp (clock (readings_ q) + interval_ root * ns_per_s) root]> (timers q)
      else delete (node_seq_ root) (timers q)) /\
    (repeat_ root = true -> root_min (timer_list_ q) -> (length (heap_ (timer_list_ q)) <= 4)%nat ->
     timer_ root <= clock (readings_ q) + interval_ root * ns_per_s -> root_min h').
Proof.
  intros Hinv Hin Hc Hcall Hk Ht. unfold reset_one, get_repeat_, get_node_seq.
  rewrite Hc. rewrite (bool_decide_true (node_seq_ root ∉ ∅)) by set_solver.
  destruct (repeat_ root) eqn:Hrep; simpl.
  - destruct (interval_add root _ Hk Ht) as [-> Hadd]. simpl. rewrite Hadd. simpl.
    destruct (reset_spec (timer_list_ q) (node_seq_ root)
      (clock (readings_ q) + interval_ root * ns_per_s) root Hinv Hin) as (h' & Hres & Hinv' & Hn).
    exists h'. rewrite Hres. split; [done|]. split; [done|]. split; [done|]. intros _ Hm Hlen Hle.
    by apply (reset_root_min _ _ _ root h' Hinv Hm Hlen Hin Hle).
  - unfold cancel_timer_in_loop_. rewrite find_nodes by done.
    rewrite bool_decide_true by eauto.
    destruct (remove_spec (timer_list_ q) (node_seq_ root) Hinv) as (h' & -> & Hinv' & Hn).
    exists h'. split; [by destruct q|done].
Qed.

Lemma handle_read_root fuel q root :
  Inv (timer_list_ q) -> only_root_due (timer_list_ q) (clock (readings_ q)) root ->
  callback (cb_ root) = [] -> 0 <= interval_ root <= 1073 ->
  in_s64 (clock (S (readings_ q)) + interval_ root * ns_per_s) = true ->
  exists h', Inv h' /\
    nodes h' = (if repeat_ root
      then <[node_seq_ root :=
               set_timer_stamp (clock (S (readings_ q)) + interval_ root * ns_per_s) root]> (timers q)
      else delete (node_seq_ root) (timers q)) /\
    (repeat_ root = true -> root_min (timer_list_ q) -> (length (heap_ (timer_list_ q)) <= 4)%nat ->
     timer_ root <= clock (S (readings_ q)) + interval_ root * ns_per_s -> root_min h') /\
    handle_read_ clock callback (S (S fuel)) q =
      Ok (rearm clock (fired_queue q root h'
            (if repeat_ root then S (S (readings_ q)) else S (readings_ q)))).
Proof.
  intros Hinv Hdue Hcb Hk Ht. pose proof Hdue as (Hroot & _ & _).
  unfold handle_read_. rewrite (get_expired_root fuel q root) by done.
  rewrite bind_ok; cbv beta iota. cbn [run_callbacks]. rewrite Hcb. cbn [run_cmds].
  rewrite !bind_ok.
  set (q1 := set_calling false _).
  assert (Hin : timers q1 !! node_seq_ root = Some root).
  { unfold timers, q1; simpl. apply nodes_lookup; [done|]. split; [|done].
    by apply list_elem_of_lookup_2 in Hroot. }
  destruct (reset_one_root q1 root) as (h' & Hone & Hinv' & Hn & Hrm); try done.
  exists h'. split; [done|]. split; [done|]. split; [exact Hrm|].
  unfold reset_. cbn [reset_each]. rewrite Hone, !bind_ok. rewrite rearm_spec. done.
Qed.
End handle_read.


Definition fixed_clock (t : TimerStamp) : nat -> TimerStamp := fun _ => t.


(** When two or more timers have all expired by the time the handler runs, it
    does not return: [get_k] never stops, whatever the callbacks are. *)
Theorem handle_read_hangs {PQ : PriorityQueue} (clock : nat -> TimerStamp)
    (callback : TimerOutCallBack -> list tq_cmd) (q : TimerQueue) :
  Inv (timer_list_ q) -> (2 <= length (heap_ (timer_list_ q)))%nat ->
  Forall (fun x => timer_ x <= clock (readings_ q)) (heap_ (timer_list_ q)) ->
  forall fuel, handle_read_ clock callback fuel q = Fault OutOfFuel.
Proof.
  intros Hinv Hlen Hall fuel. unfold handle_read_, get_expired_, now. simpl timer_list_.
  by rewrite get_k_diverges.
Qed.

Theorem handle_read_hangs_witness :
  handle_read_ (fixed_clock 10) (fun _ => []) 1000
    (set_list demo_heap (new_queue 0 0)) = Fault OutOfFuel.
Proof.
  refine (handle_read_hangs (fixed_clock 10) (fun _ => []) (set_list demo_heap (new_queue 0 0))
           demo_heap_inv _ _ 1000).
  - simpl. lia.
  - repeat constructor; simpl; unfold fixed_clock; lia.
Defined.

(** The handler never reads the timerfd; only re-arming makes it unreadable.
    With no timer left the handler changes nothing but the clock count and the
    cancel set, so a readable timerfd stays readable and the loop is woken
    again at once. *)
Theorem handle_read_empty_spins {PQ : PriorityQueue} (clock : nat -> TimerStamp)
    (callback : TimerOutCallBack -> list tq_cmd) (fuel : nat) (q : TimerQueue) :
  heap_ (timer_list_ q) = [] ->
  exists q', handle_read_ clock callback fuel q = Ok q' /\
    timerfd_ q' = timerfd_ q /\ heap_ (timer_list_ q') = [] /\ fired_ q' = fired_ q.
Proof.
  intros Hnil. unfold handle_read_, get_expired_, now, get_k, hsize. simpl timer_list_.
  rewrite Hnil. simpl. unfold reset_. simpl. unfold heap_empty, hsize. simpl. rewrite Hnil. simpl.
  eexists. split; [reflexivity|]. done.
Qed.

Theorem handle_read_empty_spins_witness :
  exists q', handle_read_ (fixed_clock 10) (fun _ => []) 7
      (set_timerfd (mkTimerfd None true) (new_queue 0 0)) = Ok q' /\
    timerfd_ q' = mkTimerfd None true /\ heap_ (timer_list_ q') = [] /\ fired_ q' = [].
Proof.
  exact (handle_read_empty_spins (PQ := list_pq) (fixed_clock 10) (fun _ => []) 7
           (set_timerfd (mkTimerfd None true) (new_queue 0 0)) eq_refl).
Defined.

(** ** A repeating timer that cancels itself *)

(** A repeating timer whose callback cancels it is not just cancelled.  The
    cancellation finds it in the heap and removes it there, so the cancel set
    stays empty and [reset_] reschedules an id that is gone: with no other
    timer the heap is read out of range; otherwise the timer then at the root
    gets a new expiry, and the cancelled id counts as present from then on. *)
Theorem self_cancel_hits_root {PQ : PriorityQueue} (clock : nat -> TimerStamp)
    (callback : TimerOutCallBack -> list tq_cmd) (fuel : nat) (q : TimerQueue)
    (root : TimerNode) :
  Inv (timer_list_ q) -> only_root_due (timer_list_ q) (clock (readings_ q)) root ->
  repeat_ root = true -> callback (cb_ root) = [CmdCancel (node_seq_ root)] ->
  0 <= interval_ root <= 1073 ->
  in_s64 (clock (S (readings_ q)) + interval_ root * ns_per_s) = true ->
  let t := clock (S (readings_ q)) + interval_ root * ns_per_s in
  exists h1, Inv h1 /\ nodes h1 = delete (node_seq_ root) (timers q) /\
    match heap_ h1 !! 0%nat with
    | None => handle_read_ clock callback (S (S fuel)) q = Fault OutOfRange
    | Some other => exists q', handle_read_ clock callback (S (S fuel)) q = Ok q' /\
        find (timer_list_ q') (node_seq_ root) = true /\
        timers q' !! node_seq_ root = None /\
        timers q' = <[node_seq_ other := set_timer_stamp t other]> (nodes h1)
    end.
Proof.
  intros Hinv Hdue Hrep Hcb Hk Ht t. pose proof Hdue as (Hroot & _ & _).
  assert (Hin : nodes (timer_list_ q) !! node_seq_ root = Some root).
  { apply nodes_lookup; [done|]. split; [|done]. by apply list_elem_of_lookup_2 in Hroot. }
  destruct (remove_spec (timer_list_ q) (node_seq_ root) Hinv) as (h1 & Hrem & Hinv1 & Hn1).
  exists h1. split; [done|]. split; [done|].
  unfold handle_read_. rewrite (get_expired_root clock fuel q root), bind_ok by done.
  cbv beta iota. cbn [run_callbacks]. rewrite Hcb. cbn [run_cmds run_cmd].
  unfold cancel, run_in_loop. cbn [run_task]. unfold cancel_timer_in_loop_. simpl timer_list_.
  rewrite find_nodes, bool_decide_true by eauto. rewrite Hrem, !bind_ok. cbv beta iota.
  rewrite ?bind_ok. unfold reset_. cbn [reset_each]. unfold reset_one.
  unfold get_repeat_, get_node_seq. simpl cancel_set_.
  rewrite Hrep, bool_decide_true by set_solver. cbn [negb andb]. unfold now. simpl readings_.
  destruct (interval_add root (clock (S (readings_ q))) Hk Ht) as [-> Hadd].
  rewrite bind_ok, Hadd, bind_ok. simpl timer_list_. fold t.
  assert (Hid : index_ h1 !! node_seq_ root = None).
  { apply eq_None_not_Some. rewrite <-nodes_index, Hn1, lookup_delete_eq by done. by intros [? ?]. }
  pose proof (reset_missing h1 (node_seq_ root) t Hinv1 Hid) as Hreset.
  destruct (heap_ h1 !! 0%nat) as [other|].
  - destruct Hreset as (h2 & -> & Hfind & Hnodes & Hnone). rewrite !bind_ok.
    rewrite rearm_spec. eexists. split; [reflexivity|].
    unfold timers, rearm. simpl. by destruct (heap_ h2 !! 0%nat).
  - by rewrite Hreset.
Qed.

Theorem self_cancel_hits_root_witness :
  let q := set_list demo_heap (new_queue 0 0) in
  exists h1, Inv h1 /\ nodes h1 = delete 7 (timers q) /\
    match heap_ h1 !! 0%nat with
    | None => handle_read_ (fixed_clock 6) (fun _ => [CmdCancel 7]) 2 q = Fault OutOfRange
    | Some other => exists q', handle_read_ (fixed_clock 6) (fun _ => [CmdCancel 7]) 2 q = Ok q' /\
        find (timer_list_ q') 7 = true /\ timers q' !! 7 = None /\
        timers q' = <[node_seq_ other := set_timer_stamp 1000000006 other]> (nodes h1)
    end.
Proof.
  apply (self_cancel_hits_root (fixed_clock 6) (fun _ => [CmdCancel 7]) 0
           (set_list demo_heap (new_queue 0 0)) (demo_node 7 5) demo_heap_inv).
  - split; [done|]. split; [vm_compute; discriminate|].
    right. exists 1%nat, (demo_node 9 8). split; [lia|]. split; reflexivity.
  - reflexivity.
  - reflexivity.
  - simpl. lia.
  - reflexivity.
Defined.
