(* ===== verification/ServerTimers.v ===== *)
(** * ServerTimers: the two timers of the web server (src/httpserver.h, src/event/eventloop.cc)

    The constructor of the HTTP server has the wheel turned every second, and
    [start] has the log flushed every five.  Both repeat for ever.  This file
    composes the server's calls with the timer queue and the heap and says
    what every wake-up of the timer descriptor does. *)

From stdpp Require Import base list numbers gmap.
From Stdlib Require Import ZArith Lia SpecFloat.
From S2P Require Import Prelude TimerNode FourHeap Expired TimerQueue.

Local Open Scope Z_scope.
Local Open Scope result_scope.

(** [HttpServer::ontime] and [Log::loading]; neither calls the timers. *)
Definition ontime_cb : TimerOutCallBack := 0%nat.
Definition loading_cb : TimerOutCallBack := 1%nat.
Definition server_callback (cb : TimerOutCallBack) : list tq_cmd := [].

Section server_timers.
Context {PQ : PriorityQueue}.
Context (clock : nat -> TimerStamp).

(** ** The calls *)

(** [EventLoop::run_after], in the loop's thread. *)
Definition run_after (delay : f32) (cb : TimerOutCallBack) (repeat : bool) (q : TimerQueue)
    : result (TimerId * TimerQueue) :=
  assert! (SFleb (S754_zero false) delay);
  add_timer clock true delay cb repeat q.

(** The call of the constructor, then the one of [start]. *)
Definition construct_timer (q : TimerQueue) : result TimerQueue := snd <$> run_after (f32_of_Z 1) ontime_cb true q.
Definition start_timer (q : TimerQueue) : result TimerQueue := snd <$> run_after (f32_of_Z 5) loading_cb true q.

Definition server_timers (q : TimerQueue) : result TimerQueue :=
  q1 ← construct_timer q; start_timer q1.

(** ** The queue of the server *)

Definition tick_node (id t : Z) : TimerNode := mkTimerNode id 1 true t ontime_cb.
Definition load_node (id t : Z) : TimerNode := mkTimerNode id 5 true t loading_cb.

(** The wheel's timer expires at [t], the log's at [l], and the heap knows
    which is first. *)
Record two_timers (i j t l : Z) (q : TimerQueue) : Prop := {
  tt_inv : Inv (timer_list_ q);
  tt_min : root_min (timer_list_ q);
  tt_nodes : timers q = {[ i := tick_node i t; j := load_node j l ]};
  tt_ids : i <> j
}.

Lemma two_length i j t l q : two_timers i j t l q -> length (heap_ (timer_list_ q)) = 2%nat.
Proof.
  intros [Hi _ Hn Hne]. rewrite <-size_nodes by done. fold (timers q). rewrite Hn.
  rewrite map_size_insert_None by (by rewrite lookup_singleton_ne). by rewrite map_size_singleton.
Qed.

Lemma two_elem i j t l q nd :
  two_timers i j t l q -> nd ∈ heap_ (timer_list_ q) <-> nd = tick_node i t \/ nd = load_node j l.
Proof.
  intros [Hi _ Hn Hne]. split.
  - intros Hin. assert (Hl : timers q !! node_seq_ nd = Some nd) by (by apply nodes_lookup).
    rewrite Hn in Hl. apply lookup_insert_Some in Hl as [[_ <-]|[_ Hl]]; [by left|].
    apply lookup_singleton_Some in Hl as [_ <-]. by right.
  - assert (Hl : forall k nd, timers q !! k = Some nd -> nd ∈ heap_ (timer_list_ q)).
    { intros k nd' Hk. by apply nodes_lookup in Hk as [? _]. }
    intros [->| ->]; [apply (Hl i)|apply (Hl j)]; rewrite Hn; [by rewrite lookup_insert_eq|].
    by rewrite lookup_insert_ne, lookup_singleton_eq.
Qed.

(** The root is the timer that expires first, and position 1 has the other. *)
Lemma two_root i j t l q :
  two_timers i j t l q ->
  exists a b, heap_ (timer_list_ q) = [a; b] /\ timer_ a <= timer_ b /\
    ((a = tick_node i t /\ b = load_node j l) \/ (a = load_node j l /\ b = tick_node i t)).
Proof.
  intros Hq. pose proof (two_length _ _ _ _ _ Hq) as Hlen.
  destruct (heap_ (timer_list_ q)) as [|a [|b [|]]] eqn:Hh; try done. exists a, b. split; [done|].
  assert (Ha : a = tick_node i t \/ a = load_node j l) by (apply (two_elem i j t l q); [done|rewrite Hh; by left]).
  assert (Hb : b = tick_node i t \/ b = load_node j l) by (apply (two_elem i j t l q); [done|rewrite Hh; right; by left]).
  split; [apply (tt_min _ _ _ _ _ Hq (timer_ a) 1%nat); unfold tm; by rewrite Hh|].
  assert (Hnd : NoDup (node_seq_ <$> [a; b])) by (rewrite <-Hh; by apply inv_seqs_NoDup, (tt_inv _ _ _ _ _ Hq)).
  assert (Hne : node_seq_ a <> node_seq_ b).
  { apply NoDup_cons in Hnd as [Hn _]. intros He. apply Hn. rewrite He. by left. }
  destruct Ha as [->| ->], Hb as [->| ->]; by auto.
Qed.

(** ** Setting up *)

Lemma refill_frame n : forall q, timer_list_ (refill n q) = timer_list_ q /\ readings_ (refill n q) = readings_ q.
Proof.
  induction n as [|n IH]; intros q; cbn [refill]; [by split|].
  match goal with |- context [refill n ?q1] => destruct (IH q1) as [-> ->] end. by split.
Qed.

Lemma get_frame q a q' :
  get_ q = Ok (a, q') -> timer_list_ q' = timer_list_ q /\ readings_ q' = readings_ q.
Proof.
  unfold get_. cbv zeta. intros Hg.
  assert (Hq : exists q1, (timer_list_ q1 = timer_list_ q /\ readings_ q1 = readings_ q) /\
    match seq_ q1 with
    | [] => Fault OutOfRange
    | s :: rest => Ok (s, set_ids rest (seq_limit_ q1) (tq_index_ q1) q1)
    end = Ok (a, q')).
  { destruct (seq_ q); eexists; (split; [|exact Hg]); [apply refill_frame|by split]. }
  destruct Hq as (q1 & [Hl Hr] & Hm). destruct (seq_ q1); [discriminate Hm|]. by injection Hm as _ <-.
Qed.

(** A whole number of seconds is scheduled that many later. *)
Lemma run_after_spec (k : Z) a cb q :
  (k = 1 \/ k = 5) -> ids_from a q -> 0 <= a -> a + Z.of_nat LIMIT < 2 ^ 31 ->
  Inv (timer_list_ q) -> root_min (timer_list_ q) -> (length (heap_ (timer_list_ q)) <= 4)%nat ->
  0 <= clock (readings_ q) < 2 ^ 62 ->
  exists q', run_after (f32_of_Z k) cb true q = Ok (a, q') /\ ids_from (a + 1) q' /\
    Inv (timer_list_ q') /\ root_min (timer_list_ q') /\
    timers q' = <[a := mkTimerNode a k true (clock (readings_ q) + k * ns_per_s) cb]> (timers q) /\
    (readings_ q < readings_ q')%nat /\ (readings_ q' <= S (S (readings_ q)))%nat.
Proof.
  intros Hk Hids Ha Hlim Hinv Hm Hlen Hc.
  assert (Hconv : SFleb (S754_zero false) (f32_of_Z k) = true /\ tarns_mirco (f32_of_Z k) = Ok (k * 1000000) /\
            f32_to_int in_s32 (f32_of_Z k) = Ok k) by (by destruct Hk as [->| ->]; vm_compute).
  destruct Hconv as (Hpos & Hus & Hsec). unfold run_after. rewrite Hpos. cbn [assert_]. rewrite bind_ok.
  unfold add_timer. destruct (get_spec a q Hids Hlim) as (q1 & Hget & Hids1).
  pose proof (get_frame q a q1 Hget) as Hsame.
  destruct Hsame as [Hl1 Hr1]. rewrite Hget, bind_ok. cbv beta iota.
  rewrite (proj2 (Z.leb_le 0 a) Ha). cbn [assert_]. rewrite bind_ok. unfold now. rewrite Hr1.
  rewrite Hus, bind_ok. unfold stamp_add, guard_, in_s64.
  replace (k * 1000000 * 1000) with (k * ns_per_s) by (unfold ns_per_s; lia).
  assert (Hrange : (- 2 ^ 63 <=? k * ns_per_s) && (k * ns_per_s <? 2 ^ 63) &&
    ((- 2 ^ 63 <=? clock (readings_ q) + k * ns_per_s) && (clock (readings_ q) + k * ns_per_s <? 2 ^ 63)) = true).
  { unfold ns_per_s. destruct Hk as [->| ->]; lia. }
  rewrite Hrange, !bind_ok. unfold make_node. rewrite Hsec, !bind_ok.
  unfold TimerQueue.run_in_loop, run_task, add_timer_in_loop_. cbn [timer_list_ set_readings]. rewrite Hl1.
  set (nd := mkTimerNode _ _ _ _ _).
  destruct (push_spec (timer_list_ q) nd Hinv) as (h & Hpush & Hinvh & Hn); [unfold hsize; lia|].
  destruct (push_root_min (timer_list_ q) nd Hinv Hm Hlen) as (h' & Hpush' & Hmh).
  rewrite Hpush in Hpush'. injection Hpush' as <-. rewrite Hpush, bind_ok.
  destruct (front_exists h) as (f & -> & _); [by eapply push_nonempty|]. rewrite !bind_ok.
  eexists. split; [reflexivity|].
  destruct (node_leb nd f); unfold reset_timerfd, time_from_now, now; cbn -[ids_from];
    (split; [exact Hids1|]); (split; [exact Hinvh|]); (split; [exact Hmh|]); (split; [exact Hn|]); lia.
Qed.

(** The server's two calls on the queue of a new loop: the ids are the two after
    the number the queue's memory held. *)
Lemma server_timers_spec (g idx : Z) :
  0 <= g -> g + 2 + Z.of_nat LIMIT < 2 ^ 31 ->
  (forall n, 0 <= clock n < 2 ^ 62) ->
  exists q1 q r, construct_timer (new_queue g idx) = Ok q1 /\ start_timer q1 = Ok q /\ (1 <= r <= 2)%nat /\
    two_timers (g + 1) (g + 2) (clock 0 + 1 * ns_per_s) (clock r + 5 * ns_per_s) q.
Proof.
  intros Hg Hlim Hc. unfold construct_timer, start_timer.
  assert (Hlimit : Z.of_nat LIMIT = 1024) by reflexivity. rewrite Hlimit in Hlim.
  assert (Hids : ids_from (g + 1) (new_queue g idx)).
  { unfold ids_from, new_queue. cbn [seq_limit_ seq_]. rewrite u64_small by lia.
    split; [lia|]. split; [lia|]. rewrite seqZ_nil; [reflexivity|lia]. }
  destruct (run_after_spec 1 (g + 1) ontime_cb (new_queue g idx)) as (q1 & H1 & Hids1 & Hi1 & Hm1 & Hn1 & Hr1 & Hr1');
    [by left|exact Hids|lia|rewrite Hlimit; lia|apply inv_empty| |cbn; lia|apply Hc|].
  { intros t0 k t Ht0. discriminate Ht0. }
  change (timers (new_queue g idx)) with (∅ : gmap Z TimerNode) in Hn1.
  rewrite H1. cbn [fmap result_fmap snd]. exists q1.
  assert (Hlen1 : length (heap_ (timer_list_ q1)) = 1%nat).
  { rewrite <-size_nodes by done. fold (timers q1). rewrite Hn1, insert_empty. apply map_size_singleton. }
  destruct (run_after_spec 5 (g + 1 + 1) loading_cb q1) as (q2 & H2 & _ & Hi2 & Hm2 & Hn2 & _);
    [by right|exact Hids1|lia|rewrite Hlimit; lia|exact Hi1|exact Hm1|rewrite Hlen1; lia|apply Hc|].
  rewrite H2. cbn [fmap result_fmap snd]. exists q2, (readings_ q1). split; [reflexivity|]. split; [reflexivity|].
  cbn [readings_ new_queue] in Hr1, Hr1'. split; [lia|]. split; [exact Hi2|exact Hm2| |lia].
  rewrite Hn2, Hn1. replace (g + 1 + 1) with (g + 2) by lia.
  rewrite insert_insert_ne by lia. by rewrite insert_empty.
Qed.

(** ** Wake-ups *)

Lemma rearm_list q : timer_list_ (rearm clock q) = timer_list_ q.
Proof. unfold rearm. by destruct (heap_ _ !! 0%nat). Qed.

Lemma rearm_fired q : fired_ (rearm clock q) = fired_ q.
Proof. unfold rearm. by destruct (heap_ _ !! 0%nat). Qed.

(** The descriptor is armed for the earlier of the two timers. *)
Lemma rearm_two i j t l q :
  two_timers i j t l q ->
  timerfd_ (rearm clock q) =
    mkTimerfd (Some (timespec_of_micros (micros_of_ns (Z.min t l - clock (readings_ q))))) false.
Proof.
  intros Hq. destruct (two_root _ _ _ _ _ Hq) as (a & b & Hh & Hab & Hor).
  unfold rearm. rewrite Hh. cbn [lookup list_lookup]. unfold reset_timerfd, time_from_now, now, get_timer.
  cbn [timerfd_ set_timerfd]. replace (Z.min t l) with (timer_ a); [reflexivity|].
  destruct Hor as [[-> ->]|[-> ->]]; cbn [timer_ tick_node load_node] in *; lia.
Qed.

Lemma root_due_only i j t l q a b c :
  two_timers i j t l q -> heap_ (timer_list_ q) = [a; b] -> timer_ a <= c -> c < timer_ b ->
  only_root_due (timer_list_ q) c a.
Proof.
  intros Hq Hh Ha Hb. split; [by rewrite Hh|]. split; [done|]. right. exists 1%nat, b.
  split; [lia|]. split; [by rewrite Hh|done].
Qed.

(** A wake-up that finds neither timer expired. *)
Lemma wake_early i j t l q fuel :
  two_timers i j t l q -> clock (readings_ q) < t -> clock (readings_ q) < l ->
  handle_read_ clock server_callback (S fuel) q =
    Ok (rearm clock (set_calling false (set_cancel ∅ (set_calling true (set_readings (S (readings_ q)) q))))).
Proof.
  intros Hq Ht Hl. destruct (two_root _ _ _ _ _ Hq) as (a & b & Hh & Hab & Hor).
  assert (Ha : clock (readings_ q) < timer_ a) by (destruct Hor as [[-> _]|[-> _]]; done).
  unfold handle_read_, get_expired_, now. cbn [timer_list_ set_readings].
  pose proof (get_k_returns fuel (timer_list_ q) (clock (readings_ q)) a (tt_inv _ _ _ _ _ Hq)) as Hk.
  rewrite Hh in Hk. specialize (Hk eq_refl). rewrite (proj2 (Z.ltb_lt _ _) Ha) in Hk.
  rewrite Hk, !bind_ok. cbn [run_callbacks]. rewrite bind_ok. unfold reset_. cbn [reset_each]. rewrite bind_ok.
  rewrite rearm_spec. by destruct q.
Qed.

(** A wake-up that finds one timer expired: it runs and starts again. *)
Lemma wake_one i j t l q a b fuel :
  two_timers i j t l q -> heap_ (timer_list_ q) = [a; b] ->
  (a = tick_node i t /\ b = load_node j l) \/ (a = load_node j l /\ b = tick_node i t) ->
  timer_ a <= clock (readings_ q) -> clock (readings_ q) < timer_ b ->
  0 <= clock (readings_ q) <= clock (S (readings_ q)) -> clock (S (readings_ q)) < 2 ^ 62 ->
  let s := clock (S (readings_ q)) + interval_ a * ns_per_s in
  exists q', handle_read_ clock server_callback (S (S fuel)) q = Ok q' /\ fired_ q' = fired_ q ++ [cb_ a] /\
    Inv (timer_list_ q') /\ root_min (timer_list_ q') /\
    timers q' = <[node_seq_ a := set_timer_stamp s a]> (timers q) /\
    exists q0, q' = rearm clock q0 /\ timer_list_ q0 = timer_list_ q' /\ readings_ q0 = S (S (readings_ q)).
Proof.
  intros Hq Hh Hor Ha Hb Hc Hc' s. pose proof Hq as [Hinv Hm Hn Hne].
  assert (Hk : interval_ a = 1 \/ interval_ a = 5) by (destruct Hor as [[-> _]|[-> _]]; by auto).
  assert (Hrep : repeat_ a = true) by (by destruct Hor as [[-> _]|[-> _]]).
  assert (Hs : in_s64 s = true).
  { unfold in_s64, s, ns_per_s. destruct Hk as [-> | ->]; lia. }
  destruct (handle_read_root clock server_callback fuel q a Hinv) as (h' & Hi' & Hn' & Hrm & Hr);
    [by eapply root_due_only|done|lia|exact Hs|].
  rewrite Hrep in Hn', Hr. eexists. split; [exact Hr|].
  rewrite rearm_fired. unfold timers. rewrite rearm_list. cbn [fired_ fired_queue timer_list_].
  split; [reflexivity|]. split; [exact Hi'|]. split; [|split; [exact Hn'|]].
  - apply Hrm; [done|exact Hm| |].
    + rewrite (two_length _ _ _ _ _ Hq). lia.
    + unfold ns_per_s. destruct Hk as [-> | ->]; lia.
  - eexists. split; [reflexivity|]. by split.
Qed.

(** A wake-up that does not find both timers expired returns. *)
Lemma wakeup_returns (i j t l : Z) (q : TimerQueue) (fuel : nat) :
  two_timers i j t l q ->
  0 <= clock (readings_ q) <= clock (S (readings_ q)) -> clock (S (readings_ q)) < 2 ^ 62 ->
  let c := clock (readings_ q) in
  let c' := clock (S (readings_ q)) in
  (t <=? c) && (l <=? c) = false ->
  exists q' now,
    handle_read_ clock server_callback (S (S fuel)) q = Ok q' /\
    fired_ q' = fired_ q ++ (if t <=? c then [ontime_cb] else if l <=? c then [loading_cb] else []) /\
    let t' := if t <=? c then c' + 1 * ns_per_s else t in
    let l' := if l <=? c then c' + 5 * ns_per_s else l in
    two_timers i j t' l' q' /\
    timerfd_ q' = mkTimerfd (Some (timespec_of_micros (micros_of_ns (Z.min t' l' - clock now)))) false.
Proof.
  intros Hq Hc Hc' c c'. destruct (two_root _ _ _ _ _ Hq) as (a & b & Hh & Hab & Hor).
  pose proof Hq as [Hinv Hm Hn Hne]. cbv zeta.
  destruct (Z.leb_spec t c) as [Ht|Ht], (Z.leb_spec l c) as [Hl|Hl]; cbn [andb]; intros Hboth; [done|..]; clear Hboth.
  - assert (Hroot : a = tick_node i t /\ b = load_node j l).
    { destruct Hor as [?|[-> ->]]; [done|]. cbn in Hab. lia. }
    destruct (wake_one i j t l q a b fuel Hq Hh Hor) as (q' & Hr & Hf & Hi & Hrm & Hn' & q0 & -> & Hl0 & Hr0);
      [by destruct Hroot as [-> _]|by destruct Hroot as [_ ->]|done|done|].
    destruct Hroot as [-> ->]. cbn [interval_ tick_node node_seq_ set_timer_stamp repeat_ cb_] in Hn'.
    assert (Hq' : two_timers i j (c' + 1 * ns_per_s) l (rearm clock q0)).
    { split; [done|done| |done]. rewrite Hn', Hn. by rewrite insert_insert_eq. }
    eexists _, (readings_ q0). split; [exact Hr|]. split; [exact Hf|]. split; [exact Hq'|].
    apply (rearm_two i j). destruct Hq' as [? ? Hnn ?]. unfold timers in Hnn. rewrite <-Hl0 in *. by split.
  - assert (Hroot : a = load_node j l /\ b = tick_node i t).
    { destruct Hor as [[-> ->]|?]; [|done]. cbn in Hab. lia. }
    destruct (wake_one i j t l q a b fuel Hq Hh Hor) as (q' & Hr & Hf & Hi & Hrm & Hn' & q0 & -> & Hl0 & Hr0);
      [by destruct Hroot as [-> _]|by destruct Hroot as [_ ->]|done|done|].
    destruct Hroot as [-> ->]. cbn [interval_ load_node node_seq_ set_timer_stamp repeat_ cb_] in Hn'.
    assert (Hq' : two_timers i j t (c' + 5 * ns_per_s) (rearm clock q0)).
    { split; [done|done| |done]. rewrite Hn', Hn. rewrite insert_insert_ne by done.
      by rewrite insert_singleton_eq. }
    eexists _, (readings_ q0). split; [exact Hr|]. split; [exact Hf|]. split; [exact Hq'|].
    apply (rearm_two i j). destruct Hq' as [? ? Hnn ?]. unfold timers in Hnn. rewrite <-Hl0 in *. by split.
  - rewrite (wake_early i j t l q (S fuel) Hq Ht Hl). set (q0 := set_calling _ _).
    assert (Hq0 : two_timers i j t l q0) by (by split).
    eexists _, (readings_ q0). split; [done|]. rewrite rearm_fired, app_nil_r. split; [done|].
    split; [|by apply (rearm_two i j)]. split; [by rewrite rearm_list|by rewrite rearm_list| |done].
    unfold timers. by rewrite rearm_list.
Qed.

(** A wake-up that finds both timers expired never returns. *)
Lemma wakeup_hangs (i j t l : Z) (q : TimerQueue) (fuel : nat) :
  two_timers i j t l q -> (t <=? clock (readings_ q)) && (l <=? clock (readings_ q)) = true ->
  handle_read_ clock server_callback fuel q = Fault OutOfFuel.
Proof.
  intros Hq [Ht%Z.leb_le Hl%Z.leb_le]%andb_true_iff. destruct (two_root _ _ _ _ _ Hq) as (a & b & Hh & Hab & Hor).
  pose proof Hq as [Hinv Hm Hn Hne]. unfold handle_read_, get_expired_, now. cbn [timer_list_ set_readings].
  rewrite get_k_diverges; [done|done|rewrite Hh; cbn; lia|]. rewrite Hh.
  destruct Hor as [[-> ->]|[-> ->]]; repeat constructor; cbn; lia.
Qed.

(** C19: Every wake-up of the timer descriptor.  If one timer has expired, it runs
    once and is due again its interval after the time at which it was reset;
    if none has, nothing runs; either way both timers go on and the descriptor
    is armed for the earlier one.  But a wake-up that finds both expired never
    returns: the loop serves nobody any more. *)
Theorem server_wakeup (i j t l : Z) (q : TimerQueue) :
  two_timers i j t l q ->
  0 <= clock (readings_ q) <= clock (S (readings_ q)) -> clock (S (readings_ q)) < 2 ^ 62 ->
  let c := clock (readings_ q) in
  let c' := clock (S (readings_ q)) in
  if (t <=? c) && (l <=? c)
  then forall fuel, handle_read_ clock server_callback fuel q = Fault OutOfFuel
  else forall fuel, exists q' now,
    handle_read_ clock server_callback (S (S fuel)) q = Ok q' /\
    fired_ q' = fired_ q ++ (if t <=? c then [ontime_cb] else if l <=? c then [loading_cb] else []) /\
    let t' := if t <=? c then c' + 1 * ns_per_s else t in
    let l' := if l <=? c then c' + 5 * ns_per_s else l in
    two_timers i j t' l' q' /\
    timerfd_ q' = mkTimerfd (Some (timespec_of_micros (micros_of_ns (Z.min t' l' - clock now)))) false.
Proof.
  intros Hq Hc Hc' c c'. pose proof (wakeup_returns i j t l q) as Hret. cbv zeta in Hret. fold c c' in Hret.
  destruct ((t <=? c) && (l <=? c)) eqn:Hboth.
  - intros fuel. by apply (wakeup_hangs i j t l).
  - intros fuel. by apply (Hret fuel).
Qed.
End server_timers.

(** ** Witness *)

(** The loop was busy for six seconds after [start]. *)
Definition busy_clock (n : nat) : TimerStamp := if (n <? 3)%nat then 0 else 6 * ns_per_s.

Theorem server_wakeup_witness :
  exists q, server_timers busy_clock (new_queue 0 0) = Ok q /\
    forall fuel, handle_read_ (PQ := list_pq) busy_clock server_callback fuel q = Fault OutOfFuel.
Proof.
  destruct (server_timers_spec busy_clock 0 0) as (q1 & q & r & Hq1 & Hq & Hr & Htwo);
    [lia|reflexivity|intros n; unfold busy_clock, ns_per_s; destruct (n <? 3)%nat; lia|].
  exists q. split; [unfold server_timers; rewrite Hq1, bind_ok; exact Hq|].
  assert (Hreads : readings_ q = 3%nat).
  { vm_compute in Hq1. injection Hq1 as <-. vm_compute in Hq. injection Hq as <-. reflexivity. }
  assert (Hzero : busy_clock r = 0) by (destruct r as [|[|[|r]]]; [lia|reflexivity|reflexivity|lia]).
  rewrite Hzero in Htwo. pose proof (server_wakeup (PQ := list_pq) busy_clock _ _ _ _ q Htwo) as Hw.
  rewrite Hreads in Hw. apply Hw; [split; discriminate|reflexivity].
Defined.
