(* ===== verification/Regex.v ===== *)
(** * Regex: the regular expressions of the request parser

    [src/http/httprequest.cc] takes the request line and the header lines
    apart with [std::regex_match] on two ECMAScript patterns.  This file has
    the constructs these patterns use, with the priorities of the backtracking
    matcher: a star takes as many characters as it can, an optional part is
    taken if it can be, and the first complete match in that order gives the
    captures. *)

From stdpp Require Import base list strings.
From S2P Require Import Prelude.

(** A pattern; [RClass p] is one character of the class [p], [RStar p] any
    number of them, [RGroup r] a capture group. *)
Inductive regex : Type :=
  | RClass (p : Ascii.ascii -> bool)
  | RStar (p : Ascii.ascii -> bool)
  | ROpt (r : regex)
  | RCat (r1 r2 : regex)
  | RGroup (r : regex).

Definition ascii_eqb (a b : Ascii.ascii) : bool := Ascii.eqb a b.

(** The classes of the patterns: a literal, [[^c]], and [.], which matches
    everything but a line terminator. *)
Definition is_char (c : Ascii.ascii) : Ascii.ascii -> bool := ascii_eqb c.
Definition not_char (c : Ascii.ascii) : Ascii.ascii -> bool := fun x => negb (ascii_eqb c x).
Definition any_char (x : Ascii.ascii) : bool := negb (ascii_eqb CR x) && negb (ascii_eqb LF x).

(** A literal followed by a pattern. *)
Fixpoint RLit (l : bytes) (r : regex) : regex :=
  match l with
  | [] => r
  | c :: l => RCat (RClass (is_char c)) (RLit l r)
  end.

(** A continuation gets the rest of the input and the captures so far. *)
Definition matcher : Type := bytes -> list bytes -> option (list bytes).

Fixpoint star (p : Ascii.ascii -> bool) (s : bytes) (caps : list bytes) (k : matcher) :
    option (list bytes) :=
  match s with
  | c :: s' =>
      if p c then
        match star p s' caps k with
        | Some r => Some r
        | None => k s caps
        end
      else k s caps
  | [] => k [] caps
  end.

Fixpoint run (r : regex) (s : bytes) (caps : list bytes) (k : matcher) : option (list bytes) :=
  match r with
  | RClass p => match s with c :: s' => if p c then k s' caps else None | [] => None end
  | RStar p => star p s caps k
  | ROpt r => match run r s caps k with Some x => Some x | None => k s caps end
  | RCat r1 r2 => run r1 s caps (fun s' caps' => run r2 s' caps' k)
  | RGroup r =>
      run r s caps (fun s' caps' => k s' (caps' ++ [take (length s - length s') s]))
  end.

Definition at_end : matcher := fun s caps => match s with [] => Some caps | _ => None end.

(** [std::regex_match]: the whole input must match. *)
Definition regex_match (r : regex) (s : bytes) : option (list bytes) := run r s [] at_end.

(** ** Taking a run of characters *)

Fixpoint span (p : Ascii.ascii -> bool) (s : bytes) : bytes * bytes :=
  match s with
  | c :: s' => if p c then let '(a, b) := span p s' in (c :: a, b) else ([], s)
  | [] => ([], [])
  end.

Section span.
Implicit Types (p : Ascii.ascii -> bool) (s : bytes).

Lemma span_spec p s a b :
  span p s = (a, b) <->
  s = a ++ b /\ Forall (fun c => p c = true) a /\
  match b with [] => True | c :: _ => p c = false end.
Proof.
  revert a b. induction s as [|c s IH]; intros a b; simpl.
  - split; [intros [= <- <-]; done|]. intros (Hs & _).
    symmetry in Hs. by apply app_nil in Hs as [-> ->].
  - destruct (p c) eqn:Hp.
    + destruct (span p s) as [a' b'] eqn:Hs. pose proof (proj1 (IH a' b') eq_refl) as (-> & Ha & Hb).
      split.
      * intros [= <- <-]. by rewrite Forall_cons.
      * intros (Heq & Ha' & Hb'). destruct a as [|x a]; simpl in Heq.
        { subst b. congruence. }
        injection Heq as -> Heq. inversion Ha'; subst.
        assert ((a', b') = (a, b)) as [= -> ->]; [|done].
        apply IH. done.
    + split; [intros [= <- <-]; done|]. intros (Heq & Ha' & Hb'). destruct a as [|x a].
      * simpl in Heq. by subst b.
      * injection Heq as -> Heq. inversion Ha'; congruence.
Qed.

Lemma span_app p a b :
  Forall (fun c => p c = true) a -> match b with [] => True | c :: _ => p c = false end ->
  span p (a ++ b) = (a, b).
Proof. intros. by apply span_spec. Qed.

(** A star whose continuation fails on characters of its class takes them all. *)
Lemma star_span p s caps (k : matcher) :
  (forall c s', p c = true -> k (c :: s') caps = None) ->
  star p s caps k = k (span p s).2 caps.
Proof.
  intros Hk. induction s as [|c s IH]; simpl; [done|].
  destruct (p c) eqn:Hp; [|done]. rewrite IH.
  destruct (span p s) as [a b]; simpl. destruct (k b caps); [done|]. by apply Hk.
Qed.

Lemma star_group p s caps (k : matcher) :
  (forall c s' caps', p c = true -> k (c :: s') caps' = None) ->
  run (RGroup (RStar p)) s caps k = k (span p s).2 (caps ++ [(span p s).1]).
Proof.
  intros Hk. simpl. rewrite star_span by auto.
  destruct (span p s) as [a b] eqn:Hs. apply span_spec in Hs as (-> & _ & _). simpl.
  rewrite length_app, Nat.add_sub, take_app_length. done.
Qed.
End span.

(** ** The character classes *)

Lemma is_char_true c x : is_char c x = true <-> x = c.
Proof. unfold is_char, ascii_eqb. rewrite Ascii.eqb_eq. naive_solver. Qed.

Lemma not_char_true c x : not_char c x = true <-> x <> c.
Proof. unfold not_char, ascii_eqb. rewrite negb_true_iff, Ascii.eqb_neq. naive_solver. Qed.

Lemma not_char_false c x : not_char c x = false <-> x = c.
Proof. unfold not_char, ascii_eqb. rewrite negb_false_iff, Ascii.eqb_eq. naive_solver. Qed.

Lemma any_char_true x : any_char x = true <-> x <> CR /\ x <> LF.
Proof.
  unfold any_char, ascii_eqb. rewrite andb_true_iff, !negb_true_iff, !Ascii.eqb_neq. naive_solver.
Qed.

(** Words have no space. *)
Abbreviation free_of c s := (Forall (fun x => not_char c x = true) s).

Lemma span_free c s : free_of c s -> span (not_char c) s = (s, []).
Proof. intros. rewrite <-(app_nil_r s) at 1. by apply span_app. Qed.

Lemma span_sep c a b : free_of c a -> span (not_char c) (a ++ c :: b) = (a, c :: b).
Proof. intros. apply span_app; [done|]. by apply not_char_false. Qed.

(** ** C strings *)

(** The characters of a C string: everything before the first NUL. *)
Definition c_str (s : bytes) : bytes := (span (not_char nul) s).1.

Lemma c_str_free s : free_of nul s -> c_str s = s.
Proof. intros Hs. unfold c_str. by rewrite span_free. Qed.
