(* ===== verification/SqlConnPool.v ===== *)
(** * SqlConnPool: the pool of database connections (src/sql)

    The pool is a queue of connections and a semaphore.  [GetConn] looks
    whether the queue is empty without holding the mutex, then waits on the
    semaphore, then pops under the mutex; [FreeConn] pushes and posts.  The
    operations come first as one thread runs them; then a verification
    (HttpRequest::UserVerify, the only user of the pool) is split at the points
    where other threads can run, as a step relation: its guard is a temporary,
    so the connection goes back before it is used, and once more at the end. *)

From stdpp Require Import base list numbers relations.
From Stdlib Require Import ZArith Lia.
From S2P Require Import Prelude.

Local Open Scope Z_scope.
Local Open Scope result_scope.

(** ** State and operations *)

(** A connection handle; [mysql_real_connect] may have returned null. *)
Abbreviation conn := (option nat) (only parsing).

Record SqlConnPool : Type := mkPool {
  MAX_CONN_ : Z;
  free_count_ : Z;
  use_count_ : Z;
  conn_que_ : list conn;
  sem_id_ : Z
}.

(** The members the constructor does not set are zero: the pool is static. *)
Definition new_pool : SqlConnPool := mkPool 0 0 0 [] 0.

(** [init]: [connect i] is what [mysql_real_connect] answers for the [i]-th
    handle ([mysql_init] only fails when memory is exhausted). *)
Definition init (connect : nat -> conn) (conn_size : Z) (p : SqlConnPool) : result SqlConnPool :=
  assert! (0 <? conn_size);
  Ok (mkPool conn_size (free_count_ p) (use_count_ p)
        (conn_que_ p ++ (connect <$> seq 0 (Z.to_nat conn_size))) conn_size).

Definition GetConn (p : SqlConnPool) : result (conn * SqlConnPool) :=
  match conn_que_ p with
  | [] => Ok (None, p)
  | sql :: q =>
      guard_ Blocked (0 <? sem_id_ p) ≫= fun _ =>
      Ok (sql, mkPool (MAX_CONN_ p) (free_count_ p) (use_count_ p) q (sem_id_ p - 1))
  end.

Definition FreeConn (sql : conn) (p : SqlConnPool) : result SqlConnPool :=
  assert! (bool_decide (is_Some sql));
  Ok (mkPool (MAX_CONN_ p) (free_count_ p) (use_count_ p) (conn_que_ p ++ [sql]) (sem_id_ p + 1)).

(** [ClosePool] closes what is queued, oldest first. *)
Definition ClosePool (p : SqlConnPool) : list conn * SqlConnPool :=
  (conn_que_ p, mkPool (MAX_CONN_ p) (free_count_ p) (use_count_ p) [] (sem_id_ p)).

Definition GetFreeConnCount (p : SqlConnPool) : Z := s32 (Z.of_nat (length (conn_que_ p))).

(** [SqlConnRAII]: the constructor takes a connection, the destructor gives it
    back if there was one. *)
Definition raii_acquire (p : SqlConnPool) : result (conn * SqlConnPool) := GetConn p.
Definition raii_release (sql : conn) (p : SqlConnPool) : result SqlConnPool :=
  if bool_decide (is_Some sql) then FreeConn sql p else Ok p.

(** ** Threads *)

(** Where a thread is in [UserVerify]. *)
Inductive pc : Type :=
  | Idle
  | Checked                (** [GetConn] saw a non-empty queue, will wait on the semaphore *)
  | Granted                (** the wait returned, will pop under the mutex *)
  | Acquired (sql : conn)  (** the guard has what [GetConn] returned *)
  | Using (sql : conn)     (** the guard is gone; the query comes *)
  | Aborted.               (** [assert(sql)] failed *)

(** [closed]: [ClosePool] has run. *)
Record system : Type := mkSystem { pool : SqlConnPool; threads : list pc; closed : bool }.

Definition set_thread (t : nat) (k : pc) (s : system) : system :=
  mkSystem (pool s) (<[t := k]> (threads s)) (closed s).
Definition set_pool (p : SqlConnPool) (s : system) : system := mkSystem p (threads s) (closed s).
Definition set_queue (q : list conn) (p : SqlConnPool) : SqlConnPool :=
  mkPool (MAX_CONN_ p) (free_count_ p) (use_count_ p) q (sem_id_ p).
Definition set_sem (v : Z) (p : SqlConnPool) : SqlConnPool :=
  mkPool (MAX_CONN_ p) (free_count_ p) (use_count_ p) (conn_que_ p) v.

(** One step of thread [t], or the end of the pool. *)
Inductive step : system -> system -> Prop :=
  (* GetConn *)
  | step_check s t :
      threads s !! t = Some Idle -> conn_que_ (pool s) <> [] ->
      step s (set_thread t Checked s)
  | step_check_empty s t :
      threads s !! t = Some Idle -> conn_que_ (pool s) = [] ->
      step s (set_thread t (Acquired None) s)
  | step_wait s t :
      threads s !! t = Some Checked -> 0 < sem_id_ (pool s) ->
      step s (set_thread t Granted (set_pool (set_sem (sem_id_ (pool s) - 1) (pool s)) s))
  | step_pop s t sql q :
      threads s !! t = Some Granted -> conn_que_ (pool s) = sql :: q ->
      step s (set_thread t (Acquired sql) (set_pool (set_queue q (pool s)) s))
  (* the guard's destructor, at the end of its statement *)
  | step_guard s t sql p :
      threads s !! t = Some (Acquired sql) -> raii_release sql (pool s) = Ok p ->
      step s (set_thread t (Using sql) (set_pool p s))
  | step_assert s t :
      threads s !! t = Some (Using None) ->
      step s (set_thread t Aborted s)
  (* the query fails, and the verification returns *)
  | step_failed s t c :
      threads s !! t = Some (Using (Some c)) ->
      step s (set_thread t Idle s)
  (* it ends with the release of the connection that was released already *)
  | step_free s t sql p :
      threads s !! t = Some (Using sql) -> FreeConn sql (pool s) = Ok p ->
      step s (set_thread t Idle (set_pool p s))
  (* the destructor of the static pool *)
  | step_close s :
      step s (mkSystem (ClosePool (pool s)).2 (threads s) true).

(** The program starts [n] threads on a pool of [conn_size] connections. *)
Definition start (n : nat) (connect : nat -> conn) (conn_size : Z) : result system :=
  p ← init connect conn_size new_pool; Ok (mkSystem p (replicate n Idle) false).

(** ** The semaphore counts the queue *)

Definition is_granted (k : pc) : Z := match k with Granted => 1 | _ => 0 end.

Fixpoint granted (ts : list pc) : Z :=
  match ts with [] => 0 | k :: ts => is_granted k + granted ts end.

(** Until the pool is closed. *)
Definition counted (s : system) : Prop :=
  closed s = false -> 0 <= sem_id_ (pool s) /\
  Z.of_nat (length (conn_que_ (pool s))) = sem_id_ (pool s) + granted (threads s).

Lemma granted_nonneg ts : 0 <= granted ts.
Proof. induction ts as [|[] ts IH]; simpl; lia. Qed.

Lemma granted_insert ts t k k' :
  ts !! t = Some k -> granted (<[t := k']> ts) = granted ts - is_granted k + is_granted k'.
Proof.
  revert t. induction ts as [|x ts IH]; intros [|t] Ht; simplify_eq/=; [lia|].
  rewrite (IH t) by done. lia.
Qed.

Lemma granted_elem ts t : ts !! t = Some Granted -> 1 <= granted ts.
Proof.
  revert t. induction ts as [|x ts IH]; intros [|t] Ht; simplify_eq/=.
  - pose proof (granted_nonneg ts). lia.
  - specialize (IH _ Ht). destruct x; simpl; lia.
Qed.

Lemma granted_replicate n : granted (replicate n Idle) = 0.
Proof. induction n; simpl; lia. Qed.

Lemma FreeConn_ok sql p p' :
  FreeConn sql p = Ok p' ->
  is_Some sql /\ p' = mkPool (MAX_CONN_ p) (free_count_ p) (use_count_ p)
                        (conn_que_ p ++ [sql]) (sem_id_ p + 1).
Proof. unfold FreeConn. case_bool_decide; simpl; naive_solver. Qed.

Lemma raii_release_ok sql p p' :
  raii_release sql p = Ok p' -> FreeConn sql p = Ok p' \/ sql = None /\ p' = p.
Proof. unfold raii_release. case_bool_decide as Hs; [by left|]. intros [= <-]. right. by rewrite eq_None_not_Some. Qed.

Lemma counted_step s s' : counted s -> step s s' -> counted s'.
Proof.
  intros Hcount Hstep Hopen.
  destruct Hstep as [s t Ht|s t Ht|s t Ht|s t sql q Ht Hq|s t sql p Ht Hp|s t Ht|s t c Ht|s t sql p Ht Hp|s]; [..|done];
    destruct (Hcount Hopen) as [Hsem Hlen]; cbn [pool threads set_thread set_pool set_sem set_queue sem_id_ conn_que_];
    erewrite granted_insert by done; cbn [is_granted]; try lia.
  - rewrite Hq in Hlen. simpl in Hlen. lia.
  - apply raii_release_ok in Hp as [[_ ->]%FreeConn_ok|[-> ->]]; cbn [sem_id_ conn_que_]; rewrite ?length_app; simpl; lia.
  - apply FreeConn_ok in Hp as [_ ->]. cbn [sem_id_ conn_que_]. rewrite length_app. simpl. lia.
Qed.

Lemma counted_start n connect conn_size s :
  start n connect conn_size = Ok s -> counted s.
Proof.
  unfold start, init, counted. intros H _. inv_bind H. inv_bind Ha. simplify_eq. zbool. simpl.
  rewrite granted_replicate, length_fmap, length_seq. lia.
Qed.

Lemma counted_rtc s s' : counted s -> rtc step s s' -> counted s'.
Proof. intros Hc. induction 1; eauto using counted_step. Qed.

(** The steps are those of the operations: a thread that nobody interrupts gets
    the connection, and gives it back, as [GetConn] and the guard do. *)
Lemma verification_steps s t sql p1 p2 :
  threads s !! t = Some Idle -> raii_acquire (pool s) = Ok (sql, p1) -> raii_release sql p1 = Ok p2 ->
  rtc step s (set_thread t (Using sql) (set_pool p2 s)).
Proof.
  intros Ht Hacq Hrel. assert (Hlt : (t < length (threads s))%nat) by by eapply lookup_lt_Some.
  destruct s as [p ts b]. unfold raii_acquire, GetConn in Hacq. cbn [pool threads] in *.
  destruct (conn_que_ p) as [|sql0 q] eqn:Hq.
  - injection Hacq as <- <-. eapply rtc_l; [apply (step_check_empty _ t); done|].
    eapply rtc_l; [apply (step_guard _ t None p2); [by apply list_lookup_insert_eq|done]|].
    unfold set_thread, set_pool. cbn. rewrite list_insert_insert_eq. apply rtc_refl.
  - unfold guard_ in Hacq. destruct (Z.ltb_spec 0 (sem_id_ p)); [|done]. rewrite bind_ok in Hacq. injection Hacq as <- <-.
    eapply rtc_l; [apply (step_check _ t); [done|cbn; by rewrite Hq]|].
    eapply rtc_l; [apply (step_wait _ t); [by apply list_lookup_insert_eq|done]|]. cbn.
    eapply rtc_l; [apply (step_pop _ t sql0 q); [apply list_lookup_insert_eq; cbn; by rewrite length_insert|done]|]. cbn.
    eapply rtc_l; [apply (step_guard _ t sql0 p2); [apply list_lookup_insert_eq; cbn; by rewrite !length_insert|exact Hrel]|].
    unfold set_thread, set_pool. cbn. rewrite !list_insert_insert_eq. apply rtc_refl.
Qed.

(** C33: However the verifications of several threads interleave, each of which
    releases its connection as soon as it has it, goes on using it, and releases
    it again unless its query failed, a thread that was granted the semaphore
    finds a connection in the queue, so that [front] and [pop] do not run on an
    empty queue, although [GetConn] looks at the queue without the mutex: unless
    [ClosePool] has run, which empties the queue and leaves the semaphore, and
    after which it can happen. *)
Theorem pop_never_empty (n : nat) (connect : nat -> option nat) (conn_size : Z) (s0 : system) :
  start n connect conn_size = Ok s0 ->
  (forall s t, rtc step s0 s -> threads s !! t = Some Granted -> conn_que_ (pool s) = [] -> closed s = true) /\
  ((0 < n)%nat -> exists s t, rtc step s0 s /\ threads s !! t = Some Granted /\ conn_que_ (pool s) = []).
Proof.
  intros H0. split.
  - intros s t Hrun Ht Hq. destruct (closed s) eqn:Hc; [done|].
    destruct (counted_rtc s0 s (counted_start _ _ _ _ H0) Hrun Hc) as [Hsem Hlen].
    apply granted_elem in Ht. rewrite Hq in Hlen. simpl in Hlen. lia.
  - intros Hn. unfold start, init in H0. inv_bind H0. inv_bind Ha. simplify_eq. zbool.
    destruct n as [|n]; [lia|]. destruct (Z.to_nat conn_size) as [|k] eqn:Hk; [lia|]. eexists _, 0%nat. split; [|split].
    + eapply rtc_l; [apply (step_check _ 0%nat); done|]. eapply rtc_l; [apply (step_wait _ 0%nat); [done|cbn; lia]|].
      apply rtc_once, step_close.
    + done.
    + done.
Qed.

Definition demo_connect (i : nat) : option nat := Some i.

(** Two threads on one connection, both granted: the first has put it back. *)
Definition demo_system : system :=
  mkSystem (mkPool 1 0 0 [Some 0%nat] 0) [Using (Some 0%nat); Granted] false.

Theorem pop_never_empty_witness :
  conn_que_ (pool demo_system) <> [] /\
  exists s t, rtc step (mkSystem (mkPool 1 0 0 [Some 0%nat] 1) [Idle; Idle] false) s /\
    threads s !! t = Some Granted /\ conn_que_ (pool s) = [].
Proof.
  destruct (pop_never_empty 2 demo_connect 1 (mkSystem (mkPool 1 0 0 [Some 0%nat] 1) [Idle; Idle] false) eq_refl) as [Hopen Hclosed].
  split; [|apply Hclosed; lia]. intros Hq.
  assert (Hc : closed demo_system = true); [|discriminate Hc].
  apply (Hopen demo_system 1%nat); [|reflexivity|exact Hq].
  eapply rtc_l; [apply (step_check _ 0%nat); [reflexivity|discriminate]|].
  eapply rtc_l; [apply (step_check _ 1%nat); [reflexivity|discriminate]|].
  eapply rtc_l; [apply (step_wait _ 0%nat); [reflexivity|simpl; lia]|].
  eapply rtc_l; [apply (step_pop _ 0%nat (Some 0%nat) []); reflexivity|].
  eapply rtc_l; [apply (step_guard _ 0%nat (Some 0%nat)); reflexivity|].
  eapply rtc_l; [apply (step_wait _ 1%nat); [reflexivity|simpl; lia]|].
  apply rtc_refl.
Defined.
