(* ===== verification/HttpRequest.v ===== *)
(** * HttpRequest: the request parser (src/http/httprequest.h, httprequest.cc)

    The parser reads lines off the connection's buffer through the states
    REQUEST_LINE, HEADERS, BODY, FINISH; a form posted to the login or the
    registration page is decoded and checked against the user table.  The pool
    of connections and the database are global in the code: they are an [env]
    threaded through the calls, and the MySQL client library is the interface
    [MySQL]. *)

From stdpp Require Import base list numbers strings gmap.
From Stdlib Require Import ZArith Lia Ascii.
From S2P Require Import Prelude Buffer Regex SqlConnPool.

Local Open Scope Z_scope.
Local Open Scope result_scope.

(** ** Data *)

Inductive PARSE_STATE : Type := REQUEST_LINE | HEADERS | BODY | FINISH.

#[export] Instance PARSE_STATE_eq_dec : EqDecision PARSE_STATE.
Proof. solve_decision. Defined.

Inductive HTTP_CODE : Type :=
  | NO_REQUEST | GET_REQUEST | BAD_REQUEST | NO_RESOURSE
  | FORBIDDENT_REQUEST | FILE_REQUEST | INTERNAL_ERROR | CLOSED_CONNECTION.

Record HttpRequest : Type := mkRequest {
  state_ : PARSE_STATE;
  method_ : bytes;
  path_ : bytes;
  version_ : bytes;
  body_ : bytes;
  header_ : gmap bytes bytes;
  post_ : gmap bytes bytes
}.

Definition DEFAULT_HTML : list bytes :=
  lit <$> ["/index"; "/register"; "/login"; "/welcome"; "/video"; "/picture"]%string.

Definition DEFAULT_HTML_TAG : gmap bytes Z :=
  {[ lit "/register.html" := 0; lit "/login.html" := 1 ]}.

Definition Init : HttpRequest := mkRequest REQUEST_LINE [] [] [] [] ∅ ∅.

Definition set_state (s : PARSE_STATE) (r : HttpRequest) : HttpRequest :=
  mkRequest s (method_ r) (path_ r) (version_ r) (body_ r) (header_ r) (post_ r).
Definition set_path (p : bytes) (r : HttpRequest) : HttpRequest :=
  mkRequest (state_ r) (method_ r) p (version_ r) (body_ r) (header_ r) (post_ r).
Definition set_body (b : bytes) (r : HttpRequest) : HttpRequest :=
  mkRequest (state_ r) (method_ r) (path_ r) (version_ r) b (header_ r) (post_ r).
Definition set_header (h : gmap bytes bytes) (r : HttpRequest) : HttpRequest :=
  mkRequest (state_ r) (method_ r) (path_ r) (version_ r) (body_ r) h (post_ r).
Definition set_post (m : gmap bytes bytes) (r : HttpRequest) : HttpRequest :=
  mkRequest (state_ r) (method_ r) (path_ r) (version_ r) (body_ r) (header_ r) m.

(** [map[key]] of an unordered map: a missing key is inserted, empty. *)
Definition subscript (key : bytes) (m : gmap bytes bytes) : bytes * gmap bytes bytes :=
  match m !! key with
  | Some v => (v, m)
  | None => ([], <[key := []]> m)
  end.

(** ** Accessors *)

Definition path (r : HttpRequest) : bytes := path_ r.
Definition method (r : HttpRequest) : bytes := method_ r.
Definition version (r : HttpRequest) : bytes := version_ r.

Definition GetPost (key : bytes) (r : HttpRequest) : result bytes :=
  assert! (negb (bool_decide (key = [])));
  Ok (default [] (post_ r !! key)).

(** The overload for a C string only asserts that the pointer is not null. *)
Definition GetPost_cstr (key : option bytes) (r : HttpRequest) : result bytes :=
  assert! (bool_decide (is_Some key));
  Ok (default [] (key ≫= fun k => post_ r !! k)).

Definition IsKeepAlive (r : HttpRequest) : bool :=
  match header_ r !! lit "Connection" with
  | Some v => bool_decide (v = lit "keep-alive") && bool_decide (version_ r = lit "1.1")
  | None => false
  end.

(** ** Lines *)

Definition ParsePath_ (r : HttpRequest) : HttpRequest :=
  if bool_decide (path_ r = lit "/") then set_path (lit "/index.html") r
  else if bool_decide (path_ r ∈ DEFAULT_HTML) then set_path (path_ r ++ lit ".html") r
  else r.

(** Three groups of non-spaces, separated by a space and by [ HTTP/]. *)
Definition request_line_regex : regex :=
  RCat (RGroup (RStar (not_char " "%char)))
  (RCat (RClass (is_char " "%char))
  (RCat (RGroup (RStar (not_char " "%char)))
  (RLit (lit " HTTP/") (RGroup (RStar (not_char " "%char)))))).

(** A group of non-colons, a colon, an optional space, a group of anything. *)
Definition header_regex : regex :=
  RCat (RGroup (RStar (not_char ":"%char)))
  (RCat (RClass (is_char ":"%char))
  (RCat (ROpt (RClass (is_char " "%char)))
  (RGroup (RStar any_char)))).

Definition ParseRequestLine_ (line : bytes) (r : HttpRequest) : option HttpRequest :=
  match regex_match request_line_regex line with
  | Some [m; p; v] => Some (mkRequest HEADERS m p v (body_ r) (header_ r) (post_ r))
  | _ => None
  end.

Definition ParseHeader_ (line : bytes) (r : HttpRequest) : HttpRequest :=
  match regex_match header_regex line with
  | Some [k; v] => set_header (<[k := v]> (header_ r)) r
  | _ => set_state BODY r
  end.

(** ** Forms *)

Definition ConverHex (ch : Ascii.ascii) : Z :=
  let c := char_code ch in
  if (char_code "A" <=? c) && (c <=? char_code "F") then c - char_code "A" + 10
  else if (char_code "a" <=? c) && (c <=? char_code "f") then c - char_code "a" + 10
  else c.

(** [std::string::substr]. *)
Definition substr (pos len : Z) (s : bytes) : result bytes :=
  guard_ OutOfRange (pos <=? Z.of_nat (length s)) ≫= fun _ =>
  Ok (slice s (Z.to_nat pos) (Z.to_nat (Z.min (u64 len) (Z.of_nat (length s))))).

(** The locals of [ParseFromUrlencoded_] with the body and the form it fills. *)
Record form_state : Type := mkForm {
  f_body : bytes;
  f_key : bytes;
  f_j : Z;
  f_post : gmap bytes bytes
}.

Definition char_at (s : bytes) (i : Z) : Ascii.ascii := nth (Z.to_nat i) s nul.

(** One character; the result says how far [i] moves.  The two digits after a
    percent sign are overwritten with characters that are never NUL, so they
    must lie inside the string. *)
Definition form_step (n i : Z) (f : form_state) : result (Z * form_state) :=
  let ch := char_at (f_body f) i in
  if bool_decide (ch = "="%char) then
    key ← substr (f_j f) (i - f_j f) (f_body f);
    Ok (1, mkForm (f_body f) key (i + 1) (f_post f))
  else if bool_decide (ch = "+"%char) then
    Ok (1, mkForm (<[Z.to_nat i := " "%char]> (f_body f)) (f_key f) (f_j f) (f_post f))
  else if bool_decide (ch = "%"%char) then
    guard_ OutOfRange (i + 2 <? n) ≫= fun _ =>
    let num := ConverHex (char_at (f_body f) (i + 1)) * 16 + ConverHex (char_at (f_body f) (i + 2)) in
    let b1 := <[Z.to_nat (i + 2) := code_char (Z.rem num 10 + char_code "0")]> (f_body f) in
    let b2 := <[Z.to_nat (i + 1) := code_char (Z.quot num 10 + char_code "0")]> b1 in
    Ok (3, mkForm b2 (f_key f) (f_j f) (f_post f))
  else if bool_decide (ch = "&"%char) then
    value ← substr (f_j f) (i - f_j f) (f_body f);
    Ok (1, mkForm (f_body f) (f_key f) (i + 1) (<[f_key f := value]> (f_post f)))
  else Ok (1, f).

Fixpoint form_loop (fuel : nat) (n i : Z) (f : form_state) : result (Z * form_state) :=
  if i <? n then
    match fuel with
    | O => Fault OutOfFuel
    | S fuel => '(d, f1) ← form_step n i f; form_loop fuel n (i + d) f1
    end
  else Ok (i, f).

Definition ParseFromUrlencoded_ (r : HttpRequest) : result HttpRequest :=
  if bool_decide (body_ r = []) then Ok r
  else
    let n := s32 (Z.of_nat (length (body_ r))) in
    '(i, f) ← form_loop (Z.to_nat n) n 0 (mkForm (body_ r) [] 0 (post_ r));
    let r1 := set_post (f_post f) (set_body (f_body f) r) in
    assert! (f_j f <=? i);
    if negb (bool_decide (is_Some (f_post f !! f_key f))) && (f_j f <? i)
    then
      value ← substr (f_j f) (i - f_j f) (f_body f);
      Ok (set_post (<[f_key f := value]> (f_post f)) r1)
    else Ok r1.

(** ** The user table *)

(** The client library: a query answers whether it failed (non-zero), a
    stored result is a list of rows or null; a field of a row may be null. *)
Class MySQL (DB : Type) := {
  mysql_query : nat -> bytes -> DB -> bool * DB;
  mysql_store_result : nat -> DB -> option (list (list (option bytes))) * DB
}.

Record env (DB : Type) : Type := mkEnv { sqlpool : SqlConnPool; db : DB }.
Arguments mkEnv {DB}. Arguments sqlpool {DB}. Arguments db {DB}.

(** [snprintf(order, 256, ...)] keeps 255 characters. *)
Definition snprintf256 (s : bytes) : bytes := take 255 s.

Definition select_order (name : bytes) : bytes :=
  snprintf256 (lit "SELECT username, password FROM user WHERE username='" ++ c_str name
               ++ lit "' LIMIT 1").
Definition insert_order (name pwd : bytes) : bytes :=
  snprintf256 (lit "INSERT INTO user(username, password) VALUES('" ++ c_str name
               ++ lit "','" ++ c_str pwd ++ lit "')").

(** The fetch loop: [flag] after the rows. *)
Fixpoint verify_rows (pwd : bytes) (isLogin : bool) (rows : list (list (option bytes)))
    (flag : bool) : result bool :=
  match rows with
  | [] => Ok flag
  | row :: rows =>
      field ← of_option OutOfRange (row !! 1%nat);
      password ← of_option NullDeref field;
      verify_rows pwd isLogin rows (isLogin && bool_decide (pwd = c_str password))
  end.

Section verify.
Context {DB : Type} `{MySQL DB}.
Implicit Types (e : env DB).

(** The temporary [SqlConnRAII] object is destroyed at the end of its own
    statement, before the connection is used. *)
Definition UserVerify (name pwd : bytes) (isLogin : bool) (e : env DB) : result (bool * env DB) :=
  if bool_decide (name = []) || bool_decide (pwd = []) then Ok (false, e)
  else
    '(sql, p1) ← raii_acquire (sqlpool e);
    p2 ← raii_release sql p1;
    c ← of_option AssertFailed sql;
    let '(failed, db1) := mysql_query c (select_order name) (db e) in
    if failed then Ok (false, mkEnv p2 db1)
    else
      let '(res, db2) := mysql_store_result c db1 in
      rows ← of_option NullDeref res;
      flag ← verify_rows pwd isLogin rows (negb isLogin);
      let db3 := if negb isLogin && flag
                 then (mysql_query c (insert_order name pwd) db2).2 else db2 in
      p3 ← FreeConn sql p2;
      Ok (flag, mkEnv p3 db3).

Definition ParsePost_ (r : HttpRequest) (e : env DB) : result (HttpRequest * env DB) :=
  if bool_decide (method_ r = lit "POST") then
    let '(ct, h) := subscript (lit "Content-Type") (header_ r) in
    let r0 := set_header h r in
    if bool_decide (ct = lit "application/x-www-form-urlencoded") then
      r1 ← ParseFromUrlencoded_ r0;
      match DEFAULT_HTML_TAG !! path_ r1 with
      | Some tag =>
          if (tag =? 0) || (tag =? 1) then
            let '(username, m1) := subscript (lit "username") (post_ r1) in
            let '(password, m2) := subscript (lit "password") m1 in
            let r2 := set_post m2 r1 in
            '(ok, e1) ← UserVerify username password (tag =? 1) e;
            Ok (set_path (if ok : bool then lit "/welcome.html" else lit "/error.html") r2, e1)
          else Ok (r1, e)
      | None => Ok (r1, e)
      end
    else Ok (r0, e)
  else Ok (r, e).

Definition ParseBody_ (line : bytes) (r : HttpRequest) (e : env DB) :
    result (HttpRequest * env DB) :=
  '(r1, e1) ← ParsePost_ (set_body line r) e;
  Ok (set_state FINISH r1, e1).

(** ** The parser *)

(** [std::search] for CR LF: the offset of the first match, or the length. *)
Fixpoint search_crlf (s : bytes) : nat :=
  match s with
  | a :: ((b :: _) as s') =>
      if ascii_eqb CR a && ascii_eqb LF b then O else S (search_crlf s')
  | [_] => 1
  | [] => O
  end.

(** The switch of [parse]; [None] is the early [return false]. *)
Definition parse_line (line : bytes) (b : Buffer) (r : HttpRequest) (e : env DB) :
    result (option HttpRequest * env DB) :=
  match state_ r with
  | REQUEST_LINE => Ok (ParsePath_ <$> ParseRequestLine_ line r, e)
  | HEADERS =>
      let r1 := ParseHeader_ line r in
      Ok (Some (if read_able_bytes b <=? 2 then set_state FINISH r1 else r1), e)
  | BODY => '(r1, e1) ← ParseBody_ line r e; Ok (Some r1, e1)
  | FINISH => Ok (Some r, e)
  end.

Definition outcome : Type := bool * HttpRequest * Buffer * env DB.

Fixpoint parse_loop (fuel : nat) (b : Buffer) (r : HttpRequest) (e : env DB) : result outcome :=
  if (0 <? read_able_bytes b) && negb (bool_decide (state_ r = FINISH)) then
    match fuel with
    | O => Fault OutOfFuel
    | S fuel =>
        let k := search_crlf (contents b) in
        let lineEnd := peek b + Z.of_nat k in
        '(r1, e1) ← parse_line (take k (contents b)) b r e;
        match r1 with
        | None => Ok (false, r, b, e1)
        | Some r1 =>
            if lineEnd =? begin_write b then Ok (true, r1, b, e1)
            else b1 ← retrieve_unitil (lineEnd + 2) b; parse_loop fuel b1 r1 e1
        end
    end
  else Ok (true, r, b, e).

Definition parse (b : Buffer) (r : HttpRequest) (e : env DB) : result outcome :=
  if read_able_bytes b <=? 0 then Ok (false, r, b, e)
  else parse_loop (length (contents b)) b r e.
End verify.
