(* ===== verification/Forms.v ===== *)
(** * Forms: decoding a posted form (src/http/httprequest.cc)

    [ParseFromUrlencoded_] always terminates; on forms without percent escapes
    it decodes what a browser encodes; an escape is never decoded, and one cut
    short at the end of the body is an access out of bounds. *)

From stdpp Require Import base list numbers strings gmap.
From Stdlib Require Import ZArith Lia Ascii.
From S2P Require Import Prelude Buffer Regex SqlConnPool HttpRequest.

Local Open Scope Z_scope.

(** ** Termination *)

Lemma guard_fault f (c : bool) g :
  guard_ f c = Fault g -> g = f.
Proof. by destruct c; intros; simplify_eq/=. Qed.

Lemma substr_fault pos len s f : substr pos len s = Fault f -> f = OutOfRange.
Proof. unfold substr, guard_. destruct (_ <=? _); simpl; congruence. Qed.

Lemma form_step_outcome n i f :
  match form_step n i f with
  | Ok (d, f') => (d = 1 \/ d = 3 /\ i + 2 < n) /\ length (f_body f') = length (f_body f)
  | Fault g => g = OutOfRange
  end.
Proof.
  unfold form_step. repeat case_bool_decide.
  - destruct (substr _ _ _) eqn:Hs; simpl; [auto|by eapply substr_fault].
  - simpl. rewrite length_insert. auto.
  - unfold guard_. destruct (Z.ltb_spec (i + 2) n); simpl; [|done].
    rewrite !length_insert. auto.
  - destruct (substr _ _ _) eqn:Hs; simpl; [auto|by eapply substr_fault].
  - auto.
Qed.

Lemma form_loop_outcome fuel : forall n i f, (Z.to_nat (n - i) <= fuel)%nat -> i <= Z.max n 0 ->
  match form_loop fuel n i f with
  | Ok (i', f') => n <= i' <= Z.max n 0 /\ length (f_body f') = length (f_body f)
  | Fault g => g = OutOfRange
  end.
Proof.
  induction fuel as [|fuel IH]; intros n i f Hfuel Hi; cbn [form_loop];
    (destruct (Z.ltb_spec i n) as [Hin|Hin]; [|split; [lia|done]]); [lia|].
  pose proof (form_step_outcome n i f) as Hstep.
  destruct (form_step n i f) as [[d f']|g]; cbn [mbind result_bind]; [|done].
  destruct Hstep as [Hd Hlen]. specialize (IH n (i + d) f').
  destruct (form_loop fuel n (i + d) f') as [[i2 f2]|g].
  - rewrite <-Hlen. apply IH; lia.
  - apply IH; lia.
Qed.

Lemma ParseFromUrlencoded_faults r g :
  ParseFromUrlencoded_ r = Fault g -> g = OutOfRange \/ g = AssertFailed.
Proof.
  unfold ParseFromUrlencoded_. case_bool_decide; [done|]. cbv zeta.
  set (n := s32 _). intros Hp.
  pose proof (form_loop_outcome (Z.to_nat n) n 0 (mkForm (body_ r) [] 0 (post_ r))) as Hl.
  destruct (form_loop _ _ _ _) as [[i f]|g']; cbn [mbind result_bind] in Hp.
  - unfold assert_ in Hp. destruct (_ <=? _); cbn [mbind result_bind] in Hp; [|naive_solver].
    destruct (_ && _); [|done].
    destruct (substr _ _ _) eqn:Hs; simpl in Hp; [done|]. apply substr_fault in Hs. naive_solver.
  - simplify_eq. left. apply Hl; lia.
Qed.

(** ** Encoding *)

(** What a browser sends for text without reserved characters: spaces become
    plus signs. *)
Definition plain (c : Ascii.ascii) : Prop :=
  c <> "="%char /\ c <> "+"%char /\ c <> "%"%char /\ c <> "&"%char.

Definition plus (s : bytes) : bytes :=
  (fun c => if decide (c = " "%char) then "+"%char else c) <$> s.

Definition pair_text (enc : bytes -> bytes) (kv : bytes * bytes) : bytes :=
  enc kv.1 ++ lit "=" ++ enc kv.2.

(** The pairs of a form: all but the last are followed by an ampersand. *)
Definition form_text (enc : bytes -> bytes) (init : list (bytes * bytes)) (last : bytes * bytes) :
    bytes :=
  concat ((fun kv => pair_text enc kv ++ lit "&") <$> init) ++ pair_text enc last.

Definition set_fields (kvs : list (bytes * bytes)) (m : gmap bytes bytes) : gmap bytes bytes :=
  foldl (fun m kv => <[kv.1 := kv.2]> m) m kvs.

(** The last pair is only kept when its name is new and its value not empty. *)
Definition set_last (kv : bytes * bytes) (m : gmap bytes bytes) : gmap bytes bytes :=
  if bool_decide (m !! kv.1 = None) && negb (bool_decide (kv.2 = [])) then <[kv.1 := kv.2]> m else m.

Section loop.
Context (n : Z).

Lemma char_at_middle pre c post i :
  i = Z.of_nat (length pre) -> char_at (pre ++ c :: post) i = c.
Proof.
  intros ->. unfold char_at. rewrite Nat2Z.id, app_nth2, Nat.sub_diag by lia. done.
Qed.

Lemma substr_middle pre s post i j :
  j = Z.of_nat (length pre) -> i = j + Z.of_nat (length s) -> i < 2 ^ 63 ->
  substr j (i - j) (pre ++ s ++ post) = Ok s.
Proof.
  intros -> -> Hi. unfold substr, guard_.
  rewrite (proj2 (Z.leb_le _ _)) by (rewrite length_app; lia). cbn [mbind result_bind].
  f_equal. rewrite u64_small, !length_app by lia.
  replace (Z.to_nat (Z.min _ _)) with (length s) by lia.
  unfold slice. rewrite Nat2Z.id, drop_app_length. apply take_app_length.
Qed.

(** The loop over characters that are neither separators nor escapes. *)
Lemma form_loop_plain s : forall fuel pre post key j m,
  Forall plain s -> Z.of_nat (length pre + length s) <= n ->
  form_loop (length s + fuel) n (Z.of_nat (length pre)) (mkForm (pre ++ plus s ++ post) key j m) =
  form_loop fuel n (Z.of_nat (length pre + length s)) (mkForm (pre ++ s ++ post) key j m).
Proof.
  induction s as [|c s IH]; intros fuel pre post key j m Hs Hn; cbn [length Nat.add].
  - by rewrite Nat.add_0_r.
  - apply Forall_cons in Hs as [(H1 & H2 & H3 & H4) Hs]. simpl in Hn.
    cbn [form_loop]. rewrite (proj2 (Z.ltb_lt _ _)) by lia.
    specialize (IH fuel (pre ++ [c]) post key j m Hs).
    rewrite length_app in IH. simpl in IH.
    assert (Hstep : form_step n (Z.of_nat (length pre))
              (mkForm (pre ++ plus (c :: s) ++ post) key j m) =
              Ok (1, mkForm ((pre ++ [c]) ++ plus s ++ post) key j m)).
    { unfold form_step. cbn [f_body f_key f_j f_post plus fmap list_fmap app].
      rewrite char_at_middle by done. rewrite <-app_assoc.
      destruct (decide (c = " "%char)) as [->|Hsp].
      - rewrite !(bool_decide_false (_ = "="%char)), (bool_decide_true (_ = _)) by done.
        rewrite Nat2Z.id, insert_app_r_alt, Nat.sub_diag by lia. done.
      - rewrite !bool_decide_false by done. done. }
    rewrite Hstep. cbn [mbind result_bind].
    replace (Z.of_nat (length pre) + 1) with (Z.of_nat (length pre + 1)) by lia.
    rewrite IH by lia. rewrite <-app_assoc. f_equal. lia.
Qed.

Lemma form_loop_equals fuel pre key0 s post m :
  Z.of_nat (length pre + length s) < n -> n < 2 ^ 31 ->
  form_loop (S fuel) n (Z.of_nat (length pre + length s))
    (mkForm (pre ++ s ++ "="%char :: post) key0 (Z.of_nat (length pre)) m) =
  form_loop fuel n (Z.of_nat (length pre + length s + 1))
    (mkForm (pre ++ s ++ "="%char :: post) s (Z.of_nat (length pre + length s + 1)) m).
Proof.
  intros Hlt Hn. cbn [form_loop]. rewrite (proj2 (Z.ltb_lt _ _)) by lia.
  unfold form_step. cbn [f_body f_key f_j f_post].
  rewrite (app_assoc pre s), char_at_middle, <-app_assoc by (rewrite length_app; lia).
  rewrite bool_decide_true by done. rewrite substr_middle by lia. cbn [mbind result_bind].
  by replace (Z.of_nat (length pre + length s) + 1) with (Z.of_nat (length pre + length s + 1)) by lia.
Qed.

Lemma form_loop_amp fuel pre key s post m :
  Z.of_nat (length pre + length s) < n -> n < 2 ^ 31 ->
  form_loop (S fuel) n (Z.of_nat (length pre + length s))
    (mkForm (pre ++ s ++ "&"%char :: post) key (Z.of_nat (length pre)) m) =
  form_loop fuel n (Z.of_nat (length pre + length s + 1))
    (mkForm (pre ++ s ++ "&"%char :: post) key (Z.of_nat (length pre + length s + 1)) (<[key := s]> m)).
Proof.
  intros Hlt Hn. cbn [form_loop]. rewrite (proj2 (Z.ltb_lt _ _)) by lia.
  unfold form_step. cbn [f_body f_key f_j f_post].
  rewrite (app_assoc pre s), char_at_middle, <-app_assoc by (rewrite length_app; lia).
  rewrite !bool_decide_false, bool_decide_true by done.
  rewrite substr_middle by lia. cbn [mbind result_bind].
  by replace (Z.of_nat (length pre + length s) + 1) with (Z.of_nat (length pre + length s + 1)) by lia.
Qed.
End loop.

Definition plain_pair (kv : bytes * bytes) : Prop := Forall plain kv.1 /\ Forall plain kv.2.

Lemma length_plus s : length (plus s) = length s.
Proof. apply length_fmap. Qed.

Lemma length_pair_text kv : length (pair_text plus kv) = length (pair_text id kv).
Proof. unfold pair_text. by rewrite !length_app, !length_plus. Qed.

Lemma length_form_text init last : length (form_text plus init last) = length (form_text id init last).
Proof.
  unfold form_text. rewrite !length_app, length_pair_text. f_equal.
  induction init as [|kv init IH]; [done|]. cbn [fmap list_fmap concat].
  rewrite !length_app, length_pair_text, IH. done.
Qed.

(** A name, the equals sign and a value. *)
Lemma form_loop_pair n fuel pre kv post key m :
  plain_pair kv -> Z.of_nat (length pre + length (pair_text id kv)) <= n -> n < 2 ^ 31 ->
  form_loop (length (pair_text id kv) + fuel) n (Z.of_nat (length pre))
    (mkForm (pre ++ pair_text plus kv ++ post) key (Z.of_nat (length pre)) m) =
  form_loop fuel n (Z.of_nat (length pre + length (pair_text id kv)))
    (mkForm (pre ++ pair_text id kv ++ post) kv.1 (Z.of_nat (length pre + length kv.1 + 1)) m).
Proof.
  destruct kv as [k v]. intros [Hk Hv]. unfold pair_text, lit, id. cbn [fst snd] in *.
  cbn [String.list_ascii_of_string app]. rewrite !length_app. cbn [length]. intros Hle Hn.
  rewrite <-!app_assoc. cbn [app].
  replace (length k + S (length v) + fuel)%nat with (length k + (S (length v + fuel)))%nat by lia.
  rewrite form_loop_plain by (done || lia).
  rewrite form_loop_equals by lia.
  pose proof (form_loop_plain n v fuel (pre ++ k ++ ["="%char]) post k
                (Z.of_nat (length pre + length k + 1)) m Hv) as Hpl.
  rewrite !length_app in Hpl. cbn [length] in Hpl. rewrite <-!app_assoc in Hpl. cbn [app] in Hpl.
  rewrite !Nat.add_assoc in Hpl. rewrite Hpl by lia. f_equal. lia.
Qed.

Lemma pair_text_split pre kv x :
  pre ++ pair_text id kv ++ x = (pre ++ kv.1 ++ lit "=") ++ kv.2 ++ x.
Proof. unfold pair_text, id. by rewrite <-!app_assoc. Qed.

Lemma length_pair kv : length (pair_text id kv) = (length kv.1 + 1 + length kv.2)%nat.
Proof. unfold pair_text, id. rewrite !length_app. simpl. lia. Qed.

(** A pair and the ampersand after it. *)
Lemma form_loop_pair_amp n fuel pre kv post key m :
  plain_pair kv -> Z.of_nat (length pre + length (pair_text id kv)) < n -> n < 2 ^ 31 ->
  let i := Z.of_nat (length pre + length (pair_text id kv) + 1) in
  form_loop (length (pair_text id kv) + S fuel) n (Z.of_nat (length pre))
    (mkForm (pre ++ pair_text plus kv ++ "&"%char :: post) key (Z.of_nat (length pre)) m) =
  form_loop fuel n i
    (mkForm (pre ++ pair_text id kv ++ "&"%char :: post) kv.1 i (<[kv.1 := kv.2]> m)).
Proof.
  intros Hkv Hlt Hn. cbv zeta. rewrite form_loop_pair by (done || lia). rewrite pair_text_split.
  set (pre' := pre ++ kv.1 ++ lit "=").
  assert (Hpre : length pre' = (length pre + length kv.1 + 1)%nat)
    by (unfold pre'; rewrite !length_app; simpl; lia).
  pose proof (length_pair kv) as Hp.
  replace (length pre + length (pair_text id kv))%nat with (length pre' + length kv.2)%nat in * by lia.
  rewrite <-Hpre. apply form_loop_amp; lia.
Qed.

Definition pairs_text (enc : bytes -> bytes) (init : list (bytes * bytes)) : bytes :=
  concat ((fun kv => pair_text enc kv ++ lit "&") <$> init).

Lemma pairs_text_cons enc kv init :
  pairs_text enc (kv :: init) = pair_text enc kv ++ "&"%char :: pairs_text enc init.
Proof. unfold pairs_text. cbn [fmap list_fmap concat]. by rewrite <-app_assoc. Qed.

Lemma form_loop_pairs n init : forall fuel pre post key m,
  Forall plain_pair init -> n < 2 ^ 31 ->
  Z.of_nat (length pre + length (pairs_text id init)) <= n ->
  exists key', form_loop (length (pairs_text id init) + fuel) n (Z.of_nat (length pre))
      (mkForm (pre ++ pairs_text plus init ++ post) key (Z.of_nat (length pre)) m) =
    form_loop fuel n (Z.of_nat (length pre + length (pairs_text id init)))
      (mkForm (pre ++ pairs_text id init ++ post) key'
         (Z.of_nat (length pre + length (pairs_text id init))) (set_fields init m)).
Proof.
  induction init as [|kv init IH]; intros fuel pre post key m Hall Hn Hle.
  { exists key. cbn. by rewrite Nat.add_0_r. }
  apply Forall_cons in Hall as [Hkv Hall].
  rewrite !pairs_text_cons, !length_app in *. cbn [length] in *. rewrite <-!app_assoc. cbn [app].
  replace (length (pair_text id kv) + S (length (pairs_text id init)) + fuel)%nat
    with (length (pair_text id kv) + S (length (pairs_text id init) + fuel))%nat by lia.
  rewrite form_loop_pair_amp by (done || lia).
  destruct (IH fuel (pre ++ pair_text id kv ++ ["&"%char]) post kv.1 (<[kv.1 := kv.2]> m))
    as [key' Hk]; [done|done| |].
  { rewrite !length_app. cbn [length]. lia. }
  exists key'. rewrite !length_app in Hk. cbn [length] in Hk. rewrite <-!app_assoc in Hk.
  cbn [app] in Hk. rewrite !Nat.add_assoc in Hk. cbn [set_fields foldl]. rewrite Hk.
  do 2 f_equal; [lia|]. f_equal. lia.
Qed.

(** The decoder on a printed form. *)
Lemma form_decoded (init : list (bytes * bytes)) (last : bytes * bytes) (r : HttpRequest) :
  Forall plain_pair init -> plain_pair last ->
  body_ r = form_text plus init last -> Z.of_nat (length (body_ r)) < 2 ^ 31 ->
  ParseFromUrlencoded_ r =
    Ok (set_post (set_last last (set_fields init (post_ r)))
          (set_body (form_text id init last) r)).
Proof.
  intros Hinit Hlast Hb Hlen. unfold ParseFromUrlencoded_.
  assert (Hne : length (body_ r) = (length (pairs_text id init) + length (pair_text id last))%nat).
  { rewrite Hb, length_form_text. unfold form_text. by rewrite length_app. }
  pose proof (length_pair last) as Hpl.
  rewrite bool_decide_false by (intros Hnil; rewrite Hnil in Hne; simpl in Hne; lia). cbv zeta.
  rewrite s32_small by lia. rewrite Hne, Nat2Z.id. set (n := Z.of_nat _).
  rewrite Hb. change (form_text plus init last) with (pairs_text plus init ++ pair_text plus last).
  destruct (form_loop_pairs n init (length (pair_text id last)) [] (pair_text plus last) [] (post_ r))
    as [key Hk]; [done|lia|simpl; lia|].
  cbn [app length Nat.add] in Hk. change (Z.of_nat 0) with 0 in Hk. rewrite Hk. clear Hk.
  pose proof (form_loop_pair n 0 (pairs_text id init) last [] key (set_fields init (post_ r))
                Hlast) as Hp.
  rewrite !app_nil_r, Nat.add_0_r in Hp. rewrite Hp by lia. clear Hp.
  cbn [form_loop]. fold n. rewrite Z.ltb_irrefl. cbn [mbind result_bind f_j f_post f_body f_key].
  rewrite assert_true by (apply Z.leb_le; lia). unfold set_last.
  destruct (set_fields init (post_ r) !! last.1) as [x|] eqn:Hx.
  - rewrite bool_decide_true by eauto. by rewrite bool_decide_false.
  - rewrite bool_decide_false by (intros [? ?]; done). rewrite (bool_decide_true (_ = None)) by done.
    cbn [negb andb]. destruct (decide (last.2 = [])) as [Hv|Hv].
    + rewrite bool_decide_true by done. cbn [negb]. rewrite (proj2 (Z.ltb_ge _ _)); [done|].
      rewrite Hv in Hpl. simpl in Hpl. lia.
    + rewrite bool_decide_false by done. cbn [negb].
      destruct last.2 as [|c v] eqn:Hv2; [done|]. simpl in Hpl.
      rewrite (proj2 (Z.ltb_lt _ _)) by lia.
      pose proof (substr_middle (pairs_text id init ++ last.1 ++ lit "=") last.2 []
                    n (Z.of_nat (length (pairs_text id init) + length last.1 + 1))) as Hs.
      rewrite <-pair_text_split, app_nil_r in Hs.
      rewrite Hs; [|rewrite !length_app; simpl; lia|rewrite Hv2; simpl; lia|lia].
      rewrite Hv2. done.
Qed.

(** C36: A form whose names and values have no reserved character, spaces written
    as plus signs, decodes to its pairs in order, a later value replacing an
    earlier one, except that the last pair does not replace and is dropped
    when its value is empty. *)
Theorem form_roundtrip (init : list (bytes * bytes)) (last : bytes * bytes) (r : HttpRequest) :
  Forall plain_pair init -> plain_pair last ->
  body_ r = form_text plus init last -> Z.of_nat (length (body_ r)) < 2 ^ 31 ->
  ParseFromUrlencoded_ r =
    Ok (set_post (set_last last (set_fields init (post_ r)))
          (set_body (form_text id init last) r)).
Proof. apply form_decoded. Qed.

(** ** Escapes *)

Lemma char_at_drop s i d : 0 <= i -> char_at s (i + Z.of_nat d) = char_at (drop (Z.to_nat i) s) (Z.of_nat d).
Proof.
  intros. unfold char_at. rewrite Nat2Z.id, Z2Nat.inj_add, Nat2Z.id by lia.
  symmetry. apply nth_skipn.
Qed.

(** A character that is not a percent sign: [i] moves by one and what lies
    ahead stays. *)
Lemma form_step_one n i f :
  0 <= f_j f <= i -> i < Z.of_nat (length (f_body f)) -> char_at (f_body f) i <> "%"%char ->
  exists f', form_step n i f = Ok (1, f') /\ 0 <= f_j f' <= i + 1 /\
    length (f_body f') = length (f_body f) /\
    forall d, i < d -> char_at (f_body f') d = char_at (f_body f) d.
Proof.
  intros Hj Hi Hch. unfold form_step.
  assert (Hsub : exists s, substr (f_j f) (i - f_j f) (f_body f) = Ok s).
  { unfold substr, guard_. rewrite (proj2 (Z.leb_le _ _)) by lia. eexists. reflexivity. }
  destruct Hsub as [s Hs]. rewrite Hs. cbn [mbind result_bind]. repeat case_bool_decide; try done.
  - eexists. split; [done|]. split; [simpl; lia|]. done.
  - eexists. split; [done|]. split; [simpl; lia|]. split; [apply length_insert|].
    intros d Hd. simpl. unfold char_at. rewrite !nth_lookup, list_lookup_insert_ne by lia. done.
  - eexists. split; [done|]. split; [simpl; lia|]. done.
  - eexists. split; [done|]. split; [lia|]. done.
Qed.

Lemma form_loop_to_escape n fuel : forall i f k,
  0 <= f_j f <= i -> n = Z.of_nat (length (f_body f)) ->
  i <= k -> k < n -> n <= k + 2 -> (Z.to_nat (n - i) <= fuel)%nat ->
  (forall d, i <= d < k -> char_at (f_body f) d <> "%"%char) -> char_at (f_body f) k = "%"%char ->
  form_loop fuel n i f = Fault OutOfRange.
Proof.
  induction fuel as [|fuel IH]; intros i f k Hj Hn Hik Hkn Hn2 Hfuel Hpre Hk; [lia|].
  cbn [form_loop]. rewrite (proj2 (Z.ltb_lt _ _)) by lia.
  destruct (decide (i = k)) as [->|Hne].
  - unfold form_step. rewrite Hk, !(bool_decide_false ("%"%char = _)), (bool_decide_true (_ = _)) by done.
    unfold guard_. by rewrite (proj2 (Z.ltb_ge _ _)) by lia.
  - destruct (form_step_one n i f) as (f' & Hs & Hj' & Hlen & Hch); [done|lia|apply Hpre; lia|].
    rewrite Hs. cbn [mbind result_bind]. apply (IH (i + 1) f' k); try lia.
    + intros d Hd. rewrite Hch by lia. apply Hpre. lia.
    + by rewrite Hch by lia.
Qed.

(** A form whose first percent sign is the last or the last but one character
    makes the decoder touch memory behind the end of the body. *)
Theorem truncated_escape (pre tl : bytes) (r : HttpRequest) :
  Forall (fun c => c <> "%"%char) pre -> (length tl <= 1)%nat ->
  body_ r = pre ++ "%"%char :: tl -> Z.of_nat (length (body_ r)) < 2 ^ 31 ->
  ParseFromUrlencoded_ r = Fault OutOfRange.
Proof.
  intros Hpre Htl Hb Hlen. unfold ParseFromUrlencoded_.
  assert (Hl : length (body_ r) = (length pre + 1 + length tl)%nat).
  { rewrite Hb, length_app. simpl. lia. }
  rewrite bool_decide_false by (intros Hnil; rewrite Hnil in Hl; simpl in Hl; lia). cbv zeta.
  rewrite s32_small by lia. rewrite Nat2Z.id.
  rewrite (form_loop_to_escape _ _ 0 _ (Z.of_nat (length pre))); [done|simpl; lia|done|lia..| |].
  - intros d Hd. cbn [f_body]. rewrite Hb. unfold char_at.
    rewrite app_nth1 by lia. rewrite Forall_lookup in Hpre.
    destruct (lookup_lt_is_Some_2 pre (Z.to_nat d)) as [c Hc]; [lia|].
    rewrite (nth_lookup_Some _ _ _ _ Hc). by eapply Hpre.
  - cbn [f_body]. rewrite Hb. by apply char_at_middle.
Qed.

(** The two characters an escape is replaced with. *)
Definition escape_residue (a b : Ascii.ascii) : bytes :=
  let num := ConverHex a * 16 + ConverHex b in
  [code_char (Z.quot num 10 + 48); code_char (Z.rem num 10 + 48)].

Lemma form_step_escape n pre a b post key j m :
  Z.of_nat (length pre) + 2 < n ->
  form_step n (Z.of_nat (length pre)) (mkForm (pre ++ "%"%char :: a :: b :: post) key j m) =
    Ok (3, mkForm (pre ++ "%"%char :: escape_residue a b ++ post) key j m).
Proof.
  intros Hn. unfold form_step. cbn [f_body f_key f_j f_post]. rewrite char_at_middle by done.
  rewrite !(bool_decide_false ("%"%char = _)), (bool_decide_true (_ = _)) by done.
  unfold guard_. rewrite (proj2 (Z.ltb_lt _ _)) by lia. cbn [mbind result_bind].
  assert (Ha : char_at (pre ++ "%"%char :: a :: b :: post) (Z.of_nat (length pre) + 1) = a).
  { change ("%"%char :: a :: b :: post) with (["%"%char] ++ a :: b :: post). rewrite app_assoc.
    apply char_at_middle. rewrite length_app. simpl. lia. }
  assert (Hb : char_at (pre ++ "%"%char :: a :: b :: post) (Z.of_nat (length pre) + 2) = b).
  { change ("%"%char :: a :: b :: post) with (["%"%char; a] ++ b :: post). rewrite app_assoc.
    apply char_at_middle. rewrite length_app. simpl. lia. }
  rewrite Ha, Hb. cbv zeta. rewrite !insert_app_r_alt by lia.
  replace (Z.to_nat (Z.of_nat (length pre) + 2) - length pre)%nat with 2%nat by lia.
  by replace (Z.to_nat (Z.of_nat (length pre) + 1) - length pre)%nat with 1%nat by lia.
Qed.

(** A field whose value is one escape is stored as three characters, the
    percent sign first: an escape never becomes the character it stands for. *)
Theorem escape_not_decoded (k : bytes) (a b : Ascii.ascii) (r : HttpRequest) :
  Forall plain k -> body_ r = plus k ++ lit "=%" ++ [a; b] ->
  Z.of_nat (length (body_ r)) < 2 ^ 31 -> post_ r !! k = None ->
  exists r', ParseFromUrlencoded_ r = Ok r' /\
    post_ r' = <[k := "%"%char :: escape_residue a b]> (post_ r).
Proof.
  intros Hk Hb Hlen Hnone. unfold ParseFromUrlencoded_.
  assert (Hl : length (body_ r) = (length k + 4)%nat).
  { rewrite Hb, length_app, length_plus. done. }
  rewrite bool_decide_false by (intros Hnil; rewrite Hnil in Hl; simpl in Hl; lia). cbv zeta.
  rewrite s32_small, Nat2Z.id by lia. rewrite Hl, Hb. set (n := Z.of_nat (length k + 4)).
  pose proof (form_loop_plain n k 4 [] (lit "=%" ++ [a; b]) [] 0 (post_ r) Hk) as Hp.
  cbn [length app Nat.add] in Hp. change (Z.of_nat 0) with 0 in Hp. rewrite Hp by lia. clear Hp.
  pose proof (form_loop_equals n 3 [] [] k ["%"%char; a; b] (post_ r)) as He.
  cbn [app length Nat.add] in He. change (Z.of_nat 0) with 0 in He.
  unfold lit. cbn [String.list_ascii_of_string app]. rewrite He by lia. clear He.
  replace (k ++ ["="%char; "%"%char; a; b]) with ((k ++ ["="%char]) ++ ["%"%char; a; b])
    by by rewrite <-app_assoc.
  set (pre := k ++ ["="%char]).
  assert (Hpre : length pre = (length k + 1)%nat) by (unfold pre; rewrite length_app; done).
  rewrite <-Hpre. cbn [form_loop]. rewrite (proj2 (Z.ltb_lt _ _)), form_step_escape by lia.
  cbn [mbind result_bind]. rewrite (proj2 (Z.ltb_ge _ _)), app_nil_r by lia.
  cbn [mbind result_bind f_j f_body f_key f_post].
  rewrite assert_true by (apply Z.leb_le; lia).
  rewrite bool_decide_false by (rewrite Hnone; intros [? ?]; done).
  rewrite (proj2 (Z.ltb_lt _ _)) by lia. cbn [negb andb].
  pose proof (substr_middle pre ("%"%char :: escape_residue a b) [] (Z.of_nat (length pre) + 3)
                (Z.of_nat (length pre))) as Hs.
  rewrite app_nil_r in Hs. rewrite Hs; [|done|simpl; lia|lia].
  eexists. split; reflexivity.
Qed.

(** ** Witnesses *)

Definition posted (s : string) : HttpRequest := set_body (lit s) Init.

Theorem form_roundtrip_witness :
  ParseFromUrlencoded_ (posted "username=mark+a&password=123") =
    Ok (set_post {[lit "password" := lit "123"; lit "username" := lit "mark a"]}
          (posted "username=mark a&password=123")).
Proof.
  apply (form_roundtrip [(lit "username", lit "mark a")] (lit "password", lit "123")
           (posted "username=mark+a&password=123")).
  - repeat constructor; discriminate.
  - repeat constructor; discriminate.
  - reflexivity.
  - simpl. lia.
Defined.

Theorem truncated_escape_witness :
  ParseFromUrlencoded_ (posted "name=50%") = Fault OutOfRange.
Proof.
  apply (truncated_escape (lit "name=50") [] (posted "name=50%")).
  - repeat constructor; discriminate.
  - simpl. lia.
  - reflexivity.
  - simpl. lia.
Defined.

(** [%41] is the letter A; the two digits become the character 136 and a 1. *)
Theorem escape_not_decoded_witness :
  exists r', ParseFromUrlencoded_ (posted "name=%41") = Ok r' /\
    post_ r' = {[lit "name" := ["%"%char; Ascii.ascii_of_nat 136; "1"%char]]}.
Proof.
  apply (escape_not_decoded (lit "name") "4" "1" (posted "name=%41")).
  - repeat constructor; discriminate.
  - reflexivity.
  - simpl. lia.
  - reflexivity.
Defined.
