(* ===== verification/Parsing.v ===== *)
(** * Parsing: what the request parser accepts (src/http/httprequest.cc)

    The patterns of [HttpRequest] are related to the text they describe, one
    pass of the parse loop to one line of the buffer, and from these the
    theorems on whole requests follow: a printed request parses back, the
    parser always answers, and what it leaves in the buffer. *)

From stdpp Require Import base list numbers strings gmap.
From Stdlib Require Import ZArith Lia Ascii.
From S2P Require Import Prelude Buffer Regex SqlConnPool HttpRequest.

Local Open Scope Z_scope.

(** ** The patterns *)

Lemma run_RLit l r s caps k :
  run (RLit l r) s caps k =
    if decide (l `prefix_of` s) then run r (drop (length l) s) caps k else None.
Proof.
  revert s. induction l as [|c l IH]; intros s.
  - rewrite decide_True by apply prefix_nil. done.
  - cbn [RLit run]. destruct s as [|x s].
    { rewrite decide_False; [done|]. intros ?%prefix_nil_inv. done. }
    destruct (is_char c x) eqn:Hc.
    + apply is_char_true in Hc as ->. rewrite IH. cbn [length drop].
      destruct (decide (l `prefix_of` s)).
      * rewrite decide_True; [done|]. by apply prefix_cons.
      * rewrite decide_False; [done|]. intros ?%prefix_cons_inv_2. done.
    + rewrite decide_False; [done|]. intros ->%prefix_cons_inv_1.
      by rewrite (proj2 (is_char_true x x) eq_refl) in Hc.
Qed.

(** The last group takes the rest, which must be of its class. *)
Lemma last_group p s caps :
  run (RGroup (RStar p)) s caps at_end =
    if decide (Forall (fun x => p x = true) s) then Some (caps ++ [s]) else None.
Proof.
  rewrite star_group by done. destruct (span p s) as [a b] eqn:Hs.
  apply span_spec in Hs as (-> & Ha & Hb). simpl. destruct b as [|c b]; simpl.
  - rewrite app_nil_r, decide_True by done. done.
  - rewrite decide_False; [done|]. rewrite Forall_app, Forall_cons. naive_solver congruence.
Qed.

(** A group of non-separators followed by the separator. *)
Lemma word_then c s caps r k :
  run (RCat (RGroup (RStar (not_char c))) (RCat (RClass (is_char c)) r)) s caps k =
    match span (not_char c) s with
    | (a, _ :: b) => run r b (caps ++ [a]) k
    | _ => None
    end.
Proof.
  cbn [run]. rewrite star_span.
  - destruct (span (not_char c) s) as [a b] eqn:Hs.
    apply span_spec in Hs as (-> & Ha & Hb). simpl. destruct b as [|x b]; [done|].
    apply not_char_false in Hb as ->. rewrite (proj2 (is_char_true c c) eq_refl).
    rewrite length_app, Nat.add_sub, take_app_length. done.
  - intros x s' Hx. destruct (is_char c x) eqn:Hc; [|done].
    apply is_char_true in Hc as ->. by apply not_char_true in Hx.
Qed.

Lemma run_RCat r1 r2 s caps k :
  run (RCat r1 r2) s caps k = run r1 s caps (fun s' caps' => run r2 s' caps' k).
Proof. reflexivity. Qed.

Lemma class_not_sep c x (A : Type) (a : A) :
  not_char c x = true -> (if is_char c x then Some a else None) = None.
Proof.
  intros Hx. destruct (is_char c x) eqn:Hc; [|done].
  apply is_char_true in Hc as ->. by apply not_char_true in Hx.
Qed.

(** The request line pattern, unfolded: two words and a version. *)
Definition split_request_line (line : bytes) : option (list bytes) :=
  match span (not_char " "%char) line with
  | (m, _ :: s1) =>
      match span (not_char " "%char) s1 with
      | (p, _ :: s2) =>
          if decide (lit "HTTP/" `prefix_of` s2 /\ free_of " "%char (drop 5 s2))
          then Some [m; p; drop 5 s2] else None
      | _ => None
      end
  | _ => None
  end.

Lemma request_line_run line : regex_match request_line_regex line = split_request_line line.
Proof.
  unfold regex_match, request_line_regex, split_request_line. rewrite word_then.
  destruct (span (not_char " "%char) line) as [m [|c1 s1]]; [done|].
  change (RLit (lit " HTTP/") ?r) with (RCat (RClass (is_char " "%char)) (RLit (lit "HTTP/") r)).
  rewrite word_then. destruct (span (not_char " "%char) s1) as [p [|c2 s2]]; [done|].
  rewrite run_RLit. change (length (lit "HTTP/")) with 5%nat.
  destruct (decide (lit "HTTP/" `prefix_of` s2)); [|rewrite decide_False; naive_solver].
  rewrite last_group. by repeat case_decide; try naive_solver.
Qed.

Lemma header_rest s k :
  run (RCat (ROpt (RClass (is_char " "%char))) (RGroup (RStar any_char))) s [k] at_end =
    let v := match s with c :: s' => if is_char " "%char c then s' else s | [] => s end in
    if decide (Forall (fun x => any_char x = true) v) then Some [k; v] else None.
Proof.
  rewrite run_RCat. change (run (ROpt ?r) s ?c ?q) with
    (match run r s c q with Some x => Some x | None => q s c end).
  destruct s as [|c s]; cbn [run].
  - cbv beta zeta. change (run (RGroup (RStar any_char)) [] [k] at_end) with (Some [k; []] : option (list bytes)).
    by rewrite decide_True by constructor.
  - cbv beta zeta. destruct (is_char " "%char c) eqn:Hc.
    + pose proof (last_group any_char s [k]) as Hl. cbn [run] in Hl. rewrite Hl.
      apply is_char_true in Hc as ->.
      case_decide as Hd; [done|].
      pose proof (last_group any_char (" "%char :: s) [k]) as Hl2. cbn [run] in Hl2. rewrite Hl2.
      rewrite decide_False; [done|]. rewrite Forall_cons. naive_solver.
    + pose proof (last_group any_char (c :: s) [k]) as Hl. cbn [run] in Hl. by rewrite Hl.
Qed.

(** The header pattern, unfolded. *)
Definition split_header (line : bytes) : option (list bytes) :=
  match span (not_char ":"%char) line with
  | (k, _ :: s) =>
      let v := match s with c :: s' => if is_char " "%char c then s' else s | [] => s end in
      if decide (Forall (fun x => any_char x = true) v) then Some [k; v] else None
  | _ => None
  end.

Lemma header_run line : regex_match header_regex line = split_header line.
Proof.
  unfold regex_match, header_regex, split_header. rewrite word_then.
  destruct (span (not_char ":"%char) line) as [k [|c s]]; [done|]. apply header_rest.
Qed.

Lemma split_request_line_spec line caps :
  split_request_line line = Some caps <->
  exists m p v, line = m ++ lit " " ++ p ++ lit " HTTP/" ++ v /\ caps = [m; p; v] /\
    free_of " "%char m /\ free_of " "%char p /\ free_of " "%char v.
Proof.
  unfold split_request_line. split.
  - destruct (span (not_char " "%char) line) as [m [|c1 s1]] eqn:H1; [done|].
    destruct (span (not_char " "%char) s1) as [p [|c2 s2]] eqn:H2; [done|].
    apply span_spec in H1 as (-> & Hm & ->%not_char_false).
    apply span_spec in H2 as (-> & Hp & ->%not_char_false).
    case_decide as Hd; [|done]. destruct Hd as [[v ->] Hv]. intros [= <-].
    exists m, p, v. done.
  - intros (m & p & v & -> & -> & Hm & Hp & Hv).
    change (lit " " ++ p ++ lit " HTTP/" ++ v) with (" "%char :: p ++ " "%char :: lit "HTTP/" ++ v).
    rewrite !span_sep by done. rewrite decide_True; [done|].
    split; [by eexists|done].
Qed.

Lemma split_header_spec line caps :
  split_header line = Some caps <->
  exists k sp v, line = k ++ lit ":" ++ sp ++ v /\ caps = [k; v] /\
    free_of ":"%char k /\ Forall (fun x => any_char x = true) v /\
    (sp = lit " " \/ sp = [] /\ head v <> Some " "%char).
Proof.
  unfold split_header. split.
  - destruct (span (not_char ":"%char) line) as [k [|c s]] eqn:H1; [done|].
    apply span_spec in H1 as (-> & Hk & ->%not_char_false).
    destruct s as [|x s]; cbv beta iota zeta.
    + case_decide; [|done]. intros [= <-]. exists k, [], []. naive_solver.
    + destruct (is_char " " x) eqn:Hx; case_decide; intros ?; simplify_eq.
      * apply is_char_true in Hx as ->. exists k, (lit " "), s. naive_solver.
      * exists k, [], (x :: s). split_and!; try done. right. split; [done|].
        intros [= ->]. by rewrite (proj2 (is_char_true _ _) eq_refl) in Hx.
  - intros (k & sp & v & -> & -> & Hk & Hv & Hsp).
    change (lit ":" ++ sp ++ v) with (":"%char :: sp ++ v). rewrite span_sep by done.
    destruct Hsp as [->|[-> Hh]].
    + change (lit " " ++ v) with (" "%char :: v). cbv beta iota zeta.
      rewrite (proj2 (is_char_true _ _) eq_refl). by rewrite decide_True.
    + cbn [app]. cbv beta iota zeta. destruct v as [|x v]; [by rewrite decide_True|].
      destruct (is_char " " x) eqn:Hx.
      * apply is_char_true in Hx as ->. done.
      * by rewrite decide_True.
Qed.

Lemma ParseRequestLine_split line r :
  ParseRequestLine_ line r =
    match split_request_line line with
    | Some [m; p; v] => Some (mkRequest HEADERS m p v (body_ r) (header_ r) (post_ r))
    | _ => None
    end.
Proof. unfold ParseRequestLine_. by rewrite request_line_run. Qed.

Lemma ParseHeader_split line r :
  ParseHeader_ line r =
    match split_header line with
    | Some [k; v] => set_header (<[k := v]> (header_ r)) r
    | _ => set_state BODY r
    end.
Proof. unfold ParseHeader_. by rewrite header_run. Qed.

(** The request line is accepted exactly when it is three words separated by
    single spaces, the third one starting with [HTTP/]; the words become the
    method, the path and the version, and the parser goes on to the headers. *)
Theorem ParseRequestLine_accepts (line : bytes) (r r' : HttpRequest) :
  ParseRequestLine_ line r = Some r' <->
  exists m p v, line = m ++ lit " " ++ p ++ lit " HTTP/" ++ v /\
    free_of " "%char m /\ free_of " "%char p /\ free_of " "%char v /\
    r' = mkRequest HEADERS m p v (body_ r) (header_ r) (post_ r).
Proof.
  rewrite ParseRequestLine_split. split.
  - destruct (split_request_line line) as [caps|] eqn:Hs; [|done].
    apply split_request_line_spec in Hs as (m & p & v & -> & -> & ?). intros [= <-].
    exists m, p, v. naive_solver.
  - intros (m & p & v & Hl & Hm & Hp & Hv & ->).
    rewrite (proj2 (split_request_line_spec line [m; p; v])); [done|].
    exists m, p, v. done.
Qed.

(** A header line is a name without colon, a colon, at most one space, and a
    value without line terminators; it sets that header.  Every other line
    ends the headers. *)
Theorem ParseHeader_outcome (line : bytes) (r : HttpRequest) :
  (exists k sp v, line = k ++ lit ":" ++ sp ++ v /\
    free_of ":"%char k /\ Forall (fun x => any_char x = true) v /\
    (sp = lit " " \/ sp = [] /\ head v <> Some " "%char) /\
    ParseHeader_ line r = set_header (<[k := v]> (header_ r)) r) \/
  (forall k v, line = k ++ lit ":" ++ v -> free_of ":"%char k ->
     ~ Forall (fun x => any_char x = true) v) /\
  ParseHeader_ line r = set_state BODY r.
Proof.
  rewrite ParseHeader_split. destruct (split_header line) as [caps|] eqn:Hs.
  - left. apply split_header_spec in Hs as (k & sp & v & -> & -> & ? & ? & ?).
    exists k, sp, v. done.
  - right. split; [|done]. intros k v -> Hk Hv.
    destruct v as [|x v]; [|destruct (decide (x = " "%char)) as [->|Hx]].
    + assert (split_header (k ++ lit ":" ++ []) = Some [k; []]) as Hs'; [|congruence].
      apply split_header_spec. exists k, [], []. naive_solver.
    + inversion Hv; subst.
      assert (split_header (k ++ lit ":" ++ lit " " ++ v) = Some [k; v]) as Hs';
        [|unfold lit in *; simpl in *; congruence].
      apply split_header_spec. exists k, (lit " "), v. naive_solver.
    + assert (split_header (k ++ lit ":" ++ [] ++ x :: v) = Some [k; x :: v]) as Hs';
        [|simpl in *; congruence].
      apply split_header_spec. exists k, [], (x :: v). split_and!; try done.
      right. split; [done|]. simpl. congruence.
Qed.

(** ** Lines of the buffer *)

(** The text has no CR LF. *)
Definition no_crlf (l : bytes) : Prop := search_crlf l = length l.

#[export] Instance no_crlf_dec l : Decision (no_crlf l).
Proof. unfold no_crlf. apply _. Defined.

Lemma search_crlf_cons a l :
  search_crlf (a :: l) =
    match l with
    | b :: _ => if ascii_eqb CR a && ascii_eqb LF b then O else S (search_crlf l)
    | [] => 1%nat
    end.
Proof. by destruct l. Qed.

Lemma search_crlf_le l : (search_crlf l <= length l)%nat.
Proof.
  induction l as [|a l IH]; [done|]. rewrite search_crlf_cons.
  destruct l as [|b l]; [done|]. destruct (_ && _); simpl in *; lia.
Qed.

(** The search stops at the first CR LF, or at the end. *)
Lemma search_crlf_found l :
  (search_crlf l < length l)%nat ->
  l = take (search_crlf l) l ++ CR :: LF :: drop (search_crlf l + 2) l.
Proof.
  induction l as [|a l IH]; [simpl; lia|]. rewrite search_crlf_cons.
  destruct l as [|b l]; [simpl; lia|].
  destruct (ascii_eqb CR a && ascii_eqb LF b) eqn:Hc.
  - apply andb_true_iff in Hc as [->%Ascii.eqb_eq ->%Ascii.eqb_eq]. done.
  - intros Hlt. simpl in Hlt. cbn [take app Nat.add drop]. f_equal. apply IH. simpl. lia.
Qed.

Lemma search_crlf_line l rest :
  no_crlf l -> search_crlf (l ++ CR :: LF :: rest) = length l.
Proof.
  unfold no_crlf. induction l as [|a l IH]; [done|]. intros Hl.
  rewrite search_crlf_cons in Hl. cbn [app]. rewrite search_crlf_cons.
  destruct l as [|b l]; cbn [app].
  - by rewrite andb_comm.
  - destruct (_ && _); simpl in *; [lia|]. f_equal. apply IH. lia.
Qed.

Lemma search_crlf_take l : search_crlf (take (search_crlf l) l) = search_crlf l.
Proof.
  induction l as [|a l IH]; [done|]. rewrite !(search_crlf_cons a l).
  destruct l as [|b l]; [done|].
  destruct (ascii_eqb CR a && ascii_eqb LF b) eqn:Hc; [done|].
  cbn [take]. rewrite search_crlf_cons. rewrite IH.
  destruct (search_crlf (b :: l)) as [|k] eqn:Hk; [done|]. cbn [take]. by rewrite Hc.
Qed.

Lemma no_crlf_free l : free_of CR l -> no_crlf l.
Proof.
  unfold no_crlf. induction 1 as [|a l Ha Hl IH]; [done|]. rewrite search_crlf_cons.
  destruct l as [|b l]; [done|]. unfold not_char in Ha. apply negb_true_iff in Ha.
  rewrite Ha. simpl in *. lia.
Qed.

(** ** The parse loop *)

Section loop.
Context {DB : Type} `{MySQL DB}.
Implicit Types (b : Buffer) (r : HttpRequest) (e : env DB).

Lemma read_able_positive b :
  wf b -> (0 <? read_able_bytes b) = negb (bool_decide (contents b = [])).
Proof.
  intros Hwf. rewrite read_able_contents by done.
  destruct (contents b); simpl; [done|]. by apply Z.ltb_lt.
Qed.

(** One pass over a line that ends in CR LF. *)
Lemma parse_loop_line fuel b r e l rest r1 e1 :
  wf b -> (length (contents b) <= fuel)%nat -> contents b = l ++ CR :: LF :: rest ->
  no_crlf l -> state_ r <> FINISH -> parse_line l b r e = Ok (Some r1, e1) ->
  exists fuel' b1, parse_loop fuel b r e = parse_loop fuel' b1 r1 e1 /\
    wf b1 /\ contents b1 = rest /\ (length (contents b1) <= fuel')%nat /\ buffer_ b1 = buffer_ b.
Proof.
  intros Hwf Hfuel Hc Hl Hst Hline.
  assert (Hlen : length (contents b) = (length l + (2 + length rest))%nat)
    by (rewrite Hc, length_app; simpl; lia).
  pose proof (length_contents b Hwf) as Hw.
  destruct (retrieve_unitil_spec (peek b + Z.of_nat (length l) + 2) b Hwf) as (b1 & Hb1 & Hwf1 & Hc1 & Hbuf).
  { unfold peek, begin_write. lia. }
  destruct fuel as [|fuel]; [lia|]. exists fuel, b1.
  cbn [parse_loop]. rewrite read_able_positive by done.
  rewrite (bool_decide_false (contents b = [])) by (intros Hn; rewrite Hn in Hlen; simpl in Hlen; lia).
  rewrite bool_decide_false by done. cbn [negb andb].
  rewrite Hc, search_crlf_line, take_app_length, Hline by done.
  cbn [mbind result_bind]. destruct (Z.eqb_spec (peek b + Z.of_nat (length l)) (begin_write b)).
  { unfold peek, begin_write in *. lia. }
  rewrite Hb1. split; [done|].
  assert (contents b1 = rest) as Hrest.
  { rewrite Hc1, Hc. replace (Z.to_nat _) with (length l + 2)%nat by lia.
    by rewrite <-drop_drop, drop_app_length. }
  rewrite Hrest. repeat split; try done; try apply Hwf1. lia.
Qed.

(** The last pass, over a line the buffer ends with. *)
Lemma parse_loop_last fuel b r e r1 e1 :
  wf b -> (length (contents b) <= fuel)%nat -> contents b <> [] -> no_crlf (contents b) ->
  state_ r <> FINISH -> parse_line (contents b) b r e = Ok (Some r1, e1) ->
  parse_loop fuel b r e = Ok (true, r1, b, e1).
Proof.
  intros Hwf Hfuel Hne Hl Hst Hline. pose proof (length_contents b Hwf) as Hw.
  destruct fuel as [|fuel]; [destruct (contents b); simpl in *; [done|lia]|].
  cbn [parse_loop]. rewrite read_able_positive by done.
  rewrite !bool_decide_false by done. cbn [negb andb].
  unfold no_crlf in Hl. rewrite Hl, firstn_all, Hline. cbn [mbind result_bind].
  rewrite (proj2 (Z.eqb_eq _ _)); [done|]. unfold peek, begin_write. lia.
Qed.

Lemma parse_loop_stop fuel b r e :
  wf b -> contents b = [] \/ state_ r = FINISH -> parse_loop fuel b r e = Ok (true, r, b, e).
Proof.
  intros Hwf Hor. destruct fuel; cbn [parse_loop]; rewrite read_able_positive by done;
    destruct Hor as [->| ->]; rewrite ?(bool_decide_true ([] = [])), ?(bool_decide_true (FINISH = FINISH)), ?andb_false_r by done; done.
Qed.

(** *** Printed requests *)

Definition print_header (h : bytes * bytes) : bytes := h.1 ++ lit ": " ++ h.2 ++ CRLF.

Definition print_request (m p v : bytes) (hs : list (bytes * bytes)) (body : bytes) : bytes :=
  m ++ lit " " ++ p ++ lit " HTTP/" ++ v ++ CRLF ++ concat (print_header <$> hs) ++ CRLF ++ body.

(** A word of the request line, a header name and a header value. *)
Definition word (s : bytes) : Prop := free_of " "%char s /\ free_of CR s.
Definition header_ok (h : bytes * bytes) : Prop :=
  free_of ":"%char h.1 /\ free_of CR h.1 /\ Forall (fun x => any_char x = true) h.2.

Definition set_headers (hs : list (bytes * bytes)) (m : gmap bytes bytes) : gmap bytes bytes :=
  foldl (fun m h => <[h.1 := h.2]> m) m hs.

Lemma any_char_free_CR s : Forall (fun x => any_char x = true) s -> free_of CR s.
Proof. intros Hs. eapply Forall_impl; [exact Hs|]. intros x [? _]%any_char_true. by apply not_char_true. Qed.

Lemma header_line_free h : header_ok h -> free_of CR (h.1 ++ lit ": " ++ h.2).
Proof.
  intros (_ & Hk & Hv). apply Forall_app; split; [done|].
  apply Forall_app; split; [repeat constructor|]. by apply any_char_free_CR.
Qed.

Lemma ParseHeader_printed h r :
  header_ok h -> ParseHeader_ (h.1 ++ lit ": " ++ h.2) r = set_header (<[h.1 := h.2]> (header_ r)) r.
Proof.
  intros (Hk & _ & Hv). rewrite ParseHeader_split.
  rewrite (proj2 (split_header_spec _ [h.1; h.2])); [done|].
  exists h.1, (lit " "), h.2. naive_solver.
Qed.

Lemma ParseHeader_blank r : ParseHeader_ [] r = set_state BODY r.
Proof. by rewrite ParseHeader_split. Qed.

(** The header lines of a request, read one after the other. *)
Lemma parse_headers hs : forall fuel b r e body,
  wf b -> (length (contents b) <= fuel)%nat ->
  contents b = concat (print_header <$> hs) ++ CRLF ++ body ->
  Forall header_ok hs -> state_ r = HEADERS ->
  exists fuel' b1, parse_loop fuel b r e =
      parse_loop fuel' b1
        (set_state (if decide (body = []) then FINISH else BODY)
           (set_header (set_headers hs (header_ r)) r)) e /\
    wf b1 /\ contents b1 = body /\ (length (contents b1) <= fuel')%nat /\ buffer_ b1 = buffer_ b.
Proof.
  induction hs as [|h hs IH]; intros fuel b r e body Hwf Hfuel Hc Hok Hst.
  - cbn [set_headers foldl].
    edestruct (parse_loop_line fuel b r e [] body) as (fuel' & b1 & Hp & ?); [done..|by rewrite Hst| |].
    { unfold parse_line. rewrite Hst, ParseHeader_blank. reflexivity. }
    exists fuel', b1. split; [|done]. rewrite Hp. rewrite read_able_contents, Hc by done.
    f_equal. destruct r as [st ? ? ? ? ? ?]; simpl in Hst; subst st.
    destruct body as [|c body]; [done|]. rewrite decide_False by done.
    destruct (Z.leb_spec (Z.of_nat (length (concat (print_header <$> []) ++ CRLF ++ c :: body))) 2);
      [simpl in *; lia|done].
  - apply Forall_cons in Hok as [Hh Hhs]. cbn [fmap list_fmap concat] in Hc.
    assert (Hc' : contents b = (h.1 ++ lit ": " ++ h.2) ++ CR :: LF ::
                    (concat (print_header <$> hs) ++ CRLF ++ body)).
    { rewrite Hc. unfold print_header at 1. cbn [CRLF]. by rewrite <-!app_assoc. }
    edestruct (parse_loop_line fuel b r e (h.1 ++ lit ": " ++ h.2)) as (fuel1 & b1 & Hp & Hwf1 & Hc1 & Hf1 & Hb1);
      [done|done|exact Hc'|by apply no_crlf_free, header_line_free|by rewrite Hst| |].
    { unfold parse_line. rewrite Hst, ParseHeader_printed by done.
      rewrite read_able_contents by done. rewrite (proj2 (Z.leb_gt _ _)); [reflexivity|].
      rewrite Hc', !length_app. simpl. rewrite !length_app. simpl. lia. }
    destruct (IH fuel1 b1 (set_header (<[h.1 := h.2]> (header_ r)) r) e body)
      as (fuel2 & b2 & Hp2 & Hwf2 & Hc2 & Hf2 & Hb2); [done..|].
    exists fuel2, b2. rewrite Hp, Hp2, Hb2, Hb1. done.
Qed.
End loop.

Section requests.
Context {DB : Type} `{MySQL DB}.
Implicit Types (b : Buffer) (r : HttpRequest) (e : env DB).

Definition request_of (st : PARSE_STATE) (m p v : bytes) (hs : list (bytes * bytes)) : HttpRequest :=
  set_state st (set_header (set_headers hs ∅) (ParsePath_ (mkRequest HEADERS m p v [] ∅ ∅))).

Lemma ParsePath_fields r :
  header_ (ParsePath_ r) = header_ r /\ state_ (ParsePath_ r) = state_ r /\
  method_ (ParsePath_ r) = method_ r.
Proof. unfold ParsePath_. repeat case_bool_decide; done. Qed.

Lemma ParseRequestLine_printed m p v r :
  word m -> word p -> word v ->
  ParseRequestLine_ (m ++ lit " " ++ p ++ lit " HTTP/" ++ v) r =
    Some (mkRequest HEADERS m p v (body_ r) (header_ r) (post_ r)).
Proof.
  intros [Hm _] [Hp _] [Hv _]. rewrite ParseRequestLine_split.
  rewrite (proj2 (split_request_line_spec _ [m; p; v])); [done|]. by exists m, p, v.
Qed.

Lemma request_line_free m p v :
  word m -> word p -> word v -> free_of CR (m ++ lit " " ++ p ++ lit " HTTP/" ++ v).
Proof.
  intros [_ ?] [_ ?] [_ ?]. repeat (apply Forall_app; split); try done; repeat constructor.
Qed.

(** The request line and the headers of a printed request. *)
Lemma parse_head b e m p v hs body :
  wf b -> contents b = print_request m p v hs body ->
  word m -> word p -> word v -> Forall header_ok hs ->
  exists fuel b1, parse b Init e =
      parse_loop fuel b1 (request_of (if decide (body = []) then FINISH else BODY) m p v hs) e /\
    wf b1 /\ contents b1 = body /\ (length (contents b1) <= fuel)%nat /\ buffer_ b1 = buffer_ b.
Proof.
  intros Hwf Hc Hm Hp Hv Hhs.
  assert (Hc' : contents b = (m ++ lit " " ++ p ++ lit " HTTP/" ++ v) ++ CR :: LF ::
                  (concat (print_header <$> hs) ++ CRLF ++ body)).
  { rewrite Hc. unfold print_request. cbn [CRLF]. by rewrite <-!app_assoc. }
  destruct (parse_loop_line (length (contents b)) b Init e
               (m ++ lit " " ++ p ++ lit " HTTP/" ++ v)
               (concat (print_header <$> hs) ++ CRLF ++ body)
               (ParsePath_ (mkRequest HEADERS m p v [] ∅ ∅)) e)
    as (f1 & b1 & Hp1 & Hwf1 & Hc1 & Hf1 & Hb1);
    [done|lia|exact Hc'|by apply no_crlf_free, request_line_free|done| |].
  { unfold parse_line. cbn [state_ Init]. rewrite ParseRequestLine_printed by done. reflexivity. }
  destruct (ParsePath_fields (mkRequest HEADERS m p v [] ∅ ∅)) as (Hh & Hs & _).
  destruct (parse_headers hs f1 b1 (ParsePath_ (mkRequest HEADERS m p v [] ∅ ∅)) e body)
    as (f2 & b2 & Hp2 & Hwf2 & Hc2 & Hf2 & Hb2); [done..|].
  exists f2, b2. rewrite Hb2, Hb1. split_and!; try done.
  unfold parse. rewrite (proj2 (Z.leb_gt _ _)).
  - rewrite Hp1, Hp2, Hh. done.
  - rewrite read_able_contents, Hc', length_app by done. simpl. lia.
Qed.

(** C16: A request without body that the client has sent whole parses to its parts:
    method, path (completed with [.html]), version and headers, the last of
    equal names winning.  The buffer is left empty. *)
Theorem parse_request (b : Buffer) (e : env DB) (m p v : bytes) (hs : list (bytes * bytes)) :
  wf b -> contents b = print_request m p v hs [] ->
  word m -> word p -> word v -> Forall header_ok hs ->
  exists b', parse b Init e = Ok (true, request_of FINISH m p v hs, b', e) /\
    wf b' /\ contents b' = [].
Proof.
  intros Hwf Hc Hm Hp Hv Hhs.
  destruct (parse_head b e m p v hs []) as (f & b1 & Hp1 & Hwf1 & Hc1 & _); [done..|].
  exists b1. rewrite Hp1. split; [|done]. apply parse_loop_stop; [done|by left].
Qed.

Lemma parse_body_lemma b e m p v hs body :
  wf b -> contents b = print_request m p v hs body -> body <> [] ->
  word m -> word p -> word v -> Forall header_ok hs ->
  match ParseBody_ (take (search_crlf body) body) (request_of BODY m p v hs) e with
  | Ok (r', e') => exists b', parse b Init e = Ok (true, r', b', e') /\ wf b' /\
      contents b' = if decide (no_crlf body) then body else drop (search_crlf body + 2) body
  | Fault f => parse b Init e = Fault f
  end.
Proof.
  intros Hwf Hc Hne Hm Hp Hv Hhs.
  destruct (parse_head b e m p v hs body) as (f & b1 & Hp1 & Hwf1 & Hc1 & Hf & _); [done..|].
  rewrite decide_False in Hp1 by done. rewrite Hp1. clear Hp1.
  set (r := request_of BODY m p v hs). assert (state_ r = BODY) as Hst by done.
  destruct (ParseBody_ (take (search_crlf body) body) r e) as [[r' e']|ft] eqn:Hb.
  - assert (parse_line (take (search_crlf body) body) b1 r e = Ok (Some r', e')) as Hline.
    { unfold parse_line. by rewrite Hst, Hb. }
    assert (state_ r' = FINISH) as Hfin.
    { unfold ParseBody_ in Hb. inv_bind Hb. destruct a as [r1 e1]. by simplify_eq/=. }
    case_decide as Hcr.
    + exists b1. split; [|done]. rewrite Hcr, firstn_all in Hline.
      apply parse_loop_last; [done|done|by rewrite Hc1|by rewrite Hc1|by rewrite Hst|by rewrite Hc1].
    + assert (search_crlf body < length body)%nat as Hlt.
      { pose proof (search_crlf_le body). unfold no_crlf in Hcr. lia. }
      pose proof (search_crlf_found body Hlt) as Hsplit.
      edestruct (parse_loop_line f b1 r e (take (search_crlf body) body))
        as (f2 & b2 & Hp2 & Hwf2 & Hc2 & _); [done|done|rewrite Hc1; exact Hsplit| |by rewrite Hst|exact Hline|].
      { unfold no_crlf. rewrite length_take, Nat.min_l by lia. apply search_crlf_take. }
      exists b2. split; [|done]. rewrite Hp2. apply parse_loop_stop; [done|by right].
  - destruct f as [|f].
    { destruct body; [done|]. rewrite Hc1 in Hf. simpl in Hf. lia. }
    cbn [parse_loop]. rewrite read_able_positive, Hc1, !bool_decide_false by (done || by rewrite Hst).
    cbn [negb andb]. unfold parse_line. rewrite Hst, Hb. done.
Qed.
End requests.

(** ** Bodies, pipelining, malformed requests *)

Section messages.
Context {DB : Type} `{MySQL DB}.

(** A request with a body: the line of the body, up to CR LF or the end of the
    data, goes to the form decoder.  A body without CR LF stays in the buffer,
    in front of the client's next request. *)
Theorem parse_request_body (b : Buffer) (e : env DB) (m p v : bytes) (hs : list (bytes * bytes))
    (body : bytes) :
  wf b -> contents b = print_request m p v hs body -> body <> [] ->
  word m -> word p -> word v -> Forall header_ok hs ->
  match ParseBody_ (take (search_crlf body) body) (request_of BODY m p v hs) e with
  | Ok (r', e') => exists b', parse b Init e = Ok (true, r', b', e') /\ wf b' /\
      contents b' = if decide (no_crlf body) then body else drop (search_crlf body + 2) body
  | Fault f => parse b Init e = Fault f
  end.
Proof. apply parse_body_lemma. Qed.

Lemma ParseBody_not_post line r e :
  method_ r <> lit "POST" -> ParseBody_ line r e = Ok (set_state FINISH (set_body line r), e).
Proof. intros Hm. unfold ParseBody_, ParsePost_. by rewrite bool_decide_false. Qed.

(** A complete first line that is no request line: nothing is consumed. *)
Lemma parse_bad_line b e l rest :
  wf b -> contents b = l ++ CR :: LF :: rest -> no_crlf l -> split_request_line l = None ->
  parse b Init e = Ok (false, Init, b, e).
Proof.
  intros Hwf Hc Hl Hbad. unfold parse. rewrite (proj2 (Z.leb_gt _ _)).
  2: { rewrite read_able_contents, Hc, length_app by done. simpl. lia. }
  destruct (contents b) as [|c s] eqn:Hcs; [by destruct l|].
  cbn [length parse_loop]. rewrite read_able_positive, Hcs by done.
  rewrite !bool_decide_false by done. cbn [negb andb]. rewrite Hc, search_crlf_line, take_app_length by done.
  unfold parse_line. cbn [state_ Init]. rewrite ParseRequestLine_split, Hbad. done.
Qed.

Lemma method_request_of st m p v hs : method_ (request_of st m p v hs) = m.
Proof. apply ParsePath_fields. Qed.

(** A second request sent in the same segment is not answered: its request
    line is taken for the body of the first, and unless its first header line
    reads as a request line, parsing what is left fails and consumes nothing. *)
Theorem pipelined_request_lost (b : Buffer) (e : env DB) (m p v m2 p2 v2 : bytes)
    (hs hs2 : list (bytes * bytes)) :
  wf b -> contents b = print_request m p v hs (print_request m2 p2 v2 hs2 []) ->
  m <> lit "POST" -> word m -> word p -> word v -> Forall header_ok hs ->
  word m2 -> word p2 -> word v2 -> Forall header_ok hs2 ->
  Forall (fun h => split_request_line (h.1 ++ lit ": " ++ h.2) = None) hs2 ->
  exists b', parse b Init e =
      Ok (true, set_state FINISH (set_body (m2 ++ lit " " ++ p2 ++ lit " HTTP/" ++ v2)
            (request_of BODY m p v hs)), b', e) /\
    contents b' = concat (print_header <$> hs2) ++ CRLF /\
    parse b' Init e = Ok (false, Init, b', e).
Proof.
  intros Hwf Hc Hm Hwm Hwp Hwv Hhs Hm2 Hp2 Hv2 Hhs2 Hbad.
  set (line := m2 ++ lit " " ++ p2 ++ lit " HTTP/" ++ v2).
  assert (Hcr : no_crlf line) by (by apply no_crlf_free, request_line_free).
  set (rest := concat (print_header <$> hs2) ++ CRLF).
  assert (Hbody : print_request m2 p2 v2 hs2 [] = line ++ CR :: LF :: rest).
  { unfold print_request, line, rest. rewrite <-!app_assoc. by rewrite app_nil_r. }
  rewrite Hbody in Hc.
  pose proof (parse_body_lemma b e m p v hs _ Hwf Hc) as Hp.
  rewrite search_crlf_line, take_app_length, ParseBody_not_post in Hp
    by (done || by rewrite method_request_of).
  destruct Hp as (b' & Hp & Hwf' & Hc'); [by destruct line|done..|].
  rewrite decide_False in Hc'.
  2: { unfold no_crlf. rewrite search_crlf_line, length_app by done. simpl. lia. }
  rewrite <-drop_drop, drop_app_length in Hc'. cbn [drop] in Hc'.
  exists b'. split; [exact Hp|]. split; [done|].
  destruct hs2 as [|h hs2].
  - by apply (parse_bad_line b' e [] []).
  - apply Forall_cons in Hhs2 as [Hh _]. apply Forall_cons in Hbad as [Hb1 _].
    apply (parse_bad_line b' e (h.1 ++ lit ": " ++ h.2) (concat (print_header <$> hs2) ++ CRLF)); try done.
    + rewrite Hc'. unfold rest. cbn [fmap list_fmap concat]. unfold print_header at 1, CRLF at 1.
      by rewrite <-!app_assoc.
    + by apply no_crlf_free, header_line_free.
Qed.

(** A first line that is complete and malformed makes every parse fail without
    consuming anything, whatever arrives after it. *)
Theorem bad_line_sticky (b : Buffer) (e : env DB) (l rest : bytes) :
  wf b -> contents b = l ++ CRLF ++ rest -> no_crlf l ->
  (forall m p v, l = m ++ lit " " ++ p ++ lit " HTTP/" ++ v ->
     ~ (free_of " "%char m /\ free_of " "%char p /\ free_of " "%char v)) ->
  parse b Init e = Ok (false, Init, b, e).
Proof.
  intros Hwf Hc Hl Hbad. eapply parse_bad_line; [done|exact Hc|done|].
  destruct (split_request_line l) as [caps|] eqn:Hs; [|done].
  apply split_request_line_spec in Hs as (m & p & v & Heq & _ & Hfree). by destruct (Hbad m p v Heq).
Qed.
End messages.

(** ** Witnesses *)

(** A client library whose server is gone. *)
Definition no_db : MySQL unit :=
  {| mysql_query := fun _ _ d => (true, d); mysql_store_result := fun _ d => (None, d) |}.

Definition no_env : env unit := mkEnv new_pool tt.

(** A buffer that holds the text. *)
Definition filled (s : bytes) : Buffer :=
  let v := replicate 8 nul ++ s in mkBuffer v 8 (Z.of_nat (length v)).

Definition get_text : bytes :=
  print_request (lit "GET") (lit "/login") (lit "1.1") [(lit "Connection", lit "keep-alive")] [].

Definition post_text : bytes :=
  print_request (lit "POST") (lit "/login.html") (lit "1.1") [(lit "Host", lit "h")] (lit "a=1").

Ltac by_free := repeat constructor.

Theorem parse_request_witness :
  exists b', parse (H := no_db) (filled get_text) Init no_env =
      Ok (true, mkRequest FINISH (lit "GET") (lit "/login.html") (lit "1.1") []
            {[lit "Connection" := lit "keep-alive"]} ∅, b', no_env) /\
    wf b' /\ contents b' = [].
Proof.
  apply (parse_request (H := no_db) (filled get_text) no_env (lit "GET") (lit "/login") (lit "1.1")
           [(lit "Connection", lit "keep-alive")]); [split; vm_compute; intuition discriminate|reflexivity|by_free..].
Defined.

Theorem parse_request_body_witness :
  match ParseBody_ (H := no_db) (lit "a=1")
          (request_of BODY (lit "POST") (lit "/login.html") (lit "1.1") [(lit "Host", lit "h")]) no_env with
  | Ok (r', e') => exists b', parse (H := no_db) (filled post_text) Init no_env = Ok (true, r', b', e') /\
      wf b' /\ contents b' = lit "a=1"
  | Fault f => False
  end.
Proof.
  exact (parse_request_body (H := no_db) (filled post_text) no_env (lit "POST") (lit "/login.html")
           (lit "1.1") [(lit "Host", lit "h")] (lit "a=1")
           ltac:(split; vm_compute; intuition discriminate) eq_refl ltac:(discriminate)
           ltac:(by_free) ltac:(by_free) ltac:(by_free) ltac:(by_free)).
Defined.

Definition pipelined_text : bytes :=
  print_request (lit "GET") (lit "/") (lit "1.1") []
    (print_request (lit "GET") (lit "/video") (lit "1.1") [(lit "Host", lit "h")] []).

Theorem pipelined_request_lost_witness :
  exists b', parse (H := no_db) (filled pipelined_text) Init no_env =
      Ok (true, mkRequest FINISH (lit "GET") (lit "/index.html") (lit "1.1")
            (lit "GET /video HTTP/1.1") ∅ ∅, b', no_env) /\
    contents b' = lit "Host: h" ++ [CR; LF; CR; LF] /\
    parse (H := no_db) b' Init no_env = Ok (false, Init, b', no_env).
Proof.
  apply (pipelined_request_lost (H := no_db) (filled pipelined_text) no_env (lit "GET") (lit "/") (lit "1.1")
           (lit "GET") (lit "/video") (lit "1.1") [] [(lit "Host", lit "h")]);
    [split; vm_compute; intuition discriminate|reflexivity|discriminate|by_free..].
Defined.

Theorem bad_line_sticky_witness :
  parse (H := no_db) (filled (lit "hello" ++ CRLF ++ lit "GET / HTTP/1.1" ++ CRLF ++ CRLF)) Init no_env =
    Ok (false, Init,
        filled (lit "hello" ++ CRLF ++ lit "GET / HTTP/1.1" ++ CRLF ++ CRLF), no_env).
Proof.
  apply (bad_line_sticky (H := no_db) _ no_env (lit "hello") (lit "GET / HTTP/1.1" ++ CRLF ++ CRLF));
    [split; vm_compute; intuition discriminate|reflexivity|reflexivity|].
  intros m p v Heq Hfree.
  assert (split_request_line (lit "hello") = Some [m; p; v]) as Hs; [|discriminate].
  apply split_request_line_spec. by exists m, p, v.
Defined.
