(* ===== verification/RequestTypes.v ===== *)
(** * RequestTypes: what a parsed request looks like (src/http/httprequest.cc)

    The parser fills the fields of a request step by step.  This file says
    what the fields may hold in each of its states and proves that parsing
    any bytes at all keeps to it. *)

From stdpp Require Import base list numbers strings gmap.
From Stdlib Require Import ZArith Lia Ascii.
From S2P Require Import Prelude Buffer Regex SqlConnPool HttpRequest Parsing.

Local Open Scope Z_scope.
Local Open Scope result_scope.

(** ** The types of the fields *)

Definition header_typed (k v : bytes) : Prop :=
  free_of ":"%char k /\ Forall (fun x => any_char x = true) v.

Definition urlencoded : bytes := lit "application/x-www-form-urlencoded".

(** The three words of the request line have no spaces, a header's name has no
    colon and its value no line terminator; nothing is set before the request
    line is there, a body is set only when the request is complete, and a form
    only if the request is a POST that says so. *)
Record well_typed (r : HttpRequest) : Prop := {
  wt_method : free_of " "%char (method_ r);
  wt_path : free_of " "%char (path_ r);
  wt_version : free_of " "%char (version_ r);
  wt_headers : map_Forall header_typed (header_ r);
  wt_start : state_ r = REQUEST_LINE -> r = Init;
  wt_body : body_ r <> [] -> state_ r = FINISH;
  wt_form : post_ r <> ∅ ->
    state_ r = FINISH /\ method_ r = lit "POST" /\ header_ r !! lit "Content-Type" = Some urlencoded
}.

(** How far the parser is. *)
Definition rank (s : PARSE_STATE) : nat :=
  match s with REQUEST_LINE => 0 | HEADERS => 1 | BODY => 2 | FINISH => 3 end.

Lemma init_typed : well_typed Init.
Proof. split; cbn; try (by constructor); try done. Qed.

(** ** The lines *)

Lemma request_line_typed line r r' :
  well_typed r -> state_ r = REQUEST_LINE -> ParseRequestLine_ line r = Some r' ->
  well_typed (ParsePath_ r') /\ state_ (ParsePath_ r') = HEADERS.
Proof.
  intros Hr Hst. rewrite (wt_start r Hr Hst), ParseRequestLine_split.
  destruct (split_request_line line) as [caps|] eqn:Hs; [|done].
  apply split_request_line_spec in Hs as (m & p & v & -> & -> & Hm & Hp & Hv). intros [= <-].
  assert (Hw : forall p', free_of " "%char p' -> well_typed (mkRequest HEADERS m p' v [] ∅ ∅)) by (by split).
  unfold ParsePath_. cbn [path_]. case_bool_decide; [|case_bool_decide as Hin]; (split; [|done]); apply Hw.
  - by vm_compute; repeat constructor.
  - apply Forall_app. split; [done|]. by vm_compute; repeat constructor.
  - done.
Qed.

(** A step that leaves the body and the form alone. *)
Lemma typed_headers r h s :
  well_typed r -> state_ r <> REQUEST_LINE -> state_ r <> FINISH -> s <> REQUEST_LINE ->
  map_Forall header_typed h -> well_typed (set_state s (set_header h r)).
Proof.
  intros [Hm Hp Hv _ _ Hb Hf] H1 H2 H3 Hh. split; cbn; try done.
  - intros Hne. by apply Hb in Hne.
  - intros Hne. by apply Hf in Hne as [? _].
Qed.

Lemma header_line_typed line r :
  well_typed r -> state_ r = HEADERS ->
  well_typed (ParseHeader_ line r) /\
    (state_ (ParseHeader_ line r) = HEADERS \/ state_ (ParseHeader_ line r) = BODY).
Proof.
  intros Hr Hst. rewrite ParseHeader_split. destruct (split_header line) as [caps|] eqn:Hs.
  - apply split_header_spec in Hs as (k & sp & v & -> & -> & Hk & Hv & _). split; [|by left].
    assert (Hh : set_header (<[k := v]> (header_ r)) r =
      set_state (state_ r) (set_header (<[k := v]> (header_ r)) r)) by done.
    rewrite Hh. apply typed_headers; rewrite ?Hst; try done. by apply map_Forall_insert_2; [|apply wt_headers].
  - split; [|by right].
    assert (Hh : set_state BODY r = set_state BODY (set_header (header_ r) r)) by done.
    rewrite Hh. apply typed_headers; rewrite ?Hst; try done. by apply wt_headers.
Qed.

(** The forms change only the body and the form. *)
Lemma urlencoded_frame r r' :
  ParseFromUrlencoded_ r = Ok r' -> exists b m, r' = set_post m (set_body b r).
Proof.
  unfold ParseFromUrlencoded_. case_bool_decide.
  - intros [= <-]. exists (body_ r), (post_ r). by destruct r.
  - intros Hf. inv_bind Hf. destruct a as [i f]. inv_bind Hf. destruct (negb _ && _).
    + inv_bind Hf. injection Hf as <-. by do 2 eexists.
    + injection Hf as <-. by do 2 eexists.
Qed.

Lemma subscript_value k m v m' : subscript k m = (v, m') -> v = default [] (m !! k) /\ (m' = m \/ m !! k = None /\ m' = <[k := []]> m).
Proof. unfold subscript. destruct (m !! k); intros [= <- <-]; split; auto. Qed.

Section parse.
Context {DB : Type} `{MySQL DB}.

Lemma body_line_typed line r e r' e' :
  well_typed r -> state_ r = BODY -> ParseBody_ line r e = Ok (r', e') ->
  well_typed r' /\ state_ r' = FINISH.
Proof.
  intros [Hm Hp Hv Hh _ Hb Hf] Hst Hparse. unfold ParseBody_ in Hparse. inv_bind Hparse.
  destruct a as [r1 e1]. injection Hparse as <- <-. split; [|done].
  assert (Hpost : post_ r = ∅).
  { destruct (decide (post_ r = ∅)) as [|Hne]; [done|]. apply Hf in Hne as [? _]. congruence. }
  unfold ParsePost_ in Ha. cbn [method_ set_body] in Ha. case_bool_decide as Hmeth.
  2: { injection Ha as <- <-. by split. }
  cbn [header_ set_body] in Ha.
  destruct (subscript (lit "Content-Type") (header_ r)) as [ct h] eqn:Hct.
  apply subscript_value in Hct as [-> Hh'].
  assert (Hh1 : map_Forall header_typed h).
  { destruct Hh' as [->|[_ ->]]; [done|]. apply map_Forall_insert_2; [|done]. split; [|by constructor].
    by vm_compute; repeat constructor. }
  case_bool_decide as Hurl.
  2: { injection Ha as <- <-. by split. }
  assert (Hch : h !! lit "Content-Type" = Some urlencoded).
  { destruct (header_ r !! lit "Content-Type") as [ct|] eqn:Hc; [|discriminate Hurl].
    cbn in Hurl. subst ct.
    destruct Hh' as [->|[? _]]; [done|congruence]. }
  inv_bind Ha. rename a into r2. apply urlencoded_frame in Ha0 as (b & m & ->).
  assert (Hgood : forall p m', free_of " "%char p ->
    well_typed (set_state FINISH (set_path p (set_post m' (set_body b (set_header h (set_body line r))))))).
  { intros p m' Hp'. by split. }
  cbn [path_ set_post set_body set_header] in Ha.
  assert (Hplain : well_typed (set_state FINISH (set_post m (set_body b (set_header h (set_body line r)))))).
  { specialize (Hgood (path_ r) m Hp). exact Hgood. }
  destruct (DEFAULT_HTML_TAG !! path_ r) as [tag|]; [|by injection Ha as <- <-].
  destruct (_ || _); [|by injection Ha as <- <-].
  destruct (subscript (lit "username") _) as [username m1]. destruct (subscript (lit "password") m1) as [password m2].
  inv_bind Ha. destruct a as [ok e2]. injection Ha as <- <-. apply Hgood.
  destruct ok; by vm_compute; repeat constructor.
Qed.

Lemma line_typed line b r e r' e' :
  well_typed r -> state_ r <> FINISH -> parse_line line b r e = Ok (Some r', e') ->
  well_typed r' /\ (rank (state_ r) <= rank (state_ r'))%nat /\ state_ r' <> REQUEST_LINE.
Proof.
  intros Hr Hst Hline. unfold parse_line in Hline. destruct (state_ r) eqn:Hs; [| | |done].
  - destruct (ParseRequestLine_ line r) as [r1|] eqn:Hp; [|done]. injection Hline as <- <-.
    destruct (request_line_typed line r r1 Hr Hs Hp) as [? ->]. split; [done|]. split; [cbn; lia|done].
  - injection Hline as <- <-. destruct (header_line_typed line r Hr Hs) as [Ht Hor].
    destruct (_ <=? 2).
    + split; [|cbn; split; [lia|done]]. set (r1 := ParseHeader_ line r) in *.
      assert (Hsame : set_state FINISH r1 = set_state FINISH (set_header (header_ r1) r1)) by done.
      rewrite Hsame. apply typed_headers; try done; [by destruct Hor as [->| ->]..|]. by apply wt_headers.
    + split; [done|]. by destruct Hor as [->| ->]; cbn; split; (lia || done).
  - inv_bind Hline. destruct a as [r1 e1]. injection Hline as <- <-.
    destruct (body_line_typed line r e r1 e1 Hr Hs Ha) as [? ->]. split; [done|]. split; [cbn; lia|done].
Qed.

Lemma loop_typed fuel : forall b r e ok r' b' e',
  well_typed r -> parse_loop fuel b r e = Ok (ok, r', b', e') ->
  well_typed r' /\ (rank (state_ r) <= rank (state_ r'))%nat /\
  (ok = true -> 0 < read_able_bytes b -> state_ r' <> REQUEST_LINE).
Proof.
  induction fuel as [|fuel IH]; intros b r e ok r' b' e' Hr Hloop; cbn [parse_loop] in Hloop.
  - destruct (_ && _) eqn:Hgo; [done|]. injection Hloop as <- <- <- <-. split; [done|]. split; [done|].
    intros _ Hb Hst. rewrite Hst in Hgo. rewrite (proj2 (Z.ltb_lt _ _) Hb) in Hgo. done.
  - destruct ((0 <? read_able_bytes b) && negb (bool_decide (state_ r = FINISH))) eqn:Hgo.
    2: { injection Hloop as <- <- <- <-. split; [done|]. split; [done|].
         intros _ Hb Hst. rewrite Hst in Hgo. rewrite (proj2 (Z.ltb_lt _ _) Hb) in Hgo. done. }
    apply andb_true_iff in Hgo as [_ Hst%negb_true_iff%bool_decide_eq_false].
    inv_bind Hloop. destruct a as [[r1|] e1]; [|injection Hloop as <- <- <- <-; done].
    destruct (line_typed _ b r e r1 e1 Hr Hst Ha) as (Ht & Hrank & Hne).
    destruct (_ =? begin_write b).
    + injection Hloop as <- <- <- <-. done.
    + inv_bind Hloop. destruct (IH _ _ _ _ _ _ _ Ht Hloop) as (Ht' & Hrank' & _).
      split; [done|]. split; [lia|]. intros _ _ He. rewrite He in Hrank'. cbn in Hrank'.
      destruct (state_ r1); cbn in Hrank'; (lia || done).
Qed.
End parse.

(** C27: Whatever bytes arrive, a call of [parse] leaves a well-typed request
    well-typed and never takes a step back; when it reports success, at least
    the request line has been read. *)
Theorem parse_typed {DB : Type} `{MySQL DB} (b b' : Buffer) (r r' : HttpRequest) (e e' : env DB) (ok : bool) :
  well_typed r -> parse b r e = Ok (ok, r', b', e') ->
  well_typed r' /\ (rank (state_ r) <= rank (state_ r'))%nat /\ (ok = true -> state_ r' <> REQUEST_LINE).
Proof.
  unfold parse. intros Hr. destruct (Z.leb_spec (read_able_bytes b) 0).
  - intros [= <- <- <- <-]. done.
  - intros Hp. destruct (loop_typed _ b r e ok r' b' e' Hr Hp) as (? & ? & Hs). split; [done|]. split; [done|].
    intros ->. by apply Hs.
Qed.

(** ** Witness *)

Theorem parse_typed_witness :
  match parse (H := no_db) (filled post_text) Init no_env with
  | Ok (ok, r', b', e') => well_typed r' /\ (ok = true -> state_ r' <> REQUEST_LINE) /\ state_ r' = FINISH
  | Fault _ => False
  end.
Proof.
  destruct (parse (H := no_db) (filled post_text) Init no_env) as [[[[ok r'] b'] e']|f] eqn:Hp;
    [|vm_compute in Hp; discriminate].
  destruct (parse_typed (H := no_db) (filled post_text) b' Init r' no_env e' ok init_typed Hp) as (Ht & _ & Hs).
  split; [exact Ht|]. split; [exact Hs|]. vm_compute in Hp. injection Hp as _ <- _ _. reflexivity.
Defined.
