(* ===== verification/Accounts.v ===== *)
(** * Accounts: login and registration (HttpRequest::UserVerify)

    The user table is what the database promises, [UserTable]; against it the
    answers of [UserVerify] are related to the table's contents.  The pool is
    related to what [UserVerify] leaves in it: the connection it used is put
    back twice.  From the faults of the parts follows that the parser always
    answers. *)

From stdpp Require Import base list numbers strings gmap.
From Stdlib Require Import ZArith Lia Ascii.
From S2P Require Import Prelude Buffer Regex SqlConnPool HttpRequest Forms Parsing.

Local Open Scope Z_scope.

(** ** The promise of the database *)

(** Text that needs no escaping in SQL and fits the statement buffer. *)
Definition sql_char (c : Ascii.ascii) : Prop := c <> nul /\ c <> "'"%char /\ c <> "\"%char.
Definition sql_text (s : bytes) : Prop := Forall sql_char s /\ (length s <= 100)%nat.

#[export] Instance sql_text_dec s : Decision (sql_text s).
Proof. unfold sql_text, sql_char. apply _. Defined.

(** The answer to a select of one name: its row, whose name is shown as it was
    registered, or no row. *)
Definition lists (pw : option bytes) (rows : list (list (option bytes))) : Prop :=
  match pw with
  | Some pw => exists shown, rows = [[shown; Some pw]]
  | None => rows = []
  end.

(** A table of names and passwords.  The column's collation decides which names
    are one, [collate], and [stored] is how a password is read back (a CHAR
    column drops trailing blanks; both are the identity for binary VARCHAR
    columns).  A query fails or not, and a failed one changes nothing; the
    result of a select that did not fail may still be lost, which
    [mysql_store_result] tells by null; an insert adds the row of a new name. *)
Class UserTable (DB : Type) `{MySQL DB} := {
  collate : bytes -> bytes;
  stored : bytes -> bytes;
  users : DB -> gmap bytes bytes;
  users_no_nul d n pw : users d !! n = Some pw -> c_str pw = pw;
  select_answer c name d : sql_text name ->
    exists failed d1 res d2, mysql_query c (select_order name) d = (failed, d1) /\ users d1 = users d /\
      mysql_store_result c d1 = (res, d2) /\
      (failed = false -> users d2 = users d /\ forall rows, res = Some rows -> lists (users d !! collate name) rows);
  insert_answer c name pwd d : sql_text name -> sql_text pwd -> users d !! collate name = None ->
    exists failed d1, mysql_query c (insert_order name pwd) d = (failed, d1) /\
      users d1 = if failed : bool then users d else <[collate name := stored pwd]> (users d)
}.

Section accounts.
Context {DB : Type} `{!MySQL DB}.
Implicit Types (e : env DB).

(** What becomes of the select: its rows come, it fails, or they are lost. *)
Inductive selected : Type := Rows | Failed | Lost.

Definition select_outcome (c : nat) (name : bytes) (d : DB) : selected :=
  let '(failed, d1) := mysql_query c (select_order name) d in
  if failed then Failed else match (mysql_store_result c d1).1 with Some _ => Rows | None => Lost end.

(** The pool after a [UserVerify] that ran a query on the connection [c] it
    found in front of [q]: released by the temporary guard, then once more. *)
Definition released_once (c : nat) (q : list (option nat)) (p : SqlConnPool) : SqlConnPool :=
  mkPool (MAX_CONN_ p) (free_count_ p) (use_count_ p) (q ++ [Some c]) (sem_id_ p).
Definition released_twice (c : nat) (q : list (option nat)) (p : SqlConnPool) : SqlConnPool :=
  mkPool (MAX_CONN_ p) (free_count_ p) (use_count_ p) (q ++ [Some c; Some c]) (sem_id_ p + 1).

Lemma raii_statement p c q :
  conn_que_ p = Some c :: q -> 0 < sem_id_ p ->
  (raii_acquire p ≫= fun '(sql, p1) => p2 ← raii_release sql p1; Ok (sql, p2)) =
    Ok (Some c, released_once c q p).
Proof.
  intros Hq Hs. unfold raii_acquire, GetConn, raii_release, FreeConn, guard_, released_once. rewrite Hq.
  rewrite (proj2 (Z.ltb_lt _ _)) by done. cbn [mbind result_bind].
  rewrite !bool_decide_true by eauto. cbn. do 3 f_equal. lia.
Qed.

Lemma FreeConn_again c q p :
  FreeConn (Some c) (released_once c q p) = Ok (released_twice c q p).
Proof.
  unfold FreeConn. rewrite bool_decide_true by eauto. cbn. unfold released_twice.
  by rewrite <-app_assoc.
Qed.

(** [UserVerify] with the connection in hand. *)
Lemma UserVerify_query name pwd isLogin e c q :
  name <> [] -> pwd <> [] -> conn_que_ (sqlpool e) = Some c :: q -> 0 < sem_id_ (sqlpool e) ->
  UserVerify name pwd isLogin e =
    let p2 := released_once c q (sqlpool e) in
    let '(failed, db1) := mysql_query c (select_order name) (db e) in
    if failed then Ok (false, mkEnv p2 db1)
    else
      let '(res, db2) := mysql_store_result c db1 in
      rows ← of_option NullDeref res;
      flag ← verify_rows pwd isLogin rows (negb isLogin);
      let db3 := if negb isLogin && flag
                 then (mysql_query c (insert_order name pwd) db2).2 else db2 in
      Ok (flag, mkEnv (released_twice c q (sqlpool e)) db3).
Proof.
  intros Hn Hp Hq Hs. unfold UserVerify. rewrite !bool_decide_false by done. cbn [orb].
  pose proof (raii_statement _ _ _ Hq Hs) as Hr.
  destruct (raii_acquire (sqlpool e)) as [[sql p1]|]; [|done]. cbn [mbind result_bind] in *.
  destruct (raii_release sql p1) as [p2|]; [|done]. cbn [mbind result_bind] in *. simplify_eq.
  cbn [of_option mbind result_bind]. destruct (mysql_query c _ _) as [[] db1]; [done|].
  destruct (mysql_store_result c db1) as [[rows|] db2]; [|done]. cbn [of_option mbind result_bind].
  destruct (verify_rows _ _ _ _) as [flag|]; [|done]. cbn [mbind result_bind].
  by rewrite FreeConn_again.
Qed.

Lemma verify_listed pw pwd isLogin rows :
  lists pw rows -> (forall x, pw = Some x -> c_str x = x) ->
  verify_rows pwd isLogin rows (negb isLogin) =
    Ok (if isLogin then bool_decide (pw = Some pwd) else bool_decide (pw = None)).
Proof.
  intros Hl Hnul. destruct pw as [x|]; cbn [lists] in Hl.
  - destruct Hl as [shown ->]. cbn [verify_rows lookup list_lookup of_option mbind result_bind]. rewrite (Hnul x) by done.
    destruct isLogin; cbn [negb andb]; [apply (f_equal Ok), bool_decide_ext; naive_solver|by rewrite bool_decide_false].
  - subst rows. cbn [verify_rows]. destruct isLogin; cbn [negb andb]; [by rewrite bool_decide_false|by rewrite bool_decide_true].
Qed.

Context `{!UserTable DB}.

(** [UserVerify] up to what it does with the verdict. *)
Lemma UserVerify_select name pwd isLogin e c q :
  sql_text name -> name <> [] -> pwd <> [] -> conn_que_ (sqlpool e) = Some c :: q -> 0 < sem_id_ (sqlpool e) ->
  match select_outcome c name (db e) with
  | Rows => exists d2, users d2 = users (db e) /\ UserVerify name pwd isLogin e =
      let flag := if isLogin then bool_decide (users (db e) !! collate name = Some pwd)
                  else bool_decide (users (db e) !! collate name = None) in
      Ok (flag, mkEnv (released_twice c q (sqlpool e))
            (if negb isLogin && flag then (mysql_query c (insert_order name pwd) d2).2 else d2))
  | Failed => exists d1, users d1 = users (db e) /\
      UserVerify name pwd isLogin e = Ok (false, mkEnv (released_once c q (sqlpool e)) d1)
  | Lost => UserVerify name pwd isLogin e = Fault NullDeref
  end.
Proof.
  intros Ht Hn Hp Hq Hs. rewrite (UserVerify_query name pwd isLogin e c q) by done. cbv zeta. unfold select_outcome.
  destruct (select_answer c name (db e) Ht) as (failed & d1 & res & d2 & -> & Hu1 & Hres & Hans).
  destruct failed; [by exists d1|]. destruct (Hans eq_refl) as [Hu2 Hrows]. rewrite Hres. cbn [fst].
  destruct res as [rows|]; cbn [of_option mbind result_bind]; [|done]. exists d2. split; [done|].
  rewrite (verify_listed _ pwd isLogin rows (Hrows rows eq_refl)); [done|]. intros x. apply users_no_nul.
Qed.

(** A login succeeds exactly when the select brings the name with that
    password, and changes no user; the connection is in the pool twice
    afterwards.  Where the query fails the login does, and where its result is
    lost the server reads through null. *)
Theorem login_correct (name pwd : bytes) (e : env DB) (c : nat) (q : list (option nat)) :
  sql_text name -> name <> [] -> pwd <> [] ->
  conn_que_ (sqlpool e) = Some c :: q -> 0 < sem_id_ (sqlpool e) ->
  match select_outcome c name (db e) with
  | Rows => exists d', UserVerify name pwd true e =
      Ok (bool_decide (users (db e) !! collate name = Some pwd), mkEnv (released_twice c q (sqlpool e)) d') /\
      users d' = users (db e)
  | Failed => exists d', UserVerify name pwd true e = Ok (false, mkEnv (released_once c q (sqlpool e)) d') /\
      users d' = users (db e)
  | Lost => UserVerify name pwd true e = Fault NullDeref
  end.
Proof.
  intros Ht Hn Hp Hq Hs. pose proof (UserVerify_select name pwd true e c q Ht Hn Hp Hq Hs) as Hv.
  destruct (select_outcome c name (db e)); [| |done]; destruct Hv as (d & Hu & ->); by exists d.
Qed.

(** A registration reports success exactly when the select finds the name free;
    the row is then in the table unless the insert failed, which is not
    reported. *)
Theorem register_correct (name pwd : bytes) (e : env DB) (c : nat) (q : list (option nat)) :
  sql_text name -> sql_text pwd -> name <> [] -> pwd <> [] ->
  conn_que_ (sqlpool e) = Some c :: q -> 0 < sem_id_ (sqlpool e) ->
  match select_outcome c name (db e) with
  | Rows => exists d', UserVerify name pwd false e =
      Ok (bool_decide (users (db e) !! collate name = None), mkEnv (released_twice c q (sqlpool e)) d') /\
      match users (db e) !! collate name with
      | Some _ => users d' = users (db e)
      | None => users d' = users (db e) \/ users d' = <[collate name := stored pwd]> (users (db e))
      end
  | Failed => exists d', UserVerify name pwd false e = Ok (false, mkEnv (released_once c q (sqlpool e)) d') /\
      users d' = users (db e)
  | Lost => UserVerify name pwd false e = Fault NullDeref
  end.
Proof.
  intros Ht Htp Hn Hp Hq Hs. pose proof (UserVerify_select name pwd false e c q Ht Hn Hp Hq Hs) as Hv.
  destruct (select_outcome c name (db e)); [|destruct Hv as (d & Hu & ->); by exists d|done].
  destruct Hv as (d & Hu & ->). cbv zeta. cbn [negb andb]. destruct (users (db e) !! collate name) as [pw|] eqn:Hname.
  - rewrite bool_decide_false by done. by exists d.
  - rewrite bool_decide_true by done.
    destruct (insert_answer c name pwd d Ht Htp) as (failed & d3 & -> & Hd3); [by rewrite Hu|].
    exists d3. split; [done|]. rewrite Hd3, Hu. destruct failed; auto.
Qed.

(** Two clients then share a connection: after a login on a pool of one, two
    calls of [GetConn] both return it. *)
Theorem login_duplicates_connection (name pwd : bytes) (e : env DB) (c : nat) :
  sql_text name -> name <> [] -> pwd <> [] ->
  conn_que_ (sqlpool e) = [Some c] -> 0 < sem_id_ (sqlpool e) -> select_outcome c name (db e) = Rows ->
  exists ok e' p1 p2, UserVerify name pwd true e = Ok (ok, e') /\
    GetConn (sqlpool e') = Ok (Some c, p1) /\ GetConn p1 = Ok (Some c, p2).
Proof.
  intros Ht Hn Hp Hq Hs Hsel. pose proof (UserVerify_select name pwd true e c [] Ht Hn Hp Hq Hs) as Hv. rewrite Hsel in Hv.
  destruct Hv as (d & _ & ->). do 4 eexists. split; [reflexivity|]. unfold GetConn, guard_. cbn.
  rewrite (proj2 (Z.ltb_lt _ _)) by lia. cbn. split; [reflexivity|]. cbn.
  rewrite (proj2 (Z.ltb_lt _ _)) by lia. reflexivity.
Qed.
End accounts.

(** ** The parser always answers *)

Section answers.
Context {DB : Type} `{!MySQL DB}.
Implicit Types (b : Buffer) (r : HttpRequest) (e : env DB).

Lemma verify_rows_terminates pwd isLogin rows flag : terminates (verify_rows pwd isLogin rows flag).
Proof. revert flag. induction rows; intros flag; cbn [verify_rows]; auto with terminates. Qed.

Lemma FreeConn_terminates sql p : terminates (FreeConn sql p).
Proof. unfold FreeConn. auto with terminates. Qed.

Lemma UserVerify_terminates name pwd isLogin e : terminates (UserVerify name pwd isLogin e).
Proof.
  unfold UserVerify. case_match; [done|].
  apply terminates_bind.
  { unfold raii_acquire, GetConn. case_match; auto with terminates. }
  intros [sql p1]. apply terminates_bind.
  { unfold raii_release. case_match; auto using FreeConn_terminates with terminates. }
  intros p2. apply terminates_bind; [auto with terminates|]. intros c.
  destruct (mysql_query c _ _) as [[] db1]; [done|].
  destruct (mysql_store_result c db1) as [res db2].
  auto 10 using verify_rows_terminates, FreeConn_terminates with terminates.
Qed.

Lemma ParseBody_terminates line r e : terminates (ParseBody_ line r e).
Proof.
  unfold ParseBody_, ParsePost_. apply terminates_bind; [|by intros [??]].
  case_bool_decide; [|done]. destruct (subscript _ _) as [ct h]. case_bool_decide; [|done].
  apply terminates_bind.
  { intros Hp. apply ParseFromUrlencoded_faults in Hp. naive_solver. }
  intros r1. destruct (DEFAULT_HTML_TAG !! path_ r1) as [tag|]; [|done].
  destruct (_ || _); [|done]. destruct (subscript _ _) as [u m1]. destruct (subscript _ _) as [p m2].
  apply terminates_bind; [apply UserVerify_terminates|by intros [??]].
Qed.

Lemma parse_line_terminates line b r e : terminates (parse_line line b r e).
Proof.
  unfold parse_line. destruct (state_ r); try done.
  apply terminates_bind; [apply ParseBody_terminates|by intros [??]].
Qed.

(** What a call leaves: the same storage with a suffix of the contents. *)
Definition leaves_suffix b b' : Prop :=
  wf b' /\ buffer_ b' = buffer_ b /\ exists k, contents b' = drop k (contents b).

Lemma leaves_suffix_refl b : wf b -> leaves_suffix b b.
Proof. intros. split; [done|]. split; [done|]. by exists 0%nat. Qed.

Lemma parse_loop_answers fuel : forall b r e, wf b -> (length (contents b) <= fuel)%nat ->
  match parse_loop fuel b r e with
  | Ok (_, _, b', _) => leaves_suffix b b'
  | Fault f => f <> OutOfFuel
  end.
Proof.
  induction fuel as [|fuel IH]; intros b r e Hwf Hfuel; cbn [parse_loop];
    rewrite read_able_positive by done; (case_bool_decide as Hne; [by apply leaves_suffix_refl|]).
  { destruct (contents b); [done|]. simpl in Hfuel. lia. }
  cbn [negb andb]. case_bool_decide; [by apply leaves_suffix_refl|]. cbn [negb].
  set (k := search_crlf (contents b)).
  destruct (parse_line (take k (contents b)) b r e) as [[[r1|] e1]|f] eqn:Hline; cbn [mbind result_bind];
    [|by apply leaves_suffix_refl|].
  2: { intros ->. by eapply parse_line_terminates. }
  pose proof (length_contents b Hwf) as Hlen. pose proof (search_crlf_le (contents b)) as Hk. fold k in Hk.
  destruct (Z.eqb_spec (peek b + Z.of_nat k) (begin_write b)) as [|Hend]; [by apply leaves_suffix_refl|].
  unfold peek, begin_write in Hend.
  assert (Hlt : (k < length (contents b))%nat) by lia.
  pose proof (search_crlf_found (contents b) Hlt) as Hfound. fold k in Hfound.
  apply (f_equal length) in Hfound. rewrite length_app, length_take in Hfound. cbn [length] in Hfound.
  rewrite length_drop in Hfound.
  destruct (retrieve_unitil_spec (peek b + Z.of_nat k + 2) b Hwf) as (b1 & -> & Hwf1 & Hc1 & Hbuf);
    [unfold peek, begin_write; lia|].
  cbn [mbind result_bind].
  specialize (IH b1 r1 e1 Hwf1). rewrite Hc1, length_drop in IH. specialize (IH ltac:(lia)).
  destruct (parse_loop fuel b1 r1 e1) as [[[[ok r'] b'] e']|f]; [|done].
  destruct IH as (Hwf' & Hb' & k' & Hk'). split; [done|]. split; [congruence|].
  rewrite Hc1, drop_drop in Hk'. by eexists.
Qed.

End answers.

(** ** A table for the witnesses *)

(** It reads the name and the password back off the statement; the row read
    last is kept for [mysql_store_result]. *)
Definition user_rows (name : bytes) (t : gmap bytes bytes) : list (list (option bytes)) :=
  match t !! name with
  | Some pw => [[Some name; Some pw]]
  | None => []
  end.

Record demo_db : Type := mkDb { table : gmap bytes bytes; answer : list (list (option bytes)) }.

Definition no_quote : Ascii.ascii -> bool := not_char "'"%char.

Definition demo_table (d : demo_db) : gmap bytes bytes :=
  omap (fun pw => if decide (c_str pw = pw) then Some pw else None) (table d).

Definition demo_query (c : nat) (order : bytes) (d : demo_db) : bool * demo_db :=
  if decide (take 6 order = lit "SELECT") then
    let name := (span no_quote (drop 52 order)).1 in
    (false, mkDb (table d) (user_rows name (demo_table d)))
  else
    let '(name, rest) := span no_quote (drop 45 order) in
    let pwd := (span no_quote (drop 3 rest)).1 in
    (false, mkDb (<[name := pwd]> (table d)) []).

#[export] Instance demo_mysql : MySQL demo_db :=
  {| mysql_query := demo_query; mysql_store_result := fun _ d => (Some (answer d), d) |}.

Lemma sql_text_c_str s : sql_text s -> c_str s = s.
Proof.
  intros [Hs _]. apply c_str_free.
  eapply Forall_impl; [exact Hs|]. intros x (Hx & _ & _). by apply not_char_true.
Qed.

Lemma sql_text_no_quote s : sql_text s -> Forall (fun x => no_quote x = true) s.
Proof.
  intros [Hs _]. eapply Forall_impl; [exact Hs|]. intros x (_ & Hx & _). by apply not_char_true.
Qed.

Lemma span_quoted s rest :
  sql_text s -> span no_quote (s ++ "'"%char :: rest) = (s, "'"%char :: rest).
Proof. intros Hs. apply span_app; [by apply sql_text_no_quote|reflexivity]. Qed.

Lemma demo_select c name d :
  sql_text name ->
  demo_query c (select_order name) d = (false, mkDb (table d) (user_rows name (demo_table d))).
Proof.
  intros Hn. unfold select_order. rewrite sql_text_c_str by done. unfold snprintf256.
  rewrite firstn_all2 by (destruct Hn; rewrite !length_app; simpl; lia).
  unfold demo_query. rewrite decide_True by done.
  change (drop 52 (lit "SELECT username, password FROM user WHERE username='" ++ ?x)) with x.
  change (lit "' LIMIT 1") with ("'"%char :: lit " LIMIT 1").
  by rewrite (span_quoted name (lit " LIMIT 1") Hn).
Qed.

Lemma demo_insert c name pwd d :
  sql_text name -> sql_text pwd ->
  demo_query c (insert_order name pwd) d = (false, mkDb (<[name := pwd]> (table d)) []).
Proof.
  intros Hn Hp. unfold insert_order. rewrite !sql_text_c_str by done. unfold snprintf256.
  rewrite firstn_all2 by (destruct Hn, Hp; rewrite !length_app; simpl; lia).
  unfold demo_query. rewrite decide_False by done.
  change (drop 45 (lit "INSERT INTO user(username, password) VALUES('" ++ ?x)) with x.
  change (lit "','" ++ ?x) with ("'"%char :: ","%char :: "'"%char :: x).
  rewrite (span_quoted name _ Hn). cbn [drop]. rewrite drop_0.
  change (lit "')") with ("'"%char :: lit ")"). by rewrite (span_quoted pwd (lit ")") Hp).
Qed.

#[export] Instance demo_users : UserTable demo_db.
Proof.
  refine {| collate := id; stored := id; users := demo_table |}.
  - intros d n pw. unfold demo_table. rewrite lookup_omap.
    destruct (table d !! n); simpl; [|done]. case_decide; simpl; congruence.
  - intros c name d Hn. simpl. rewrite demo_select by done. exists false. do 3 eexists. split; [done|]. split; [done|].
    split; [done|]. intros _. split; [done|]. intros rows [= <-]. unfold user_rows, id. cbn [answer].
    destruct (demo_table d !! name); [by eexists|done].
  - intros c name pwd d Hn Hp Hnone. simpl. rewrite demo_insert by done.
    exists false. eexists. split; [done|]. unfold demo_table. cbn [table].
    apply map_eq. intros i. rewrite lookup_omap. destruct (decide (i = name)) as [->|Hi].
    + rewrite !lookup_insert_eq. simpl. case_decide as Hg; [done|]. by rewrite sql_text_c_str in Hg.
    + by rewrite !lookup_insert_ne, lookup_omap by done.
Defined.

Definition demo_env (conns : list (option nat)) : env demo_db :=
  mkEnv (mkPool 1 0 0 conns (Z.of_nat (length conns)))
        (mkDb {[lit "mark" := lit "123"]} []).

Ltac by_text := split; [repeat constructor; discriminate|simpl; lia].

Theorem login_correct_witness :
  exists d', UserVerify (lit "mark") (lit "123") true (demo_env [Some 0%nat; Some 1%nat]) =
      Ok (true, mkEnv (mkPool 1 0 0 [Some 1%nat; Some 0%nat; Some 0%nat] 3) d') /\
    users d' = {[lit "mark" := lit "123"]}.
Proof.
  pose proof (login_correct (lit "mark") (lit "123") (demo_env [Some 0%nat; Some 1%nat]) 0%nat [Some 1%nat]
    ltac:(by_text) ltac:(discriminate) ltac:(discriminate) eq_refl eq_refl) as H.
  assert (Hsel : select_outcome 0 (lit "mark") (db (demo_env [Some 0%nat; Some 1%nat])) = Rows) by (vm_compute; reflexivity).
  rewrite Hsel in H. destruct H as (d' & Hv & Hu).
  exists d'. rewrite Hv, Hu. split; [|vm_compute; reflexivity].
  rewrite bool_decide_true by (vm_compute; reflexivity). reflexivity.
Defined.

Theorem register_correct_witness :
  exists d', UserVerify (lit "ann") (lit "pw") false (demo_env [Some 0%nat]) =
      Ok (true, mkEnv (mkPool 1 0 0 [Some 0%nat; Some 0%nat] 2) d') /\
    (users d' = users (db (demo_env [Some 0%nat])) \/
     users d' = <[lit "ann" := lit "pw"]> (users (db (demo_env [Some 0%nat])))).
Proof.
  pose proof (register_correct (lit "ann") (lit "pw") (demo_env [Some 0%nat]) 0%nat []
    ltac:(by_text) ltac:(by_text) ltac:(discriminate) ltac:(discriminate) eq_refl eq_refl) as H.
  assert (Hsel : select_outcome 0 (lit "ann") (db (demo_env [Some 0%nat])) = Rows) by (vm_compute; reflexivity).
  rewrite Hsel in H. destruct H as (d' & Hv & Hu).
  exists d'. rewrite Hv. split; [|exact Hu].
  rewrite bool_decide_true by (vm_compute; reflexivity). reflexivity.
Defined.

Theorem login_duplicates_connection_witness :
  exists ok e' p1 p2, UserVerify (lit "mark") (lit "x") true (demo_env [Some 7%nat]) = Ok (ok, e') /\
    GetConn (sqlpool e') = Ok (Some 7%nat, p1) /\ GetConn p1 = Ok (Some 7%nat, p2).
Proof.
  apply (login_duplicates_connection (lit "mark") (lit "x") (demo_env [Some 7%nat]) 7%nat);
    [by_text|discriminate|discriminate|reflexivity|reflexivity|vm_compute; reflexivity].
Defined.

