(* ===== verification/HttpResponse.v ===== *)
(** * HttpResponse: status line, headers and file (src/http/httpresponse.h, .cc)

    A response is made for a path under the source directory: the file is
    looked up, the status chosen, the head written to the connection's buffer
    and the file mapped.  The file system is the interface [FileSystem]; file
    descriptors and mappings are counted in [os]. *)

From stdpp Require Import base list numbers strings gmap.
From Stdlib Require Import ZArith Lia Ascii.
From S2P Require Import Prelude Buffer Regex.

Local Open Scope Z_scope.
Local Open Scope result_scope.

(** ** The operating system *)

(** What the code uses of [struct stat]. *)
Record file_stat : Type := mkStat { st_isdir : bool; st_roth : bool; st_size : Z }.

Definition stat_zero : file_stat := mkStat false false 0.

(** [open] says whether the path opens for reading; [mmap] answers the bytes
    of the mapped pages, or fails. *)
Class FileSystem := {
  fs_stat : bytes -> option file_stat;
  fs_open : bytes -> bool;
  fs_mmap : bytes -> Z -> option bytes
}.

(** [mmap] refuses a length of zero; a mapping is made of whole pages. *)
Class FileSystemLaws (FS : FileSystem) : Prop := {
  mmap_empty p : fs_mmap p 0 = None;
  mmap_pages p n m : fs_mmap p n = Some m -> n <= Z.of_nat (length m) /\ (4096 <= length m)%nat
}.

(** Open descriptors and live mappings. *)
Record os : Type := mkOs { fds : Z; maps : Z }.

(** ** Data *)

Record HttpResponse : Type := mkResponse {
  code_ : Z;
  isKeepAlive_ : bool;
  path_ : bytes;
  srcDir_ : bytes;
  mmFile_ : option bytes;
  mmFileStat_ : file_stat
}.

Definition SUFFIX_TYPE : gmap bytes bytes := list_to_map (prod_map lit lit <$> [
  (".html", "text/html");
  (".xml", "text/xml");
  (".xhtml", "application/xhtml+xml");
  (".txt", "text/plain");
  (".rtf", "application/rtf");
  (".pdf", "application/pdf");
  (".word", "application/nsword");
  (".png", "image/png");
  (".gif", "image/gif");
  (".jpg", "image/jpeg");
  (".jpeg", "image/jpeg");
  (".au", "audio/basic");
  (".mpeg", "video/mpeg");
  (".mpg", "video/mpeg");
  (".avi", "video/x-msvideo");
  (".gz", "application/x-gzip");
  (".tar", "application/x-tar");
  (".css", "text/css ");
  (".js", "text/javascript ")]%string).

Definition CODE_STATUS : gmap Z bytes :=
  {[ 200 := lit "OK"; 400 := lit "Bad Request"; 403 := lit "Forbidden"; 404 := lit "Not Found" ]}.

Definition CODE_PATH : gmap Z bytes :=
  {[ 400 := lit "/400.html"; 403 := lit "/403.html"; 404 := lit "/404.html" ]}.

Definition new_response : HttpResponse := mkResponse (-1) false [] [] None stat_zero.

Definition set_code (c : Z) (r : HttpResponse) : HttpResponse :=
  mkResponse c (isKeepAlive_ r) (path_ r) (srcDir_ r) (mmFile_ r) (mmFileStat_ r).
Definition set_path (p : bytes) (r : HttpResponse) : HttpResponse :=
  mkResponse (code_ r) (isKeepAlive_ r) p (srcDir_ r) (mmFile_ r) (mmFileStat_ r).
Definition set_file (m : option bytes) (r : HttpResponse) : HttpResponse :=
  mkResponse (code_ r) (isKeepAlive_ r) (path_ r) (srcDir_ r) m (mmFileStat_ r).
Definition set_stat (st : file_stat) (r : HttpResponse) : HttpResponse :=
  mkResponse (code_ r) (isKeepAlive_ r) (path_ r) (srcDir_ r) (mmFile_ r) st.

(** ** Operations *)

Definition UnmapFile (r : HttpResponse) (o : os) : HttpResponse * os :=
  match mmFile_ r with
  | Some _ => (set_file None r, mkOs (fds o) (maps o - 1))
  | None => (r, o)
  end.

Definition Init (srcDir path : bytes) (isKeepAlive : bool) (code : Z) (r : HttpResponse) (o : os) :
    result (HttpResponse * os) :=
  assert! (negb (bool_decide (srcDir = [])));
  let '(r1, o1) := UnmapFile r o in
  Ok (mkResponse code isKeepAlive path srcDir None stat_zero, o1).

(** The destructor. *)
Definition destroy (r : HttpResponse) (o : os) : os := snd (UnmapFile r o).

Definition File (r : HttpResponse) : option bytes := mmFile_ r.
Definition FileLen (r : HttpResponse) : Z := st_size (mmFileStat_ r).
Definition Code (r : HttpResponse) : Z := code_ r.

(** [find_last_of('.')]: the suffix from the last dot on. *)
Fixpoint last_suffix (s : bytes) : option bytes :=
  match s with
  | [] => None
  | c :: s' =>
      match last_suffix s' with
      | Some t => Some t
      | None => if bool_decide (c = "."%char) then Some s else None
      end
  end.

Definition GetFileType_ (r : HttpResponse) : bytes :=
  match last_suffix (path_ r) with
  | None => lit "text/plain"
  | Some suffix => default (lit "text/plain") (SUFFIX_TYPE !! suffix)
  end.

Definition AddStateLine_ (r : HttpResponse) (b : Buffer) : result (HttpResponse * Buffer) :=
  let '(r1, status) :=
    match CODE_STATUS !! code_ r with
    | Some s => (r, s)
    | None => (set_code 400 r, lit "Bad Request")
    end in
  b1 ← append (lit "HTTP/1.1 " ++ to_string (code_ r1) ++ lit " " ++ status ++ CRLF) b;
  Ok (r1, b1).

Definition AddHeader_ (r : HttpResponse) (b : Buffer) : result Buffer :=
  b1 ← append (lit "Connection: ") b;
  b2 ← (if isKeepAlive_ r then
          b' ← append (lit "keep-alive" ++ CRLF) b1;
          append (lit "keep-alive: max=6, timeout=120" ++ CRLF) b'
        else append (lit "close" ++ CRLF) b1);
  append (lit "Content-type: " ++ GetFileType_ r ++ CRLF) b2.

(** The double quote of the body tag. *)
Definition quote : bytes := [Ascii.ascii_of_nat 34].

Definition error_body (r : HttpResponse) (message : bytes) : bytes :=
  lit "<html><title>Error</title>" ++ lit "<body bgcolor=" ++ quote ++ lit "ffffff" ++ quote
  ++ lit ">" ++ to_string (code_ r) ++ lit " : "
  ++ default (lit "Bad Request") (CODE_STATUS !! code_ r) ++ [LF]
  ++ lit "<p>" ++ message ++ lit "</p>"
  ++ lit "<hr><em>TinyWebServer</em></body></html>".

Definition content_length (n : Z) : bytes := lit "Content-length: " ++ to_string n ++ CRLF ++ CRLF.

Definition ErrorContent (r : HttpResponse) (message : bytes) (b : Buffer) : result Buffer :=
  let body := error_body r message in
  b1 ← append (content_length (Z.of_nat (length body))) b;
  append body b1.

(** [*(int* )p == -1] reads four bytes. *)
Definition reads_minus_one (m : bytes) : result bool :=
  guard_ OutOfRange (4 <=? Z.of_nat (length m)) ≫= fun _ =>
  Ok (bool_decide (take 4 m = replicate 4 (Ascii.ascii_of_nat 255))).

Section files.
Context {FS : FileSystem}.

Definition full_path (r : HttpResponse) : bytes := c_str (srcDir_ r ++ path_ r).

(** A failed [stat] leaves the structure as it was. *)
Definition stat (r : HttpResponse) : bool * HttpResponse :=
  match fs_stat (full_path r) with
  | Some st => (true, set_stat st r)
  | None => (false, r)
  end.

Definition ErrorHtml_ (r : HttpResponse) : HttpResponse :=
  match CODE_PATH !! code_ r with
  | Some p => snd (stat (set_path p r))
  | None => r
  end.

(** The result of [mmap] is dereferenced before it is known to be valid. *)
Definition AddContent_ (r : HttpResponse) (b : Buffer) (o : os) :
    result (HttpResponse * Buffer * os) :=
  if negb (fs_open (full_path r)) then
    b1 ← ErrorContent r (lit "File NotFound!") b; Ok (r, b1, o)
  else
    let o1 := mkOs (fds o + 1) (maps o) in
    m ← of_option NullDeref (fs_mmap (full_path r) (st_size (mmFileStat_ r)));
    let o2 := mkOs (fds o1) (maps o1 + 1) in
    bad ← reads_minus_one m;
    if bad : bool then b1 ← ErrorContent r (lit "File NotFound!") b; Ok (r, b1, o2)
    else
      b1 ← append (content_length (st_size (mmFileStat_ r))) b;
      Ok (set_file (Some m) r, b1, mkOs (fds o2 - 1) (maps o2)).

(** The first part of [MakeResponse]: which file, and with which code. *)
Definition choose_status (r : HttpResponse) : HttpResponse :=
  let '(found, r0) := stat r in
  if negb found || st_isdir (mmFileStat_ r0) then set_code 404 r0
  else if negb (st_roth (mmFileStat_ r0)) then set_code 403 r0
  else if code_ r0 =? -1 then set_code 200 r0 else r0.

Definition MakeResponse (r : HttpResponse) (b : Buffer) (o : os) :
    result (HttpResponse * Buffer * os) :=
  let r2 := ErrorHtml_ (choose_status r) in
  '(r3, b1) ← AddStateLine_ r2 b;
  b2 ← AddHeader_ r3 b1;
  AddContent_ r3 b2 o.
End files.

(** ** What a response writes *)

(** [b'] is [b] with [s] appended. *)
Definition emits (b : Buffer) (s : bytes) (b' : Buffer) : Prop :=
  wf b' /\ contents b' = contents b ++ s /\ vsize b' <= vsize b + Z.of_nat (length s).

Lemma append_emits s b :
  wf b -> vsize b + Z.of_nat (length s) <= max_size -> exists b', append s b = Ok b' /\ emits b s b'.
Proof.
  intros Hwf Hroom. destruct (append_spec s b Hwf) as (b' & Hb & Hrest).
  - destruct Hwf as (_ & Hw & _). lia.
  - by exists b'.
Qed.

(** [f] writes the text [s] wherever there is room for it. *)
Definition writes (f : Buffer -> result Buffer) (s : bytes) : Prop :=
  forall b, wf b -> vsize b + Z.of_nat (length s) <= max_size -> exists b', f b = Ok b' /\ emits b s b'.

Lemma writes_append s : writes (append s) s.
Proof. intros b. apply append_emits. Qed.

Lemma emits_app b s b1 t b2 : emits b s b1 -> emits b1 t b2 -> emits b (s ++ t) b2.
Proof.
  intros (H1 & Hc1 & Hv1) (H2 & Hc2 & Hv2). split; [done|].
  rewrite Hc2, Hc1, app_assoc, length_app. split; [done|]. lia.
Qed.

Lemma writes_seq f g s t : writes f s -> writes g t -> writes (fun b => b1 ← f b; g b1) (s ++ t).
Proof.
  intros Hf Hg b Hwf Hroom. rewrite length_app in Hroom.
  destruct (Hf b Hwf) as (b1 & Hb1 & He1); [lia|]. pose proof He1 as (Hwf1 & _ & Hv1).
  destruct (Hg b1 Hwf1) as (b2 & Hb2 & He2); [lia|].
  exists b2. rewrite Hb1. split; [exact Hb2|]. by eapply emits_app.
Qed.

(** The text of a response: status line, headers, the head of a found file. *)
Definition status_line (code : Z) : bytes :=
  lit "HTTP/1.1 " ++ to_string code ++ lit " " ++ default (lit "Bad Request") (CODE_STATUS !! code) ++ CRLF.

Definition header_lines (keep : bool) (type : bytes) : bytes :=
  lit "Connection: " ++
  (if keep then (lit "keep-alive" ++ CRLF) ++ lit "keep-alive: max=6, timeout=120" ++ CRLF
   else lit "close" ++ CRLF) ++
  lit "Content-type: " ++ type ++ CRLF.

Lemma writes_header r : writes (AddHeader_ r) (header_lines (isKeepAlive_ r) (GetFileType_ r)).
Proof.
  unfold AddHeader_, header_lines. apply writes_seq; [apply writes_append|].
  destruct (isKeepAlive_ r).
  - apply (writes_seq _ (append _)); [|apply writes_append]. apply writes_seq; apply writes_append.
  - apply (writes_seq _ (append _)); apply writes_append.
Qed.

Lemma writes_error r msg :
  writes (ErrorContent r msg)
    (content_length (Z.of_nat (length (error_body r msg))) ++ error_body r msg).
Proof. apply writes_seq; apply writes_append. Qed.

Definition known_code (c : Z) : Prop := c = 200 \/ c = 400 \/ c = 403 \/ c = 404.

Lemma writes_state r :
  known_code (code_ r) ->
  writes (fun b => snd <$> AddStateLine_ r b) (status_line (code_ r)) /\
  forall b r' b', AddStateLine_ r b = Ok (r', b') -> r' = r.
Proof.
  intros Hk. unfold AddStateLine_, status_line.
  assert (exists s, CODE_STATUS !! code_ r = Some s) as [s Hs].
  { destruct Hk as [->|[->|[->| ->]]]; vm_compute; eauto. }
  rewrite Hs. cbn [default from_option id]. split.
  - intros b Hwf Hroom. destruct (append_emits _ b Hwf Hroom) as (b' & Hb & He).
    exists b'. rewrite Hb. done.
  - intros b r' b' H. inv_bind H. by simplify_eq.
Qed.

Section responses.
Context {FS : FileSystem}.
Implicit Types (r : HttpResponse) (b : Buffer) (o : os).

(** The code a response is sent with, given what [stat] found. *)
Definition chosen_code (found : option file_stat) (code : Z) : Z :=
  match found with
  | None => 404
  | Some st => if st_isdir st then 404 else if negb (st_roth st) then 403
               else if code =? -1 then 200 else code
  end.

Lemma choose_status_code r : code_ (choose_status r) = chosen_code (fs_stat (full_path r)) (code_ r).
Proof.
  unfold choose_status, stat, chosen_code. destruct (fs_stat (full_path r)) as [st|]; [|done]. cbn.
  destruct (st_isdir st); [done|]. destruct (st_roth st); cbn; [|done]. by destruct (code_ r =? -1).
Qed.

Lemma choose_status_found r st :
  fs_stat (full_path r) = Some st -> st_isdir st = false -> st_roth st = true ->
  choose_status r = set_code (if code_ r =? -1 then 200 else code_ r) (set_stat st r).
Proof.
  intros Hst Hd Hr. unfold choose_status, stat. rewrite Hst. cbn. rewrite Hd, Hr. cbn.
  destruct r as [c ? ? ? ? ?]; cbn. by destruct (c =? -1).
Qed.

Lemma ErrorHtml_code r : code_ (ErrorHtml_ r) = code_ r.
Proof.
  unfold ErrorHtml_, stat. destruct (CODE_PATH !! code_ r); [|done]. by destruct (fs_stat _).
Qed.

Definition head_text r : bytes :=
  status_line (code_ r) ++ header_lines (isKeepAlive_ r) (GetFileType_ r).

Lemma AddState_header r b :
  wf b -> known_code (code_ r) -> vsize b + Z.of_nat (length (head_text r)) <= max_size ->
  exists b2, emits b (head_text r) b2 /\
    forall (A : Type) (k : HttpResponse -> Buffer -> result A),
      ('(r3, b1) ← AddStateLine_ r b; b2 ← AddHeader_ r3 b1; k r3 b2) = k r b2.
Proof.
  intros Hwf Hk Hroom. destruct (writes_state r Hk) as [Hw Heq].
  destruct (writes_seq _ _ _ _ Hw (writes_header r) b Hwf Hroom) as (b2 & Hb2 & He).
  exists b2. split; [done|]. intros A k.
  destruct (AddStateLine_ r b) as [[r3 b1]|f] eqn:Hs; [|done].
  pose proof (Heq _ _ _ Hs) as ->. cbn in *. by rewrite Hb2.
Qed.

(** Whatever the file system answers, a response that is made carries the code
    [stat] on the requested path calls for. *)
Lemma AddContent_code r b o r' b' o' : AddContent_ r b o = Ok (r', b', o') -> code_ r' = code_ r.
Proof.
  unfold AddContent_. destruct (negb _); intros H.
  - inv_bind H. by simplify_eq.
  - inv_bind H. inv_bind H. destruct a0; inv_bind H; by simplify_eq.
Qed.

(** The file is there to be mapped, and its first bytes are not four FF. *)
Definition mappable (p : bytes) (n : Z) (m : bytes) : Prop :=
  fs_open p = true /\ fs_mmap p n = Some m /\ reads_minus_one m = Ok false.

Lemma AddContent_mapped r b o m :
  wf b -> mappable (full_path r) (st_size (mmFileStat_ r)) m ->
  vsize b + Z.of_nat (length (content_length (st_size (mmFileStat_ r)))) <= max_size ->
  exists b', AddContent_ r b o = Ok (set_file (Some m) r, b', mkOs (fds o) (maps o + 1)) /\
    emits b (content_length (st_size (mmFileStat_ r))) b'.
Proof.
  intros Hwf (Hopen & Hmap & Hm1) Hroom. unfold AddContent_. rewrite Hopen, Hmap. cbn [negb of_option].
  rewrite bind_ok, Hm1, bind_ok.
  destruct (append_emits (content_length (st_size (mmFileStat_ r))) b Hwf Hroom) as (b' & -> & He).
  exists b'. split; [|done]. rewrite bind_ok. cbn. do 3 f_equal. lia.
Qed.

Lemma MakeResponse_mapped r b o m :
  let r2 := ErrorHtml_ (choose_status r) in
  wf b -> known_code (code_ r2) -> mappable (full_path r2) (st_size (mmFileStat_ r2)) m ->
  vsize b + Z.of_nat (length (head_text r2 ++ content_length (st_size (mmFileStat_ r2)))) <= max_size ->
  exists b', MakeResponse r b o = Ok (set_file (Some m) r2, b', mkOs (fds o) (maps o + 1)) /\
    emits b (head_text r2 ++ content_length (st_size (mmFileStat_ r2))) b'.
Proof.
  intros r2 Hwf Hk Hm Hroom. rewrite length_app in Hroom.
  destruct (AddState_header r2 b Hwf Hk) as (b2 & He & Hrun); [lia|].
  pose proof He as (Hwf2 & _ & Hv2).
  destruct (AddContent_mapped r2 b2 o m Hwf2 Hm) as (b' & Hb' & He'); [lia|].
  exists b'. unfold MakeResponse. fold r2. rewrite (Hrun _ (fun r3 b2 => AddContent_ r3 b2 o)).
  split; [done|]. by eapply emits_app.
Qed.
End responses.

Section outcomes.
Context {FS : FileSystem}.
Implicit Types (r : HttpResponse) (b : Buffer) (o : os).

(** A regular file that others may read is answered with 200, its type by the
    last dot of the path and its length; the file is mapped for the caller to
    send, and the descriptor is closed again. *)
Theorem serve_file (r : HttpResponse) (b : Buffer) (o : os) (n : Z) (m : bytes) :
  code_ r = 200 \/ code_ r = -1 ->
  fs_stat (full_path r) = Some (mkStat false true n) -> mappable (full_path r) n m ->
  let text := status_line 200 ++ header_lines (isKeepAlive_ r) (GetFileType_ r) ++ content_length n in
  wf b -> vsize b + Z.of_nat (length text) <= max_size ->
  exists r' b', MakeResponse r b o = Ok (r', b', mkOs (fds o) (maps o + 1)) /\ emits b text b' /\
    File r' = Some m /\ FileLen r' = n /\ Code r' = 200.
Proof.
  intros Hcode Hst Hm text Hwf Hroom.
  pose proof (choose_status_found r _ Hst eq_refl eq_refl) as Hchoose.
  assert (H200 : (if code_ r =? -1 then 200 else code_ r) = 200) by (destruct Hcode as [->| ->]; done).
  rewrite H200 in Hchoose.
  destruct (MakeResponse_mapped r b o m) as (b' & Hmake & He).
  - done.
  - rewrite ErrorHtml_code, Hchoose. by left.
  - rewrite Hchoose. exact Hm.
  - rewrite Hchoose. unfold head_text. rewrite <-app_assoc. exact Hroom.
  - rewrite Hchoose in Hmake, He. eexists _, b'. split; [exact Hmake|].
    unfold head_text in He. rewrite <-app_assoc in He. split; [exact He|]. done.
Qed.

(** A path that leads nowhere or to a directory is answered with 404 and the
    error page of the site, whatever code the request came with. *)
Theorem missing_file_404 (r : HttpResponse) (b : Buffer) (o : os) (st : file_stat) (m : bytes) :
  match fs_stat (full_path r) with None => True | Some s => st_isdir s = true end ->
  fs_stat (c_str (srcDir_ r ++ lit "/404.html")) = Some st ->
  mappable (c_str (srcDir_ r ++ lit "/404.html")) (st_size st) m ->
  let text := status_line 404 ++ header_lines (isKeepAlive_ r) (lit "text/html") ++
              content_length (st_size st) in
  wf b -> vsize b + Z.of_nat (length text) <= max_size ->
  exists r' b', MakeResponse r b o = Ok (r', b', mkOs (fds o) (maps o + 1)) /\ emits b text b' /\
    File r' = Some m /\ FileLen r' = st_size st /\ Code r' = 404.
Proof.
  intros Hmiss Hst Hm text Hwf Hroom.
  assert (Hr2 : ErrorHtml_ (choose_status r) =
            mkResponse 404 (isKeepAlive_ r) (lit "/404.html") (srcDir_ r) (mmFile_ r) st).
  { assert (Hpage : forall q, srcDir_ q = srcDir_ r -> isKeepAlive_ q = isKeepAlive_ r ->
              mmFile_ q = mmFile_ r -> ErrorHtml_ (set_code 404 q) =
              mkResponse 404 (isKeepAlive_ r) (lit "/404.html") (srcDir_ r) (mmFile_ r) st).
    { intros q Hs Hka Hf. unfold ErrorHtml_. cbn [code_ set_code].
      change (CODE_PATH !! 404) with (Some (lit "/404.html")). unfold stat, full_path.
      cbn [set_path set_code srcDir_ path_]. rewrite Hs, Hst, <-Hka, <-Hf, <-Hs. done. }
    unfold choose_status, stat. destruct (fs_stat (full_path r)) as [s|].
    - cbn [negb orb set_stat mmFileStat_]. rewrite Hmiss. by apply Hpage.
    - by apply Hpage. }
  destruct (MakeResponse_mapped r b o m) as (b' & Hmake & He); rewrite ?Hr2 in *.
  - done.
  - right. right. by right.
  - exact Hm.
  - unfold head_text. rewrite <-app_assoc. exact Hroom.
  - eexists _, b'. split; [exact Hmake|].
    unfold head_text in He. rewrite <-app_assoc in He. split; [exact He|]. done.
Qed.

(** A file of length zero cannot be mapped, and the code reads through the
    pointer [mmap] returns for its failure: the server crashes. *)
Theorem empty_file_crashes `{!FileSystemLaws FS} (r : HttpResponse) (b : Buffer) (o : os) :
  code_ r = 200 \/ code_ r = -1 ->
  fs_stat (full_path r) = Some (mkStat false true 0) -> fs_open (full_path r) = true ->
  wf b -> vsize b + Z.of_nat (length (status_line 200 ++ header_lines (isKeepAlive_ r) (GetFileType_ r)))
            <= max_size ->
  MakeResponse r b o = Fault NullDeref.
Proof.
  intros Hcode Hst Hopen Hwf Hroom.
  pose proof (choose_status_found r _ Hst eq_refl eq_refl) as Hchoose.
  assert (H200 : (if code_ r =? -1 then 200 else code_ r) = 200) by (destruct Hcode as [->| ->]; done).
  rewrite H200 in Hchoose. unfold MakeResponse. rewrite Hchoose. cbv zeta.
  change (ErrorHtml_ (set_code 200 ?x)) with (set_code 200 x).
  set (r2 := set_code 200 (set_stat (mkStat false true 0) r)).
  destruct (AddState_header r2 b Hwf) as (b2 & He & Hrun); [by left|exact Hroom|].
  rewrite (Hrun _ (fun r3 b2 => AddContent_ r3 b2 o)). unfold AddContent_.
  change (full_path r2) with (full_path r). rewrite Hopen. cbn. by rewrite mmap_empty.
Qed.

(** A file that starts with four bytes FF is announced with 200 and answered
    with an error text; the descriptor and the mapping are lost. *)
Theorem ff_file_leaks (r : HttpResponse) (b : Buffer) (o : os) (n : Z) (m : bytes) :
  code_ r = 200 \/ code_ r = -1 -> mmFile_ r = None ->
  fs_stat (full_path r) = Some (mkStat false true n) ->
  fs_open (full_path r) = true -> fs_mmap (full_path r) n = Some m -> reads_minus_one m = Ok true ->
  wf b -> vsize b + 2000 + Z.of_nat (length (GetFileType_ r)) <= max_size ->
  exists r' b', MakeResponse r b o = Ok (r', b', mkOs (fds o + 1) (maps o + 1)) /\ File r' = None /\
    (lit "HTTP/1.1 200 OK" ++ CRLF) `prefix_of` drop (length (contents b)) (contents b').
Proof.
  intros Hcode Hnone Hst Hopen Hmap Hff Hwf Hroom.
  pose proof (choose_status_found r _ Hst eq_refl eq_refl) as Hchoose.
  assert (H200 : (if code_ r =? -1 then 200 else code_ r) = 200) by (destruct Hcode as [->| ->]; done).
  rewrite H200 in Hchoose. unfold MakeResponse. rewrite Hchoose. cbv zeta.
  change (ErrorHtml_ (set_code 200 ?x)) with (set_code 200 x).
  set (r2 := set_code 200 (set_stat (mkStat false true n) r)).
  assert (Hhead : Z.of_nat (length (head_text r2)) <= 200 + Z.of_nat (length (GetFileType_ r))).
  { unfold head_text, header_lines. change (GetFileType_ r2) with (GetFileType_ r).
    change (status_line (code_ r2)) with (status_line 200).
    assert (length (status_line 200) = 17%nat) as Hl by reflexivity.
    rewrite length_app, Hl, !length_app. destruct (isKeepAlive_ r2); rewrite ?length_app; simpl; lia. }
  assert (Hw := writes_error r2 (lit "File NotFound!")).
  destruct (AddState_header r2 b Hwf) as (b2 & He & Hrun); [by left|lia|].
  pose proof He as (Hwf2 & Hc2 & Hv2).
  destruct (Hw b2 Hwf2) as (b' & Hb' & (Hwf' & Hc' & _)).
  { change (error_body r2 (lit "File NotFound!"))
      with (error_body (set_code 200 new_response) (lit "File NotFound!")).
    assert (Z.of_nat (length (content_length (Z.of_nat (length
              (error_body (set_code 200 new_response) (lit "File NotFound!")))) ++
              error_body (set_code 200 new_response) (lit "File NotFound!"))) <= 500);
      [vm_compute; discriminate|lia]. }
  exists r2, b'. rewrite (Hrun _ (fun r3 b2 => AddContent_ r3 b2 o)). unfold AddContent_.
  change (full_path r2) with (full_path r). change (st_size (mmFileStat_ r2)) with n.
  rewrite Hopen, Hmap. cbn [negb of_option]. rewrite bind_ok, Hff, bind_ok, Hb'.
  split; [done|]. split; [exact Hnone|].
  rewrite Hc', Hc2, <-app_assoc, drop_app_length. unfold head_text.
  change (status_line (code_ r2)) with (lit "HTTP/1.1 200 OK" ++ CRLF).
  rewrite <-!app_assoc. eexists. reflexivity.
Qed.

(** Whatever happens to the content, the code a response carries is the one
    [stat] of the requested path calls for. *)
Theorem response_code (r r' : HttpResponse) (b b' : Buffer) (o o' : os) :
  known_code (code_ r) \/ code_ r = -1 -> MakeResponse r b o = Ok (r', b', o') ->
  Code r' = chosen_code (fs_stat (full_path r)) (code_ r) /\ known_code (Code r').
Proof.
  intros Hk Hmake. unfold MakeResponse in Hmake. inv_bind Hmake. destruct a as [r3 b1].
  inv_bind Hmake. apply AddContent_code in Hmake.
  assert (Hc : code_ (ErrorHtml_ (choose_status r)) = chosen_code (fs_stat (full_path r)) (code_ r))
    by (by rewrite ErrorHtml_code, choose_status_code).
  assert (Hkn : known_code (code_ (ErrorHtml_ (choose_status r)))).
  { rewrite Hc. unfold chosen_code, known_code in *. destruct (fs_stat _) as [st|]; [|lia].
    destruct (st_isdir st), (st_roth st); cbn; try lia. destruct (Z.eqb_spec (code_ r) (-1)); lia. }
  destruct (writes_state _ Hkn) as [_ Heq]. apply Heq in Ha as ->.
  unfold Code. rewrite Hmake, Hc. by rewrite Hc in Hkn.
Qed.
End outcomes.

(** ** A site for the witnesses *)

Definition demo_files : gmap bytes bytes :=
  {[ lit "/w/index.html" := lit "hello"; lit "/w/404.html" := lit "nothing here";
     lit "/w/welcome.html" := lit "welcome"; lit "/w/error.html" := lit "wrong";
     lit "/w/empty.txt" := []; lit "/w/ff.bin" := replicate 5 (Ascii.ascii_of_nat 255) ]}.

#[export] Instance demo_fs : FileSystem := {
  fs_stat p := if bool_decide (p = lit "/w") then Some (mkStat true true 4096)
               else (fun d => mkStat false true (Z.of_nat (length d))) <$> demo_files !! p;
  fs_open p := bool_decide (is_Some (demo_files !! p));
  fs_mmap p n := if n =? 0 then None
                 else (fun d => d ++ replicate (4096 + Z.to_nat n) nul) <$> demo_files !! p
}.

#[export] Instance demo_fs_laws : FileSystemLaws demo_fs.
Proof.
  split; [done|]. intros p n m H. unfold fs_mmap, demo_fs in H. destruct (n =? 0); [done|].
  apply fmap_Some in H as (d & _ & ->). rewrite length_app, length_replicate. lia.
Qed.

Definition demo_response (p : string) : HttpResponse :=
  mkResponse 200 true (lit p) (lit "/w") None stat_zero.

Definition demo_out : Buffer := new_buffer 1024.

Lemma demo_out_wf : wf demo_out.
Proof. apply new_buffer_wf. unfold max_size. lia. Qed.

Definition demo_map (d : bytes) : bytes := d ++ replicate (4096 + length d) nul.

Theorem serve_file_witness :
  exists r' b', MakeResponse (demo_response "/index.html") demo_out (mkOs 0 0) = Ok (r', b', mkOs 0 1) /\
    emits demo_out (status_line 200 ++ header_lines true (lit "text/html") ++ content_length 5) b' /\
    File r' = Some (demo_map (lit "hello")) /\ FileLen r' = 5 /\ Code r' = 200.
Proof.
  apply (serve_file (demo_response "/index.html") demo_out (mkOs 0 0) 5 (demo_map (lit "hello"))).
  - by left.
  - vm_compute. reflexivity.
  - split_and!; vm_compute; reflexivity.
  - exact demo_out_wf.
  - vm_compute. discriminate.
Defined.

Theorem missing_file_404_witness :
  exists r' b', MakeResponse (demo_response "/none.html") demo_out (mkOs 0 0) = Ok (r', b', mkOs 0 1) /\
    emits demo_out (status_line 404 ++ header_lines true (lit "text/html") ++ content_length 12) b' /\
    File r' = Some (demo_map (lit "nothing here")) /\ FileLen r' = 12 /\ Code r' = 404.
Proof.
  apply (missing_file_404 (demo_response "/none.html") demo_out (mkOs 0 0) (mkStat false true 12)
           (demo_map (lit "nothing here"))).
  - vm_compute. exact I.
  - vm_compute. reflexivity.
  - split_and!; vm_compute; reflexivity.
  - exact demo_out_wf.
  - vm_compute. discriminate.
Defined.

Theorem empty_file_crashes_witness :
  MakeResponse (demo_response "/empty.txt") demo_out (mkOs 0 0) = Fault NullDeref.
Proof.
  apply (empty_file_crashes (demo_response "/empty.txt") demo_out (mkOs 0 0)).
  - by left.
  - vm_compute. reflexivity.
  - vm_compute. reflexivity.
  - exact demo_out_wf.
  - vm_compute. discriminate.
Defined.

Theorem ff_file_leaks_witness :
  exists r' b', MakeResponse (demo_response "/ff.bin") demo_out (mkOs 0 0) = Ok (r', b', mkOs 1 1) /\
    File r' = None /\
    (lit "HTTP/1.1 200 OK" ++ CRLF) `prefix_of` drop (length (contents demo_out)) (contents b').
Proof.
  apply (ff_file_leaks (demo_response "/ff.bin") demo_out (mkOs 0 0) 5
           (demo_map (replicate 5 (Ascii.ascii_of_nat 255)))).
  - by left.
  - reflexivity.
  - vm_compute. reflexivity.
  - vm_compute. reflexivity.
  - vm_compute. reflexivity.
  - vm_compute. reflexivity.
  - exact demo_out_wf.
  - vm_compute. discriminate.
Defined.

Theorem response_code_witness :
  exists r' b' o', MakeResponse (demo_response "/w") demo_out (mkOs 0 0) = Ok (r', b', o') /\
    Code r' = 404 /\ known_code (Code r').
Proof.
  destruct (MakeResponse (demo_response "/w") demo_out (mkOs 0 0)) as [[[r' b'] o']|f] eqn:Hm;
    [|vm_compute in Hm; discriminate].
  exists r', b', o'. split; [done|].
  exact (response_code (demo_response "/w") r' demo_out b' (mkOs 0 0) o' (or_introl (or_introl eq_refl)) Hm).
Defined.
