(* ===== verification/HttpContext.v ===== *)
(** * HttpContext: from received bytes to the response (src/http/httpcontext.h, .cc)

    A context belongs to one connection.  [read] moves what the connection
    received into the context's own buffer and [process] parses one request
    off it and writes one response.  The end-to-end theorems are here. *)

From stdpp Require Import base list numbers strings gmap.
From Stdlib Require Import ZArith Lia Ascii.
From S2P Require Import Prelude Buffer Regex SqlConnPool HttpRequest Forms Parsing Accounts HttpResponse.

Local Open Scope Z_scope.
Local Open Scope result_scope.

(** ** State and operations *)

Record HttpContext : Type := mkContext {
  readBuff_ : Buffer;
  writeBuff_ : Buffer;
  request_ : HttpRequest;
  response_ : HttpResponse
}.

Definition new_context : HttpContext :=
  mkContext (new_buffer initial_size_default) (new_buffer initial_size_default)
    HttpRequest.Init new_response.

Definition init (c : HttpContext) : HttpContext :=
  mkContext (retrieve_all (readBuff_ c)) (retrieve_all (writeBuff_ c)) (request_ c) (response_ c).

Definition write (c : HttpContext) : Buffer := writeBuff_ c.

Section context.
Context {DB : Type} `{!MySQL DB} {FS : FileSystem} (srcDir : bytes).

(** What a connection shares with the others. *)
Record world : Type := mkWorld { w_env : env DB; w_os : os }.

(** Copy the mapped file behind the head. *)
Definition append_file (r : HttpResponse) (b : Buffer) : result Buffer :=
  match File r with
  | Some m =>
      if 0 <? FileLen r then
        guard_ OutOfRange (FileLen r <=? Z.of_nat (length m)) ≫= fun _ =>
        append (take (Z.to_nat (FileLen r)) m) b
      else Ok b
  | None => Ok b
  end.

Definition process (c : HttpContext) (w : world) : result (bool * HttpContext * world) :=
  if read_able_bytes (readBuff_ c) <=? 0
  then Ok (false, mkContext (readBuff_ c) (writeBuff_ c) HttpRequest.Init (response_ c), w)
  else
    '(ok, req, rb, e1) ← parse (readBuff_ c) HttpRequest.Init (w_env w);
    '(res, o1) ← HttpResponse.Init srcDir (path req) ((ok : bool) && IsKeepAlive req)
                   (if ok : bool then 200 else 400) (response_ c) (w_os w);
    '(res1, wb, o2) ← MakeResponse res (writeBuff_ c) o1;
    wb1 ← append_file res1 wb;
    Ok (true, mkContext rb wb1 req res1, mkWorld e1 o2).

(** The length returned, the connection's buffer and the context after. *)
Definition read (buff : Buffer) (c : HttpContext) (w : world) :
    result (Z * Buffer * HttpContext * world) :=
  '(data, buff1) ← retrieve_all_string buff;
  rb ← append data (readBuff_ c);
  '(_, c1, w1) ← process (mkContext rb (writeBuff_ c) (request_ c) (response_ c)) w;
  Ok (s64 (read_able_bytes (readBuff_ c1)), buff1, c1, w1).
End context.
Arguments mkWorld {DB}. Arguments w_env {DB}. Arguments w_os {DB}.

(** ** End to end *)

Section theorems.
Context {DB : Type} `{!MySQL DB} {FS : FileSystem} (srcDir : bytes).
Implicit Types (c : HttpContext) (w : world (DB := DB)).

(** [Init] gives a mapping of the previous response back. *)
Definition unmapped (r : HttpResponse) (o : os) : os :=
  match mmFile_ r with Some _ => mkOs (fds o) (maps o - 1) | None => o end.

Lemma Init_response src p keep code r o :
  src <> [] ->
  HttpResponse.Init src p keep code r o =
    Ok (mkResponse code keep p src None stat_zero, unmapped r o).
Proof.
  intros Hsrc. unfold HttpResponse.Init. rewrite assert_true by (by rewrite bool_decide_false).
  unfold UnmapFile, unmapped. by destruct (mmFile_ r).
Qed.

Lemma append_file_emits r b m n :
  File r = Some m -> FileLen r = n -> 0 < n <= Z.of_nat (length m) -> wf b ->
  vsize b + n <= max_size ->
  exists b', append_file r b = Ok b' /\ emits b (take (Z.to_nat n) m) b'.
Proof.
  intros Hf Hl Hn Hwf Hroom. unfold append_file. rewrite Hf, Hl.
  rewrite (proj2 (Z.ltb_lt _ _)) by lia. unfold guard_. rewrite (proj2 (Z.leb_le _ _)) by lia.
  apply append_emits; [done|]. rewrite length_take. lia.
Qed.

(** The whole text of a 200 response to a request. *)
Definition answer_200 (req : HttpRequest) (n : Z) (m : bytes) : bytes :=
  let r := mkResponse 200 (IsKeepAlive req) (path req) srcDir None stat_zero in
  status_line 200 ++ header_lines (IsKeepAlive req) (GetFileType_ r) ++ content_length n ++
  take (Z.to_nat n) m.

Definition response_for (code : Z) (keep : bool) (p : bytes) : HttpResponse :=
  mkResponse code keep p srcDir None stat_zero.

(** [process] once the parser has answered and the response is mapped. *)
Lemma process_respond c w ok req rb e1 r2 m :
  srcDir <> [] -> 0 < read_able_bytes (readBuff_ c) ->
  parse (readBuff_ c) HttpRequest.Init (w_env w) = Ok (ok, req, rb, e1) ->
  r2 = ErrorHtml_ (choose_status (response_for (if ok : bool then 200 else 400)
         (ok && IsKeepAlive req) (path req))) ->
  known_code (code_ r2) -> mappable (full_path r2) (st_size (mmFileStat_ r2)) m ->
  let n := st_size (mmFileStat_ r2) in
  let text := head_text r2 ++ content_length n ++ take (Z.to_nat n) m in
  0 < n <= Z.of_nat (length m) -> wf (writeBuff_ c) ->
  vsize (writeBuff_ c) + Z.of_nat (length text) <= max_size ->
  let o := unmapped (response_ c) (w_os w) in
  exists wb, process srcDir c w =
      Ok (true, mkContext rb wb req (set_file (Some m) r2), mkWorld e1 (mkOs (fds o) (maps o + 1))) /\
    emits (writeBuff_ c) text wb.
Proof.
  intros Hsrc Hread Hparse Hr2 Hk Hm n text Hn Hwf Hroom o.
  assert (Htext : text = (head_text r2 ++ content_length n) ++ take (Z.to_nat n) m)
    by (unfold text; by rewrite app_assoc).
  rewrite Htext, length_app in Hroom.
  destruct (MakeResponse_mapped (response_for (if ok : bool then 200 else 400)
         (ok && IsKeepAlive req) (path req)) (writeBuff_ c) o m) as (b1 & Hmake & He);
    rewrite <-?Hr2; [done|done|done|fold n; lia|].
  rewrite <-Hr2 in Hmake, He. fold n in He. pose proof He as (Hwf1 & _ & Hv1).
  rewrite length_take in Hroom.
  destruct (append_file_emits (set_file (Some m) r2) b1 m n) as (b2 & Happ & He2); [done..|lia|].
  exists b2. rewrite Htext. split; [|by eapply emits_app].
  unfold process. rewrite (proj2 (Z.leb_gt _ _)) by done. rewrite Hparse, bind_ok.
  rewrite Init_response, bind_ok by done. fold o. unfold response_for in Hmake.
  rewrite Hmake, bind_ok, Happ. done.
Qed.

Lemma get_is_served_lemma (c : HttpContext) (w : world) (m p v : bytes) (hs : list (bytes * bytes))
    (n : Z) (file : bytes) :
  let req := request_of FINISH m p v hs in
  srcDir <> [] -> wf (readBuff_ c) -> contents (readBuff_ c) = print_request m p v hs [] ->
  word m -> word p -> word v -> Forall header_ok hs ->
  fs_stat (c_str (srcDir ++ path req)) = Some (mkStat false true n) ->
  mappable (c_str (srcDir ++ path req)) n file -> 0 < n <= Z.of_nat (length file) ->
  wf (writeBuff_ c) -> vsize (writeBuff_ c) + Z.of_nat (length (answer_200 req n file)) <= max_size ->
  let o := unmapped (response_ c) (w_os w) in
  exists c', process srcDir c w = Ok (true, c', mkWorld (w_env w) (mkOs (fds o) (maps o + 1))) /\
    contents (writeBuff_ c') = contents (writeBuff_ c) ++ answer_200 req n file /\
    contents (readBuff_ c') = [] /\ request_ c' = req /\
    wf (readBuff_ c') /\ wf (writeBuff_ c') /\ vsize (readBuff_ c') = vsize (readBuff_ c) /\
    vsize (writeBuff_ c') <= vsize (writeBuff_ c) + Z.of_nat (length (answer_200 req n file)).
Proof.
  intros req Hsrc Hwf Hc Hm Hp Hv Hhs Hst Hmap Hn Hwfw Hroom o.
  destruct (parse_head (readBuff_ c) (w_env w) m p v hs []) as (f & b1 & Hp1 & Hwf1 & Hc1 & _ & Hb1); [done..|].
  rewrite decide_True in Hp1 by done. fold req in Hp1. rewrite parse_loop_stop in Hp1 by auto.
  assert (Hread : 0 < read_able_bytes (readBuff_ c)).
  { rewrite read_able_contents, Hc by done. unfold print_request. rewrite !length_app. simpl. lia. }
  pose proof (choose_status_found (response_for 200 (IsKeepAlive req) (path req)) _ Hst eq_refl eq_refl)
    as Hchoose.
  destruct (process_respond c w true req b1 (w_env w)
              (set_stat (mkStat false true n) (response_for 200 (IsKeepAlive req) (path req))) file)
    as (wb & Hproc & (Hwfwb & Hcwb & Hvwb)); try done.
  - cbn [andb]. by rewrite Hchoose.
  - by left.
  - eexists. split; [exact Hproc|]. cbn. split_and!; try done. unfold vsize. by rewrite Hb1.
Qed.


(** A malformed first line: the request stays in the buffer, and the response
    is 404 with the error page, not 400, because the empty path names the
    source directory itself. *)
Theorem bad_request_answers_404 (c : HttpContext) (w : world) (l rest : bytes)
    (st : file_stat) (page : bytes) (dir : file_stat) :
  srcDir <> [] -> wf (readBuff_ c) -> contents (readBuff_ c) = l ++ CRLF ++ rest -> no_crlf l ->
  split_request_line l = None ->
  fs_stat (c_str srcDir) = Some dir -> st_isdir dir = true ->
  fs_stat (c_str (srcDir ++ lit "/404.html")) = Some st ->
  mappable (c_str (srcDir ++ lit "/404.html")) (st_size st) page ->
  0 < st_size st <= Z.of_nat (length page) ->
  let text := status_line 404 ++ header_lines false (lit "text/html") ++
              content_length (st_size st) ++ take (Z.to_nat (st_size st)) page in
  wf (writeBuff_ c) -> vsize (writeBuff_ c) + Z.of_nat (length text) <= max_size ->
  exists c' w', process srcDir c w = Ok (true, c', w') /\ readBuff_ c' = readBuff_ c /\
    contents (writeBuff_ c') = contents (writeBuff_ c) ++ text.
Proof.
  intros Hsrc Hwf Hc Hl Hbad Hdir Hisdir Hst Hmap Hn text Hwfw Hroom.
  assert (Hread : 0 < read_able_bytes (readBuff_ c)).
  { rewrite read_able_contents, Hc, !length_app by done. simpl. lia. }
  pose proof (parse_bad_line (readBuff_ c) (w_env w) l rest Hwf Hc Hl Hbad) as Hparse.
  destruct (process_respond c w false HttpRequest.Init (readBuff_ c) (w_env w)
              (mkResponse 404 false (lit "/404.html") srcDir None st) page)
    as (wb & Hproc & (_ & Hcwb & _)); try done.
  - cbn [andb]. unfold choose_status, stat. change (full_path _) with (c_str (srcDir ++ [])) at 1.
    rewrite app_nil_r, Hdir. cbn [negb orb set_stat mmFileStat_]. rewrite Hisdir.
    unfold ErrorHtml_. cbn [code_ set_code]. change (CODE_PATH !! 404) with (Some (lit "/404.html")).
    unfold stat. change (full_path _) with (c_str (srcDir ++ lit "/404.html")) at 1.
    by rewrite Hst.
  - right. right. by right.
  - do 2 eexists. split; [exact Hproc|]. split; [done|]. cbn [writeBuff_]. rewrite Hcwb.
    unfold head_text. by rewrite <-app_assoc.
Qed.
End theorems.

(** ** Witnesses *)

Definition demo_context (s : bytes) : HttpContext :=
  mkContext (filled s) demo_out HttpRequest.Init new_response.

Definition demo_world : world := mkWorld (demo_env []) (mkOs 0 0).

Definition index_text : bytes := print_request (lit "GET") (lit "/") (lit "1.1") [(lit "Host", lit "h")] [].


Theorem bad_request_answers_404_witness :
  exists c' w', process (lit "/w") (demo_context (lit "hello" ++ CRLF)) demo_world = Ok (true, c', w') /\
    readBuff_ c' = filled (lit "hello" ++ CRLF) /\
    contents (writeBuff_ c') = status_line 404 ++ header_lines false (lit "text/html") ++
      content_length 12 ++ lit "nothing here".
Proof.
  destruct (bad_request_answers_404 (lit "/w") (demo_context (lit "hello" ++ CRLF)) demo_world (lit "hello") []
              (mkStat false true 12) (demo_map (lit "nothing here")) (mkStat true true 4096))
    as (c' & w' & Hp & Hr & Hw);
    [discriminate|split; vm_compute; intuition discriminate|reflexivity|reflexivity|reflexivity|
     vm_compute; reflexivity|reflexivity|vm_compute; reflexivity|split_and!; vm_compute; reflexivity|
     split; vm_compute; [reflexivity|discriminate]|exact demo_out_wf|vm_compute; discriminate|].
  exists c', w'. split; [exact Hp|]. split; [exact Hr|]. rewrite Hw. vm_compute. reflexivity.
Defined.
