(* ===== verification/WebPage.v ===== *)
(** * WebPage: the page scripts (src/resources/js)

    [custom.js] and [magnific-popup-options.js] are the scripts the served
    pages load besides vendored libraries.  jQuery, its plugins and WOW are an
    interface, [JQuery]: what their calls do to the page is a parameter, and
    the few documented facts the scripts rely on are the laws [JQueryLaws].
    Numbers are IEEE 754 binary64.  A handler that throws keeps the effects it
    had before, so a handler returns the state it leaves and an outcome. *)

From stdpp Require Import base list strings gmap.
From Stdlib Require Import ZArith SpecFloat.
From S2P Require Import Prelude.

Local Open Scope Z_scope.
Local Open Scope string_scope.

(** ** Numbers *)

Abbreviation f64 := spec_float (only parsing).

Definition num (z : Z) : f64 := binary_normalize 53 1024 z 0 false.
Definition num_sub (x y : f64) : f64 := SFsub 53 1024 x y.
(** [x > y]; false when either is NaN. *)
Definition num_gt (x y : f64) : bool := SFltb y x.

(** ** jQuery *)

(** The options object of [magnificPopup]; [opener] takes the element the
    popup was opened from, and reads the page when it is called. *)
Record PopupOptions (W Q : Type) : Type := mkPopupOptions {
  type : string;
  removalDelay : Z;
  mainClass : string;
  gallery_enabled : bool;
  zoom_enabled : bool;
  zoom_duration : Z;
  zoom_easing : string;
  zoom_opener : W -> Q -> Q
}.
Arguments mkPopupOptions {W Q}.
Arguments type {W Q}. Arguments removalDelay {W Q}. Arguments mainClass {W Q}.
Arguments gallery_enabled {W Q}. Arguments zoom_enabled {W Q}. Arguments zoom_duration {W Q}.
Arguments zoom_easing {W Q}. Arguments zoom_opener {W Q}.

(** [W] is the page (document, plugin and animation state), [E] its elements.
    A jQuery object is the list of the elements it holds. *)
Class JQuery (W E : Type) := {
  jq_select : W -> string -> result (list E);       (* $(selector) *)
  jq_offset : W -> E -> option f64;                 (* .offset().top *)
  jq_attr : W -> E -> string -> option string;
  jq_is : W -> E -> string -> bool;
  jq_find : W -> E -> string -> list E;
  jq_has_class : W -> E -> string -> bool;
  jq_add_class : string -> list E -> W -> W;
  jq_remove_class : string -> list E -> W -> W;
  jq_fade_out : Z -> list E -> W -> W;
  jq_collapse : string -> list E -> W -> W;
  jq_stop : list E -> W -> W;
  jq_animate_scroll : f64 -> Z -> list E -> W -> W;
  jq_popup : PopupOptions W (list E) -> list E -> W -> W;
  wow_init : bool -> W -> W
}.

(** [addClass] and [removeClass] set and clear one class on the elements
    given; a class list is otherwise left alone. *)
Class JQueryLaws (W E : Type) `{EqDecision E} `{JQuery W E} : Prop := {
  has_class_add w c es e c' :
    jq_has_class (jq_add_class c es w) e c' =
      bool_decide (c' = c /\ e ∈ es) || jq_has_class w e c';
  has_class_remove w c es e c' :
    jq_has_class (jq_remove_class c es w) e c' =
      negb (bool_decide (c' = c /\ e ∈ es)) && jq_has_class w e c'
}.

(** ** Script steps *)

(** The page and the event being dispatched. *)
Record js_state (W : Type) : Type := mkJs { page : W; default_prevented : bool }.
Arguments mkJs {W}. Arguments page {W}. Arguments default_prevented {W}.

Definition js (W A : Type) : Type := js_state W -> js_state W * result A.

#[export] Instance js_ret {W} : MRet (js W) := fun A a s => (s, Ok a).
#[export] Instance js_bind {W} : MBind (js W) := fun A B k m s =>
  match m s with
  | (s', Ok a) => k a s'
  | (s', Fault f) => (s', Fault f)
  end.

Definition eval {W A} (g : W -> result A) : js W A := fun s => (s, g (page s)).
Definition effect {W} (g : W -> W) : js W unit :=
  fun s => (mkJs (g (page s)) (default_prevented s), Ok tt).
Definition preventDefault {W} : js W unit := fun s => (mkJs (page s) true, Ok tt).

Section steps.
Context {W A B : Type}.
Implicit Types (s : js_state W).

Lemma eval_ok (g : W -> result A) (k : A -> js W B) s a :
  g (page s) = Ok a -> (eval g ≫= k) s = k a s.
Proof. intros Hg. unfold mbind, js_bind, eval. by rewrite Hg. Qed.

Lemma eval_fault (g : W -> result A) (k : A -> js W B) s f :
  g (page s) = Fault f -> (eval g ≫= k) s = (s, Fault f).
Proof. intros Hg. unfold mbind, js_bind, eval. by rewrite Hg. Qed.

Lemma effect_bind (g : W -> W) (k : unit -> js W B) s :
  (effect g ≫= k) s = k tt (mkJs (g (page s)) (default_prevented s)).
Proof. reflexivity. Qed.
Lemma js_bind_ok (m : js W A) (k : A -> js W B) s s' a :
  m s = (s', Ok a) -> (m ≫= k) s = k a s'.
Proof. intros Hm. unfold mbind, js_bind. by rewrite Hm. Qed.

Lemma js_bind_assoc {C} (m : js W A) (k : A -> js W B) (h : B -> js W C) s :
  ((m ≫= k) ≫= h) s = (m ≫= fun a => k a ≫= h) s.
Proof. unfold mbind, js_bind. by destruct (m s) as [? []]. Qed.

Lemma js_bind_ret (m : js W unit) s : (m ≫= fun _ => mret tt) s = m s.
Proof. unfold mbind, js_bind, mret, js_ret. by destruct (m s) as [? [[]|]]. Qed.
End steps.

Lemma and_refl_l (P Q : Prop) : P -> P /\ Q <-> Q.
Proof. tauto. Qed.

Section custom.
Context {W E : Type} `{JQuery W E}.

(** [q.offset().top]: [offset] of an empty set is [undefined]. *)
Definition offset_top (q : list E) (w : W) : result f64 :=
  of_option TypeError (head q ≫= jq_offset w).

(** [$(q.attr('href'))]: [$(undefined)] is the empty set. *)
Definition select_href (anchor : E) (w : W) : result (list E) :=
  match jq_attr w anchor "href" with
  | Some href => jq_select w href
  | None => Ok []
  end.

(** PRE loader. *)
Definition on_load : js W unit :=
  q ← eval (fun w => jq_select w ".preloader");
  effect (jq_fade_out 1000 q).

(** Navigation section. *)
Definition on_nav_click (this : E) : js W unit :=
  q ← eval (fun w => jq_select w ".navbar-collapse");
  effect (jq_collapse "hide" q).

Definition on_scroll : js W unit :=
  nav ← eval (fun w => jq_select w ".navbar");
  top ← eval (offset_top nav);
  fixed ← eval (fun w => jq_select w ".navbar-fixed-top");
  if num_gt top (num 50)
  then effect (jq_add_class "top-nav-collapse" fixed)
  else effect (jq_remove_class "top-nav-collapse" fixed).

(** Smooth scrolling: the receiver is evaluated before the argument. *)
Definition on_anchor_click (this : E) : js W unit :=
  q ← eval (fun w => jq_select w "html, body");
  effect (jq_stop q) ≫= fun _ =>
  target ← eval (select_href this);
  top ← eval (offset_top target);
  effect (jq_animate_scroll (num_sub top (num 49)) 1000 q) ≫= fun _ =>
  preventDefault.

(** What the script binds, in order: event name, the elements, the handler. *)
Inductive binding : Type :=
  | BindWindow (event : string) (handler : js W unit)
  | BindEach (event : string) (targets : list E) (handler : E -> js W unit).

(** The top level of [custom.js]; the last binding is made by the ready
    callback, which runs once the document is complete. *)
Definition custom_bindings : js W (list binding) :=
  links ← eval (fun w => jq_select w ".navbar-collapse a");
  effect (wow_init false) ≫= fun _ =>
  mret [BindWindow "load" on_load;
        BindEach "click" links on_nav_click;
        BindWindow "scroll" on_scroll].

Definition custom_ready : js W (list binding) :=
  anchors ← eval (fun w => jq_select w ".custom-navbar a, #home a");
  mret [BindEach "click" anchors on_anchor_click].

(** The page after [custom.js] and its ready callback. *)
Definition custom_js : js W (list binding) :=
  bs ← custom_bindings; rs ← custom_ready; mret (bs ++ rs)%list.

(** A click on [e] runs the bindings of [e] in the order they were made; one
    that throws keeps the later ones from running. *)
Fixpoint click `{EqDecision E} (bs : list binding) (e : E) : js W unit :=
  match bs with
  | [] => mret tt
  | BindEach event targets h :: bs =>
      if bool_decide (event = "click" /\ e ∈ targets)
      then h e ≫= fun _ => click bs e else click bs e
  | BindWindow _ _ :: bs => click bs e
  end.

(** *** magnific-popup-options.js *)

Definition opener (w : W) (openerElement : list E) : list E :=
  if existsb (fun e => jq_is w e "img") openerElement then openerElement
  else openerElement ≫= fun e => jq_find w e "img".

Definition popup_options : PopupOptions W (list E) :=
  mkPopupOptions "image" 300 "mfp-with-zoom" true true 300 "ease-in-out" opener.

Definition magnifPopup : js W unit :=
  q ← eval (fun w => jq_select w ".image-popup");
  effect (jq_popup popup_options q).

(** The ready callback of the script. *)
Definition popup_ready : js W unit := magnifPopup.
End custom.
Arguments binding : clear implicits.

(** ** What the handlers do *)

Section handlers.
Context {W E : Type} `{EqDecision E} `{!JQuery W E} `{!JQueryLaws W E}.
Implicit Types (w : W) (s : js_state W).

Lemma custom_bindings_ok s links :
  jq_select (page s) ".navbar-collapse a" = Ok links ->
  custom_bindings s =
    (mkJs (wow_init false (page s)) (default_prevented s),
     Ok [BindWindow "load" on_load; BindEach "click" links on_nav_click;
         BindWindow "scroll" on_scroll]).
Proof. intros Hl. unfold custom_bindings. by rewrite (eval_ok _ _ _ _ Hl). Qed.

Lemma custom_ready_ok s anchors :
  jq_select (page s) ".custom-navbar a, #home a" = Ok anchors ->
  custom_ready s = (s, Ok [BindEach "click" anchors on_anchor_click]).
Proof. intros Ha. unfold custom_ready. by rewrite (eval_ok _ _ _ _ Ha). Qed.

(** A scroll event leaves the class [top-nav-collapse] on the fixed bar
    exactly when the first [.navbar] lies more than 50 pixels below the top of
    the document, and changes no other class and no other element; without a
    [.navbar] on the page it throws and changes nothing. *)
Theorem on_scroll_class (s : js_state W) (nav fixed : list E) :
  jq_select (page s) ".navbar" = Ok nav ->
  jq_select (page s) ".navbar-fixed-top" = Ok fixed ->
  match head nav ≫= jq_offset (page s) with
  | None => on_scroll s = (s, Fault TypeError)
  | Some top => exists w', on_scroll s = (mkJs w' (default_prevented s), Ok tt) /\
      forall e c, jq_has_class w' e c =
        if bool_decide (c = "top-nav-collapse" /\ e ∈ fixed) then num_gt top (num 50)
        else jq_has_class (page s) e c
  end.
Proof.
  intros Hnav Hfixed. unfold on_scroll. rewrite (eval_ok _ _ _ _ Hnav).
  destruct (head nav ≫= jq_offset (page s)) as [top|] eqn:Htop.
  - rewrite (eval_ok _ _ _ top) by (unfold offset_top; by rewrite Htop).
    rewrite (eval_ok _ _ _ _ Hfixed).
    destruct (num_gt top (num 50)); eexists; (split; [reflexivity|]); intros e c;
      rewrite ?has_class_add, ?has_class_remove; by case_bool_decide.
  - rewrite (eval_fault _ _ _ TypeError); [done|]. unfold offset_top. by rewrite Htop.
Qed.

(** A click on a link: whatever the scroll animations were, they stop first;
    if the link's [href] selects an element with a position, the page scrolls
    there less 49 pixels over one second and the link is not followed; in
    every other case, a path such as [/picture] that is no selector included,
    the handler throws and the browser follows the link. *)
Theorem on_anchor_click_outcome (s : js_state W) (this : E) (q : list E) :
  jq_select (page s) "html, body" = Ok q ->
  let stopped := jq_stop q (page s) in
  on_anchor_click this s =
    match select_href this stopped with
    | Fault f => (mkJs stopped (default_prevented s), Fault f)
    | Ok target =>
        match head target ≫= jq_offset stopped with
        | None => (mkJs stopped (default_prevented s), Fault TypeError)
        | Some top =>
            (mkJs (jq_animate_scroll (num_sub top (num 49)) 1000 q stopped) true, Ok tt)
        end
    end.
Proof.
  intros Hq stopped. unfold on_anchor_click. rewrite (eval_ok _ _ _ _ Hq), effect_bind.
  fold stopped. destruct (select_href this stopped) as [target|f] eqn:Ht.
  - rewrite (eval_ok _ _ _ target) by done.
    destruct (head target ≫= jq_offset stopped) as [top|] eqn:Htop.
    + rewrite (eval_ok _ _ _ top); [done|]. unfold offset_top. simpl. by rewrite Htop.
    + rewrite (eval_fault _ _ _ TypeError); [done|]. unfold offset_top. simpl. by rewrite Htop.
  - by rewrite (eval_fault _ _ _ f).
Qed.
(** A click runs the bindings the script has made, in their order. *)
Lemma custom_js_click (s0 s : js_state W) (links anchors menus : list E) (this : E) :
  jq_select (page s0) ".navbar-collapse a" = Ok links ->
  jq_select (wow_init false (page s0)) ".custom-navbar a, #home a" = Ok anchors ->
  jq_select (page s) ".navbar-collapse" = Ok menus ->
  let hidden := mkJs (if bool_decide (this ∈ links)
                      then jq_collapse "hide" menus (page s) else page s) (default_prevented s) in
  match custom_js s0 with
  | (_, Fault _) => False
  | (s1, Ok bs) => page s1 = wow_init false (page s0) /\
      click bs this s =
        if bool_decide (this ∈ anchors) then on_anchor_click this hidden else (hidden, Ok tt)
  end.
Proof.
  intros Hl Ha Hm hidden. unfold custom_js.
  rewrite (js_bind_ok _ _ _ _ _ (custom_bindings_ok s0 links Hl)).
  rewrite (js_bind_ok _ _ _ _ _ (custom_ready_ok (mkJs (wow_init false (page s0)) (default_prevented s0)) anchors Ha)).
  split; [done|]. cbn [app click]. unfold hidden.
  rewrite !(bool_decide_ext (_ = "click" /\ _ ∈ _) _ (and_refl_l _ _ eq_refl)).
  destruct (bool_decide (this ∈ links)).
  - unfold on_nav_click at 1. rewrite js_bind_assoc, (eval_ok _ _ _ _ Hm), effect_bind.
    destruct (bool_decide (this ∈ anchors)); [apply js_bind_ret|done].
  - destruct s. destruct (bool_decide (this ∈ anchors)); [apply js_bind_ret|done].
Qed.

(** C38: The script is loaded on one page and an element is clicked later, on
    a page that may have changed; the selectors written in the script are valid
    ones.  If the element was a menu link when the script ran, the menu is
    hidden first.  If it was a link of the bar or of the home section when the
    document became ready, running animations of [html, body] stop, and then
    there are two cases.  When its [href] selects something with a position on
    the stopped page, that set is scrolled to the position less 49 pixels over
    1000 ms and the browser does not follow the link.  Otherwise the handler
    throws, [SyntaxError] or what the selector throws for an [href] such as
    [/picture], [TypeError] for one that selects nothing with a position: no
    scrolling starts and the link is followed.  On any other element the click
    does nothing more. *)
Theorem click_after_load (s0 s : js_state W) (links anchors menus q : list E) (this : E) :
  jq_select (page s0) ".navbar-collapse a" = Ok links ->
  jq_select (wow_init false (page s0)) ".custom-navbar a, #home a" = Ok anchors ->
  jq_select (page s) ".navbar-collapse" = Ok menus ->
  let hidden := if bool_decide (this ∈ links)
                then jq_collapse "hide" menus (page s) else page s in
  jq_select hidden "html, body" = Ok q ->
  let stopped := jq_stop q hidden in
  let href := match jq_attr stopped this "href" with
              | Some sel => jq_select stopped sel
              | None => Ok []
              end in
  match custom_js s0 with
  | (_, Fault _) => False
  | (s1, Ok bs) => page s1 = wow_init false (page s0) /\
      click bs this s =
        if bool_decide (this ∈ anchors) then
          match href with
          | Fault f => (mkJs stopped (default_prevented s), Fault f)
          | Ok target =>
              match head target ≫= jq_offset stopped with
              | None => (mkJs stopped (default_prevented s), Fault TypeError)
              | Some top =>
                  (mkJs (jq_animate_scroll (num_sub top (num 49)) 1000 q stopped) true, Ok tt)
              end
          end
        else (mkJs hidden (default_prevented s), Ok tt)
  end.
Proof.
  intros Hl Ha Hm hidden Hq stopped href.
  pose proof (custom_js_click s0 s links anchors menus this Hl Ha Hm) as Hc.
  destruct (custom_js s0) as [s1 [bs|]]; [|done]. destruct Hc as [Hw Hc]. split; [done|].
  rewrite Hc. destruct (bool_decide (this ∈ anchors)); [|done].
  apply (on_anchor_click_outcome (mkJs hidden (default_prevented s)) this q Hq).
Qed.
End handlers.

(** ** A page for the witnesses *)

(** Element 0 is the bar, 1 a menu link to [/picture], 2 a menu link to
    [#top], 3 the document element. *)
Record demo_page : Type := mkDemo {
  nav_top : Z;
  classes : list (nat * string);
  actions : list string
}.

Definition demo_act (a : string) (w : demo_page) : demo_page :=
  mkDemo (nav_top w) (classes w) (actions w ++ [a]).
Definition demo_classes (cs : list (nat * string)) (w : demo_page) : demo_page :=
  mkDemo (nav_top w) cs (actions w).

Definition demo_select (w : demo_page) (sel : string) : result (list nat) :=
  if String.eqb sel ".navbar" || String.eqb sel ".navbar-fixed-top" then Ok [0%nat]
  else if String.eqb sel ".navbar-collapse a" || String.eqb sel ".custom-navbar a, #home a"
  then Ok [1%nat; 2%nat]
  else if String.eqb sel "html, body" || String.eqb sel "#top" then Ok [3%nat]
  else if String.eqb sel "/picture" then Fault SyntaxError
  else Ok [].

#[export] Instance demo_jquery : JQuery demo_page nat := {
  jq_select := demo_select;
  jq_offset w e := Some (num (if decide (e = 0%nat) then nav_top w else 300));
  jq_attr w e a := if decide (e = 1%nat) then Some "/picture"
                   else if decide (e = 2%nat) then Some "#top" else None;
  jq_is w e sel := false;
  jq_find w e sel := [];
  jq_has_class w e c := bool_decide ((e, c) ∈ classes w);
  jq_add_class c es w := demo_classes (((fun e => (e, c)) <$> es) ++ classes w) w;
  jq_remove_class c es w :=
    demo_classes (filter (fun p => ~ (p.2 = c /\ p.1 ∈ es)) (classes w)) w;
  jq_fade_out ms es w := demo_act "fadeOut" w;
  jq_collapse how es w := demo_act how w;
  jq_stop es w := demo_act "stop" w;
  jq_animate_scroll top ms es w := demo_act "animate" w;
  jq_popup o es w := demo_act (type o) w;
  wow_init mobile w := demo_act "wow" w
}.

#[export] Instance demo_laws : JQueryLaws demo_page nat.
Proof.
  split; intros w c es e c'; simpl.
  - rewrite <-bool_decide_or. apply bool_decide_ext.
    rewrite elem_of_app, list_elem_of_fmap. naive_solver.
  - rewrite <-bool_decide_not, <-bool_decide_and. apply bool_decide_ext.
    rewrite list_elem_of_filter. done.
Qed.

Definition demo_state (top : Z) : js_state demo_page := mkJs (mkDemo top [] []) false.

Theorem on_scroll_class_witness :
  exists w', on_scroll (demo_state 51) = (mkJs w' false, Ok tt) /\
    forall e c, jq_has_class w' e c =
      if bool_decide (c = "top-nav-collapse" /\ e ∈ [0%nat]) then true else false.
Proof.
  exact (on_scroll_class (demo_state 51) [0%nat] [0%nat] eq_refl eq_refl).
Defined.

Theorem on_anchor_click_outcome_witness :
  on_anchor_click 1%nat (demo_state 0) = (mkJs (mkDemo 0 [] ["stop"]) false, Fault SyntaxError).
Proof. exact (on_anchor_click_outcome (demo_state 0) 1%nat [3%nat] eq_refl). Defined.

(** The link [#top] scrolls; [/picture] throws with the menu hidden. *)
Theorem click_after_load_witness :
  page (custom_js (demo_state 0)).1 = mkDemo 0 [] ["wow"] /\
  match custom_js (demo_state 0) with
  | (_, Ok bs) =>
      click bs 2%nat (demo_state 0) =
        (mkJs (mkDemo 0 [] ["hide"; "stop"; "animate"]) true, Ok tt) /\
      click bs 1%nat (demo_state 0) =
        (mkJs (mkDemo 0 [] ["hide"; "stop"]) false, Fault SyntaxError)
  | (_, Fault _) => False
  end.
Proof.
  pose proof (click_after_load (demo_state 0) (demo_state 0) [1%nat; 2%nat] [1%nat; 2%nat] []
                [3%nat] 2%nat eq_refl eq_refl eq_refl eq_refl) as [Hp Hc].
  pose proof (click_after_load (demo_state 0) (demo_state 0) [1%nat; 2%nat] [1%nat; 2%nat] []
                [3%nat] 1%nat eq_refl eq_refl eq_refl eq_refl) as [_ Hd].
  split; [exact Hp|]. split; [exact Hc|exact Hd].
Defined.
