(* ===== verification/SmoothScroll.v ===== *)
(** * SmoothScroll: the scrolling plugins (src/resources/js/smoothscroll.js)

    The script has two jQuery plugins, [scrollTo] and [localScroll], and binds
    the second to the links of class [smoothScroll].  The document is an
    interface, [ScrollDom], beside the [JQuery] of WebPage: it gives the
    properties of elements and what jQuery's calls do.  Objects the script
    makes and hands to jQuery live in a store, since the script goes on
    changing them.  Settings have the types their documentation gives them. *)

From stdpp Require Import base list strings gmap.
From Stdlib Require Import ZArith Lia SpecFloat Ascii.
From S2P Require Import Prelude Regex WebPage.

Local Open Scope string_scope.
Local Open Scope Z_scope.

(** ** Numbers and strings of the language *)

Definition num_zero : f64 := S754_zero false.
Definition num_add (x y : f64) : f64 := SFadd 53 1024 x y.
Definition num_mul (x y : f64) : f64 := SFmul 53 1024 x y.
Definition num_div (x y : f64) : f64 := SFdiv 53 1024 x y.
Definition num_le (x y : f64) : bool := SFleb x y.

Definition is_nan (x : f64) : bool := match x with S754_nan => true | _ => false end.

(** A number as a condition. *)
Definition truthy (x : f64) : bool :=
  match x with S754_nan | S754_zero _ => false | _ => true end.

(** [Math.min] and [Math.max]; [-0] is less than [0]. *)
Definition math_min (x y : f64) : f64 :=
  if is_nan x || is_nan y then S754_nan
  else match x, y with
       | S754_zero s, S754_zero t => S754_zero (s || t)
       | _, _ => if SFltb y x then y else x
       end.
Definition math_max (x y : f64) : f64 :=
  if is_nan x || is_nan y then S754_nan
  else match x, y with
       | S754_zero s, S754_zero t => S754_zero (s && t)
       | _, _ => if SFltb x y then y else x
       end.

(** The finite number is an integer. *)
Definition is_integer (m : positive) (e : Z) : bool := (0 <=? e) || (Z.pos m mod 2 ^ (- e) =? 0).

(** [String(x)] is written with digits only; from 1e21 on it has an exponent. *)
Definition num_digits (x : f64) : bool :=
  match x with
  | S754_zero _ => true
  | S754_finite false m e => is_integer m e && SFltb x (num (10 ^ 21))
  | _ => false
  end.

(** [String(x)] is written with digits and perhaps a fraction; below 1e-6 it
    has an exponent. *)
Definition num_plain (x : f64) : bool :=
  match x with
  | S754_zero _ => true
  | S754_finite false _ _ =>
      SFleb (S754_finite false 4722366482869645 (-72)) x && SFltb x (num (10 ^ 21))
  | _ => false
  end.

Definition is_digit (c : ascii) : bool := (48 <=? N_of_ascii c)%N && (N_of_ascii c <=? 57)%N.
Definition digit_value (c : ascii) : Z := Z.of_N (N_of_ascii c) - 48.

Definition digits_value (ds : bytes) : Z := foldl (fun z c => 10 * z + digit_value c) 0 ds.

(** The number nearest to [m * 10 ^ k]. *)
Definition decimal (m k : Z) : f64 :=
  match m with
  | Z.pos p =>
      if 0 <=? k then num (m * 10 ^ k)
      else SFdiv 53 1024 (S754_finite false p 0) (S754_finite false (Z.to_pos (10 ^ (- k))) 0)
  | _ => num_zero
  end.

(** The exponent of a literal, and what follows it. *)
Definition parse_exponent (s : bytes) : Z * bytes :=
  match s with
  | c :: s1 =>
      if is_char "e" c || is_char "E" c then
        let '(neg, s2) :=
          match s1 with
          | d :: s2 => if is_char "-" d then (true, s2) else if is_char "+" d then (false, s2) else (false, s1)
          | [] => (false, s1)
          end in
        match span is_digit s2 with
        | ([], _) => (0, s)
        | (ds, rest) => (if neg then - digits_value ds else digits_value ds, rest)
        end
      else (0, s)
  | [] => (0, s)
  end.

(** An unsigned decimal literal at the front, and what follows it. *)
Definition parse_decimal (s : bytes) : option (f64 * bytes) :=
  let '(ds, s1) := span is_digit s in
  let '(fs, s2) :=
    match s1 with
    | c :: s' => if is_char "." c then let '(fs, s2) := span is_digit s' in (fs, s2) else ([], s1)
    | [] => ([], s1)
    end in
  match (ds ++ fs)%list with
  | [] => None
  | all => let '(k, rest) := parse_exponent s2 in
           Some (decimal (digits_value all) (k - Z.of_nat (length fs)), rest)
  end.

Definition parse_signed (s : bytes) : option (f64 * bytes) :=
  match s with
  | c :: s' =>
      if is_char "-" c then (fun p => (SFopp p.1, p.2)) <$> parse_decimal s'
      else if is_char "+" c then parse_decimal s' else parse_decimal s
  | [] => None
  end.

(** [parseFloat], and [Number(s)] for decimal literals. *)
Definition parseFloat (s : string) : f64 :=
  match parse_signed (lit s) with Some (x, _) => x | None => S754_nan end.
Definition to_number (s : string) : f64 :=
  match s with
  | EmptyString => num_zero
  | _ => match parse_signed (lit s) with Some (x, []) => x | _ => S754_nan end
  end.

(** [parseInt] of a decimal. *)
Definition parseInt (s : string) : f64 :=
  let '(neg, s1) :=
    match lit s with
    | c :: s' => if is_char "-" c then (true, s') else (false, lit s)
    | [] => (false, [])
    end in
  match span is_digit s1 with
  | ([], _) => S754_nan
  | (ds, _) => let x := num (digits_value ds) in if neg : bool then SFopp x else x
  end.

Definition lower_char (c : ascii) : ascii :=
  if (65 <=? N_of_ascii c)%N && (N_of_ascii c <=? 90)%N then ascii_of_N (N_of_ascii c + 32) else c.
Definition toLowerCase (s : bytes) : bytes := lower_char <$> s.

Fixpoint contains (sub s : bytes) : bool :=
  if decide (sub `prefix_of` s) then true
  else match s with _ :: s' => contains sub s' | [] => false end.

(** [s.replace(sub, '')]: the first occurrence goes. *)
Fixpoint cut (sub s : bytes) : bytes :=
  if decide (sub `prefix_of` s) then drop (length sub) s
  else match s with c :: s' => c :: cut sub s' | [] => [] end.

(** [s.replace(/#.*/, '')] of a URL. *)
Definition before_hash (s : bytes) : bytes := (span (not_char "#") s).1.

(** [/^([+-]=)?\d+(\.\d+)?(px|%)?$/]: a position and its unit. *)
Definition position_pattern (unit : regex) : regex :=
  RCat (ROpt (RCat (RClass (fun c => is_char "+" c || is_char "-" c)) (RClass (is_char "="))))
  (RCat (RClass is_digit) (RCat (RStar is_digit)
  (RCat (ROpt (RCat (RClass (is_char ".")) (RCat (RClass is_digit) (RStar is_digit)))) (ROpt unit)))).

Definition is_position (s : string) : bool :=
  bool_decide (is_Some (regex_match (position_pattern (RLit (lit "p") (RClass (is_char "x")))) (lit s))) ||
  bool_decide (is_Some (regex_match (position_pattern (RClass (is_char "%"))) (lit s))).

(** ** Arguments and settings *)

(** What an axis is scrolled to: a number, a string such as [50%] or [+=20px],
    an object of another kind, or nothing. *)
Inductive coord : Type :=
  | CNum (x : f64)
  | CStr (s : string)
  | COther
  | CUndef.

(** The target given to [scrollTo]. *)
Inductive scroll_arg (E : Type) : Type :=
  | TNull                            (* [null] or [undefined] *)
  | TNum (x : f64)
  | TStr (s : string)
  | TPos (left top : coord)          (* a plain object *)
  | TElem (e : E)                    (* a DOM object *)
  | TQuery (q : list E).             (* a jQuery object *)
Arguments TNull {E}. Arguments TNum {E}. Arguments TStr {E}. Arguments TPos {E}.
Arguments TElem {E}. Arguments TQuery {E}.

(** A number for both axes, or one for each. *)
Inductive both_arg : Type :=
  | BothNum (x : f64)
  | BothObj (left top : option f64).

(** The settings of the two plugins; a field that is [None] was not given.
    Callbacks are known by numbers. *)
Record options (E : Type) : Type := mkOptions {
  axis : option string;
  duration : option f64;
  limit : option bool;
  queue : option bool;
  margin : option bool;
  offset : option both_arg;
  over : option both_arg;
  easing : option string;
  onAfterFirst : option nat;
  onAfter : option nat;
  event : option string;
  stop : option bool;
  target : option E;
  reset : option bool;
  hash : option bool;
  lock : option bool;
  lazy : option bool;
  filter : option string;
  onBefore : option nat
}.
Arguments mkOptions {E}. Arguments axis {E}. Arguments duration {E}. Arguments limit {E}.
Arguments queue {E}. Arguments margin {E}. Arguments offset {E}. Arguments over {E}. Arguments easing {E}.
Arguments onAfterFirst {E}. Arguments onAfter {E}. Arguments event {E}. Arguments stop {E}.
Arguments target {E}. Arguments reset {E}. Arguments hash {E}. Arguments lock {E}. Arguments lazy {E}.
Arguments filter {E}. Arguments onBefore {E}.

Definition no_options {E} : options E :=
  mkOptions None None None None None None None None None None None None None None None None None None None.

(** [$.extend({}, a, b)]: the fields [b] defines, else those of [a]. *)
Definition either {A} (b a : option A) : option A := match b with Some _ => b | None => a end.

Definition extend {E} (a b : options E) : options E :=
  mkOptions (either (axis b) (axis a)) (either (duration b) (duration a)) (either (limit b) (limit a))
    (either (queue b) (queue a)) (either (margin b) (margin a)) (either (offset b) (offset a))
    (either (over b) (over a)) (either (easing b) (easing a)) (either (onAfterFirst b) (onAfterFirst a))
    (either (onAfter b) (onAfter a)) (either (event b) (event a)) (either (stop b) (stop a))
    (either (target b) (target a)) (either (reset b) (reset a)) (either (hash b) (hash a))
    (either (lock b) (lock a)) (either (lazy b) (lazy a)) (either (filter b) (filter a))
    (either (onBefore b) (onBefore a)).

Definition set_duration {E} (d : option f64) (o : options E) : options E :=
  mkOptions (axis o) d (limit o) (queue o) (margin o) (offset o) (over o) (easing o) (onAfterFirst o)
    (onAfter o) (event o) (stop o) (target o) (reset o) (hash o) (lock o) (lazy o) (filter o) (onBefore o).
Definition set_hash {E} (h : bool) (o : options E) : options E :=
  mkOptions (axis o) (duration o) (limit o) (queue o) (margin o) (offset o) (over o) (easing o)
    (onAfterFirst o) (onAfter o) (event o) (stop o) (target o) (reset o) (Some h) (lock o) (lazy o)
    (filter o) (onBefore o).
Definition only_onAfter {E} (k : nat) : options E :=
  mkOptions None None None None None None None None None (Some k) None None None None None None None None None.
Definition only_filter {E} (f : string) : options E :=
  mkOptions None None None None None None None None None None None None None None None None None (Some f) None.

(** An option as a condition. *)
Definition is_set (o : option bool) : bool := default false o.

(** The second argument of [scrollTo], and the third. *)
Inductive second_arg (E : Type) : Type :=
  | ArgNum (x : f64) | ArgSettings (o : options E) | ArgNone.
Arguments ArgNum {E}. Arguments ArgSettings {E}. Arguments ArgNone {E}.
Inductive third_arg (E : Type) : Type :=
  | SettingsFun (k : nat) | Settings (o : options E) | SettingsNone.
Arguments SettingsFun {E}. Arguments Settings {E}. Arguments SettingsNone {E}.

(** ** The document *)

(** [W] is the page and [E] its objects, the window and the documents
    included.  A property an object does not have is [None], or NaN for the
    numbers.  [jq_animate_to] is given a reference to the object of positions,
    not its value. *)
Class ScrollDom (W E : Type) := {
  the_window : E;
  jquery_version : string;                              (* $.fn.jquery *)
  user_agent : W -> string;
  node_name : W -> E -> option string;
  content_window : W -> E -> option E;
  window_document : W -> E -> option E;
  owner_document : W -> E -> option E;
  parent_node : W -> E -> option E;
  compat_mode : W -> E -> string;
  body_of : W -> E -> option E;
  root_of : W -> E -> option E;                         (* documentElement *)
  has_style : W -> E -> bool;                           (* e.is || e.style *)
  num_prop : W -> E -> string -> f64;                   (* scrollTop, clientHeight, ... *)
  coord_prop : W -> E -> string -> coord;               (* .left and .top of an object *)
  href : W -> E -> string;                              (* '' where there is none *)
  link_hash : W -> E -> string;
  elem_id : W -> E -> string;
  get_by_id : W -> string -> option E;
  get_by_name : W -> string -> list E;
  location_href : W -> string;
  jq_query : W -> scroll_arg E -> E -> result (list E); (* $(target, context) *)
  jq_position : W -> list E -> option (f64 * f64);      (* .offset(): left, top *)
  jq_css : W -> list E -> string -> string;
  jq_size : W -> list E -> string -> f64;               (* .width(), .height() *)
  jq_scroll : W -> list E -> string -> f64;             (* .scrollLeft(), .scrollTop() *)
  jq_stop_queue : list E -> W -> W;                     (* .stop(true) *)
  jq_animate_to : nat -> option f64 -> option string -> option (nat * scroll_arg E * options E) ->
                  list E -> W -> W;
  jq_trigger : string -> list E -> list E -> W -> W;
  call_before : nat -> E -> list E -> W -> W * bool;    (* onBefore; did it return false? *)
  make_anchor : string -> string -> f64 -> f64 -> W -> E * W;
  set_prop : E -> string -> string -> W -> W;
  prepend_to_body : E -> W -> W;
  set_location : string -> W -> W;
  remove_elem : E -> W -> W
}.

(** The page, and the objects of positions the script has made. *)
Record scroll_page (W : Type) : Type := mkPage { dom : W; objects : list (gmap string coord) }.
Arguments mkPage {W}. Arguments dom {W}. Arguments objects {W}.

Definition look {W A} (g : W -> A) : js (scroll_page W) A := eval (fun p => Ok (g (dom p))).
Definition act {W} (g : W -> W) : js (scroll_page W) unit :=
  effect (fun p => mkPage (g (dom p)) (objects p)).

Definition new_object {W} : js (scroll_page W) nat :=
  r ← eval (fun p => Ok (length (objects p)));
  effect (fun p => mkPage (dom p) (objects p ++ [∅])%list) ≫= fun _ => mret r.
Definition change_object {W} (r : nat) (g : gmap string coord -> gmap string coord) :
    js (scroll_page W) unit :=
  effect (fun p => mkPage (dom p) (alter g r (objects p))).

(** [$.each] over a list. *)
Fixpoint each {W A} (f : A -> js W unit) (l : list A) : js W unit :=
  match l with
  | [] => mret tt
  | a :: l => f a ≫= fun _ => each f l
  end.

(** ** jQuery.ScrollTo *)

Section scrollTo.
Context {W E : Type} `{!JQuery W E} `{!ScrollDom W E}.
Implicit Types (w : W) (d : E) (g : options E).

(** [h.defaults]. *)
Definition scroll_defaults : options E :=
  mkOptions (Some "xy") (Some (if num_le (decimal 13 (-1)) (parseFloat jquery_version) then num 0 else num 1))
    (Some true) None None None None None None None None None None None None None None None None.

Definition is_html_body w d : bool := jq_is w d "html,body".

(** [_scrollable]: what scrolls when the window, a document, a frame, [html] or
    [body] is meant. *)
Definition is_window w (a : E) : bool :=
  match node_name w a with
  | None | Some EmptyString => true
  | Some n => bool_decide (toLowerCase (lit n) ∈ (lit <$> ["iframe"; "#document"; "html"; "body"]))
  end.

Definition scrollable_of w (a : E) : option E :=
  if is_window w a then
    let b := default (default a (owner_document w a)) (window_document w (default a (content_window w a))) in
    if contains (lit "webkit") (toLowerCase (lit (user_agent w))) || String.eqb (compat_mode w b) "BackCompat"
    then body_of w b else root_of w b
  else Some a.

Definition _scrollable w (q : list E) : list E := omap (scrollable_of w) q.

(** [h.window]. *)
Definition scroll_window w : list E := _scrollable w [the_window].

Definition side (a : ascii) : string := if is_char "x" a then "Left" else "Top".
Definition scroll_key (a : ascii) : string := "scroll" ++ side a.

(** [h.max]: how far the element scrolls. *)
Definition scroll_max w d (a : ascii) : result f64 :=
  let c := if is_char "x" a then "Width" else "Height" in
  if negb (is_html_body w d)
  then Ok (num_sub (num_prop w d ("scroll" ++ c)) (jq_size w [d] (if is_char "x" a then "width" else "height")))
  else
    doc ← of_option TypeError (owner_document w d);
    html ← of_option TypeError (root_of w doc);
    body ← of_option TypeError (body_of w doc);
    Ok (num_sub (math_max (num_prop w html ("scroll" ++ c)) (num_prop w body ("scroll" ++ c)))
                (math_min (num_prop w html ("client" ++ c)) (num_prop w body ("client" ++ c)))).

(** [both(o)[pos]]. *)
Definition both (o : option both_arg) (a : ascii) : option f64 :=
  match o with
  | None => None
  | Some (BothNum x) => Some x
  | Some (BothObj l t) => if is_char "x" a then l else t
  end.

(** What the target stands for: coordinates, elements with their offset, or an
    object that is neither. *)
Inductive resolved : Type :=
  | AtPos (left top : coord)
  | AtQuery (q : list E) (toff : option (f64 * f64))
  | AtBare (e : E).

Definition at_query w (q : list E) : resolved := AtQuery q (jq_position w q).

(** The [switch]; [None] is its [return]. *)
Definition resolve w (e : scroll_arg E) d : result (option resolved) :=
  let search := q ← jq_query w e d; Ok (match q with [] => None | _ => Some (at_query w q) end) in
  match e with
  | TNull => Ok None
  | TNum x => if num_plain x then Ok (Some (AtPos (CNum x) (CNum x))) else search
  | TStr s => if is_position s then Ok (Some (AtPos (CStr s) (CStr s))) else search
  | TPos l t => Ok (Some (AtPos l t))
  | TElem e => Ok (Some (if has_style w e then at_query w [e] else AtBare e))
  | TQuery q => Ok (Some (at_query w q))
  end.

Definition pick {A} (p : A * A) (a : ascii) : A := if is_char "x" a then p.1 else p.2.

(** [x || 0]. *)
Definition or_zero (x : f64) : f64 := if truthy x then x else num_zero.

(** The position of an element, seen from what scrolls. *)
Definition element_coord w g d (q : list E) (toff : f64 * f64) (a : ascii) : result f64 :=
  base ← (if is_html_body w d then Ok num_zero
          else off ← of_option TypeError (jq_position w [d]);
               Ok (num_sub (num_prop w d (scroll_key a)) (pick off a)));
  let x := num_add (pick toff a) base in
  let x := if is_set (margin g) then
             num_sub (num_sub x (or_zero (parseInt (jq_css w q ("margin" ++ side a)))))
                     (or_zero (parseInt (jq_css w q ("border" ++ side a ++ "Width"))))
           else x in
  let x := num_add x (or_zero (default num_zero (both (offset g) a))) in
  Ok (match both (over g) a with
      | Some k => if truthy k then num_add x (num_mul (jq_size w q (if is_char "x" a then "width" else "height")) k) else x
      | None => x
      end).

Definition ends_percent (s : string) : bool := bool_decide (last (lit s) = Some "%"%char).

(** The value for one axis before it is limited. *)
Definition axis_coord w g d (t : resolved) (max : f64) (a : ascii) : result coord :=
  let plain c :=
    match c with
    | CUndef => Fault TypeError
    | CStr s => Ok (if ends_percent s then CNum (num_mul (num_div (parseFloat s) (num 100)) max) else CStr s)
    | _ => Ok c
    end in
  match t with
  | AtQuery q (Some toff) => x ← element_coord w g d q toff a; Ok (CNum x)
  | AtQuery _ None => plain CUndef
  | AtPos l t => plain (pick (l, t) a)
  | AtBare e => plain (coord_prop w e (if is_char "x" a then "left" else "top"))
  end.

(** [/^\d+$/]. *)
Definition coord_digits (c : coord) : bool :=
  match c with
  | CNum x => num_digits x
  | CStr s => negb (String.eqb s "") && forallb is_digit (lit s)
  | _ => false
  end.
Definition coord_num (c : coord) : f64 :=
  match c with CNum x => x | CStr s => to_number s | _ => S754_nan end.

Definition limited g (max : f64) (c : coord) : coord :=
  if is_set (limit g) && coord_digits c
  then CNum (if num_le (coord_num c) num_zero then num_zero else math_min (coord_num c) max)
  else c.

(** [old != attr[key]]. *)
Definition differs (old : f64) (c : coord) : bool := negb (SFeqb old (coord_num c)).

Definition animate (r : nat) (f : option f64) (e : scroll_arg E) g d (after : option nat) : js (scroll_page W) unit :=
  act (jq_animate_to r f (easing g) ((fun k => (k, e, g)) <$> after) [d]).

(** One axis; [i] counts them. *)
Definition scroll_axis (r : nat) (f : option f64) (e : scroll_arg E) g d (t : resolved) (ia : nat * ascii) :
    js (scroll_page W) unit :=
  let '(i, a) := ia in
  let key := scroll_key a in
  old ← look (fun w => num_prop w d key);
  max ← eval (fun p => scroll_max (dom p) d a);
  c ← eval (fun p => axis_coord (dom p) g d t max a);
  let c' := limited g max c in
  change_object r (<[key := c']>) ≫= fun _ =>
  if bool_decide (i = 0%nat) && is_set (queue g) then
    (if differs old c' then animate r f e g d (onAfterFirst g) else mret tt) ≫= fun _ =>
    change_object r (delete key)
  else mret tt.

Definition scroll_one (e : scroll_arg E) (f : option f64) g (axes : string) d : js (scroll_page W) unit :=
  match e with
  | TNull => mret tt
  | _ =>
      t ← eval (fun p => resolve (dom p) e d);
      match t with
      | None => mret tt
      | Some t =>
          r ← new_object;
          each (scroll_axis r f e g d t) (imap pair (lit axes)) ≫= fun _ =>
          animate r f e g d (onAfter g)
      end
  end.

(** The settings of a call, and its duration. *)
Definition settings_of (f : second_arg E) (g : third_arg E) : options E * option f64 :=
  match f, g with
  | ArgSettings o, _ => (o, Some num_zero)
  | ArgNum x, Settings o => (o, Some x)
  | ArgNum x, SettingsFun k => (only_onAfter k, Some x)
  | ArgNum x, SettingsNone => (no_options, Some x)
  | ArgNone, Settings o => (o, None)
  | ArgNone, SettingsFun k => (only_onAfter k, None)
  | ArgNone, SettingsNone => (no_options, None)
  end.

Definition scrollTo (q : list E) (e : scroll_arg E) (f : second_arg E) (g : third_arg E) :
    js (scroll_page W) unit :=
  let '(g0, f0) := settings_of f g in
  let e := match e with TStr s => if String.eqb s "max" then TNum (num 9000000000) else e | _ => e end in
  let g1 := extend scroll_defaults g0 in
  let f1 := match f0 with Some x => if truthy x then Some x else duration g1 | None => duration g1 end in
  axes ← eval (fun _ => of_option TypeError (axis g1));
  let queued := is_set (queue g1) && (1 <? Z.of_nat (String.length axes)) in
  let g2 := mkOptions (axis g1) (duration g1) (limit g1) (Some queued) (margin g1) (offset g1) (over g1)
              (easing g1) (onAfterFirst g1) (onAfter g1) (event g1) (stop g1) (target g1) (reset g1)
              (hash g1) (lock g1) (lazy g1) (filter g1) (onBefore g1) in
  let f2 := if queued then (fun x => num_div x (num 2)) <$> f1 else f1 in
  ds ← look (fun w => _scrollable w q);
  each (scroll_one e f2 g2 axes) ds.

(** [$.scrollTo]. *)
Definition scroll_to_window (e : scroll_arg E) (f : second_arg E) (g : third_arg E) : js (scroll_page W) unit :=
  scrollTo [the_window] e f g.
End scrollTo.

(** ** jQuery.LocalScroll *)

Section localScroll.
Context {W E : Type} `{!JQuery W E} `{!ScrollDom W E}.
Implicit Types (w : W) (o : options E).

(** [c.defaults]. *)
Definition local_defaults : options E :=
  mkOptions (Some "y") (Some (num 1000)) None None None None None None None None
    (Some "click") (Some true) (Some the_window) (Some true) None None None None None.

(** What a link, or the location, has to be scrolled by. *)
Record hash_source : Type := mkSource { src_hash : string; src_link : option E }.

Definition find_target w (h : string) : option E :=
  match get_by_id w h with Some f => Some f | None => head (get_by_name w h) end.

(** Show the hash in the location without the browser jumping. *)
Definition show_hash (e h : string) (f : E) : js (scroll_page W) unit :=
  name ← look (fun w => if String.eqb (elem_id w f) h then "id" else "name");
  top ← look (fun w => jq_scroll w [the_window] "scrollTop");
  left ← look (fun w => jq_scroll w [the_window] "scrollLeft");
  '(g, w1) ← look (make_anchor name h top left);
  act (fun _ => w1) ≫= fun _ =>
  act (set_prop f name "") ≫= fun _ =>
  act (prepend_to_body g) ≫= fun _ =>
  act (set_location e) ≫= fun _ =>
  act (remove_elem g) ≫= fun _ =>
  act (set_prop f name h).

(** The plugin's [g]: [event] says whether there is an event to prevent. *)
Definition go (has_event : bool) (e : hash_source) o : js (scroll_page W) unit :=
  let h := String.string_of_list_ascii (drop 1 (lit (src_hash e))) in
  f ← look (fun w => find_target w h);
  match f with
  | None => mret tt
  | Some f =>
      (if has_event then preventDefault else mret tt) ≫= fun _ =>
      let c := match target o with Some t => [t] | None => [] end in
      animated ← look (fun w => is_set (lock o) && existsb (fun d => jq_is w d ":animated") c);
      refused ← (if animated : bool then mret true
                 else match onBefore o with
                      | Some k => '(w1, no) ← look (call_before k f c); act (fun _ => w1) ≫= fun _ => mret no
                      | None => mret false
                      end);
      if refused : bool then mret tt
      else
        (if is_set (stop o) then
           ds ← look (fun w => _scrollable w c); act (jq_stop_queue ds)
         else mret tt) ≫= fun _ =>
        (if is_set (hash o) then show_hash (src_hash e) h f else mret tt) ≫= fun _ =>
        scrollTo c (TElem f) (ArgSettings o) SettingsNone ≫= fun _ =>
        act (jq_trigger "notify.serialScroll" [f] c)
  end.

(** [c.hash]: scroll to the hash the page was opened with. *)
Definition local_hash (location_hash : string) (a : options E) : js (scroll_page W) unit :=
  if String.eqb location_hash "" then mret tt
  else
    let o := set_hash false (extend local_defaults a) in
    (if is_set (reset o) then
       scrollTo (match target o with Some t => [t] | None => [] end) (TNum num_zero)
         (ArgSettings (set_duration None o)) SettingsNone
     else mret tt) ≫= fun _ =>
    go false (mkSource location_hash None) o.

(** The plugin's [e]: the link leads to a place of this page, and is of the
    kind asked for. *)
Definition is_local (here : bytes) o w (e : E) : bool :=
  negb (String.eqb (href w e) "") && negb (String.eqb (link_hash w e) "") &&
  bool_decide (cut (lit (link_hash w e)) (lit (href w e)) = here) &&
  match filter o with
  | Some s => String.eqb s "" || jq_is w e s
  | None => true
  end.

(** What [localScroll] binds: a handler for each link, or one for their
    ancestor that looks for the link itself. *)
Inductive local_binding : Type :=
  | Direct (event : string) (links : list E) (handler : E -> js (scroll_page W) unit)
  | Lazy (event : string) (roots : list E) (handler : E -> js (scroll_page W) unit).

Definition on_link o (this : E) : js (scroll_page W) unit :=
  h ← look (fun w => link_hash w this); go true (mkSource h (Some this)) o.

(** [d.target] is [clicked]. *)
Definition on_lazy (here : bytes) o (clicked : E) : js (scroll_page W) unit :=
  c ← look (fun w => head (List.filter (is_local here o w) (clicked :: option_list (parent_node w clicked))));
  match c with Some c => on_link o c | None => mret tt end.

(** [localScroll]; [here] is [i], taken when the script ran. *)
Definition localScroll (here : bytes) (q : list E) (a : options E) : js (scroll_page W) local_binding :=
  let o := extend local_defaults a in
  ev ← eval (fun _ => of_option TypeError (event o));
  if is_set (lazy o) then mret (Lazy ev q (on_lazy here o))
  else
    links ← look (fun w => List.filter (is_local here o w) (q ≫= fun d => jq_find w d "a,area"));
    mret (Direct ev links (on_link o)).

(** [$.localScroll]. *)
Definition local_scroll_body (here : bytes) (a : options E) : js (scroll_page W) local_binding :=
  q ← eval (fun p => jq_select (dom p) "body"); localScroll here q a.

(** ** The script *)

(** The top level: an alert if there is no jQuery; [i]. *)
Definition smoothscroll_js (has_jquery : bool) (alert : string -> W -> W) : js (scroll_page W) bytes :=
  (if has_jquery then mret tt
   else act (alert "The jQuery library must be included before the smoothscroll.js file.  The plugin will not work propery."))
  ≫= fun _ =>
  if has_jquery then look (fun w => before_hash (lit (location_href w)))
  else eval (fun _ => Fault ReferenceError).

(** The ready callback. *)
Definition smoothscroll_ready (here : bytes) : js (scroll_page W) local_binding :=
  local_scroll_body here (only_filter ".smoothScroll").
End localScroll.

(** ** Limits *)

Lemma compare_opp x y : SFcompare y x = CompOpp <$> SFcompare x y.
Proof.
  destruct x as [[]|[]| |[] m e], y as [[]|[]| |[] m' e']; try done; simpl; f_equal;
    rewrite (Z.compare_antisym e e'); destruct (e ?= e'); simpl; try done;
    by rewrite (Pos.compare_cont_antisym m m').
Qed.

Lemma compare_total x y : is_nan x = false -> is_nan y = false -> exists c, SFcompare x y = Some c.
Proof. destruct x as [[]|[]| |[] m e], y as [[]|[]| |[] m' e']; simpl; try done; eauto. Qed.

Lemma not_lt_le x y : is_nan x = false -> is_nan y = false -> SFltb y x = false -> num_le x y = true.
Proof.
  intros Hx Hy. unfold num_le, SFltb, SFleb. rewrite (compare_opp x y).
  destruct (compare_total x y Hx Hy) as [c ->]. by destruct c.
Qed.

Lemma lt_le x y : SFltb x y = true -> num_le x y = true.
Proof. unfold SFltb, num_le, SFleb. destruct (SFcompare x y) as [[]|]; done. Qed.

Lemma le_not_nan x y : num_le x y = true -> is_nan x = false /\ is_nan y = false.
Proof. by destruct x as [[]|[]| |[] m e], y as [[]|[]| |[] m' e']. Qed.

Lemma le_refl x : is_nan x = false -> num_le x x = true.
Proof. intros Hx. apply not_lt_le; [done..|]. unfold SFltb.
  destruct x as [[]|[]| |[] m e]; try done; simpl; rewrite Z.compare_refl;
    by rewrite Pos.compare_cont_refl.
Qed.

(** [Math.min] of two numbers above a bound stays between it and the second. *)
Lemma min_between x y :
  is_nan x = false -> num_le num_zero x = true -> num_le num_zero y = true ->
  num_le num_zero (math_min x y) = true /\ num_le (math_min x y) y = true.
Proof.
  intros Hx H0x H0y. destruct (le_not_nan _ _ H0y) as [_ Hy].
  assert (Hgen : forall z, z = (if SFltb y x then y else x) ->
            num_le num_zero z = true /\ num_le z y = true).
  { intros z ->. destruct (SFltb y x) eqn:Hlt; [by split; [|apply le_refl]|].
    split; [done|]. by apply not_lt_le. }
  unfold math_min. rewrite Hx, Hy. cbn [orb].
  destruct x as [sx|sx| |sx mx ex], y as [sy|sy| |sy my ey]; try done; try by apply Hgen.
Qed.

Lemma positive_above x : is_nan x = false -> num_le x num_zero = false -> num_le num_zero x = true.
Proof. by destruct x as [[]|[]| |[] m e]. Qed.

(** A rounded integer is a number. *)
Lemma shr_1_nonneg r : 0 <= shr_m r -> 0 <= shr_m (shr_1 r).
Proof. destruct r as [[|[]|] ? ?]; simpl; lia. Qed.

Lemma iter_shr_nonneg n : forall r, 0 <= shr_m r -> 0 <= shr_m (iter_pos shr_1 n r).
Proof.
  induction n as [n IH|n IH|]; intros r Hr; cbn [iter_pos].
  - by apply IH, IH, shr_1_nonneg.
  - by apply IH, IH.
  - by apply shr_1_nonneg.
Qed.

Lemma shr_fexp_nonneg m e l : 0 <= m -> 0 <= shr_m (shr_fexp 53 1024 m e l).1.
Proof.
  intros Hm. unfold shr_fexp, shr. set (k := (_ - e)%Z).
  assert (Hr : 0 <= shr_m (shr_record_of_loc m l)) by by destruct l as [|[]].
  destruct k; [exact Hr|by apply iter_shr_nonneg|exact Hr].
Qed.

Lemma round_not_nan s m e l : 0 <= m -> is_nan (binary_round_aux 53 1024 s m e l) = false.
Proof.
  intros Hm. unfold binary_round_aux. pose proof (shr_fexp_nonneg m e l Hm) as H1.
  destruct (shr_fexp 53 1024 m e l) as [r1 e1]. cbn [fst] in H1.
  assert (H2 : 0 <= round_nearest_even (shr_m r1) (loc_of_shr_record r1)).
  { unfold round_nearest_even. destruct (loc_of_shr_record r1) as [|[]]; try lia. destruct (Z.even _); lia. }
  pose proof (shr_fexp_nonneg _ e1 loc_Exact H2) as H3.
  destruct (shr_fexp 53 1024 _ e1 loc_Exact) as [r2 e2]. cbn [fst] in H3.
  destruct (shr_m r2); [done| |lia]. by destruct (e2 <=? _).
Qed.

Lemma num_not_nan z : is_nan (num z) = false.
Proof.
  unfold num, binary_normalize. destruct z as [|p|p]; [done|..];
    unfold binary_round; destruct (shl_align _ _ _); by apply round_not_nan.
Qed.

Lemma span_all (p : ascii -> bool) s : forallb p s = true -> span p s = (s, []).
Proof.
  induction s as [|c s IH]; simpl; [done|]. intros [-> Hs]%andb_true_iff. by rewrite IH.
Qed.

Lemma digit_not (c x : ascii) : is_digit c = true -> is_digit x = false -> is_char x c = false.
Proof.
  intros Hc Hx. destruct (is_char x c) eqn:He; [|done]. apply is_char_true in He. congruence.
Qed.

(** A string of digits is a number. *)
Lemma digits_not_nan s :
  String.eqb s "" = false -> forallb is_digit (lit s) = true -> is_nan (to_number s) = false.
Proof.
  intros He Hd. destruct s as [|c s]; [done|]. unfold to_number.
  assert (Hp : parse_signed (lit (String c s)) = Some (decimal (digits_value (lit (String c s))) 0, [])).
  { cbn [lit String.list_ascii_of_string] in *. fold (lit s) in *. pose proof Hd as Hall.
    simpl in Hd. apply andb_true_iff in Hd as [Hc _].
    unfold parse_signed. rewrite !(digit_not c) by done. unfold parse_decimal.
    rewrite (span_all _ _ Hall). by rewrite app_nil_r. }
  rewrite Hp. unfold decimal. destruct (digits_value _); try done. apply num_not_nan.
Qed.

Section limits.
Context {W E : Type} `{!JQuery W E} `{!ScrollDom W E}.
Implicit Types (w : W) (d : E) (g : options E) (c : coord).

Lemma coord_not_nan c : coord_digits c = true -> is_nan (coord_num c) = false.
Proof.
  destruct c as [x|s| |]; simpl; try done.
  - by destruct x as [| | |[]].
  - intros [He%negb_true_iff Hd]%andb_true_iff. by apply digits_not_nan.
Qed.

(** A limited value written in digits lies between 0 and the end. *)
Definition within (max : f64) (c : coord) : Prop :=
  exists x, c = CNum x /\ num_le num_zero x = true /\ num_le x max = true.

Lemma limited_within g max c :
  limit g = Some true -> num_le num_zero max = true -> coord_digits c = true -> within max (limited g max c).
Proof.
  intros Hl Hm Hd. unfold limited. rewrite Hl, Hd. cbn [is_set default from_option id andb].
  pose proof (coord_not_nan c Hd) as Hn. destruct (num_le (coord_num c) num_zero) eqn:Hz.
  - by exists num_zero.
  - destruct (min_between (coord_num c) max Hn) as [H1 H2]; [by apply positive_above|done|].
    by exists (math_min (coord_num c) max).
Qed.

Lemma limited_other g max c : coord_digits c = false -> limited g max c = c.
Proof. intros Hd. unfold limited. by rewrite Hd, andb_false_r. Qed.
End limits.

(** ** What a call of scrollTo asks for *)

Lemma js_bind_fault {P A B} (m : js P A) (k : A -> js P B) s s' f :
  m s = (s', Fault f) -> (m ≫= k) s = (s', Fault f).
Proof. intros Hm. unfold mbind, js_bind. by rewrite Hm. Qed.

Lemma look_bind {W A B} (g : W -> A) (k : A -> js (scroll_page W) B) s :
  (look g ≫= k) s = k (g (dom (page s))) s.
Proof. reflexivity. Qed.

Lemma act_bind {W B} (g : W -> W) (k : unit -> js (scroll_page W) B) s :
  (act g ≫= k) s = k tt (mkJs (mkPage (g (dom (page s))) (objects (page s))) (default_prevented s)).
Proof. reflexivity. Qed.

Lemma change_bind {W B} r g (k : unit -> js (scroll_page W) B) s :
  (change_object r g ≫= k) s =
    k tt (mkJs (mkPage (dom (page s)) (alter g r (objects (page s)))) (default_prevented s)).
Proof. reflexivity. Qed.

Lemma new_bind {W B} (k : nat -> js (scroll_page W) B) s :
  (new_object ≫= k) s =
    k (length (objects (page s))) (mkJs (mkPage (dom (page s)) (objects (page s) ++ [∅])) (default_prevented s)).
Proof. reflexivity. Qed.

Lemma alter_insert {A} (h : A -> A) (l : list A) r a x : l !! r = Some a -> alter h r (<[r := x]> l) = <[r := h x]> l.
Proof.
  intros Hr. pose proof (lookup_lt_Some _ _ _ Hr) as Hlt. apply list_eq. intros i.
  destruct (decide (i = r)) as [->|Hne].
  - by rewrite list_lookup_alter_eq, !list_lookup_insert_eq.
  - by rewrite list_lookup_alter_ne, !list_lookup_insert_ne.
Qed.

Lemma alter_snoc {A} (h : A -> A) (l : list A) a : alter h (length l) (l ++ [a])%list = (l ++ [h a])%list.
Proof. induction l as [|b l IH]; [done|]. cbn. f_equal. exact IH. Qed.

Section calls.
Context {W E : Type} `{!JQuery W E} `{!ScrollDom W E}.
Implicit Types (w : W) (d : E) (g : options E) (e : scroll_arg E) (s : js_state (scroll_page W)).

(** The positions of the axes one after the other. *)
Fixpoint positions w g d (t : resolved) (axes : list ascii) (m : gmap string coord) :
    result (gmap string coord) :=
  match axes with
  | [] => Ok m
  | a :: axes =>
      max ← scroll_max w d a;
      c ← axis_coord w g d t max a;
      positions w g d t axes (<[scroll_key a := limited g max c]> m)
  end.

(** The axes of a call that is not queued. *)
Lemma each_axes r f e g d t l : forall s m0 m,
  is_set (queue g) = false -> objects (page s) !! r = Some m0 ->
  match positions (dom (page s)) g d t (l.*2) m with
  | Ok m' =>
      each (scroll_axis r f e g d t) l
        (mkJs (mkPage (dom (page s)) (<[r := m]> (objects (page s)))) (default_prevented s)) =
      (mkJs (mkPage (dom (page s)) (<[r := m']> (objects (page s)))) (default_prevented s), Ok tt)
  | Fault ft => exists s', each (scroll_axis r f e g d t) l
        (mkJs (mkPage (dom (page s)) (<[r := m]> (objects (page s)))) (default_prevented s)) = (s', Fault ft)
  end.
Proof.
  induction l as [|[i a] l IH]; intros s m0 m Hq Hr; [done|].
  set (s1 := mkJs (mkPage (dom (page s)) (<[r := m]> (objects (page s)))) (default_prevented s)).
  cbn [each fmap list_fmap snd positions]. change (list_fmap _ _ snd l) with (l.*2).
  set (rest := fun _ : unit => each (scroll_axis r f e g d t) l).
  assert (Hmax : forall ft, scroll_max (dom (page s)) d a = Fault ft ->
            exists s', (scroll_axis r f e g d t (i, a) ≫= rest) s1 = (s', Fault ft)).
  { intros ft Hm. exists s1. apply js_bind_fault. unfold scroll_axis. rewrite look_bind.
    by rewrite (eval_fault _ _ _ ft). }
  destruct (scroll_max (dom (page s)) d a) as [max|ft] eqn:Hm; [|by apply (Hmax ft)].
  rewrite bind_ok. destruct (axis_coord (dom (page s)) g d t max a) as [c|ft] eqn:Hc.
  - rewrite bind_ok. rewrite (js_bind_ok _ _ _
      (mkJs (mkPage (dom (page s)) (<[r := <[scroll_key a := limited g max c]> m]> (objects (page s)))) (default_prevented s)) tt).
    + by apply (IH s m0).
    + unfold scroll_axis. rewrite look_bind, (eval_ok _ _ _ max), (eval_ok _ _ _ c) by done. cbv zeta.
      rewrite change_bind, Hq, andb_false_r. unfold s1. cbn [page objects dom default_prevented].
      by rewrite (alter_insert _ _ _ m0).
  - exists s1. apply js_bind_fault. unfold scroll_axis.
    by rewrite look_bind, (eval_ok _ _ _ max), (eval_fault _ _ _ ft) by done.
Qed.

Lemma imap_pair_snd {A} (l : list A) : (imap pair l).*2 = l.
Proof.
  assert (Hg : forall h : nat -> nat, (imap (fun i a => (h i, a)) l).*2 = l); [|by apply (Hg id)].
  induction l as [|a l IH]; intros h; [done|]. cbn [imap fmap list_fmap snd]. f_equal. apply (IH (h ∘ S)).
Qed.

(** One element: nothing when the target is not found, else one animation of
    one new object. *)
Lemma scroll_one_cases e f g axes d s :
  e <> TNull -> is_set (queue g) = false ->
  match resolve (dom (page s)) e d with
  | Fault ft => scroll_one e f g axes d s = (s, Fault ft)
  | Ok None => scroll_one e f g axes d s = (s, Ok tt)
  | Ok (Some t) =>
      match positions (dom (page s)) g d t (lit axes) ∅ with
      | Fault ft => exists s', scroll_one e f g axes d s = (s', Fault ft)
      | Ok m => scroll_one e f g axes d s =
          (mkJs (mkPage (jq_animate_to (length (objects (page s))) f (easing g)
                           ((fun k => (k, e, g)) <$> onAfter g) [d] (dom (page s)))
                        (objects (page s) ++ [m])) (default_prevented s), Ok tt)
      end
  end.
Proof.
  intros He Hq. set (w := dom (page s)).
  assert (Hrun : scroll_one e f g axes d s = (eval (fun p => resolve (dom p) e d) ≫= fun t =>
      match t with
      | None => mret tt
      | Some t => r ← new_object; each (scroll_axis r f e g d t) (imap pair (lit axes)) ≫= fun _ =>
                  animate r f e g d (onAfter g)
      end) s) by (by destruct e).
  rewrite Hrun. destruct (resolve w e d) as [[t|]|ft] eqn:Ht.
  - rewrite (eval_ok _ _ _ (Some t)) by done. rewrite new_bind. fold w.
    set (r := length (objects (page s))).
    set (s1 := mkJs (mkPage w (objects (page s) ++ [∅])%list) (default_prevented s)).
    assert (Hr : objects (page s1) !! r = Some ∅) by (unfold s1, r; simpl; by apply list_lookup_middle).
    pose proof (each_axes r f e g d t (imap pair (lit axes)) s1 ∅ ∅ Hq Hr) as Hax.
    rewrite list_insert_id in Hax by done. rewrite imap_pair_snd in Hax. cbn [page s1 dom] in Hax.
    change (mkJs (mkPage w (objects (page s1))) (default_prevented s1)) with s1 in Hax.
    destruct (positions w g d t (lit axes) ∅) as [m|ft].
    + rewrite (js_bind_ok _ _ _ _ _ Hax). unfold animate, act, effect, s1, r. cbn.
      by rewrite insert_app_r_alt, Nat.sub_diag by done.
    + destruct Hax as (s' & Hax). exists s'. by apply js_bind_fault.
  - by rewrite (eval_ok _ _ _ None) by done.
  - by rewrite (eval_fault _ _ _ ft) by done.
Qed.

Lemma side_key a b : scroll_key a = scroll_key b -> is_char "x" a = is_char "x" b.
Proof. unfold scroll_key, side. destruct (is_char "x" a), (is_char "x" b); done. Qed.

Lemma max_side w d a b : is_char "x" a = is_char "x" b -> scroll_max w d a = scroll_max w d b.
Proof. unfold scroll_max. by intros ->. Qed.

Lemma positions_within w g d t axes : forall m m',
  limit g = Some true -> positions w g d t axes m = Ok m' ->
  (forall a max c, m !! scroll_key a = Some c -> scroll_max w d a = Ok max -> num_le num_zero max = true ->
     coord_digits c = true -> within max c) ->
  forall a max c, m' !! scroll_key a = Some c -> scroll_max w d a = Ok max -> num_le num_zero max = true ->
    coord_digits c = true -> within max c.
Proof.
  induction axes as [|b axes IH]; intros m m' Hl Hp Hm; cbn [positions] in Hp; [by simplify_eq|].
  inv_bind Hp. inv_bind Hp. rename a into maxb, a0 into cb. eapply IH; [done|exact Hp|].
  intros a max c Hc Hmax Hpos Hd. destruct (decide (scroll_key b = scroll_key a)) as [Heq|Hne].
  - rewrite Heq, lookup_insert_eq in Hc. injection Hc as <-.
    rewrite (max_side w d a b) in Hmax by (by apply side_key). rewrite Hmax in Ha. injection Ha as ->.
    apply limited_within; [done..|]. destruct (coord_digits cb) eqn:Hcb; [done|].
    rewrite (limited_other _ _ _ Hcb) in Hd. congruence.
  - rewrite lookup_insert_ne in Hc by done. by eapply Hm.
Qed.

(** A call for both axes with the queue on starts two animations, the
    horizontal one first, but gives both the same object and takes the
    horizontal position out of it again: an animation that looks at its
    positions only when its turn comes, because another one is running, no
    longer finds it. *)
Theorem queued_axes_share_object (e : scroll_arg E) (f : option f64) (g : options E) (d : E)
    (s : js_state (scroll_page W)) (t : resolved) (maxx maxy : f64) (cx cy : coord) :
  let w := dom (page s) in
  let r := length (objects (page s)) in
  let asks k w := jq_animate_to r f (easing g) ((fun k => (k, e, g)) <$> k) [d] w in
  e <> TNull -> queue g = Some true -> resolve w e d = Ok (Some t) ->
  scroll_max w d "x" = Ok maxx -> axis_coord w g d t maxx "x" = Ok cx ->
  differs (num_prop w d "scrollLeft") (limited g maxx cx) = true ->
  let w1 := asks (onAfterFirst g) w in
  scroll_max w1 d "y" = Ok maxy -> axis_coord w1 g d t maxy "y" = Ok cy ->
  scroll_one e f g "xy" d s =
    (mkJs (mkPage (asks (onAfter g) w1) (objects (page s) ++ [{["scrollTop" := limited g maxy cy]}]))
          (default_prevented s), Ok tt).
Proof.
  intros w r asks He Hq Ht Hmx Hcx Hdiff w1 Hmy Hcy.
  set (obj m := (objects (page s) ++ [m])%list).
  assert (Halter : forall h m, alter h r (obj m) = obj (h m)).
  { intros h m. apply alter_snoc. }
  set (s1 := mkJs (mkPage w (obj ∅)) (default_prevented s)).
  set (s2 := mkJs (mkPage w1 (obj ∅)) (default_prevented s)).
  assert (Hx : scroll_axis r f e g d t (0%nat, "x"%char) s1 = (s2, Ok tt)).
  { unfold scroll_axis. rewrite look_bind, (eval_ok _ _ _ maxx), (eval_ok _ _ _ cx) by done. cbv zeta.
    rewrite change_bind, Hq. change (scroll_key "x") with "scrollLeft".
    cbn [bool_decide is_set default from_option id andb s1 page dom objects default_prevented].
    rewrite bool_decide_true by done. cbn [andb]. rewrite Hdiff. unfold animate. rewrite act_bind.
    cbn [page dom objects default_prevented]. unfold change_object, effect.
    cbn [page dom objects default_prevented]. rewrite !Halter. by rewrite delete_insert_id. }
  assert (Hy : scroll_axis r f e g d t (1%nat, "y"%char) s2 =
            (mkJs (mkPage w1 (obj {["scrollTop" := limited g maxy cy]})) (default_prevented s), Ok tt)).
  { unfold scroll_axis. rewrite look_bind, (eval_ok _ _ _ maxy), (eval_ok _ _ _ cy) by done. cbv zeta.
    rewrite change_bind. change (scroll_key "y") with "scrollTop". cbn [page dom objects default_prevented s2].
    by rewrite Halter. }
  assert (Hrun : scroll_one e f g "xy" d s =
    (eval (fun p => resolve (dom p) e d) ≫= fun t =>
      match t with
      | None => mret tt
      | Some t => r ← new_object; each (scroll_axis r f e g d t) (imap pair (lit "xy")) ≫= fun _ =>
                  animate r f e g d (onAfter g)
      end) s) by (by destruct e).
  rewrite Hrun, (eval_ok _ _ _ (Some t)) by done. rewrite new_bind. fold w r. fold (obj ∅). fold s1.
  cbn [lit String.list_ascii_of_string imap each]. rewrite js_bind_assoc, (js_bind_ok _ _ _ _ _ Hx).
  rewrite js_bind_assoc. change (Nat.succ 0) with 1%nat. unfold compose. 
  rewrite (js_bind_ok _ _ _ _ _ Hy). done.
Qed.
End calls.

(** ** The links of the page *)

Section links.
Context {W E : Type} `{!JQuery W E} `{!ScrollDom W E}.
Implicit Types (w : W) (s : js_state (scroll_page W)).

(** The settings the script binds its links with. *)
Definition link_options : options E := extend local_defaults (only_filter ".smoothScroll").

Lemma add_zero x : num_add x num_zero = match x with S754_zero _ => num_zero | _ => x end.
Proof. by destruct x as [[]|[]| |[] m e]. Qed.

(** Where the page goes for an element at [top]: there, or, if that is written
    in digits, at most to the end of the page. *)
Definition scroll_position (top max : f64) : coord :=
  if num_digits top then CNum (if num_le top num_zero then num_zero else math_min top max) else CNum top.

Lemma element_position w g d f l top max :
  limit g = Some true -> margin g = None -> offset g = None -> over g = None ->
  is_html_body w d = true -> has_style w f = true -> jq_position w [f] = Some (l, top) ->
  scroll_max w d "y" = Ok max ->
  exists t, resolve w (TElem f) d = Ok (Some t) /\
    positions w g d t (lit "y") ∅ = Ok {["scrollTop" := scroll_position top max]}.
Proof.
  intros Hl Hm Ho Hov Hb Hst Hpos Hmax. cbn [resolve]. rewrite Hst. unfold at_query. rewrite Hpos.
  eexists. split; [reflexivity|]. cbn [lit String.list_ascii_of_string positions]. rewrite Hmax, bind_ok.
  cbn [axis_coord]. unfold element_coord. rewrite Hb, Hm, Ho, Hov, bind_ok.
  cbn [is_set default from_option id both].
  change (or_zero num_zero) with num_zero. rewrite bind_ok. cbn [pick is_char ascii_eqb fst snd].
  change (pick (l, top) "y"%char) with top.
  f_equal. unfold limited, scroll_position. rewrite Hl. cbn [is_set default from_option id andb coord_digits coord_num].
  rewrite !add_zero. change (scroll_key "y") with "scrollTop".
  by destruct top as [[]|[]| |[] p e].
Qed.

(** C39: A click on a bound link whose hash names an element of the page: the link
    is not followed, running scrolling stops, and the page goes in one second
    to the element, but, if its offset is a whole number, not beyond the end;
    then the plugins are told.  A hash that names nothing leaves the link to
    the browser. *)
Theorem local_click (s : js_state (scroll_page W)) (this : E) :
  let w := dom (page s) in
  let h := String.string_of_list_ascii (drop 1 (lit (link_hash w this))) in
  (find_target w h = None -> on_link link_options this s = (s, Ok tt)) /\
  forall f d l top max, find_target w h = Some f -> _scrollable w [the_window] = [d] ->
    let w1 := jq_stop_queue [d] w in
    _scrollable w1 [the_window] = [d] -> is_html_body w1 d = true -> has_style w1 f = true ->
    jq_position w1 [f] = Some (l, top) -> scroll_max w1 d "y" = Ok max ->
    let w2 := jq_animate_to (length (objects (page s))) (Some (num 1000)) None None [d] w1 in
    on_link link_options this s =
      (mkJs (mkPage (jq_trigger "notify.serialScroll" [f] [the_window] w2)
                    (objects (page s) ++ [{["scrollTop" := scroll_position top max]}])) true, Ok tt).
Proof.
  intros w h. unfold on_link. rewrite look_bind. fold w. unfold go. rewrite look_bind. cbn [src_hash]. fold w h.
  split; [by intros ->|]. intros f d l top max -> Hd. set (w1 := jq_stop_queue [d] w). set (w2 := jq_animate_to _ _ _ _ _ w1).
  intros Hd1 Hb Hst Hpos Hmax.
  rewrite (js_bind_ok _ _ _ (mkJs (page s) true) tt) by done. cbv zeta.
  cbn [link_options extend local_defaults only_filter no_options target either lock onBefore stop hash is_set
       default from_option id]. rewrite look_bind.
  rewrite (js_bind_ok _ _ _ (mkJs (page s) true) false) by done.
  rewrite js_bind_assoc. cbn [page dom]. rewrite look_bind. cbn [page]. fold w. rewrite Hd.
  rewrite act_bind. cbn [page]. fold w w1.
  rewrite (js_bind_ok (mret tt) _ _ (mkJs (mkPage w1 (objects (page s))) true) tt) by done.
  set (s1 := mkJs (mkPage w1 (objects (page s))) true).
  match goal with |- (scrollTo ?q ?e ?a ?b ≫= ?k) s1 = _ =>
    assert (Hrun : scrollTo q e a b s1 =
      (mkJs (mkPage w2 (objects (page s) ++ [{["scrollTop" := scroll_position top max]}])) true, Ok tt)) end.
  2: { rewrite (js_bind_ok _ _ _ _ _ Hrun). done. }
  unfold scrollTo. cbn [settings_of]. rewrite (eval_ok _ _ _ "y") by done. cbv zeta. rewrite look_bind.
  unfold s1 at 1. cbn [page dom]. rewrite Hd1. cbn [each].
  match goal with |- (scroll_one ?e ?f' ?g "y" d ≫= _) s1 = _ =>
    pose proof (scroll_one_cases e f' g "y" d s1 ltac:(discriminate) eq_refl) as Hone;
    destruct (element_position w1 g d f l top max) as (t & Ht & Hp); [done..|] end.
  cbn [page dom s1] in Hone. rewrite Ht, Hp in Hone. rewrite js_bind_ret. exact Hone.
Qed.

(** After the script has run, the click handler is bound to exactly those
    links of class [smoothScroll] whose address is the page's own up to the
    hash, and that have a hash; so a page whose menu leads to other pages gets
    no handler at all. *)
Theorem script_binds (alert : string -> W -> W) (s : js_state (scroll_page W)) (body : list E) :
  let w := dom (page s) in
  jq_select w "body" = Ok body ->
  exists links,
    (smoothscroll_js true alert ≫= smoothscroll_ready) s = (s, Ok (Direct "click" links (on_link link_options))) /\
    (forall e, e ∈ links <->
       (exists d, d ∈ body /\ e ∈ jq_find w d "a,area") /\
       href w e <> "" /\ link_hash w e <> "" /\ jq_is w e ".smoothScroll" = true /\
       cut (lit (link_hash w e)) (lit (href w e)) = before_hash (lit (location_href w))) /\
    ((forall e, jq_is w e ".smoothScroll" = true -> link_hash w e = "") -> links = []).
Proof.
  intros w Hbody.
  set (links := List.filter (is_local (before_hash (lit (location_href w))) link_options w)
                  (body ≫= fun d => jq_find w d "a,area")).
  assert (Hin : forall e, e ∈ links <->
       (exists d, d ∈ body /\ e ∈ jq_find w d "a,area") /\
       href w e <> "" /\ link_hash w e <> "" /\ jq_is w e ".smoothScroll" = true /\
       cut (lit (link_hash w e)) (lit (href w e)) = before_hash (lit (location_href w))).
  { intros e. unfold links. rewrite list_elem_of_In, filter_In, <-list_elem_of_In, list_elem_of_bind.
    unfold is_local. cbn [filter link_options extend only_filter local_defaults either].
    rewrite !andb_true_iff, !negb_true_iff, !String.eqb_neq, bool_decide_eq_true.
    change (String.eqb ".smoothScroll" "") with false. cbn [orb]. naive_solver. }
  exists links. split; [|split; [exact Hin|]].
  - unfold smoothscroll_js, smoothscroll_ready, local_scroll_body.
    rewrite (js_bind_ok _ _ _ s (before_hash (lit (location_href w)))) by done.
    rewrite (eval_ok _ _ _ body) by done. unfold localScroll. rewrite (eval_ok _ _ _ "click") by done.
    reflexivity.
  - intros Hnone. destruct links as [|e es]; [done|]. destruct (proj1 (Hin e)) as (_ & _ & Hh & Hc & _); [set_solver|].
    by destruct Hh; apply Hnone.
Qed.
End links.

(** ** A page for the witnesses *)

(** The window 0, the document 1, [html] 2, [body] 3, a link to [#top] 4, a
    link to [/picture] 5, the element [top] 6 and a scrolling box 7. *)
Record demo_doc : Type := mkDoc { top_of_target : f64; log : list string }.

Definition demo_log (a : string) (w : demo_doc) : demo_doc := mkDoc (top_of_target w) (log w ++ [a])%list.

#[export] Instance doc_jquery : JQuery demo_doc nat := {
  jq_select w sel := if String.eqb sel "body" then Ok [3%nat] else Ok [];
  jq_offset w e := None;
  jq_attr w e a := None;
  jq_is w e sel :=
    if String.eqb sel "html,body" then bool_decide (e = 2%nat \/ e = 3%nat)
    else String.eqb sel ".smoothScroll" && bool_decide (e = 4%nat \/ e = 5%nat);
  jq_find w e sel := if String.eqb sel "a,area" then [4%nat; 5%nat] else [];
  jq_has_class w e c := false;
  jq_add_class c es w := w;
  jq_remove_class c es w := w;
  jq_fade_out ms es w := w;
  jq_collapse how es w := w;
  jq_stop es w := w;
  jq_animate_scroll top ms es w := w;
  jq_popup o es w := w;
  wow_init mobile w := w
}.

#[export] Instance doc_dom : ScrollDom demo_doc nat := {
  the_window := 0%nat;
  jquery_version := "2.2.3";
  user_agent w := "Gecko";
  node_name w e := if decide (e = 0%nat) then None else Some (if decide (e = 2%nat) then "HTML" else "DIV");
  content_window w e := None;
  window_document w e := if decide (e = 0%nat) then Some 1%nat else None;
  owner_document w e := if decide (e = 0%nat) then None else Some 1%nat;
  parent_node w e := Some 3%nat;
  compat_mode w e := "CSS1Compat";
  body_of w e := Some 3%nat;
  root_of w e := Some 2%nat;
  has_style w e := bool_decide (1 < e)%nat;
  num_prop w e p := num (if String.eqb p "clientHeight" then 1000 else
                         if String.eqb p "scrollTop" || String.eqb p "scrollLeft" then 0 else 3000);
  coord_prop w e p := COther;
  href w e := if decide (e = 4%nat) then "http://h/#top" else if decide (e = 5%nat) then "http://h/picture" else "";
  link_hash w e := if decide (e = 4%nat) then "#top" else "";
  elem_id w e := if decide (e = 6%nat) then "top" else "";
  get_by_id w h := if String.eqb h "top" then Some 6%nat else None;
  get_by_name w h := [];
  location_href w := "http://h/";
  jq_query w a e := Ok [];
  jq_position w q := Some (num 0, top_of_target w);
  jq_css w q p := "0px";
  jq_size w q p := num 1000;
  jq_scroll w q p := num 0;
  jq_stop_queue q w := demo_log "stop" w;
  jq_animate_to r f ea k q w := demo_log "animate" w;
  jq_trigger ev xs q w := demo_log ev w;
  call_before k f q w := (w, false);
  make_anchor n h t l w := (8%nat, w);
  set_prop e p v w := w;
  prepend_to_body e w := w;
  set_location l w := w;
  remove_elem e w := w
}.

Definition demo_scroll (top : f64) : js_state (scroll_page demo_doc) := mkJs (mkPage (mkDoc top []) []) false.

Definition queued_options : options nat :=
  mkOptions (Some "xy") None (Some true) (Some true) None None None None None None None None None None None None None None None.


(** The element is 2500 pixels down and the page ends at 2000; half a pixel
    more and the end is not respected. *)
Theorem local_click_witness :
  on_link link_options 4%nat (demo_scroll (num 2500)) =
    (mkJs (mkPage (mkDoc (num 2500) ["stop"; "animate"; "notify.serialScroll"])
             [{["scrollTop" := CNum (num 2000)]}]) true, Ok tt) /\
  on_link link_options 4%nat (demo_scroll (decimal 25005 (-1))) =
    (mkJs (mkPage (mkDoc (decimal 25005 (-1)) ["stop"; "animate"; "notify.serialScroll"])
             [{["scrollTop" := CNum (decimal 25005 (-1))]}]) true, Ok tt).
Proof.
  assert (Hmax : forall top, scroll_max (mkDoc top ["stop"]) 2%nat "y" = Ok (num 2000))
    by (intros top; vm_compute; reflexivity).
  split.
  - etransitivity; [apply (proj2 (local_click (demo_scroll (num 2500)) 4%nat) 6%nat 2%nat (num 0) (num 2500) (num 2000));
      [vm_compute; reflexivity..|apply Hmax]|vm_compute; reflexivity].
  - etransitivity; [apply (proj2 (local_click (demo_scroll (decimal 25005 (-1))) 4%nat) 6%nat 2%nat (num 0) (decimal 25005 (-1)) (num 2000));
      [vm_compute; reflexivity..|apply Hmax]|vm_compute; reflexivity].
Defined.

Theorem script_binds_witness :
  exists links, (smoothscroll_js true (fun m w => demo_log m w) ≫= smoothscroll_ready) (demo_scroll num_zero) =
      (demo_scroll num_zero, Ok (Direct "click" links (on_link link_options))) /\ 4%nat ∈ links /\ 5%nat ∉ links.
Proof.
  destruct (script_binds (JQuery0 := doc_jquery) (ScrollDom0 := doc_dom) (fun m w => demo_log m w) (demo_scroll num_zero) [3%nat] ltac:(reflexivity)) as (links & Hrun & Hin & _).
  exists links. split; [exact Hrun|]. split.
  - apply Hin. split; [exists 3%nat; split; [by constructor|by constructor]|]. split_and!; try discriminate; reflexivity.
  - intros H5. apply Hin in H5 as (_ & _ & Hh & _). by destruct Hh.
Defined.

Theorem queued_axes_share_object_witness :
  scroll_one (TNum (num 10)) (Some (num 500)) queued_options "xy" 7%nat (demo_scroll num_zero) =
    (mkJs (mkPage (mkDoc num_zero ["animate"; "animate"]) [{["scrollTop" := CNum (num 10)]}]) false, Ok tt).
Proof.
  exact (queued_axes_share_object (JQuery0 := doc_jquery) (ScrollDom0 := doc_dom) (TNum (num 10)) (Some (num 500)) queued_options 7%nat (demo_scroll num_zero)
           (AtPos (CNum (num 10)) (CNum (num 10))) (num 2000) (num 2000) (CNum (num 10)) (CNum (num 10))
           ltac:(discriminate) ltac:(reflexivity) ltac:(vm_compute; reflexivity) ltac:(vm_compute; reflexivity)
           ltac:(vm_compute; reflexivity) ltac:(vm_compute; reflexivity) ltac:(vm_compute; reflexivity)
           ltac:(vm_compute; reflexivity)).
Defined.
