(* ===== verification/Channel.v ===== *)
(** * Channel: channels and the epoll registry (src/event/channel, pollbase, epoller)

    A channel is a descriptor with the events it wants; the poller keeps the
    map from descriptors to channels and mirrors it in the kernel's epoll set.
    Channels are shared objects, so they live in a store and are known by
    their number; the kernel's set is part of the state, with the documented
    behaviour of [epoll_ctl]. *)

From stdpp Require Import base list numbers gmap.
From Stdlib Require Import ZArith Lia.
From S2P Require Import Prelude.

Local Open Scope Z_scope.
Local Open Scope result_scope.

(** ** Events *)

Definition POLLIN : Z := 1.
Definition POLLPRI : Z := 2.
Definition POLLOUT : Z := 4.
Definition POLLERR : Z := 8.
Definition POLLHUP : Z := 16.
Definition POLLNVAL : Z := 32.
Definition POLLRDHUP : Z := 8192.

Definition kNoneEvent : Z := 0.
Definition kReadEvent : Z := Z.lor POLLIN POLLPRI.
Definition kWriteEvent : Z := POLLOUT.

(** A bit mask as a condition. *)
Definition has_bits (x m : Z) : bool := negb (Z.land x m =? 0).

(** ** Channels *)

Inductive POLL_TAG : Type := NEW | ADD | DEL.

#[export] Instance POLL_TAG_eq_dec : EqDecision POLL_TAG.
Proof. solve_decision. Defined.

Record Channel : Type := mkChannel {
  fd_ : Z;
  events_ : Z;
  revents_ : Z;
  status_ : POLL_TAG;
  tied_ : bool;
  event_handing_ : bool;
  added_to_loop_ : bool
}.

Definition new_channel (fd : Z) : Channel := mkChannel fd 0 0 NEW false false false.

Definition set_events (e : Z) (c : Channel) : Channel :=
  mkChannel (fd_ c) e (revents_ c) (status_ c) (tied_ c) (event_handing_ c) (added_to_loop_ c).
Definition set_revents (e : Z) (c : Channel) : Channel :=
  mkChannel (fd_ c) (events_ c) e (status_ c) (tied_ c) (event_handing_ c) (added_to_loop_ c).
Definition set_status (s : POLL_TAG) (c : Channel) : Channel :=
  mkChannel (fd_ c) (events_ c) (revents_ c) s (tied_ c) (event_handing_ c) (added_to_loop_ c).
Definition set_added (b : bool) (c : Channel) : Channel :=
  mkChannel (fd_ c) (events_ c) (revents_ c) (status_ c) (tied_ c) (event_handing_ c) b.
Definition tie (c : Channel) : Channel :=
  mkChannel (fd_ c) (events_ c) (revents_ c) (status_ c) true (event_handing_ c) (added_to_loop_ c).

Definition is_none_event (c : Channel) : bool := events_ c =? kNoneEvent.
Definition is_writing (c : Channel) : bool := has_bits (events_ c) kWriteEvent.
Definition is_reading (c : Channel) : bool := has_bits (events_ c) kReadEvent.

(** The destructor only asserts. *)
Definition destroy_channel (c : Channel) : result unit :=
  assert! (negb (event_handing_ c)); assert_ (negb (added_to_loop_ c)).

(** *** Dispatch *)

Inductive callback : Type := CloseCb | ErrorCb | ReadCb | WriteCb.

#[export] Instance callback_eq_dec : EqDecision callback.
Proof. solve_decision. Defined.

Definition call_if (installed : callback -> bool) (cond : bool) (k : callback) : list callback :=
  if cond && installed k then [k] else [].

(** The callbacks run for the events the poller returned, in order. *)
Definition handle_event_guard_ (installed : callback -> bool) (c : Channel) : list callback :=
  let r := revents_ c in
  call_if installed (has_bits r POLLHUP && negb (has_bits r POLLIN)) CloseCb ++
  call_if installed (has_bits r (Z.lor POLLERR POLLNVAL)) ErrorCb ++
  call_if installed (has_bits r (Z.lor (Z.lor POLLIN POLLPRI) POLLRDHUP)) ReadCb ++
  call_if installed (has_bits r POLLOUT) WriteCb.

(** [alive]: the tied object can still be locked. *)
Definition handle_event (installed : callback -> bool) (alive : bool) (c : Channel) : list callback :=
  if tied_ c then if alive then handle_event_guard_ installed c else []
  else handle_event_guard_ installed c.

(** ** The poller *)

Abbreviation chan := nat (only parsing).

Record Epoller : Type := mkEpoller {
  channels_ : gmap Z chan;
  interest : gmap Z (Z * chan);     (* the kernel's epoll set *)
  list_size : Z;                    (* events_.size() *)
  store : gmap chan Channel
}.

Definition EventListSize : Z := 16.

Definition new_poller (chans : gmap chan Channel) : Epoller := mkEpoller ∅ ∅ EventListSize chans.

Definition set_channels (m : gmap Z chan) (p : Epoller) : Epoller :=
  mkEpoller m (interest p) (list_size p) (store p).
Definition set_interest (m : gmap Z (Z * chan)) (p : Epoller) : Epoller :=
  mkEpoller (channels_ p) m (list_size p) (store p).
Definition set_chan (i : chan) (c : Channel) (p : Epoller) : Epoller :=
  mkEpoller (channels_ p) (interest p) (list_size p) (<[i := c]> (store p)).

Definition has_channel (i : chan) (c : Channel) (p : Epoller) : bool :=
  bool_decide (channels_ p !! fd_ c = Some i).

Inductive ctl : Type := EPOLL_CTL_ADD | EPOLL_CTL_MOD | EPOLL_CTL_DEL.

(** [epoll_ctl]: adding a present descriptor and changing an absent one fail;
    a failure is only logged. *)
Definition update (tag : ctl) (i : chan) (c : Channel) (p : Epoller) : Epoller :=
  match tag, interest p !! fd_ c with
  | EPOLL_CTL_ADD, None => set_interest (<[fd_ c := (events_ c, i)]> (interest p)) p
  | EPOLL_CTL_MOD, Some _ => set_interest (<[fd_ c := (events_ c, i)]> (interest p)) p
  | EPOLL_CTL_DEL, Some _ => set_interest (delete (fd_ c) (interest p)) p
  | _, _ => p
  end.

Definition update_channel (i : chan) (p : Epoller) : result Epoller :=
  c ← of_option NullDeref (store p !! i);
  match status_ c with
  | NEW =>
      assert! (bool_decide (channels_ p !! fd_ c = None));
      let p1 := set_channels (<[fd_ c := i]> (channels_ p)) p in
      let c1 := set_status ADD c in
      Ok (update EPOLL_CTL_ADD i c1 (set_chan i c1 p1))
  | DEL =>
      assert! (bool_decide (channels_ p !! fd_ c = None));
      j ← of_option OutOfRange (channels_ p !! fd_ c);
      assert! (bool_decide (j = i));
      let c1 := set_status ADD c in
      Ok (update EPOLL_CTL_ADD i c1 (set_chan i c1 p))
  | ADD =>
      if is_none_event c
      then Ok (set_chan i (set_status DEL c) (update EPOLL_CTL_DEL i c p))
      else Ok (update EPOLL_CTL_MOD i c p)
  end.

Definition remove_channel (i : chan) (p : Epoller) : result Epoller :=
  c ← of_option NullDeref (store p !! i);
  assert! (bool_decide (status_ c = ADD) || bool_decide (status_ c = DEL));
  let p1 := set_channels (delete (fd_ c) (channels_ p)) p in
  let p2 := if bool_decide (status_ c = ADD) then update EPOLL_CTL_DEL i c p1 else p1 in
  Ok (set_chan i (set_status NEW c) p2).

(** *** Channel operations that go to the poller *)

(** [update_]: remember that the channel is added, then [update_channel]. *)
Definition with_events (f : Z -> Z) (i : chan) (p : Epoller) : result Epoller :=
  c ← of_option NullDeref (store p !! i);
  update_channel i (set_chan i (set_added true (set_events (f (events_ c)) c)) p).

Definition enable_reading : chan -> Epoller -> result Epoller := with_events (fun e => Z.lor e kReadEvent).
Definition disable_reading : chan -> Epoller -> result Epoller :=
  with_events (fun e => Z.land e (Z.lnot kReadEvent)).
Definition enable_writing : chan -> Epoller -> result Epoller := with_events (fun e => Z.lor e kWriteEvent).
Definition disable_writing : chan -> Epoller -> result Epoller :=
  with_events (fun e => Z.land e (Z.lnot kWriteEvent)).
Definition disable_all : chan -> Epoller -> result Epoller := with_events (fun _ => kNoneEvent).

(** [Channel::remove] through [EventLoop::remvoe_channel], whose check of the
    active channels is never reached: [event_handling] is never set. *)
Definition remove (i : chan) (p : Epoller) : result Epoller :=
  c ← of_option NullDeref (store p !! i);
  assert! (is_none_event c);
  remove_channel i (set_chan i (set_added false c) p).

(** *** Polling *)

(** [fill_active_channels]: record the returned events in the channels. *)
Fixpoint fill_active_channels (evs : list (Z * chan)) (p : Epoller) : result (list chan * Epoller) :=
  match evs with
  | [] => Ok ([], p)
  | (r, i) :: evs =>
      c ← of_option NullDeref (store p !! i);
      '(act, p1) ← fill_active_channels evs (set_chan i (set_revents r c) p);
      Ok (i :: act, p1)
  end.

Definition grow (cnt : Z) (p : Epoller) : Epoller :=
  mkEpoller (channels_ p) (interest p) (if cnt =? list_size p then cnt * 2 else list_size p) (store p).

(** [epoll_wait] answered [evs], at most [list_size] of them, or failed. *)
Definition poll (evs : option (list (Z * chan))) (p : Epoller) : result (list chan * Epoller) :=
  match evs with
  | None | Some [] => Ok ([], p)
  | Some evs =>
      '(act, p1) ← fill_active_channels evs p;
      Ok (act, grow (Z.of_nat (length evs)) p1)
  end.

(** ** The registry and the kernel agree *)

Definition registered (s : gmap chan Channel) (i : chan) (fd : Z) : Prop :=
  exists c, s !! i = Some c /\ fd_ c = fd /\ status_ c <> NEW.
Definition watched (s : gmap chan Channel) (i : chan) (fd ev : Z) : Prop :=
  exists c, s !! i = Some c /\ fd_ c = fd /\ status_ c = ADD /\ events_ c = ev.

(** The map holds exactly the channels that are not NEW, under their own
    descriptors, and the kernel watches exactly the ADDed ones, for the events
    they want. *)
Definition mirrors (p : Epoller) : Prop :=
  (forall fd i, channels_ p !! fd = Some i <-> registered (store p) i fd) /\
  (forall fd ev i, interest p !! fd = Some (ev, i) <-> watched (store p) i fd ev).

Lemma registered_insert s i c j fd :
  registered (<[i := c]> s) j fd <->
    (j = i /\ fd_ c = fd /\ status_ c <> NEW) \/ (j <> i /\ registered s j fd).
Proof.
  unfold registered. split.
  - intros (c' & Hc' & ?). apply lookup_insert_Some in Hc' as [[<- <-]|[? ?]]; [by left|right].
    split; [done|]. by exists c'.
  - intros [(-> & ?)|(Hj & c' & ? & ?)]; [exists c|exists c'];
      by rewrite ?lookup_insert_eq, ?lookup_insert_ne by done.
Qed.

Lemma watched_insert s i c j fd ev :
  watched (<[i := c]> s) j fd ev <->
    (j = i /\ fd_ c = fd /\ status_ c = ADD /\ events_ c = ev) \/ (j <> i /\ watched s j fd ev).
Proof.
  unfold watched. split.
  - intros (c' & Hc' & ?). apply lookup_insert_Some in Hc' as [[<- <-]|[? ?]]; [by left|right].
    split; [done|]. by exists c'.
  - intros [(-> & ?)|(Hj & c' & ? & ?)]; [exists c|exists c'];
      by rewrite ?lookup_insert_eq, ?lookup_insert_ne by done.
Qed.

Section mirrors.
Context (p : Epoller) (i : chan) (c : Channel).
Hypothesis Hmirrors : mirrors p.
Hypothesis Hc : store p !! i = Some c.

Lemma watched_registered j fd ev : watched (store p) j fd ev -> registered (store p) j fd.
Proof. intros (d & ? & ? & Hd & ?). exists d. rewrite Hd. done. Qed.

Lemma registered_own fd : registered (store p) i fd <-> fd_ c = fd /\ status_ c <> NEW.
Proof.
  split; [intros (d & Hd & ?); by rewrite Hc in Hd; simplify_eq|]. intros [? ?]. by exists c.
Qed.

(** One channel per descriptor. *)
Lemma registered_inj j j' fd : registered (store p) j fd -> registered (store p) j' fd -> j = j'.
Proof. destruct Hmirrors as [Hm _]. intros H1%Hm H2%Hm. congruence. Qed.

Lemma mirrors_add c' :
  status_ c = NEW -> channels_ p !! fd_ c = None -> fd_ c' = fd_ c -> status_ c' = ADD ->
  mirrors (mkEpoller (<[fd_ c := i]> (channels_ p)) (<[fd_ c := (events_ c', i)]> (interest p))
             (list_size p) (<[i := c']> (store p))).
Proof.
  intros Hst Hfree Hfd Hst'. destruct Hmirrors as [Hm Hk].
  assert (Hnone : forall j, ~ registered (store p) j (fd_ c)) by (intros j Hj%Hm; congruence).
  split; simpl.
  - intros fd j. rewrite lookup_insert_Some, registered_insert, Hm, Hfd, Hst'. split.
    + intros [[<- <-]|[Hne Hr]]; [by left|right]. split; [|done]. intros ->.
      apply registered_own in Hr. naive_solver.
    + intros [(-> & <- & _)|[Hj Hr]]; [by left|right]. split; [|done]. intros <-. by eapply Hnone.
  - intros fd ev j. rewrite lookup_insert_Some, watched_insert, Hk, Hfd. split.
    + intros [[<- [= <- <-]]|[Hne Hr]]; [by left|right]. split; [|done]. intros ->.
      apply watched_registered, registered_own in Hr. naive_solver.
    + intros [(-> & <- & _ & <-)|[Hj Hr]]; [by left|right]. split; [|done]. intros <-.
      by eapply Hnone, watched_registered.
Qed.

Lemma mirrors_mod c' :
  status_ c = ADD -> fd_ c' = fd_ c -> status_ c' = ADD ->
  mirrors (mkEpoller (channels_ p) (<[fd_ c := (events_ c', i)]> (interest p))
             (list_size p) (<[i := c']> (store p))).
Proof.
  intros Hst Hfd Hst'. destruct Hmirrors as [Hm Hk].
  assert (Hown : registered (store p) i (fd_ c)) by (apply registered_own; by rewrite Hst).
  split; simpl.
  - intros fd j. rewrite registered_insert, Hm, Hfd, Hst'. split.
    + intros Hr. destruct (decide (j = i)) as [->|]; [left|by right].
      apply registered_own in Hr. naive_solver.
    + intros [(-> & <- & _)|[_ ?]]; done.
  - intros fd ev j. rewrite lookup_insert_Some, watched_insert, Hk, Hfd. split.
    + intros [[<- [= <- <-]]|[Hne Hr]]; [by left|right]. split; [|done]. intros ->.
      apply watched_registered, registered_own in Hr. naive_solver.
    + intros [(-> & <- & _ & <-)|[Hj Hr]]; [by left|right]. split; [|done]. intros <-.
      apply Hj. by eapply registered_inj; [eapply watched_registered|].
Qed.

Lemma mirrors_del c' :
  status_ c <> NEW -> fd_ c' = fd_ c -> status_ c' = DEL ->
  mirrors (mkEpoller (channels_ p) (delete (fd_ c) (interest p))
             (list_size p) (<[i := c']> (store p))).
Proof.
  intros Hst Hfd Hst'. destruct Hmirrors as [Hm Hk].
  assert (Hown : registered (store p) i (fd_ c)) by (by apply registered_own).
  split; simpl.
  - intros fd j. rewrite registered_insert, Hm, Hfd, Hst'. split.
    + intros Hr. destruct (decide (j = i)) as [->|]; [left|by right].
      apply registered_own in Hr. naive_solver.
    + intros [(-> & <- & _)|[_ ?]]; done.
  - intros fd ev j. rewrite lookup_delete_Some, watched_insert, Hk, Hst'. split.
    + intros [Hne Hr]. right. split; [|done]. intros ->.
      apply watched_registered, registered_own in Hr. naive_solver.
    + intros [(_ & _ & ? & _)|[Hj Hr]]; [done|]. split; [|done]. intros <-.
      apply Hj. by eapply registered_inj; [eapply watched_registered|].
Qed.

Lemma mirrors_remove c' :
  status_ c <> NEW -> status_ c' = NEW ->
  mirrors (mkEpoller (delete (fd_ c) (channels_ p)) (delete (fd_ c) (interest p))
             (list_size p) (<[i := c']> (store p))).
Proof.
  intros Hst Hst'. destruct Hmirrors as [Hm Hk].
  assert (Hown : registered (store p) i (fd_ c)) by (by apply registered_own).
  split; simpl.
  - intros fd j. rewrite lookup_delete_Some, registered_insert, Hm, Hst'. split.
    + intros [Hne Hr]. right. split; [|done]. intros ->. apply registered_own in Hr. naive_solver.
    + intros [(_ & _ & ?)|[Hj Hr]]; [done|]. split; [|done]. intros <-. by eapply Hj, registered_inj.
  - intros fd ev j. rewrite lookup_delete_Some, watched_insert, Hk, Hst'. split.
    + intros [Hne Hr]. right. split; [|done]. intros ->.
      apply watched_registered, registered_own in Hr. naive_solver.
    + intros [(_ & _ & ? & _)|[Hj Hr]]; [done|]. split; [|done]. intros <-.
      apply Hj. by eapply registered_inj; [eapply watched_registered|].
Qed.
End mirrors.

(** ** Operations *)

Definition changed (f : Z -> Z) (c : Channel) : Channel := set_added true (set_events (f (events_ c)) c).

Lemma interest_none p fd : mirrors p -> channels_ p !! fd = None -> interest p !! fd = None.
Proof.
  intros [Hm Hk] Hn. destruct (interest p !! fd) as [[ev j]|] eqn:He; [|done].
  apply Hk, watched_registered, Hm in He. congruence.
Qed.

Lemma interest_some p i c :
  mirrors p -> store p !! i = Some c -> status_ c = ADD -> interest p !! fd_ c = Some (events_ c, i).
Proof. intros [_ Hk] Hc Hst. apply Hk. by exists c. Qed.

(** What every enable and disable operation does, by the state of the channel. *)
Lemma with_events_cases f p i c :
  mirrors p -> store p !! i = Some c ->
  let c' := changed f c in
  with_events f i p =
    match status_ c with
    | NEW =>
        if decide (channels_ p !! fd_ c = None)
        then Ok (mkEpoller (<[fd_ c := i]> (channels_ p)) (<[fd_ c := (events_ c', i)]> (interest p))
                   (list_size p) (<[i := set_status ADD c']> (store p)))
        else Fault AssertFailed
    | ADD =>
        if is_none_event c'
        then Ok (mkEpoller (channels_ p) (delete (fd_ c) (interest p)) (list_size p)
                   (<[i := set_status DEL c']> (store p)))
        else Ok (mkEpoller (channels_ p) (<[fd_ c := (events_ c', i)]> (interest p)) (list_size p)
                   (<[i := c']> (store p)))
    | DEL => Fault AssertFailed
    end.
Proof.
  intros Hp Hc c'. unfold with_events. rewrite Hc. cbn [of_option]. rewrite bind_ok.
  fold c'. change (set_added true (set_events (f (events_ c)) c)) with c'.
  unfold update_channel. cbn [store set_chan]. rewrite lookup_insert_eq. cbn [of_option]. rewrite bind_ok.
  change (status_ c') with (status_ c). change (fd_ c') with (fd_ c).
  cbn [channels_ set_chan]. destruct (status_ c) eqn:Hst.
  - case_decide as Hd.
    + rewrite bool_decide_true by done. cbn [assert_]. rewrite bind_ok. unfold update. simpl.
      change (fd_ c') with (fd_ c). rewrite (interest_none p _ Hp Hd). unfold set_interest. simpl.
      by rewrite insert_insert_eq.
    + by rewrite bool_decide_false.
  - unfold update. simpl. change (fd_ c') with (fd_ c). rewrite (interest_some p i c) by done.
    destruct (is_none_event c'); unfold set_interest, set_chan; simpl; by rewrite ?insert_insert_eq.
  - rewrite bool_decide_false; [done|].
    destruct Hp as [Hm _]. intros Hn. assert (channels_ p !! fd_ c = Some i) as Hs; [|congruence].
    apply Hm. exists c. by rewrite Hst.
Qed.

Lemma with_events_mirrors f i p p' : mirrors p -> with_events f i p = Ok p' -> mirrors p'.
Proof.
  intros Hp Hw. pose proof Hw as Hw'. unfold with_events in Hw'.
  destruct (store p !! i) as [c|] eqn:Hc; [clear Hw'|done].
  rewrite (with_events_cases f p i c) in Hw by done. cbv zeta in Hw.
  destruct (status_ c) eqn:Hst.
  - case_decide; simplify_eq. by apply (mirrors_add p i c Hp Hc (set_status ADD (changed f c))).
  - destruct (is_none_event _); simplify_eq.
    + apply (mirrors_del p i c Hp Hc (set_status DEL (changed f c))); [by rewrite Hst|done..].
    + by apply (mirrors_mod p i c Hp Hc (changed f c)).
  - done.
Qed.

Lemma remove_cases p i c :
  mirrors p -> store p !! i = Some c ->
  remove i p =
    if is_none_event c && negb (bool_decide (status_ c = NEW))
    then Ok (mkEpoller (delete (fd_ c) (channels_ p)) (delete (fd_ c) (interest p)) (list_size p)
               (<[i := set_status NEW (set_added false c)]> (store p)))
    else Fault AssertFailed.
Proof.
  intros Hp Hc. unfold remove. rewrite Hc. cbn [of_option]. rewrite bind_ok.
  destruct (is_none_event c); [|done]. cbn [assert_ andb]. rewrite bind_ok.
  unfold remove_channel. cbn [store set_chan]. rewrite lookup_insert_eq. cbn [of_option]. rewrite bind_ok.
  change (status_ (set_added false c)) with (status_ c). change (fd_ (set_added false c)) with (fd_ c).
  destruct (status_ c) eqn:Hst; cbn [bool_decide decide_rel negb orb].
  - done.
  - rewrite !bool_decide_true, bool_decide_false by done. cbn [orb assert_ negb]. rewrite bind_ok.
    unfold update, set_channels, set_chan, set_interest. simpl.
    change (fd_ (set_added false c)) with (fd_ c). rewrite (interest_some p i c) by done. simpl.
    by rewrite insert_insert_eq.
  - rewrite !(bool_decide_false (DEL = _)), bool_decide_true by done. cbn [orb assert_ negb]. rewrite bind_ok.
    unfold set_channels, set_chan. simpl. rewrite insert_insert_eq, (delete_id (interest p)); [done|].
    destruct (interest p !! fd_ c) as [[ev j]|] eqn:He; [|done]. exfalso.
    destruct Hp as [Hm Hk]. apply Hk in He.
    assert (j = i) as ->.
    { eapply registered_inj; [by split|by eapply watched_registered|]. exists c. by rewrite Hst. }
    destruct He as (d & Hd & _ & Hadd & _). naive_solver congruence.
Qed.

Lemma remove_mirrors i p p' : mirrors p -> remove i p = Ok p' -> mirrors p'.
Proof.
  intros Hp Hw. pose proof Hw as Hw'. unfold remove in Hw'.
  destruct (store p !! i) as [c|] eqn:Hc; [clear Hw'|done].
  rewrite (remove_cases p i c) in Hw by done. destruct (_ && _) eqn:Hb; simplify_eq.
  apply andb_true_iff in Hb as [_ Hst%negb_true_iff%bool_decide_eq_false].
  by apply (mirrors_remove p i c Hp Hc (set_status NEW (set_added false c))).
Qed.

Lemma set_revents_mirrors p i c r :
  mirrors p -> store p !! i = Some c -> mirrors (set_chan i (set_revents r c) p).
Proof.
  intros [Hm Hk] Hc. split; simpl.
  - intros fd j. rewrite Hm, registered_insert. simpl. split.
    + intros Hr. destruct (decide (j = i)) as [->|]; [left|by right].
      by apply (registered_own p i c Hc) in Hr.
    + intros [(-> & Hr)|[_ ?]]; [by apply (registered_own p i c Hc)|done].
  - intros fd ev j. rewrite Hk, watched_insert. simpl. split.
    + intros Hr. destruct (decide (j = i)) as [->|]; [left|by right].
      destruct Hr as (d & Hd & ?). naive_solver.
    + intros [(-> & Hr)|[_ ?]]; [by exists c|done].
Qed.

(** A new channel is not registered yet. *)
Lemma fresh_mirrors i fd p :
  mirrors p -> store p !! i = None -> mirrors (set_chan i (new_channel fd) p).
Proof.
  intros [Hm Hk] Hn. split; simpl.
  - intros fd' j. rewrite Hm, registered_insert. simpl. split.
    + intros Hr. right. split; [|done]. intros ->. destruct Hr as (c & Hc & _). congruence.
    + intros [(_ & _ & Hb)|[_ ?]]; done.
  - intros fd' ev j. rewrite Hk, watched_insert. simpl. split.
    + intros Hr. right. split; [|done]. intros ->. destruct Hr as (c & Hc & _). congruence.
    + intros [(_ & _ & Hb & _)|[_ ?]]; done.
Qed.

Lemma fill_mirrors evs : forall p act p', mirrors p -> fill_active_channels evs p = Ok (act, p') ->
  mirrors p' /\ act = evs.*2.
Proof.
  induction evs as [|[r i] evs IH]; intros p act p' Hp Hf; cbn [fill_active_channels] in Hf.
  - by simplify_eq.
  - destruct (store p !! i) as [c|] eqn:Hc; [|done]. cbn [of_option] in Hf. rewrite bind_ok in Hf.
    inv_bind Hf. destruct a as [act1 p1]. simplify_eq.
    destruct (IH _ _ _ (set_revents_mirrors p i c r Hp Hc) Ha) as [? ->]. done.
Qed.

(** *** Sequences of calls *)

Inductive chan_op : Type :=
  | OpEnableReading (i : chan) | OpDisableReading (i : chan)
  | OpEnableWriting (i : chan) | OpDisableWriting (i : chan)
  | OpDisableAll (i : chan) | OpRemove (i : chan)
  | OpPoll (evs : option (list (Z * chan))).

Definition chan_step (op : chan_op) (p : Epoller) : result Epoller :=
  match op with
  | OpEnableReading i => enable_reading i p
  | OpDisableReading i => disable_reading i p
  | OpEnableWriting i => enable_writing i p
  | OpDisableWriting i => disable_writing i p
  | OpDisableAll i => disable_all i p
  | OpRemove i => remove i p
  | OpPoll evs => snd <$> poll evs p
  end.

Fixpoint chan_run (ops : list chan_op) (p : Epoller) : result Epoller :=
  match ops with
  | [] => Ok p
  | op :: ops => p1 ← chan_step op p; chan_run ops p1
  end.

Lemma chan_step_mirrors op p p' : mirrors p -> chan_step op p = Ok p' -> mirrors p'.
Proof.
  intros Hp. destruct op as [i|i|i|i|i|i|evs]; cbn [chan_step]; try apply (with_events_mirrors _ i p p' Hp);
    [by apply remove_mirrors|].
  unfold poll. destruct evs as [[|e evs]|]; cbn [fmap result_fmap]; [naive_solver| |naive_solver].
  destruct (fill_active_channels (e :: evs) p) as [[act p1]|] eqn:Hf; cbn; [|done].
  intros [= <-]. by apply fill_mirrors in Hf as [? _].
Qed.

Lemma new_poller_mirrors chans :
  (forall i c, chans !! i = Some c -> status_ c = NEW) -> mirrors (new_poller chans).
Proof.
  intros Hnew. split; simpl.
  - intros fd i. rewrite lookup_empty. split; [done|]. intros (c & Hc & _ & Hst). by apply Hnew in Hc.
  - intros fd ev i. rewrite lookup_empty. split; [done|]. intros (c & Hc & _ & Hst & _).
    apply Hnew in Hc. congruence.
Qed.

(** C18: Whatever calls are made on fresh channels, as long as no assertion fails
    the map holds the registered channels under their descriptors and the
    kernel watches exactly the added ones, for the events they want now. *)
Theorem registry_mirrors_kernel (chans : gmap nat Channel) (ops : list chan_op) (p : Epoller) :
  (forall i c, chans !! i = Some c -> status_ c = NEW) ->
  chan_run ops (new_poller chans) = Ok p -> mirrors p.
Proof.
  intros Hnew. pose proof (new_poller_mirrors chans Hnew) as Hp. revert Hp.
  generalize (new_poller chans) as p0. induction ops as [|op ops IH]; intros p0 Hp Hrun; cbn in Hrun.
  - by simplify_eq.
  - inv_bind Hrun. eapply IH; [|exact Hrun]. by eapply chan_step_mirrors.
Qed.

(** A channel whose events were all disabled cannot be changed again: the
    assertions of the branch for it contradict each other.  Only removing it
    from the poller makes it usable. *)
Theorem disabled_channel_stuck (p : Epoller) (i : nat) (c : Channel) (f : Z -> Z) :
  mirrors p -> store p !! i = Some c -> status_ c = ADD -> f (events_ c) = kNoneEvent ->
  exists p1, with_events f i p = Ok p1 /\ (forall g, with_events g i p1 = Fault AssertFailed) /\
    exists p2, remove i p1 = Ok p2 /\ channels_ p2 !! fd_ c = None /\ interest p2 !! fd_ c = None.
Proof.
  intros Hp Hc Hst Hf. pose proof (with_events_cases f p i c Hp Hc) as Hw. cbv zeta in Hw.
  assert (Hnone : is_none_event (changed f c) = true) by (unfold is_none_event; simpl; by rewrite Hf).
  rewrite Hst, Hnone in Hw. eexists. split; [exact Hw|]. set (p1 := mkEpoller _ _ _ _) in *.
  assert (Hp1 : mirrors p1) by (by eapply with_events_mirrors).
  assert (Hc1 : store p1 !! i = Some (set_status DEL (changed f c))) by apply lookup_insert_eq.
  split; [intros g; by rewrite (with_events_cases g p1 i _ Hp1 Hc1)|].
  eexists. rewrite (remove_cases p1 i _ Hp1 Hc1).
  change (is_none_event (set_status DEL (changed f c))) with (is_none_event (changed f c)).
  rewrite Hnone, bool_decide_false by done. split; [reflexivity|]. simpl.
  by rewrite !lookup_delete_eq.
Qed.

(** The events that call a callback. *)
Definition triggers (r : Z) (k : callback) : bool :=
  match k with
  | CloseCb => has_bits r POLLHUP && negb (has_bits r POLLIN)
  | ErrorCb => has_bits r (Z.lor POLLERR POLLNVAL)
  | ReadCb => has_bits r (Z.lor (Z.lor POLLIN POLLPRI) POLLRDHUP)
  | WriteCb => has_bits r POLLOUT
  end.

(** The callbacks run are the installed ones whose events were returned, each
    once, close before error before read before write; a tied channel whose
    owner is gone runs none. *)
Theorem dispatch_order (installed : callback -> bool) (alive : bool) (c : Channel) :
  let called := handle_event installed alive c in
  called `sublist_of` [CloseCb; ErrorCb; ReadCb; WriteCb] /\
  forall k, k ∈ called <->
    installed k = true /\ triggers (revents_ c) k = true /\ (tied_ c = true -> alive = true).
Proof.
  cbv zeta. unfold handle_event.
  assert (Hg : handle_event_guard_ installed c `sublist_of` [CloseCb; ErrorCb; ReadCb; WriteCb] /\
    forall k, k ∈ handle_event_guard_ installed c <-> installed k = true /\ triggers (revents_ c) k = true).
  { assert (Heq : handle_event_guard_ installed c =
      filter (fun k => triggers (revents_ c) k && installed k = true) [CloseCb; ErrorCb; ReadCb; WriteCb]).
    { unfold handle_event_guard_, call_if. cbn [filter list_filter]. cbn [triggers].
      repeat case_decide; repeat match goal with H : ?b = true |- context [?b] => rewrite H
        | H : ?b <> true |- context [?b] => rewrite (proj1 (not_true_iff_false _) H) end; done. }
    rewrite Heq. split; [apply sublist_filter|]. intros k.
    rewrite list_elem_of_filter, andb_true_iff. destruct k; set_solver. }
  destruct Hg as [Hs Hk]. destruct (tied_ c); [destruct alive|]; split; try done.
  - intros k. rewrite Hk. naive_solver.
  - apply sublist_nil_l.
  - intros k. rewrite elem_of_nil. naive_solver.
  - intros k. rewrite Hk. naive_solver.
Qed.

(** ** Witnesses *)

Definition demo_chans : gmap nat Channel := {[ 0%nat := new_channel 5; 1%nat := new_channel 6 ]}.

Definition demo_chan_ops : list chan_op :=
  [OpEnableReading 0; OpEnableReading 1; OpEnableWriting 0; OpPoll (Some [(POLLIN, 1%nat)]);
   OpDisableAll 1; OpRemove 1; OpEnableReading 1].

Theorem registry_mirrors_kernel_witness :
  exists p, chan_run demo_chan_ops (new_poller demo_chans) = Ok p /\ mirrors p.
Proof.
  destruct (chan_run demo_chan_ops (new_poller demo_chans)) as [p|] eqn:Hrun;
    [|vm_compute in Hrun; discriminate].
  exists p. split; [done|]. apply (registry_mirrors_kernel demo_chans demo_chan_ops p); [|done].
  intros i c. unfold demo_chans.
  by intros [[<- <-]|[_ [<- <-]%lookup_singleton_Some]]%lookup_insert_Some.
Defined.

Definition demo_added : Epoller :=
  mkEpoller {[ 5 := 0%nat ]} {[ 5 := (3, 0%nat) ]} 16
    {[ 0%nat := mkChannel 5 3 0 ADD false false true ]}.

Lemma demo_added_mirrors : mirrors demo_added.
Proof.
  split; simpl.
  - intros fd i. rewrite lookup_singleton_Some. unfold registered. split.
    + intros [<- <-]. eexists. by rewrite lookup_singleton_eq.
    + intros (c & [<- <-]%lookup_singleton_Some & <- & _). done.
  - intros fd ev i. rewrite lookup_singleton_Some. unfold watched. split.
    + intros [<- [= <- <-]]. eexists. by rewrite lookup_singleton_eq.
    + intros (c & [<- <-]%lookup_singleton_Some & <- & _ & <-). done.
Qed.

Theorem disabled_channel_stuck_witness :
  exists p1, disable_reading 0 demo_added = Ok p1 /\
    (forall g, with_events g 0 p1 = Fault AssertFailed) /\
    exists p2, remove 0 p1 = Ok p2 /\ channels_ p2 !! 5 = None /\ interest p2 !! 5 = None.
Proof.
  apply (disabled_channel_stuck demo_added 0 (mkChannel 5 3 0 ADD false false true)
           (fun e => Z.land e (Z.lnot kReadEvent)) demo_added_mirrors); reflexivity.
Defined.
