(* ===== verification/TcpConnection.v ===== *)
(** * TcpConnection: one connection (src/server/tcpconnection.h, tcpconnection.cc)

    The connection's life is a sequence of calls and events: requests of the
    program, events the poller reports, functors the loop runs.  The state has
    the status, the two buffers, the connection's channel in the poller, the
    functors queued in the loop and what reached the socket.  Callbacks are
    recorded in the order they run; what a callback calls is a further step. *)

From stdpp Require Import base list numbers gmap.
From Stdlib Require Import ZArith Lia.
From S2P Require Import Prelude Buffer Channel.

Local Open Scope Z_scope.
Local Open Scope result_scope.

(** ** State *)

Inductive Status : Type := DISCONNECTED | CONNECTING | CONNECTED | DISCONNECTING.

#[export] Instance Status_eq_dec : EqDecision Status.
Proof. solve_decision. Defined.

(** Functors bound to the connection.  [send] from another thread binds the
    pointer and the length, not the bytes: what it sends is what the memory
    holds when the functor runs. *)
Inductive functor : Type :=
  | FSend (len : nat)
  | FShutdown
  | FForceClose
  | FStartRead
  | FStopRead
  | FWriteComplete
  | FHighWater (len : Z).

Inductive event : Type :=
  | EvConnection (up : bool)
  | EvMessage
  | EvClose
  | EvWriteComplete
  | EvHighWater (len : Z).

(** The peer's side: what the kernel accepted, and whether the writing half
    was shut down. *)
Record socket : Type := mkSocket { wire : bytes; wr_closed : bool }.

Record TcpConnection : Type := mkConn {
  status_ : Status;
  reading_ : bool;
  channel_ : nat;
  input_buffer_ : Buffer;
  output_buffer_ : Buffer;
  high_water_mark_ : Z;
  write_complete_cb_ : bool;
  pending_ : list functor;
  events_log : list event;
  socket_ : socket;
  poller_ : Epoller
}.

Definition set_status_ (s : Status) (c : TcpConnection) : TcpConnection :=
  mkConn s (reading_ c) (channel_ c) (input_buffer_ c) (output_buffer_ c) (high_water_mark_ c)
    (write_complete_cb_ c) (pending_ c) (events_log c) (socket_ c) (poller_ c).
Definition set_reading (b : bool) (c : TcpConnection) : TcpConnection :=
  mkConn (status_ c) b (channel_ c) (input_buffer_ c) (output_buffer_ c) (high_water_mark_ c)
    (write_complete_cb_ c) (pending_ c) (events_log c) (socket_ c) (poller_ c).
Definition set_input (b : Buffer) (c : TcpConnection) : TcpConnection :=
  mkConn (status_ c) (reading_ c) (channel_ c) b (output_buffer_ c) (high_water_mark_ c)
    (write_complete_cb_ c) (pending_ c) (events_log c) (socket_ c) (poller_ c).
Definition set_output (b : Buffer) (c : TcpConnection) : TcpConnection :=
  mkConn (status_ c) (reading_ c) (channel_ c) (input_buffer_ c) b (high_water_mark_ c)
    (write_complete_cb_ c) (pending_ c) (events_log c) (socket_ c) (poller_ c).
Definition set_pending (l : list functor) (c : TcpConnection) : TcpConnection :=
  mkConn (status_ c) (reading_ c) (channel_ c) (input_buffer_ c) (output_buffer_ c) (high_water_mark_ c)
    (write_complete_cb_ c) l (events_log c) (socket_ c) (poller_ c).
Definition emit (e : event) (c : TcpConnection) : TcpConnection :=
  mkConn (status_ c) (reading_ c) (channel_ c) (input_buffer_ c) (output_buffer_ c) (high_water_mark_ c)
    (write_complete_cb_ c) (pending_ c) (events_log c ++ [e]) (socket_ c) (poller_ c).
Definition set_socket (s : socket) (c : TcpConnection) : TcpConnection :=
  mkConn (status_ c) (reading_ c) (channel_ c) (input_buffer_ c) (output_buffer_ c) (high_water_mark_ c)
    (write_complete_cb_ c) (pending_ c) (events_log c) s (poller_ c).
Definition set_poller (p : Epoller) (c : TcpConnection) : TcpConnection :=
  mkConn (status_ c) (reading_ c) (channel_ c) (input_buffer_ c) (output_buffer_ c) (high_water_mark_ c)
    (write_complete_cb_ c) (pending_ c) (events_log c) (socket_ c) p.

(** The constructor: 64 MB high-water mark, channel [i] of the poller. *)
Definition new_connection (i : nat) (wc : bool) (p : Epoller) : TcpConnection :=
  mkConn CONNECTING true i (new_buffer initial_size_default) (new_buffer initial_size_default)
    (64 * 1024 * 1024) wc [] [] (mkSocket [] false) p.

(** The destructor asserts, and then destroys the channel. *)
Definition destroy (c : TcpConnection) : result unit :=
  assert! (bool_decide (status_ c = DISCONNECTED));
  ch ← of_option NullDeref (store (poller_ c) !! channel_ c);
  destroy_channel ch.

Definition is_connected (c : TcpConnection) : bool := bool_decide (status_ c = CONNECTED).

(** ** Helpers *)

Definition queue_in_loop (f : functor) (c : TcpConnection) : TcpConnection :=
  set_pending (pending_ c ++ [f]) c.

Definition get_channel (c : TcpConnection) : result Channel :=
  of_option NullDeref (store (poller_ c) !! channel_ c).

Definition on_channel (f : nat -> Epoller -> result Epoller) (c : TcpConnection) : result TcpConnection :=
  p ← f (channel_ c) (poller_ c); Ok (set_poller p c).

Definition write_to_wire (data : bytes) (c : TcpConnection) : TcpConnection :=
  set_socket (mkSocket (wire (socket_ c) ++ data) (wr_closed (socket_ c))) c.

Definition EPIPE : Z := 32.
Definition ECONNRESET : Z := 104.
Definition EWOULDBLOCK : Z := 11.

(** ** In the loop thread *)

(** An error that means the peer is gone. *)
Definition fault_error (errno : Z) : bool :=
  negb (errno =? EWOULDBLOCK) && ((errno =? EPIPE) || (errno =? ECONNRESET)).

(** The direct attempt of [send_in_loop_]: bytes written, bytes remaining,
    whether the data is given up, and the new state. *)
Definition try_send (data : bytes) (sent : io nat) (c : TcpConnection) :
    nat * Z * bool * TcpConnection :=
  let len := Z.of_nat (length data) in
  match sent with
  | IoOk n =>
      let remaining := u64 (len - Z.of_nat n) in
      let c1 := write_to_wire (take n data) c in
      (n, remaining, false,
       if (remaining =? 0) && write_complete_cb_ c then queue_in_loop FWriteComplete c1 else c1)
  | IoErr errno => (0%nat, len, fault_error errno, c)
  end.

(** Keep what was not sent, and ask to be told when the socket is writable. *)
Definition store_rest (rest : bytes) (c : TcpConnection) : result TcpConnection :=
  let remaining := Z.of_nat (length rest) in
  let old_len := read_able_bytes (output_buffer_ c) in
  let c1 := if (high_water_mark_ c <=? u64 (old_len + remaining)) && (old_len <? high_water_mark_ c)
            then queue_in_loop (FHighWater (u64 (old_len + remaining))) c else c in
  out ← append rest (output_buffer_ c1);
  let c2 := set_output out c1 in
  ch ← get_channel c2;
  if is_writing ch then Ok c2 else on_channel enable_writing c2.

Definition send_in_loop_ (data : bytes) (sent : io nat) (c : TcpConnection) : result TcpConnection :=
  if bool_decide (status_ c = DISCONNECTED) then Ok c
  else
    ch ← get_channel c;
    let len := Z.of_nat (length data) in
    let '(nwrote, remaining, fault, c1) :=
      if negb (is_writing ch) && (read_able_bytes (output_buffer_ c) =? 0)
      then try_send data sent c else (0%nat, len, false, c) in
    assert! (remaining <=? len);
    if negb fault && (0 <? remaining) then store_rest (drop nwrote data) c1 else Ok c1.

Definition shutdown_in_loop_ (c : TcpConnection) : result TcpConnection :=
  if bool_decide (status_ c = CONNECTED) then
    let c1 := set_status_ DISCONNECTING c in
    ch ← get_channel c1;
    if negb (is_writing ch) then Ok (set_socket (mkSocket (wire (socket_ c1)) true) c1) else Ok c1
  else Ok c.

Definition handle_close_ (c : TcpConnection) : result TcpConnection :=
  assert! (bool_decide (status_ c = CONNECTED) || bool_decide (status_ c = DISCONNECTING));
  c1 ← on_channel disable_all (set_status_ DISCONNECTED c);
  Ok (emit EvClose (emit (EvConnection (is_connected c1)) c1)).

(** The condition of the code: connected and connecting at once. *)
Definition force_close_in_loop_ (c : TcpConnection) : result TcpConnection :=
  if bool_decide (status_ c = CONNECTED) && bool_decide (status_ c = CONNECTING)
  then handle_close_ c else Ok c.

Definition start_read_in_loop_ (c : TcpConnection) : result TcpConnection :=
  ch ← get_channel c;
  if negb (reading_ c) || negb (is_reading ch)
  then c1 ← on_channel enable_reading c; Ok (set_reading true c1) else Ok c.

Definition stop_read_in_loop_ (c : TcpConnection) : result TcpConnection :=
  ch ← get_channel c;
  if reading_ c || is_reading ch
  then c1 ← on_channel disable_reading c; Ok (set_reading false c1) else Ok c.

Definition build_connect (c : TcpConnection) : result TcpConnection :=
  assert! (bool_decide (status_ c = CONNECTING));
  let c1 := set_status_ CONNECTED c in
  ch ← get_channel c1;
  c2 ← on_channel enable_reading (set_poller (set_chan (channel_ c1) (tie ch) (poller_ c1)) c1);
  Ok (emit (EvConnection (is_connected c2)) c2).

Definition destroy_connect (c : TcpConnection) : result TcpConnection :=
  c1 ← (if bool_decide (status_ c = CONNECTED) then
          c' ← on_channel disable_all (set_status_ DISCONNECTING c);
          Ok (emit (EvConnection (is_connected c')) c')
        else Ok c);
  on_channel remove c1.

Definition handle_read_ (readv : io bytes) (c : TcpConnection) : result TcpConnection :=
  '(n, _, b) ← read_fd readv (input_buffer_ c);
  let c1 := set_input b c in
  if 0 <? n then Ok (emit EvMessage c1)
  else if n =? 0 then handle_close_ c1
  else Ok c1.

Definition handle_write_ (written : io nat) (c : TcpConnection) : result TcpConnection :=
  ch ← get_channel c;
  if is_writing ch then
    match written with
    | IoOk (S _ as n) =>
        out ← Buffer.retrieve (Z.of_nat n) (output_buffer_ c);
        let c1 := write_to_wire (take n (contents (output_buffer_ c))) (set_output out c) in
        if read_able_bytes out =? 0 then
          c2 ← on_channel disable_writing c1;
          let c3 := if write_complete_cb_ c2 then queue_in_loop FWriteComplete c2 else c2 in
          if bool_decide (status_ c3 = DISCONNECTING) then shutdown_in_loop_ c3 else Ok c3
        else Ok c1
    | _ => Ok c
    end
  else Ok c.

(** ** The public calls *)

(** [loop_->run_in_loop]. *)
Definition run_in_loop (in_loop : bool) (f : functor) (now : TcpConnection -> result TcpConnection)
    (c : TcpConnection) : result TcpConnection :=
  if in_loop then now c else Ok (queue_in_loop f c).

(** [send] of a string or of a pointer and a length. *)
Definition send (in_loop : bool) (data : bytes) (sent : io nat) (c : TcpConnection) : result TcpConnection :=
  if bool_decide (status_ c = CONNECTED)
  then run_in_loop in_loop (FSend (length data)) (send_in_loop_ data sent) c
  else Ok c.

(** [send] of a buffer: emptied when the loop's own thread sends it, left as
    it is when another thread does. *)
Definition send_buffer (in_loop : bool) (buff : Buffer) (sent : io nat) (c : TcpConnection) :
    result (Buffer * TcpConnection) :=
  if bool_decide (status_ c = CONNECTED) then
    c1 ← send in_loop (contents buff) sent c;
    Ok (if in_loop then retrieve_all buff else buff, c1)
  else Ok (buff, c).

Definition shutdown (in_loop : bool) : TcpConnection -> result TcpConnection :=
  run_in_loop in_loop FShutdown shutdown_in_loop_.
Definition start_read (in_loop : bool) : TcpConnection -> result TcpConnection :=
  run_in_loop in_loop FStartRead start_read_in_loop_.
Definition stop_read (in_loop : bool) : TcpConnection -> result TcpConnection :=
  run_in_loop in_loop FStopRead stop_read_in_loop_.

Definition force_close (c : TcpConnection) : TcpConnection :=
  if bool_decide (status_ c = CONNECTED) || bool_decide (status_ c = CONNECTING)
  then queue_in_loop FForceClose (set_status_ DISCONNECTING c) else c.

(** A queued functor runs; [late] is what the memory of a sent message holds by
    then, [sent] the socket's answer. *)
Definition run_functor (f : functor) (late : bytes) (sent : io nat) (c : TcpConnection) :
    result TcpConnection :=
  match f with
  | FSend len => guard_ OutOfRange (len <=? length late)%nat ≫= fun _ => send_in_loop_ (take len late) sent c
  | FShutdown => shutdown_in_loop_ c
  | FForceClose => force_close_in_loop_ c
  | FStartRead => start_read_in_loop_ c
  | FStopRead => stop_read_in_loop_ c
  | FWriteComplete => Ok (emit EvWriteComplete c)
  | FHighWater len => Ok (emit (EvHighWater len) c)
  end.

(** ** Steps *)

Inductive conn_op : Type :=
  | OpBuild
  | OpSend (in_loop : bool) (data : bytes) (sent : io nat)
  | OpShutdown (in_loop : bool)
  | OpForceClose
  | OpStartRead (in_loop : bool)
  | OpStopRead (in_loop : bool)
  | OpReadable (readv : io bytes)
  | OpWritable (written : io nat)
  | OpHangup
  | OpRunQueued (late : bytes) (sent : io nat)   (* the oldest queued functor *)
  | OpDestroy.

Definition conn_step (op : conn_op) (c : TcpConnection) : result TcpConnection :=
  match op with
  | OpBuild => build_connect c
  | OpSend l d s => send l d s c
  | OpShutdown l => shutdown l c
  | OpForceClose => Ok (force_close c)
  | OpStartRead l => start_read l c
  | OpStopRead l => stop_read l c
  | OpReadable r => handle_read_ r c
  | OpWritable w => handle_write_ w c
  | OpHangup => handle_close_ c
  | OpRunQueued late s =>
      match pending_ c with
      | [] => Ok c
      | f :: fs => run_functor f late s (set_pending fs c)
      end
  | OpDestroy => destroy_connect c
  end.

Fixpoint conn_run (ops : list conn_op) (c : TcpConnection) : result TcpConnection :=
  match ops with
  | [] => Ok c
  | op :: ops => c1 ← conn_step op c; conn_run ops c1
  end.
