(* ===== verification/ConnectionProofs.v ===== *)
(** * ConnectionProofs: what a connection guarantees (src/server/tcpconnection.cc)

    The bytes a connection takes on reach the socket in order, what waits is
    watched for, the status only moves forward; and where the code misses what
    it means: shutting down with data waiting, closing by force, reading again
    after a stop. *)

From stdpp Require Import base list numbers strings gmap.
From Stdlib Require Import ZArith Lia.
From S2P Require Import Prelude Buffer Channel TcpConnection.

Local Open Scope Z_scope.

(** ** Frames *)

Lemma on_channel_ok f c c' :
  on_channel f c = Ok c' -> exists p, f (channel_ c) (poller_ c) = Ok p /\ c' = set_poller p c.
Proof. unfold on_channel. intros H. inv_bind H. simplify_eq. by exists a. Qed.

Lemma get_channel_ok c ch : get_channel c = Ok ch -> store (poller_ c) !! channel_ c = Some ch.
Proof. unfold get_channel. destruct (store _ !! _); simpl; congruence. Qed.

(** ** The byte stream *)

(** What the kernel took, then what waits. *)
Definition stream (c : TcpConnection) : bytes := wire (socket_ c) ++ contents (output_buffer_ c).

(** The part of a message the connection takes on: all of it, unless the
    connection is down or the direct attempt shows that the peer is gone. *)
Definition taken (data : bytes) (sent : io nat) (c : TcpConnection) : bytes :=
  if bool_decide (status_ c = DISCONNECTED) then []
  else
    match get_channel c, sent with
    | Ok ch, IoErr errno =>
        if negb (is_writing ch) && (read_able_bytes (output_buffer_ c) =? 0) && fault_error errno
        then [] else data
    | Ok _, IoOk _ => data
    | Fault _, _ => []
    end.

Definition accepted (op : conn_op) (c : TcpConnection) : bytes :=
  match op with
  | OpSend true d s => if bool_decide (status_ c = CONNECTED) then taken d s c else []
  | OpRunQueued late s =>
      match pending_ c with
      | FSend len :: fs => taken (take len late) s (set_pending fs c)
      | _ => []
      end
  | _ => []
  end.

Fixpoint run_accepted (ops : list conn_op) (c : TcpConnection) : bytes :=
  match ops with
  | [] => []
  | op :: ops =>
      accepted op c ++ match conn_step op c with Ok c1 => run_accepted ops c1 | Fault _ => [] end
  end.

(** Messages are no larger than a vector can be. *)
Definition sized (op : conn_op) : Prop :=
  match op with
  | OpSend _ d _ => Z.of_nat (length d) <= max_size
  | OpRunQueued late _ => Z.of_nat (length late) <= max_size
  | _ => True
  end.

(** [c'] has the bytes of [c] and then [d]. *)
Definition extends (c : TcpConnection) (d : bytes) (c' : TcpConnection) : Prop :=
  wf (output_buffer_ c') /\ stream c' = stream c ++ d.

Lemma extends_same c c' :
  wf (output_buffer_ c) -> output_buffer_ c' = output_buffer_ c -> wire (socket_ c') = wire (socket_ c) ->
  extends c [] c'.
Proof. intros Hwf Ho Hw. unfold extends, stream. by rewrite Ho, Hw, app_nil_r. Qed.

Lemma extends_trans c d1 c1 d2 c2 : extends c d1 c1 -> extends c1 d2 c2 -> extends c (d1 ++ d2) c2.
Proof. intros [_ H1] [Hwf H2]. split; [done|]. by rewrite H2, H1, app_assoc. Qed.

Lemma extends_poller c d c' p : extends c d c' -> extends c d (set_poller p c').
Proof. done. Qed.

Lemma store_rest_extends rest c c' :
  wf (output_buffer_ c) -> Z.of_nat (length rest) <= max_size ->
  store_rest rest c = Ok c' -> extends c rest c'.
Proof.
  intros Hwf Hl H. unfold store_rest in H. cbv zeta in H. inv_bind H. inv_bind H.
  match type of Ha with append _ (output_buffer_ ?x) = _ => set (c1 := x) in * end.
  assert (Hc1 : output_buffer_ c1 = output_buffer_ c /\ socket_ c1 = socket_ c)
    by (unfold c1; by destruct (_ && _)).
  destruct Hc1 as [Ho Hs]. rewrite Ho in Ha. destruct (append_ok_inv _ _ _ Hwf Hl Ha) as [Hwf' Hc'].
  assert (Hext : extends c rest (set_output a c1)).
  { split; [done|]. unfold stream. simpl. by rewrite Hs, Hc', app_assoc. }
  destruct (is_writing a0); [by simplify_eq|]. apply on_channel_ok in H as (p & _ & ->). exact Hext.
Qed.

Lemma empty_contents b : wf b -> (read_able_bytes b =? 0) = true -> contents b = [].
Proof.
  intros Hwf He. rewrite read_able_contents in He by done. apply Z.eqb_eq in He.
  apply length_zero_iff_nil. lia.
Qed.

Lemma send_in_loop_extends data sent c c' :
  wf (output_buffer_ c) -> Z.of_nat (length data) <= max_size ->
  send_in_loop_ data sent c = Ok c' -> extends c (taken data sent c) c'.
Proof.
  intros Hwf Hl H. unfold send_in_loop_ in H. unfold taken.
  case_bool_decide as Hd; [simplify_eq; by apply extends_same|].
  inv_bind H. rename a into ch. rewrite Ha. cbv zeta in H.
  destruct (negb (is_writing ch) && (read_able_bytes (output_buffer_ c) =? 0)) eqn:Hdir.
  - apply andb_true_iff in Hdir as [_ He]. pose proof (empty_contents _ Hwf He) as Hnil.
    destruct sent as [errno|n]; cbn [try_send] in H; inv_bind H.
    + cbn [andb]. destruct (fault_error errno); cbn [negb andb] in H.
      { simplify_eq. by apply extends_same. }
      destruct (Z.ltb_spec 0 (Z.of_nat (length data))) as [Hp|Hp].
      * by apply store_rest_extends.
      * simplify_eq. destruct data; [by apply extends_same|simpl in Hp; lia].
    + set (c1 := if (_ =? 0) && _ then _ else _) in *.
      assert (Hc1 : extends c (take n data) c1).
      { unfold c1. destruct (_ && _); (split; [exact Hwf|]); unfold stream; simpl; by rewrite Hnil, !app_nil_r. }
      cbn [negb andb] in H. rewrite <-(take_drop n data).
      destruct (Z.ltb_spec 0 (u64 (Z.of_nat (length data) - Z.of_nat n))) as [Hp|Hp].
      * eapply extends_trans; [exact Hc1|]. apply store_rest_extends; [apply Hc1| |done].
        rewrite length_drop. lia.
      * simplify_eq. assert (drop n data = []) as ->; [|by rewrite app_nil_r].
        apply drop_ge. destruct (decide (length data <= n)%nat) as [|Hn]; [done|].
        rewrite u64_small in Hp by (unfold max_size in *; lia). lia.
  - inv_bind H. cbn [negb andb] in H.
    assert (Ht : (match sent with
              | IoErr errno => if false && fault_error errno then [] else data
              | IoOk _ => data end) = data) by by destruct sent.
    rewrite Ht. destruct (Z.ltb_spec 0 (Z.of_nat (length data))) as [Hp|Hp].
    + by apply store_rest_extends.
    + simplify_eq. destruct data; [by apply extends_same|simpl in Hp; lia].
Qed.

(** Steps that leave the output alone. *)
Definition same_output (c c' : TcpConnection) : Prop :=
  output_buffer_ c' = output_buffer_ c /\ wire (socket_ c') = wire (socket_ c).

Lemma same_extends c c' : wf (output_buffer_ c) -> same_output c c' -> extends c [] c'.
Proof. intros Hwf [? ?]. by apply extends_same. Qed.

Lemma on_channel_same f c c' : on_channel f c = Ok c' -> same_output c c'.
Proof. intros (p & _ & ->)%on_channel_ok. done. Qed.

Lemma shutdown_same c c' : shutdown_in_loop_ c = Ok c' -> same_output c c'.
Proof.
  unfold shutdown_in_loop_. case_bool_decide as Hst; [|by intros [= <-]]. intros H. inv_bind H.
  destruct (negb _); by simplify_eq.
Qed.

Lemma handle_close_same c c' : handle_close_ c = Ok c' -> same_output c c'.
Proof.
  unfold handle_close_. intros H. inv_bind H. inv_bind H. simplify_eq.
  apply on_channel_same in Ha as [Ho Hw]. done.
Qed.

Lemma start_read_same c c' : start_read_in_loop_ c = Ok c' -> same_output c c'.
Proof.
  unfold start_read_in_loop_. intros H. inv_bind H. destruct (_ || _); [|by simplify_eq].
  inv_bind H. simplify_eq. by apply on_channel_same in Ha0.
Qed.

Lemma stop_read_same c c' : stop_read_in_loop_ c = Ok c' -> same_output c c'.
Proof.
  unfold stop_read_in_loop_. intros H. inv_bind H. destruct (_ || _); [|by simplify_eq].
  inv_bind H. simplify_eq. by apply on_channel_same in Ha0.
Qed.

Lemma force_close_same c c' : force_close_in_loop_ c = Ok c' -> same_output c c'.
Proof.
  unfold force_close_in_loop_. destruct (_ && _); [apply handle_close_same|by intros [= <-]].
Qed.

Lemma build_same c c' : build_connect c = Ok c' -> same_output c c'.
Proof.
  unfold build_connect. intros H. inv_bind H. inv_bind H. inv_bind H. simplify_eq.
  apply on_channel_same in Ha0 as [? ?]. done.
Qed.

Lemma destroy_same c c' : destroy_connect c = Ok c' -> same_output c c'.
Proof.
  unfold destroy_connect. intros H. inv_bind H. apply on_channel_same in H as [Ho Hw].
  case_bool_decide; [|by simplify_eq]. inv_bind Ha. simplify_eq.
  apply on_channel_same in Ha0 as [Ho' Hw']. split; simpl in *; congruence.
Qed.

Lemma handle_read_same r c c' : handle_read_ r c = Ok c' -> same_output c c'.
Proof.
  unfold handle_read_. intros H. inv_bind H. destruct a as [[n e] b].
  destruct (0 <? n); [by simplify_eq|]. destruct (n =? 0); [|by simplify_eq].
  by apply handle_close_same in H.
Qed.

Lemma handle_write_extends w c c' :
  wf (output_buffer_ c) -> handle_write_ w c = Ok c' -> extends c [] c'.
Proof.
  intros Hwf H. unfold handle_write_ in H. inv_bind H. destruct (is_writing a).
  2: { simplify_eq. by apply extends_same. }
  destruct w as [|[|n]]; [simplify_eq; by apply extends_same..|].
  inv_bind H. rename a0 into out. cbv zeta in H. set (m := S n) in *.
  destruct (retrieve_ok_inv _ _ _ Hwf (Zle_0_nat m) Ha0) as (Hwf' & Hc' & Hle). rewrite Nat2Z.id in Hc'.
  set (c1 := write_to_wire (take m (contents (output_buffer_ c))) (set_output out c)) in *.
  assert (Hc1 : extends c [] c1).
  { split; [exact Hwf'|]. unfold stream, c1. simpl.
    by rewrite Hc', <-app_assoc, (take_drop m), app_nil_r. }
  destruct (read_able_bytes out =? 0); [|by simplify_eq].
  inv_bind H. rename a0 into c2. apply on_channel_same in Ha1.
  assert (Hc3 : same_output c1 (if write_complete_cb_ c2 then queue_in_loop FWriteComplete c2 else c2))
    by (by destruct (write_complete_cb_ c2)).
  set (c3 := if write_complete_cb_ c2 then _ else _) in *.
  rewrite <-(app_nil_r []). eapply extends_trans; [exact Hc1|]. apply same_extends; [apply Hc1|].
  case_bool_decide; [|by simplify_eq]. apply shutdown_same in H as [Ho Hw]. destruct Hc3 as [Ho3 Hw3].
  split; congruence.
Qed.

Lemma send_extends l d s c c' :
  wf (output_buffer_ c) -> Z.of_nat (length d) <= max_size -> send l d s c = Ok c' ->
  extends c (accepted (OpSend l d s) c) c'.
Proof.
  intros Hwf Hl H. unfold send, run_in_loop in H. cbn [accepted].
  case_bool_decide; [destruct l|].
  - by apply send_in_loop_extends.
  - simplify_eq. by apply extends_same.
  - simplify_eq. destruct l; by apply extends_same.
Qed.

Lemma run_functor_extends f fs late s c c' :
  wf (output_buffer_ c) -> Z.of_nat (length late) <= max_size -> pending_ c = f :: fs ->
  run_functor f late s (set_pending fs c) = Ok c' -> extends c (accepted (OpRunQueued late s) c) c'.
Proof.
  intros Hwf Hl Hp H. cbn [accepted]. rewrite Hp.
  assert (Hset : forall d, extends (set_pending fs c) d c' -> extends c d c') by done.
  destruct f; cbn [run_functor] in H.
  - inv_bind H. apply Hset, send_in_loop_extends; [done| |done]. rewrite length_take. lia.
  - by apply Hset, same_extends, shutdown_same.
  - by apply Hset, same_extends, force_close_same.
  - by apply Hset, same_extends, start_read_same.
  - by apply Hset, same_extends, stop_read_same.
  - simplify_eq. by apply extends_same.
  - simplify_eq. by apply extends_same.
Qed.

Lemma conn_step_extends op c c' :
  wf (output_buffer_ c) -> sized op -> conn_step op c = Ok c' -> extends c (accepted op c) c'.
Proof.
  intros Hwf Hs H.
  destruct op as [|l d s|l| |l|l|r|w| |late s|]; cbn [conn_step] in H.
  - by apply same_extends, build_same.
  - by apply send_extends.
  - unfold shutdown, run_in_loop in H. destruct l; [by apply same_extends, shutdown_same|].
    simplify_eq. by apply extends_same.
  - simplify_eq. unfold force_close. destruct (_ || _); by apply extends_same.
  - unfold start_read, run_in_loop in H. destruct l; [by apply same_extends, start_read_same|].
    simplify_eq. by apply extends_same.
  - unfold stop_read, run_in_loop in H. destruct l; [by apply same_extends, stop_read_same|].
    simplify_eq. by apply extends_same.
  - by apply same_extends, (handle_read_same r).
  - by apply (handle_write_extends w).
  - by apply same_extends, handle_close_same.
  - destruct (pending_ c) as [|f fs] eqn:Hp.
    + simplify_eq. cbn [accepted]. rewrite Hp. by apply extends_same.
    + by eapply run_functor_extends.
  - by apply same_extends, destroy_same.
Qed.

(** C11: Whatever happens to a connection, the bytes the socket accepted followed by
    the bytes that wait are exactly the messages the connection took on, in
    order: none is lost, duplicated or reordered. *)
Theorem bytes_in_order (ops : list conn_op) (c c' : TcpConnection) :
  wf (output_buffer_ c) -> Forall sized ops -> conn_run ops c = Ok c' ->
  wire (socket_ c') ++ contents (output_buffer_ c') =
    (wire (socket_ c) ++ contents (output_buffer_ c)) ++ run_accepted ops c.
Proof.
  intros Hwf Hs Hrun. change (stream c' = stream c ++ run_accepted ops c).
  revert c Hwf Hrun. induction Hs as [|op ops Hop Hs IH]; intros c Hwf Hrun; cbn [conn_run run_accepted] in *.
  - simplify_eq. by rewrite app_nil_r.
  - inv_bind Hrun. rename a into c1. rewrite Ha.
    destruct (conn_step_extends op c c1 Hwf Hop Ha) as [Hwf1 Hst].
    by rewrite (IH c1 Hwf1 Hrun), Hst, app_assoc.
Qed.

(** ** What waits is watched *)

Lemma writing_lor e m : Z.land m kWriteEvent = 0 -> has_bits (Z.lor e m) kWriteEvent = has_bits e kWriteEvent.
Proof. intros Hm. unfold has_bits. by rewrite Z.land_lor_distr_l, Hm, Z.lor_0_r. Qed.

Lemma writing_ldiff e : has_bits (Z.land e (Z.lnot kReadEvent)) kWriteEvent = has_bits e kWriteEvent.
Proof. unfold has_bits. by rewrite <-Z.land_assoc. Qed.

Lemma writing_enabled e : has_bits (Z.lor e kWriteEvent) kWriteEvent = true.
Proof.
  unfold has_bits. rewrite Z.land_lor_distr_l. apply negb_true_iff, Z.eqb_neq.
  intros [_ H]%Z.lor_eq_0_iff. done.
Qed.

Lemma writing_some e : has_bits e kWriteEvent = true -> e <> kNoneEvent.
Proof. by intros H ->. Qed.

(** The channel is added and asks for writability. *)
Definition watching (p : Epoller) (i : nat) : Prop :=
  exists ch, store p !! i = Some ch /\ Channel.status_ ch = ADD /\ is_writing ch = true.

(** An operation that keeps a wish to write keeps the channel watching. *)
Lemma with_events_watching f i p p' :
  mirrors p -> with_events f i p = Ok p' -> watching p i ->
  (forall e, has_bits e kWriteEvent = true -> has_bits (f e) kWriteEvent = true) -> watching p' i.
Proof.
  intros Hp Hw (ch & Hch & Hst & Hwr) Hf. rewrite (with_events_cases f p i ch) in Hw by done.
  cbv zeta in Hw. rewrite Hst in Hw. specialize (Hf _ Hwr).
  assert (Hne : is_none_event (changed f ch) = false).
  { apply Z.eqb_neq. by apply writing_some. }
  rewrite Hne in Hw. simplify_eq. exists (changed f ch). simpl. by rewrite lookup_insert_eq.
Qed.

Lemma enable_writing_watching i p p' : mirrors p -> enable_writing i p = Ok p' -> watching p' i.
Proof.
  intros Hp Hw. pose proof Hw as Hw'. unfold enable_writing, with_events in Hw'.
  destruct (store p !! i) as [ch|] eqn:Hch; [clear Hw'|done].
  unfold enable_writing in Hw. rewrite (with_events_cases _ p i ch) in Hw by done. cbv zeta in Hw.
  set (g := fun e => Z.lor e kWriteEvent) in *.
  assert (Hwr : is_writing (changed g ch) = true) by apply writing_enabled.
  destruct (Channel.status_ ch) eqn:Hst.
  - case_decide; simplify_eq. exists (set_status ADD (changed g ch)). simpl. by rewrite lookup_insert_eq.
  - assert (Hne : is_none_event (changed g ch) = false) by (apply Z.eqb_neq; by apply writing_some).
    rewrite Hne in Hw. simplify_eq. exists (changed g ch). simpl. by rewrite lookup_insert_eq.
  - done.
Qed.

(** The registry is right, and the channel wants nothing unless it is added. *)
Definition chan_inv (i : nat) (p : Epoller) : Prop :=
  mirrors p /\
  forall ch, store p !! i = Some ch -> Channel.status_ ch <> ADD -> events_ ch = kNoneEvent.

Lemma with_events_inv f i p p' : chan_inv i p -> with_events f i p = Ok p' -> chan_inv i p'.
Proof.
  intros [Hp _] Hw. split; [by eapply with_events_mirrors|]. intros ch' Hch' Hst'.
  pose proof Hw as Hw'. unfold with_events in Hw'.
  destruct (store p !! i) as [ch|] eqn:Hch; [clear Hw'|done].
  rewrite (with_events_cases f p i ch) in Hw by done. cbv zeta in Hw.
  destruct (Channel.status_ ch) eqn:Hst; [case_decide; [|done]| |done].
  - simplify_eq. simpl in Hch'. rewrite lookup_insert_eq in Hch'. by simplify_eq.
  - destruct (is_none_event (changed f ch)) eqn:Hn; simplify_eq; simpl in Hch';
      rewrite lookup_insert_eq in Hch'; injection Hch' as <-; [by apply Z.eqb_eq in Hn|done].
Qed.

Lemma remove_inv i p p' : chan_inv i p -> remove i p = Ok p' -> chan_inv i p'.
Proof.
  intros [Hp _] Hw. split; [by eapply remove_mirrors|]. intros ch' Hch' Hst'.
  pose proof Hw as Hw'. unfold remove in Hw'.
  destruct (store p !! i) as [ch|] eqn:Hch; [clear Hw'|done].
  rewrite (remove_cases p i ch) in Hw by done. destruct (_ && _) eqn:Hb; simplify_eq.
  simpl in Hch'. rewrite lookup_insert_eq in Hch'. simplify_eq.
  apply andb_true_iff in Hb as [Hn _]. by apply Z.eqb_eq in Hn.
Qed.

Lemma tie_mirrors i p ch : mirrors p -> store p !! i = Some ch -> mirrors (set_chan i (tie ch) p).
Proof.
  intros [Hm Hk] Hch. split; simpl.
  - intros fd j. rewrite Hm, registered_insert. simpl. split.
    + intros Hr. destruct (decide (j = i)) as [->|]; [left|by right].
      by apply (registered_own _ _ _ Hch) in Hr.
    + intros [(-> & Hr)|[_ ?]]; [by apply (registered_own _ _ _ Hch)|done].
  - intros fd ev j. rewrite Hk, watched_insert. simpl. split.
    + intros Hr. destruct (decide (j = i)) as [->|]; [left|by right].
      destruct Hr as (d & Hd & ?). naive_solver.
    + intros [(-> & Hr)|[_ ?]]; [by exists ch|done].
Qed.

Lemma tie_inv i p ch : chan_inv i p -> store p !! i = Some ch -> chan_inv i (set_chan i (tie ch) p).
Proof.
  intros [Hm Hidle] Hch. split; [by apply tie_mirrors|].
  simpl. intros ch'. rewrite lookup_insert_eq. intros [= <-]. exact (Hidle ch Hch).
Qed.

Definition is_send (f : functor) : bool := match f with FSend _ => true | _ => false end.

Record conn_inv (c : TcpConnection) : Prop := {
  inv_channel : chan_inv (channel_ c) (poller_ c);
  inv_output : wf (output_buffer_ c);
  inv_connecting : status_ c = CONNECTING ->
    contents (output_buffer_ c) = [] /\ existsb is_send (pending_ c) = false;
  inv_watching : status_ c = CONNECTED -> contents (output_buffer_ c) <> [] ->
    watching (poller_ c) (channel_ c)
}.

(** A step that keeps the output, the status and the queue of sends, and
    changes the poller by an operation on the channel. *)
Lemma inv_on_channel f c c' :
  conn_inv c -> on_channel (with_events f) c = Ok c' ->
  (status_ c = CONNECTED -> contents (output_buffer_ c) <> [] ->
   forall e, has_bits e kWriteEvent = true -> has_bits (f e) kWriteEvent = true) ->
  conn_inv c'.
Proof.
  intros [H1 H2 H3 H4] (p & Hp & ->)%on_channel_ok Hf. split; simpl; try done.
  - by eapply with_events_inv.
  - intros Hst Hne. eapply with_events_watching; [apply H1|exact Hp|by apply H4|by apply Hf].
Qed.

(** Leaving the connected states makes the rest easy. *)
Lemma inv_not_up c c' :
  conn_inv c -> output_buffer_ c' = output_buffer_ c -> chan_inv (channel_ c') (poller_ c') ->
  status_ c' = DISCONNECTED \/ status_ c' = DISCONNECTING -> conn_inv c'.
Proof. intros [H1 H2 H3 H4] Ho Hm [Hs|Hs]; split; rewrite ?Ho, ?Hs; done. Qed.

Lemma shutdown_inv c c' : conn_inv c -> shutdown_in_loop_ c = Ok c' -> conn_inv c'.
Proof.
  intros Hi H. unfold shutdown_in_loop_ in H. case_bool_decide; [|by simplify_eq]. inv_bind H.
  apply (inv_not_up c); [done|by destruct (negb _); simplify_eq|destruct (negb _); simplify_eq; apply Hi|].
  right. by destruct (negb _); simplify_eq.
Qed.

Lemma handle_close_inv c c' : conn_inv c -> handle_close_ c = Ok c' -> conn_inv c'.
Proof.
  intros Hi H. unfold handle_close_ in H. inv_bind H. inv_bind H. simplify_eq.
  apply on_channel_ok in Ha as (p & Hp & ->). apply (inv_not_up c); [done|done| |by left].
  eapply with_events_inv; [apply Hi|exact Hp].
Qed.

Lemma start_read_inv c c' : conn_inv c -> start_read_in_loop_ c = Ok c' -> conn_inv c'.
Proof.
  intros Hi H. unfold start_read_in_loop_ in H. inv_bind H. destruct (_ || _); [|by simplify_eq].
  inv_bind H. simplify_eq.
  assert (conn_inv a0) as [? ? ? ?]; [|by split].
  eapply inv_on_channel; [exact Hi|exact Ha0|]. intros _ _ e He. cbv beta. by rewrite writing_lor.
Qed.

Lemma stop_read_inv c c' : conn_inv c -> stop_read_in_loop_ c = Ok c' -> conn_inv c'.
Proof.
  intros Hi H. unfold stop_read_in_loop_ in H. inv_bind H. destruct (_ || _); [|by simplify_eq].
  inv_bind H. simplify_eq.
  assert (conn_inv a0) as [? ? ? ?]; [|by split].
  eapply inv_on_channel; [exact Hi|exact Ha0|]. intros _ _ e He. cbv beta. by rewrite writing_ldiff.
Qed.

Lemma build_inv c c' : conn_inv c -> build_connect c = Ok c' -> conn_inv c'.
Proof.
  intros [H1 H2 H3 H4] H. unfold build_connect in H. inv_bind H. inv_bind H. inv_bind H. simplify_eq.
  apply bool_decide_eq_true in Hassert. destruct (H3 Hassert) as [Hnil Hp].
  apply get_channel_ok in Ha. apply on_channel_ok in Ha0 as (p & Hp0 & ->).
  split; simpl; try done.
  eapply with_events_inv; [|exact Hp0]. by apply tie_inv.
Qed.

Lemma destroy_inv c c' : conn_inv c -> destroy_connect c = Ok c' -> conn_inv c'.
Proof.
  intros Hi H. unfold destroy_connect in H. inv_bind H. apply on_channel_ok in H as (p & Hp & ->).
  case_bool_decide as Hst.
  - inv_bind Ha. simplify_eq. apply on_channel_ok in Ha0 as (p1 & Hp1 & ->).
    apply (inv_not_up c); [done|done| |by right]. simpl in *.
    eapply remove_inv; [|exact Hp]. eapply with_events_inv; [apply Hi|exact Hp1].
  - simplify_eq. destruct Hi as [H1 H2 H3 H4]. split; simpl; try done.
    by eapply remove_inv.
Qed.

Lemma writing_watching c ch :
  conn_inv c -> store (poller_ c) !! channel_ c = Some ch -> is_writing ch = true ->
  watching (poller_ c) (channel_ c).
Proof.
  intros [[_ Hidle] _ _ _] Hch Hw. exists ch. split; [done|]. split; [|done].
  destruct (decide (Channel.status_ ch = ADD)) as [|Hn]; [done|].
  apply (Hidle ch Hch) in Hn. unfold is_writing in Hw. by rewrite Hn in Hw.
Qed.

Lemma queue_inv f c : conn_inv c -> is_send f = false \/ status_ c <> CONNECTING -> conn_inv (queue_in_loop f c).
Proof.
  intros [H1 H2 H3 H4] Hf. split; simpl; try done. intros Hst. destruct (H3 Hst) as [? Hp].
  split; [done|]. rewrite existsb_app, Hp. simpl. destruct Hf as [->|]; done.
Qed.

Lemma store_rest_inv rest c c' :
  conn_inv c -> status_ c <> CONNECTING -> Z.of_nat (length rest) <= max_size ->
  store_rest rest c = Ok c' -> conn_inv c'.
Proof.
  intros Hi Hst Hl H. unfold store_rest in H. cbv zeta in H. inv_bind H. inv_bind H.
  match type of Ha with append _ (output_buffer_ ?x) = _ => set (c1 := x) in * end.
  assert (Hi1 : conn_inv c1) by (unfold c1; destruct (_ && _); [apply queue_inv; auto|done]).
  assert (Hst1 : status_ c1 = status_ c) by (unfold c1; by destruct (_ && _)).
  destruct (append_ok_inv _ _ _ (inv_output _ Hi1) Hl Ha) as [Hwf' _].
  apply get_channel_ok in Ha0. pose proof Hi1 as [G1 G2 G3 G4].
  destruct (is_writing a0) eqn:Hw.
  - simplify_eq. split; simpl; rewrite ?Hst1; try done. intros _ _. by eapply writing_watching.
  - apply on_channel_ok in H as (p & Hp & ->). split; simpl; rewrite ?Hst1; try done.
    + by eapply with_events_inv.
    + intros _ _. eapply enable_writing_watching; [apply G1|exact Hp].
Qed.

Lemma wire_inv d c : conn_inv c -> conn_inv (write_to_wire d c).
Proof. by intros [? ? ? ?]; split. Qed.

Lemma send_in_loop_inv data sent c c' :
  conn_inv c -> status_ c <> CONNECTING -> Z.of_nat (length data) <= max_size ->
  send_in_loop_ data sent c = Ok c' -> conn_inv c'.
Proof.
  intros Hi Hst Hl H. unfold send_in_loop_ in H. case_bool_decide; [by simplify_eq|].
  inv_bind H. cbv zeta in H.
  assert (Htry : conn_inv (try_send data sent c).2 /\ status_ (try_send data sent c).2 = status_ c).
  { destruct sent as [errno|n]; [done|]. simpl.
    destruct ((u64 _ =? 0) && _); (split; [|done]); [|by apply wire_inv].
    apply queue_inv; [by apply wire_inv|by left]. }
  assert (Hgo : forall nwrote remaining fault c1,
    conn_inv c1 -> status_ c1 = status_ c ->
    ((assert_ (remaining <=? Z.of_nat (length data)) ≫= fun _ =>
     if negb fault && (0 <? remaining) then store_rest (drop nwrote data) c1 else Ok c1) = Ok c') ->
    conn_inv c').
  { clear H Htry. intros nw rem fault c1 Hi1 Hs1 Hr. inv_bind Hr. destruct (_ && _); [|by simplify_eq].
    eapply store_rest_inv; [exact Hi1|congruence| |exact Hr]. rewrite length_drop. lia. }
  destruct (negb (is_writing a) && _).
  - destruct (try_send data sent c) as [[[nw rem] fault] c1] eqn:Ht. destruct Htry as [Hi1 Hs1].
    by apply (Hgo nw rem fault c1).
  - by apply (Hgo 0%nat (Z.of_nat (length data)) false c).
Qed.

Lemma handle_write_inv w c c' : conn_inv c -> handle_write_ w c = Ok c' -> conn_inv c'.
Proof.
  intros Hi H. unfold handle_write_ in H. inv_bind H. destruct (is_writing a) eqn:Hw; [|by simplify_eq].
  destruct w as [|[|n]]; [by simplify_eq..|]. inv_bind H. rename a0 into out. cbv zeta in H.
  apply get_channel_ok in Ha. pose proof (writing_watching c a Hi Ha Hw) as Hwatch.
  destruct (retrieve_ok_inv _ _ _ (inv_output _ Hi) (Zle_0_nat (S n)) Ha0) as (Hwf' & Hc' & _).
  destruct Hi as [H1 H2 H3 H4].
  set (c1 := write_to_wire _ _) in *.
  assert (Hi1 : conn_inv c1).
  { split; simpl; try done. intros Hst. destruct (H3 Hst) as [Hnil ?]. rewrite Hc', Hnil.
    split; [by rewrite drop_nil|done]. }
  destruct (read_able_bytes out =? 0) eqn:He; [|by simplify_eq].
  apply empty_contents in He; [|done].
  inv_bind H. rename a0 into c2.
  assert (Hi2 : conn_inv c2).
  { eapply inv_on_channel; [exact Hi1|exact Ha1|]. intros _ Hne. by destruct Hne. }
  assert (Hi3 : conn_inv (if write_complete_cb_ c2 then queue_in_loop FWriteComplete c2 else c2)).
  { destruct (write_complete_cb_ c2); [|done]. by apply queue_inv; [|left]. }
  case_bool_decide; [|by simplify_eq]. by eapply shutdown_inv.
Qed.

Lemma conn_step_inv op c c' : conn_inv c -> sized op -> conn_step op c = Ok c' -> conn_inv c'.
Proof.
  intros Hi Hs H.
  destruct op as [|l d s|l| |l|l|r|w| |late s|]; cbn [conn_step] in H.
  - by eapply build_inv.
  - unfold send, run_in_loop in H. case_bool_decide as Hst; [|by simplify_eq].
    destruct l; [eapply send_in_loop_inv; [exact Hi|congruence|exact Hs|exact H]|].
    simplify_eq. apply queue_inv; [done|right; congruence].
  - unfold shutdown, run_in_loop in H. destruct l; [by eapply shutdown_inv|].
    simplify_eq. by apply queue_inv; [|left].
  - simplify_eq. unfold force_close. destruct (_ || _); [|done].
    apply queue_inv; [|by left]. eapply inv_not_up; [exact Hi|done|apply Hi|by right].
  - unfold start_read, run_in_loop in H. destruct l; [by eapply start_read_inv|].
    simplify_eq. by apply queue_inv; [|left].
  - unfold stop_read, run_in_loop in H. destruct l; [by eapply stop_read_inv|].
    simplify_eq. by apply queue_inv; [|left].
  - unfold handle_read_ in H. inv_bind H. destruct a as [[n e] b].
    assert (conn_inv (set_input b c)) as Hi1 by (destruct Hi; by split).
    destruct (0 <? n); [simplify_eq; destruct Hi1; by split|].
    destruct (n =? 0); [|by simplify_eq]. by eapply handle_close_inv.
  - by eapply handle_write_inv.
  - by eapply handle_close_inv.
  - destruct (pending_ c) as [|f fs] eqn:Hp; [by simplify_eq|].
    assert (Hi1 : conn_inv (set_pending fs c)).
    { destruct Hi as [H1 H2 H3 H4]. split; simpl; try done. intros Hst. destruct (H3 Hst) as [? He].
      split; [done|]. rewrite Hp in He. simpl in He. by apply orb_false_iff in He as [_ ?]. }
    destruct f; cbn [run_functor] in H; try (by simplify_eq; destruct Hi1; split).
    + inv_bind H. eapply send_in_loop_inv; [exact Hi1| | |exact H].
      * simpl. intros Hst. destruct (inv_connecting _ Hi Hst) as [_ He]. by rewrite Hp in He.
      * rewrite length_take. simpl in Hs. lia.
    + by eapply shutdown_inv.
    + unfold force_close_in_loop_ in H. destruct (_ && _); [by eapply handle_close_inv|by simplify_eq].
    + by eapply start_read_inv.
    + by eapply stop_read_inv.
  - by eapply destroy_inv.
Qed.

Lemma conn_run_inv ops : forall c c', conn_inv c -> Forall sized ops -> conn_run ops c = Ok c' -> conn_inv c'.
Proof.
  induction ops as [|op ops IH]; intros c c' Hi Hs Hrun; cbn [conn_run] in Hrun; [by simplify_eq|].
  apply Forall_cons in Hs as [Hop Hs]. inv_bind Hrun. eapply IH; [|done|exact Hrun].
  by eapply conn_step_inv.
Qed.

Lemma new_connection_inv i wc p ch :
  mirrors p -> store p !! i = Some ch -> Channel.status_ ch = NEW -> events_ ch = kNoneEvent ->
  conn_inv (new_connection i wc p).
Proof.
  intros Hp Hch Hst Hev. split; simpl.
  - split; [done|]. intros ch' Hch' _. naive_solver congruence.
  - apply new_buffer_wf. unfold max_size, initial_size_default. lia.
  - intros _. split; [|done]. by apply new_buffer_wf; unfold max_size, initial_size_default; lia.
  - done.
Qed.

(** C20: While a connection is up, output that could not be sent at once is watched
    for: the kernel reports when the socket is writable, so it is not stuck. *)
Theorem waiting_output_is_watched (ops : list conn_op) (i : nat) (wc : bool) (p : Epoller) (ch : Channel)
    (c : TcpConnection) :
  mirrors p -> store p !! i = Some ch -> Channel.status_ ch = NEW -> events_ ch = kNoneEvent ->
  Forall sized ops -> conn_run ops (new_connection i wc p) = Ok c ->
  status_ c = CONNECTED -> contents (output_buffer_ c) <> [] ->
  exists fd ev, interest (poller_ c) !! fd = Some (ev, channel_ c) /\ has_bits ev POLLOUT = true.
Proof.
  intros Hp Hch Hst Hev Hs Hrun Hup Hne.
  pose proof (conn_run_inv ops _ c (new_connection_inv i wc p ch Hp Hch Hst Hev) Hs Hrun) as [[[Hm Hk] _] _ _ Hw].
  destruct (Hw Hup Hne) as (ch' & Hch' & Hadd & Hwr). exists (fd_ ch'), (events_ ch').
  split; [|exact Hwr]. apply Hk. by exists ch'.
Qed.

(** ** The life of a connection *)

Definition rank (s : Status) : Z :=
  match s with CONNECTING => 0 | CONNECTED => 1 | DISCONNECTING => 2 | DISCONNECTED => 3 end.

(** [c'] is at least as far as [c], and if [c] is past CONNECTED the writing
    half of the socket is as it was. *)
Definition forward (c c' : TcpConnection) : Prop :=
  rank (status_ c) <= rank (status_ c') /\
  (2 <= rank (status_ c) -> wr_closed (socket_ c') = wr_closed (socket_ c)).

Lemma forward_refl c : forward c c.
Proof. split; [lia|done]. Qed.

Lemma forward_same c c' :
  status_ c' = status_ c -> wr_closed (socket_ c') = wr_closed (socket_ c) -> forward c c'.
Proof. intros Hs Hw. split; [by rewrite Hs|done]. Qed.

Lemma forward_trans c1 c2 c3 : forward c1 c2 -> forward c2 c3 -> forward c1 c3.
Proof. intros [H1 K1] [H2 K2]. split; [lia|]. intros H. rewrite K2, K1; [done|done|lia]. Qed.

Lemma on_channel_forward f c c' : on_channel f c = Ok c' -> forward c c'.
Proof. intros (p & _ & ->)%on_channel_ok. by apply forward_same. Qed.

Lemma shutdown_forward c c' : shutdown_in_loop_ c = Ok c' -> forward c c'.
Proof.
  unfold shutdown_in_loop_. case_bool_decide as Hst; [|intros [= <-]; apply forward_refl].
  intros H. inv_bind H. split; [destruct (negb _); simplify_eq; rewrite Hst; simpl; lia|].
  rewrite Hst. simpl. lia.
Qed.

Lemma handle_close_forward c c' : handle_close_ c = Ok c' -> forward c c'.
Proof.
  unfold handle_close_. intros H. inv_bind H. inv_bind H. simplify_eq.
  apply on_channel_ok in Ha as (p & _ & ->). split; [|done]. simpl. destruct (status_ c); simpl; lia.
Qed.

Lemma store_rest_forward rest c c' : store_rest rest c = Ok c' -> forward c c'.
Proof.
  unfold store_rest. cbv zeta. intros H. inv_bind H. inv_bind H.
  destruct ((high_water_mark_ c <=? _) && _); (destruct (is_writing a0);
    [simplify_eq; by apply forward_same|]); apply on_channel_forward in H as [? ?]; by split.
Qed.

Lemma send_in_loop_forward data sent c c' : send_in_loop_ data sent c = Ok c' -> forward c c'.
Proof.
  unfold send_in_loop_. case_bool_decide; [intros [= <-]; apply forward_refl|].
  intros Hr. inv_bind Hr. cbv zeta in Hr.
  assert (Ht : forward c (try_send data sent c).2).
  { destruct sent; [apply forward_refl|]. simpl. destruct ((u64 _ =? 0) && _); by apply forward_same. }
  destruct (negb _ && _).
  - destruct (try_send data sent c) as [[[nw rem] fault] c1]. simpl in Ht. inv_bind Hr.
    eapply forward_trans; [exact Ht|]. destruct (negb fault && _); [by eapply store_rest_forward|].
    simplify_eq. apply forward_refl.
  - inv_bind Hr. destruct (negb false && _); [by eapply store_rest_forward|]. simplify_eq. apply forward_refl.
Qed.

Lemma start_read_forward c c' : start_read_in_loop_ c = Ok c' -> forward c c'.
Proof.
  unfold start_read_in_loop_. intros H. inv_bind H. destruct (_ || _); [|simplify_eq; apply forward_refl].
  inv_bind H. simplify_eq. by apply on_channel_forward in Ha0 as [? ?].
Qed.

Lemma stop_read_forward c c' : stop_read_in_loop_ c = Ok c' -> forward c c'.
Proof.
  unfold stop_read_in_loop_. intros H. inv_bind H. destruct (_ || _); [|simplify_eq; apply forward_refl].
  inv_bind H. simplify_eq. by apply on_channel_forward in Ha0 as [? ?].
Qed.

Lemma handle_write_forward w c c' : handle_write_ w c = Ok c' -> forward c c'.
Proof.
  unfold handle_write_. intros H. inv_bind H. destruct (is_writing a); [|simplify_eq; apply forward_refl].
  destruct w as [|[|n]]; [simplify_eq; apply forward_refl..|]. inv_bind H. cbv zeta in H.
  destruct (read_able_bytes a0 =? 0); [|simplify_eq; by apply forward_same].
  inv_bind H. apply on_channel_forward in Ha1.
  eapply forward_trans; [by apply (forward_same c)|]. eapply forward_trans; [exact Ha1|].
  destruct (write_complete_cb_ a1);
    (case_bool_decide; [apply shutdown_forward in H|simplify_eq]); try done; by apply forward_same.
Qed.

Lemma run_functor_forward f late s c c' : run_functor f late s c = Ok c' -> forward c c'.
Proof.
  destruct f; cbn [run_functor]; intros H.
  - inv_bind H. by eapply send_in_loop_forward.
  - by apply shutdown_forward.
  - unfold force_close_in_loop_ in H. destruct (_ && _); [by apply handle_close_forward|].
    simplify_eq. apply forward_refl.
  - by apply start_read_forward.
  - by apply stop_read_forward.
  - simplify_eq. by apply forward_same.
  - simplify_eq. by apply forward_same.
Qed.

Lemma conn_step_forward op c c' : conn_step op c = Ok c' -> forward c c'.
Proof.
  intros H. destruct op as [|l d s|l| |l|l|r|w| |late s|]; cbn [conn_step] in H.
  - unfold build_connect in H. inv_bind H. inv_bind H. inv_bind H. simplify_eq.
    apply bool_decide_eq_true in Hassert. apply on_channel_ok in Ha0 as (p & _ & ->).
    split; rewrite Hassert; simpl; lia.
  - unfold send, run_in_loop in H. case_bool_decide; [destruct l|].
    + by eapply send_in_loop_forward.
    + simplify_eq. by apply forward_same.
    + simplify_eq. apply forward_refl.
  - unfold shutdown, run_in_loop in H. destruct l; [by apply shutdown_forward|]. simplify_eq. by apply forward_same.
  - simplify_eq. unfold force_close. destruct (bool_decide _ || _) eqn:Hb; [|apply forward_refl].
    split; [|done]. simpl. by destruct (status_ c); simpl in *; try lia.
  - unfold start_read, run_in_loop in H. destruct l; [by apply start_read_forward|]. simplify_eq. by apply forward_same.
  - unfold stop_read, run_in_loop in H. destruct l; [by apply stop_read_forward|]. simplify_eq. by apply forward_same.
  - unfold handle_read_ in H. inv_bind H. destruct a as [[n e] b].
    destruct (0 <? n); [simplify_eq; by apply forward_same|].
    destruct (n =? 0); [|simplify_eq; by apply forward_same]. by apply handle_close_forward in H.
  - by eapply handle_write_forward.
  - by apply handle_close_forward.
  - destruct (pending_ c) as [|f fs]; [simplify_eq; apply forward_refl|].
    by apply run_functor_forward in H.
  - unfold destroy_connect in H. inv_bind H. apply on_channel_forward in H. eapply forward_trans; [|exact H].
    case_bool_decide as Hst; [|simplify_eq; apply forward_refl]. inv_bind Ha. simplify_eq.
    apply on_channel_ok in Ha0 as (p & _ & ->). split; rewrite Hst; simpl; lia.
Qed.

Lemma conn_run_forward ops : forall c c', conn_run ops c = Ok c' -> forward c c'.
Proof.
  induction ops as [|op ops IH]; intros c c' H; cbn [conn_run] in H; [simplify_eq; apply forward_refl|].
  inv_bind H. eapply forward_trans; [by eapply conn_step_forward|by apply IH].
Qed.

(** The status only moves forward, from CONNECTING over CONNECTED and
    DISCONNECTING to DISCONNECTED, whatever is called in whatever order. *)
Theorem status_moves_forward (ops : list conn_op) (c c' : TcpConnection) :
  conn_run ops c = Ok c' -> rank (status_ c) <= rank (status_ c').
Proof. intros H. by apply conn_run_forward in H as [? _]. Qed.

(** A shutdown while output waits changes the status and nothing else, and no
    later step shuts the socket down: not even when the last byte has been
    written, where the code means to do it. *)
Theorem shutdown_with_output_is_lost (ops : list conn_op) (c c1 c' : TcpConnection) (ch : Channel) :
  status_ c = CONNECTED -> get_channel c = Ok ch -> is_writing ch = true ->
  shutdown true c = Ok c1 -> conn_run ops c1 = Ok c' ->
  status_ c1 = DISCONNECTING /\ wr_closed (socket_ c') = wr_closed (socket_ c).
Proof.
  intros Hst Hch Hw Hsh Hrun. unfold shutdown, run_in_loop, shutdown_in_loop_ in Hsh.
  rewrite bool_decide_true in Hsh by done. change (get_channel (set_status_ DISCONNECTING c)) with (get_channel c) in Hsh.
  rewrite Hch, bind_ok, Hw in Hsh. cbn [negb] in Hsh. simplify_eq. split; [done|].
  apply conn_run_forward in Hrun as [_ Hk]. apply Hk. simpl. lia.
Qed.

(** The events in which the peer ends the connection. *)
Definition peer_closes (op : conn_op) : bool :=
  match op with OpHangup | OpReadable (IoOk []) => true | _ => false end.

Definition waits_for_peer (c : TcpConnection) : Prop :=
  status_ c = DISCONNECTING /\ EvClose ∉ events_log c.

Lemma waits_same c c' :
  waits_for_peer c -> status_ c' = status_ c -> events_log c' = events_log c -> waits_for_peer c'.
Proof. intros [H1 H2] Hs He. split; congruence. Qed.

Lemma waits_emit e c : waits_for_peer c -> e <> EvClose -> waits_for_peer (emit e c).
Proof.
  intros [H1 H2] He. split; [done|]. simpl. rewrite elem_of_app, list_elem_of_singleton. naive_solver.
Qed.

Lemma on_channel_waits f c c' : waits_for_peer c -> on_channel f c = Ok c' -> waits_for_peer c'.
Proof. by intros Hw (p & _ & ->)%on_channel_ok. Qed.

Lemma store_rest_waits rest c c' : waits_for_peer c -> store_rest rest c = Ok c' -> waits_for_peer c'.
Proof.
  intros Hw. unfold store_rest. cbv zeta. intros H. inv_bind H. inv_bind H.
  destruct ((high_water_mark_ c <=? _) && _); (destruct (is_writing a0); [simplify_eq; exact Hw|]);
    (eapply on_channel_waits; [|exact H]; exact Hw).
Qed.

Lemma send_in_loop_waits data sent c c' :
  waits_for_peer c -> send_in_loop_ data sent c = Ok c' -> waits_for_peer c'.
Proof.
  intros Hw. unfold send_in_loop_. case_bool_decide; [by intros [= <-]|].
  intros Hr. inv_bind Hr. cbv zeta in Hr.
  assert (Ht : waits_for_peer (try_send data sent c).2).
  { destruct sent; [exact Hw|]. simpl. destruct ((u64 _ =? 0) && _); exact Hw. }
  destruct (negb _ && _).
  - destruct (try_send data sent c) as [[[nw rem] fault] c1]. simpl in Ht. inv_bind Hr.
    destruct (negb fault && _); [by eapply store_rest_waits|by simplify_eq].
  - inv_bind Hr. destruct (negb false && _); [exact (store_rest_waits _ _ _ Hw Hr)|by simplify_eq].
Qed.

Lemma shutdown_waits c : waits_for_peer c -> shutdown_in_loop_ c = Ok c.
Proof. intros [Hs _]. unfold shutdown_in_loop_. by rewrite Hs. Qed.

Lemma force_close_in_loop_noop c : force_close_in_loop_ c = Ok c.
Proof.
  unfold force_close_in_loop_. repeat case_bool_decide; try done. congruence.
Qed.

Lemma handle_write_waits w c c' : waits_for_peer c -> handle_write_ w c = Ok c' -> waits_for_peer c'.
Proof.
  intros Hw. unfold handle_write_. intros H. inv_bind H. destruct (is_writing a); [|by simplify_eq].
  destruct w as [|[|n]]; [by simplify_eq..|]. inv_bind H. cbv zeta in H.
  destruct (read_able_bytes a0 =? 0); [|by simplify_eq]. inv_bind H.
  apply on_channel_waits in Ha1; [|done].
  assert (Hw3 : waits_for_peer (if write_complete_cb_ a1 then queue_in_loop FWriteComplete a1 else a1))
    by (by destruct (write_complete_cb_ a1)).
  rewrite shutdown_waits in H by done. by destruct (bool_decide _); simplify_eq.
Qed.

Lemma start_read_waits c c' : waits_for_peer c -> start_read_in_loop_ c = Ok c' -> waits_for_peer c'.
Proof.
  intros Hw. unfold start_read_in_loop_. intros H. inv_bind H. destruct (_ || _); [|by simplify_eq].
  inv_bind H. simplify_eq. by apply on_channel_waits in Ha0.
Qed.

Lemma stop_read_waits c c' : waits_for_peer c -> stop_read_in_loop_ c = Ok c' -> waits_for_peer c'.
Proof.
  intros Hw. unfold stop_read_in_loop_. intros H. inv_bind H. destruct (_ || _); [|by simplify_eq].
  inv_bind H. simplify_eq. by apply on_channel_waits in Ha0.
Qed.

Lemma handle_read_waits r c c' :
  waits_for_peer c -> r <> IoOk [] -> handle_read_ r c = Ok c' -> waits_for_peer c'.
Proof.
  intros Hw Hr. unfold handle_read_. intros H. inv_bind H. destruct a as [[n e] b].
  destruct (Z.ltb_spec 0 n); [simplify_eq; by apply waits_emit|].
  destruct (Z.eqb_spec n 0) as [->|]; [|by simplify_eq]. exfalso.
  unfold read_fd in Ha. destruct r as [|d]; [by simplify_eq|]. inv_bind Ha.
  destruct d; [done|]. destruct (_ <=? _); [simplify_eq|inv_bind Ha; simplify_eq]; simpl in *; lia.
Qed.

Lemma conn_step_waits op c c' :
  waits_for_peer c -> peer_closes op = false -> conn_step op c = Ok c' -> waits_for_peer c'.
Proof.
  intros Hw Hop H. pose proof Hw as [Hst _].
  destruct op as [|l d s|l| |l|l|r|w| |late s|]; cbn [conn_step] in H.
  - unfold build_connect in H. rewrite Hst in H. done.
  - unfold send in H. rewrite bool_decide_false in H by congruence. by simplify_eq.
  - unfold shutdown, run_in_loop in H. rewrite shutdown_waits in H by done. by destruct l; injection H as <-.
  - unfold force_close in H. rewrite !bool_decide_false in H by congruence. cbn [orb] in H. by simplify_eq.
  - unfold start_read, run_in_loop in H. destruct l; [by eapply start_read_waits|by simplify_eq].
  - unfold stop_read, run_in_loop in H. destruct l; [by eapply stop_read_waits|by simplify_eq].
  - eapply handle_read_waits; [done| |done]. by intros ->.
  - by eapply handle_write_waits.
  - done.
  - destruct (pending_ c) as [|f fs]; [by simplify_eq|]. destruct f; cbn [run_functor] in H.
    + inv_bind H. eapply send_in_loop_waits; [|exact H]. exact Hw.
    + rewrite (shutdown_waits (set_pending fs c) Hw) in H. by simplify_eq.
    + rewrite force_close_in_loop_noop in H. by simplify_eq.
    + eapply start_read_waits; [|exact H]. exact Hw.
    + eapply stop_read_waits; [|exact H]. exact Hw.
    + simplify_eq. by apply waits_emit.
    + simplify_eq. by apply waits_emit.
  - unfold destroy_connect in H. rewrite bool_decide_false, bind_ok in H by congruence. by eapply on_channel_waits.
Qed.

(** [force_close] on a connection that is up never closes it: until the peer
    hangs up the status stays DISCONNECTING and the close callback, which
    would take the connection out of the server, does not run. *)
Theorem force_close_never_closes (ops : list conn_op) (c c' : TcpConnection) :
  status_ c = CONNECTED \/ status_ c = CONNECTING -> EvClose ∉ events_log c ->
  Forall (fun op => peer_closes op = false) ops ->
  conn_run (OpForceClose :: ops) c = Ok c' ->
  status_ c' = DISCONNECTING /\ EvClose ∉ events_log c'.
Proof.
  intros Hst He Hops Hrun. cbn [conn_run conn_step] in Hrun. rewrite bind_ok in Hrun.
  assert (Hw : waits_for_peer (force_close c)).
  { unfold force_close. destruct Hst as [Hst|Hst]; rewrite Hst; done. }
  revert Hw Hrun. generalize (force_close c) as c1.
  induction Hops as [|op ops Hop Hops IH]; intros c1 Hw Hrun; cbn [conn_run] in Hrun.
  - by simplify_eq.
  - inv_bind Hrun. eapply IH; [|exact Hrun]. by eapply conn_step_waits.
Qed.

(** A server that goes away with a connection still up destroys the connection
    in the state DISCONNECTING, which the destructor's assertion refuses. *)
Theorem destroy_while_connected_asserts (c c' : TcpConnection) :
  status_ c = CONNECTED -> destroy_connect c = Ok c' -> destroy c' = Fault AssertFailed.
Proof.
  intros Hst H. unfold destroy_connect in H. rewrite bool_decide_true in H by done.
  inv_bind H. apply on_channel_ok in H as (p & _ & ->). inv_bind Ha.
  apply on_channel_ok in Ha0 as (p1 & _ & ->). simplify_eq. done.
Qed.

(** Stopping and starting to read on an idle connection fails an assertion. *)
Theorem start_read_after_stop_asserts (c : TcpConnection) (ch : Channel) :
  mirrors (poller_ c) -> get_channel c = Ok ch -> Channel.status_ ch = ADD -> events_ ch = kReadEvent ->
  exists c1, stop_read true c = Ok c1 /\ start_read true c1 = Fault AssertFailed.
Proof.
  intros Hm Hch Hst Hev. pose proof (get_channel_ok _ _ Hch) as Hlk.
  set (f := fun e => Z.land e (Z.lnot kReadEvent)).
  assert (Hn : is_none_event (changed f ch) = true) by (unfold is_none_event, f; simpl; by rewrite Hev).
  pose proof (with_events_cases f (poller_ c) (channel_ c) ch Hm Hlk) as Hw. cbv zeta in Hw.
  rewrite Hst, Hn in Hw. set (p1 := mkEpoller _ _ _ _) in *.
  exists (set_reading false (set_poller p1 c)). split.
  - unfold stop_read, run_in_loop, stop_read_in_loop_. rewrite Hch, bind_ok.
    assert (is_reading ch = true) as -> by (unfold is_reading; by rewrite Hev). rewrite orb_true_r.
    unfold on_channel, disable_reading. fold f. by rewrite Hw.
  - unfold start_read, run_in_loop, start_read_in_loop_, get_channel, on_channel. simpl.
    rewrite lookup_insert_eq. cbn [of_option]. rewrite bind_ok. cbn [negb orb].
    unfold enable_reading. rewrite (with_events_cases _ p1 (channel_ c) (set_status DEL (changed f ch))).
    + done.
    + by apply (with_events_mirrors f (channel_ c) (poller_ c)).
    + simpl. by rewrite lookup_insert_eq.
Qed.

(** ** Witnesses *)

Definition demo_start : TcpConnection := new_connection 0 false (new_poller demo_chans).

Definition hello_ops : list conn_op := [OpBuild; OpSend true (lit "hello") (IoOk 2%nat)].

(** The state after the steps; the start if one of them faults. *)
Definition after (ops : list conn_op) : TcpConnection :=
  match conn_run ops demo_start with Ok c => c | Fault _ => demo_start end.

Lemma demo_chans_new i c : demo_chans !! i = Some c -> Channel.status_ c = NEW.
Proof.
  unfold demo_chans. by intros [[<- <-]|[_ [<- <-]%lookup_singleton_Some]]%lookup_insert_Some.
Qed.

Lemma demo_start_mirrors : mirrors (new_poller demo_chans).
Proof. apply new_poller_mirrors, demo_chans_new. Qed.

Definition stream_ops : list conn_op :=
  hello_ops ++ [OpSend true (lit " you") (IoErr EWOULDBLOCK); OpWritable (IoOk 3%nat)].

Theorem bytes_in_order_witness :
  wire (socket_ (after stream_ops)) = lit "hello" /\
  contents (output_buffer_ (after stream_ops)) = lit " you" /\
  wire (socket_ (after stream_ops)) ++ contents (output_buffer_ (after stream_ops)) = lit "hello you".
Proof.
  assert (Hr : conn_run stream_ops demo_start = Ok (after stream_ops)) by (vm_compute; reflexivity).
  split; [vm_compute; reflexivity|]. split; [vm_compute; reflexivity|].
  rewrite (bytes_in_order stream_ops demo_start (after stream_ops)); [vm_compute; reflexivity| |
    repeat constructor; vm_compute; discriminate|exact Hr].
  apply new_buffer_wf. unfold max_size, initial_size_default. lia.
Defined.

Theorem waiting_output_is_watched_witness :
  exists fd ev, interest (poller_ (after hello_ops)) !! fd = Some (ev, channel_ (after hello_ops)) /\
    has_bits ev POLLOUT = true.
Proof.
  apply (waiting_output_is_watched hello_ops 0 false (new_poller demo_chans) (new_channel 5) (after hello_ops)).
  - exact demo_start_mirrors.
  - reflexivity.
  - reflexivity.
  - reflexivity.
  - repeat constructor; vm_compute; discriminate.
  - vm_compute. reflexivity.
  - vm_compute. reflexivity.
  - vm_compute. discriminate.
Defined.

Theorem status_moves_forward_witness :
  conn_run hello_ops demo_start = Ok (after hello_ops) /\ 0 <= rank (status_ (after hello_ops)).
Proof.
  assert (Hr : conn_run hello_ops demo_start = Ok (after hello_ops)) by (vm_compute; reflexivity).
  split; [exact Hr|]. exact (status_moves_forward hello_ops demo_start (after hello_ops) Hr).
Defined.

(** The rest of the message is written after the shutdown, and the socket stays
    open for writing. *)
Theorem shutdown_with_output_is_lost_witness :
  let c' := after (hello_ops ++ [OpShutdown true; OpWritable (IoOk 3%nat)]) in
  wire (socket_ c') = lit "hello" /\ contents (output_buffer_ c') = [] /\ wr_closed (socket_ c') = false.
Proof.
  intros c'. split; [vm_compute; reflexivity|]. split; [vm_compute; reflexivity|].
  refine (proj2 (shutdown_with_output_is_lost [OpWritable (IoOk 3%nat)] (after hello_ops)
    (after (hello_ops ++ [OpShutdown true])) c' (mkChannel 5 7 0 ADD true false true) _ _ _ _ _));
    vm_compute; reflexivity.
Defined.

Theorem force_close_never_closes_witness :
  let c' := after (hello_ops ++ [OpForceClose; OpRunQueued [] (IoOk 0%nat); OpWritable (IoOk 3%nat)]) in
  status_ c' = DISCONNECTING /\ EvClose ∉ events_log c'.
Proof.
  refine (force_close_never_closes [OpRunQueued [] (IoOk 0%nat); OpWritable (IoOk 3%nat)] (after hello_ops)
    (after (hello_ops ++ [OpForceClose; OpRunQueued [] (IoOk 0%nat); OpWritable (IoOk 3%nat)])) _ _ _ _).
  - left. vm_compute. reflexivity.
  - vm_compute. intros H. inversion H as [|? ? ? H']. inversion H'.
  - repeat constructor.
  - vm_compute. reflexivity.
Defined.

Theorem destroy_while_connected_asserts_witness :
  destroy (after (hello_ops ++ [OpDestroy])) = Fault AssertFailed.
Proof.
  apply (destroy_while_connected_asserts (after hello_ops)); vm_compute; reflexivity.
Defined.

Theorem start_read_after_stop_asserts_witness :
  exists c1, stop_read true (after [OpBuild]) = Ok c1 /\ start_read true c1 = Fault AssertFailed.
Proof.
  apply (start_read_after_stop_asserts (after [OpBuild]) (mkChannel 5 3 0 ADD true false true)).
  - assert (Hr : conn_run [OpBuild] demo_start = Ok (after [OpBuild])) by (vm_compute; reflexivity).
    refine (proj1 (inv_channel _ (conn_run_inv [OpBuild] demo_start _ _ _ Hr))); [|by repeat constructor].
    by apply (new_connection_inv 0 false (new_poller demo_chans) (new_channel 5) demo_start_mirrors).
  - vm_compute. reflexivity.
  - reflexivity.
  - reflexivity.
Defined.
