(* ===== verification/EventLoop.v ===== *)
(** * EventLoop: queued functors and the wakeup descriptor (src/event/eventloop.cc)

    Any thread may queue a functor; only the loop's thread runs them, between
    two polls.  The loop's thread and the others interleave: one constructor of
    [step] per stretch of code no other thread can observe from inside.  A
    thread that queues pushes first and writes the eventfd later, so the
    writes still owed are part of the state. *)

From stdpp Require Import base list numbers relations.
From Stdlib Require Import ZArith Lia.
From S2P Require Import Prelude.

Local Open Scope Z_scope.

(** ** State *)

Abbreviation Functor := nat (only parsing).

(** Where the loop's thread is. *)
Inductive phase : Type :=
  | NotStarted
  | Checking                         (** at the condition of the loop *)
  | Polling                          (** in [epoll_wait] *)
  | Handling (wake_active : bool)    (** running handlers; the wake channel is still to come *)
  | Draining (functors : list Functor)
  | Stopped.

Record EventLoop : Type := mkLoop {
  phase_ : phase;
  pending_func_ : list Functor;
  wakefd_ : Z;                (* the eventfd counter *)
  quit_ : bool;
  calling_ : bool;
  looping_ : bool;
  owed : nat;                 (* threads that pushed or quit and have not written yet *)
  queued : list Functor;      (* every functor ever pushed, in order *)
  executed : list Functor     (* every functor run, in order *)
}.

Definition new_loop : EventLoop := mkLoop NotStarted [] 0 false false false 0 [] [].

(** [eventfd] counts up to its largest value; a write beyond it fails. *)
Definition eventfd_max : Z := 2 ^ 64 - 2.
Definition wakeup_ (w : Z) : Z := if w + 1 <=? eventfd_max then w + 1 else w.

Fixpoint wakeups (n : nat) (w : Z) : Z :=
  match n with O => w | S n => wakeups n (wakeup_ w) end.

(** *** The loop's own thread *)

(** [queue_in_loop] in the loop's own thread: it writes only while functors
    run. *)
Definition queue_own (fs : list Functor) (s : EventLoop) : EventLoop :=
  mkLoop (phase_ s) (pending_func_ s ++ fs)
    (if calling_ s then wakeups (length fs) (wakefd_ s) else wakefd_ s)
    (quit_ s) (calling_ s) (looping_ s) (owed s) (queued s ++ fs) (executed s).

Definition set_phase (p : phase) (s : EventLoop) : EventLoop :=
  mkLoop p (pending_func_ s) (wakefd_ s) (quit_ s) (calling_ s) (looping_ s)
    (owed s) (queued s) (executed s).

(** [quit] in the loop's own thread. *)
Definition set_quit (s : EventLoop) : EventLoop :=
  mkLoop (phase_ s) (pending_func_ s) (wakefd_ s) true (calling_ s) (looping_ s)
    (owed s) (queued s) (executed s).

(** The start of [loop]: it forgets a [quit] that came before. *)
Definition enter (s : EventLoop) : EventLoop :=
  mkLoop Checking (pending_func_ s) (wakefd_ s) false (calling_ s) true (owed s) (queued s) (executed s).

(** The end of [loop]. *)
Definition leave (s : EventLoop) : EventLoop :=
  mkLoop Stopped (pending_func_ s) (wakefd_ s) (quit_ s) (calling_ s) false (owed s) (queued s) (executed s).

(** [handle_read_] reads the eventfd, which sets it to 0. *)
Definition handle_read_ (s : EventLoop) : EventLoop :=
  mkLoop (Handling false) (pending_func_ s) 0 (quit_ s) (calling_ s) (looping_ s)
    (owed s) (queued s) (executed s).

(** [dopending_func]: the swap, one functor, the end. *)
Definition swap_pending (s : EventLoop) : EventLoop :=
  mkLoop (Draining (pending_func_ s)) [] (wakefd_ s) (quit_ s) true (looping_ s)
    (owed s) (queued s) (executed s).
Definition run_functor (queues : list Functor) (f : Functor) (fs : list Functor) (s : EventLoop) : EventLoop :=
  queue_own queues
    (mkLoop (Draining fs) (pending_func_ s) (wakefd_ s) (quit_ s) (calling_ s) (looping_ s)
       (owed s) (queued s) (executed s ++ [f])).
Definition end_pending (s : EventLoop) : EventLoop :=
  mkLoop Checking (pending_func_ s) (wakefd_ s) (quit_ s) false (looping_ s)
    (owed s) (queued s) (executed s).

(** *** Other threads *)

(** [queue_in_loop] up to its call of [wakeup_]. *)
Definition queue_in_loop (f : Functor) (s : EventLoop) : EventLoop :=
  mkLoop (phase_ s) (pending_func_ s ++ [f]) (wakefd_ s) (quit_ s) (calling_ s) (looping_ s)
    (S (owed s)) (queued s ++ [f]) (executed s).

(** [quit] up to its call of [wakeup_]. *)
Definition quit (s : EventLoop) : EventLoop :=
  mkLoop (phase_ s) (pending_func_ s) (wakefd_ s) true (calling_ s) (looping_ s)
    (S (owed s)) (queued s) (executed s).

(** One of the writes that are owed. *)
Definition write_wakefd (s : EventLoop) : EventLoop :=
  mkLoop (phase_ s) (pending_func_ s) (wakeup_ (wakefd_ s)) (quit_ s) (calling_ s) (looping_ s)
    (pred (owed s)) (queued s) (executed s).

Section steps.
(** What a functor queues while it runs. *)
Context (body : Functor -> list Functor).

Inductive step : EventLoop -> EventLoop -> Prop :=
  (* the loop's thread *)
  | step_loop s : phase_ s = NotStarted -> looping_ s = false -> step s (enter s)
  | step_again s : phase_ s = Checking -> quit_ s = false -> step s (set_phase Polling s)
  | step_stop s : phase_ s = Checking -> quit_ s = true -> step s (leave s)
  | step_poll_wake s : phase_ s = Polling -> 0 < wakefd_ s -> step s (set_phase (Handling true) s)
  (* other channels are ready, or the ten seconds are over *)
  | step_poll_other s : phase_ s = Polling -> step s (set_phase (Handling false) s)
  | step_handle_read s : phase_ s = Handling true -> step s (handle_read_ s)
  (* another channel's handler queues functors *)
  | step_handler s w fs : phase_ s = Handling w -> step s (queue_own fs s)
  | step_swap s : phase_ s = Handling false -> step s (swap_pending s)
  | step_run s f fs : phase_ s = Draining (f :: fs) -> step s (run_functor (body f) f fs s)
  | step_drained s : phase_ s = Draining [] -> step s (end_pending s)
  (* the loop's thread may quit its own loop, from a handler or a functor *)
  | step_quit_own s : phase_ s <> Polling -> step s (set_quit s)
  (* other threads *)
  | step_push s f : step s (queue_in_loop f s)
  | step_quit s : step s (quit s)
  | step_write s : (0 < owed s)%nat -> step s (write_wakefd s).

(** ** Order, and no lost wakeup *)

Definition batch (s : EventLoop) : list Functor :=
  match phase_ s with Draining fs => fs | _ => [] end.

Definition is_draining (p : phase) : bool := match p with Draining _ => true | _ => false end.
Definition is_handling (p : phase) : bool := match p with Handling _ => true | _ => false end.

(** A functor waits in a place the loop will look at before it sleeps, or the
    eventfd is or will be readable. *)
Definition awake (s : EventLoop) : Prop :=
  pending_func_ s = [] \/ 0 < wakefd_ s \/ (0 < owed s)%nat \/ is_handling (phase_ s) = true.

Record loop_inv (s : EventLoop) : Prop := {
  inv_order : executed s ++ batch s ++ pending_func_ s = queued s;
  inv_awake : awake s;
  inv_counter : 0 <= wakefd_ s;
  inv_calling : calling_ s = is_draining (phase_ s);
  inv_quit : quit_ s = true -> phase_ s = Polling -> 0 < wakefd_ s \/ (0 < owed s)%nat
}.

Lemma wakeup_pos w : 0 <= w -> 0 < wakeup_ w.
Proof. unfold wakeup_, eventfd_max. intros. destruct (Z.leb_spec (w + 1) (2 ^ 64 - 2)); lia. Qed.

Lemma wakeups_nonneg n : forall w, 0 <= w -> 0 <= wakeups n w.
Proof. induction n; intros w Hw; simpl; [done|]. apply IHn. apply Z.lt_le_incl, wakeup_pos, Hw. Qed.

Lemma wakeups_pos n : forall w, 0 <= w -> (0 < n)%nat \/ 0 < w -> 0 < wakeups n w.
Proof.
  induction n; intros w Hw Hn; simpl; [lia|].
  apply IHn; [by apply Z.lt_le_incl, wakeup_pos|right; by apply wakeup_pos].
Qed.

Lemma order_step s s' :
  executed s ++ batch s ++ pending_func_ s = queued s -> step s s' ->
  executed s' ++ batch s' ++ pending_func_ s' = queued s'.
Proof.
  unfold batch. intros Ho Hstep.
  destruct Hstep as [s Hp|s Hp|s Hp|s Hp|s Hp|s Hp|s w fs Hp|s Hp|s f fs Hp|s Hp|s Hp|s f|s|s Hn];
    simpl; rewrite <-Ho, ?Hp, ?app_nil_r, <-?app_assoc; simpl; done.
Qed.

Lemma counter_step s s' : 0 <= wakefd_ s -> step s s' -> 0 <= wakefd_ s'.
Proof.
  intros Hc Hstep.
  destruct Hstep as [s Hp|s Hp|s Hp|s Hp|s Hp|s Hp|s w fs Hp|s Hp|s f fs Hp|s Hp|s Hp|s f|s|s Hn];
    simpl; try done; try (destruct (calling_ s); [by apply wakeups_nonneg|done]).
  by apply Z.lt_le_incl, wakeup_pos.
Qed.

Lemma calling_step s s' :
  calling_ s = is_draining (phase_ s) -> step s s' -> calling_ s' = is_draining (phase_ s').
Proof.
  intros Hk Hstep.
  destruct Hstep as [s Hp|s Hp|s Hp|s Hp|s Hp|s Hp|s w fs Hp|s Hp|s f fs Hp|s Hp|s Hp|s f|s|s Hn];
    simpl; rewrite ?Hp in *; done.
Qed.

Lemma awake_step s s' :
  0 <= wakefd_ s -> calling_ s = is_draining (phase_ s) -> awake s -> step s s' -> awake s'.
Proof.
  unfold awake. intros Hc Hk Ha Hstep.
  destruct Hstep as [s Hp|s Hp|s Hp|s Hp|s Hp|s Hp|s w fs Hp|s Hp|s f fs Hp|s Hp|s Hp|s f|s|s Hn];
    simpl; rewrite ?Hp in *; simpl in *; auto; try (destruct Ha as [?|[?|[?|?]]]; by auto).
  - rewrite Hk. destruct (body f) as [|g gs].
    + rewrite app_nil_r. destruct Ha as [?|[?|[?|?]]]; by auto.
    + right. left. apply wakeups_pos; [done|]. left. simpl. lia.
  - right. right. left. lia.
  - right. right. left. lia.
  - right. left. by apply wakeup_pos.
Qed.

Lemma quit_step s s' :
  0 <= wakefd_ s -> (quit_ s = true -> phase_ s = Polling -> 0 < wakefd_ s \/ (0 < owed s)%nat) ->
  step s s' -> quit_ s' = true -> phase_ s' = Polling -> 0 < wakefd_ s' \/ (0 < owed s')%nat.
Proof.
  intros Hc Hq Hstep.
  destruct Hstep as [s Hp|s Hp|s Hp|s Hp|s Hp|s Hp|s w fs Hp|s Hp|s f fs Hp|s Hp|s Hp|s f|s|s Hn];
    simpl; intros Hq' Hp'; try congruence; try (right; lia).
  left. by apply wakeup_pos.
Qed.

Lemma loop_inv_step s s' : loop_inv s -> step s s' -> loop_inv s'.
Proof.
  intros [Ho Ha Hc Hk Hq] Hstep. split.
  - by eapply order_step.
  - by eapply awake_step.
  - by eapply counter_step.
  - by eapply calling_step.
  - by eapply quit_step.
Qed.

Lemma loop_inv_new : loop_inv new_loop.
Proof. split; simpl; [done|by left|done|done|done]. Qed.

Lemma loop_inv_reachable s : rtc step new_loop s -> loop_inv s.
Proof.
  intros Hr. remember new_loop as s0 eqn:Hs0. assert (Hi : loop_inv s0) by (rewrite Hs0; apply loop_inv_new).
  clear Hs0. induction Hr as [|s1 s2 s3 H12 H23 IH]; [done|]. apply IH. by eapply loop_inv_step.
Qed.
End steps.

(** ** The theorems *)

Section theorems.
Context (body : nat -> list nat).

(** C21: Functors run in the order they were queued, whichever threads queued them,
    and each at most once: what has run, what the loop has taken out and what
    still waits are together exactly what was queued. *)
Theorem functors_run_in_order (s : EventLoop) :
  rtc (step body) new_loop s -> executed s ++ batch s ++ pending_func_ s = queued s.
Proof. intros Hr. by apply (loop_inv_reachable body s Hr). Qed.

(** C22: A loop that goes to sleep with functors waiting, or after it was told to
    quit, is woken: the eventfd is readable already, or the thread that queued
    or quit is about to write it. *)
Theorem no_lost_wakeup (s : EventLoop) :
  rtc (step body) new_loop s -> phase_ s = Polling -> pending_func_ s <> [] \/ quit_ s = true ->
  0 < wakefd_ s \/ (0 < owed s)%nat.
Proof.
  intros Hr Hp Hwhy. destruct (loop_inv_reachable body s Hr) as [_ Ha _ _ Hq].
  destruct Hwhy as [Hne|Hquit]; [|by apply Hq].
  destruct Ha as [?|[?|[?|Hh]]]; [done|by left|by right|]. by rewrite Hp in Hh.
Qed.

(** A loop at work, asleep with nothing to do. *)
Definition idle_loop : EventLoop := mkLoop Polling [] 0 false false true 0 [] [].

(** A quit before the loop starts leaves no trace: the loop reaches the state
    of a loop that nobody told to quit, and sleeps in it. *)
Theorem early_quit_is_lost :
  exists s, step body new_loop s /\ quit_ s = true /\ phase_ s = NotStarted /\ rtc (step body) s idle_loop.
Proof.
  pose (at_ p w q l := mkLoop p [] w q false l 0 [] []).
  exists (mkLoop NotStarted [] 0 true false false 1 [] []).
  split; [exact (step_quit body new_loop)|]. split; [done|]. split; [done|].
  apply (rtc_l _ _ (at_ NotStarted 1 true false)); [exact (step_write body (mkLoop NotStarted [] 0 true false false 1 [] []) (le_n 1))|].
  apply (rtc_l _ _ (at_ Checking 1 false true)); [exact (step_loop body (at_ NotStarted 1 true false) eq_refl eq_refl)|].
  apply (rtc_l _ _ (at_ Polling 1 false true)); [exact (step_again body (at_ Checking 1 false true) eq_refl eq_refl)|].
  apply (rtc_l _ _ (at_ (Handling true) 1 false true)); [exact (step_poll_wake body (at_ Polling 1 false true) eq_refl eq_refl)|].
  apply (rtc_l _ _ (at_ (Handling false) 0 false true)); [exact (step_handle_read body (at_ (Handling true) 1 false true) eq_refl)|].
  apply (rtc_l _ _ (mkLoop (Draining []) [] 0 false true true 0 [] [])); [exact (step_swap body (at_ (Handling false) 0 false true) eq_refl)|].
  apply (rtc_l _ _ (at_ Checking 0 false true)); [exact (step_drained body (mkLoop (Draining []) [] 0 false true true 0 [] []) eq_refl)|].
  apply (rtc_l _ _ idle_loop); [exact (step_again body (at_ Checking 0 false true) eq_refl eq_refl)|apply rtc_refl].
Qed.

Lemma drain_runs fs : forall s, phase_ s = Draining fs ->
  exists s', rtc (step body) s s' /\ phase_ s' = Draining [] /\ executed s' = executed s ++ fs.
Proof.
  induction fs as [|f fs IH]; intros s Hp.
  - exists s. rewrite app_nil_r. split; [apply rtc_refl|done].
  - pose proof (step_run body s f fs Hp) as Hstep. set (s1 := run_functor _ _ _ _) in Hstep.
    destruct (IH s1) as (s' & Hr & Hp' & He'); [done|].
    exists s'. split; [by eapply rtc_l|]. split; [done|]. rewrite He'. simpl. by rewrite <-app_assoc.
Qed.

(** A woken loop runs everything that waits before it sleeps again, without any
    help from other threads. *)
Theorem woken_loop_runs_all (s : EventLoop) :
  phase_ s = Polling -> 0 < wakefd_ s ->
  exists s', rtc (step body) s s' /\ phase_ s' = Draining [] /\
    executed s' = executed s ++ pending_func_ s.
Proof.
  intros Hp Hw. pose proof (step_poll_wake body s Hp Hw) as H1. set (s1 := set_phase _ _) in H1.
  pose proof (step_handle_read body s1 eq_refl) as H2. set (s2 := handle_read_ _) in H2.
  pose proof (step_swap body s2 eq_refl) as H3. set (s3 := swap_pending _) in H3.
  destruct (drain_runs (pending_func_ s) s3 eq_refl) as (s' & Hr & Hp' & He').
  exists s'. split; [|done]. eapply rtc_l; [exact H1|]. eapply rtc_l; [exact H2|].
  by eapply rtc_l; [exact H3|].
Qed.
End theorems.

(** ** Witnesses *)

Definition no_body (f : nat) : list nat := [].

(** A loop asleep that another thread has pushed functor 7 to, before and
    after that thread's write. *)
Definition asleep (w : Z) (n : nat) : EventLoop := mkLoop Polling [7%nat] w false false true n [7%nat] [].

Lemma asleep_reachable : rtc (step no_body) new_loop (asleep 0 1).
Proof.
  eapply rtc_l; [by apply step_loop|]. eapply rtc_l; [by apply step_again|].
  eapply rtc_l; [apply (step_push _ _ 7)|]. apply rtc_refl.
Qed.

Theorem functors_run_in_order_witness :
  executed (asleep 0 1) ++ batch (asleep 0 1) ++ pending_func_ (asleep 0 1) = [7%nat].
Proof. exact (functors_run_in_order no_body (asleep 0 1) asleep_reachable). Defined.

Theorem no_lost_wakeup_witness : 0 < wakefd_ (asleep 0 1) \/ (0 < owed (asleep 0 1))%nat.
Proof.
  apply (no_lost_wakeup no_body (asleep 0 1)); [exact asleep_reachable|reflexivity|left; discriminate].
Defined.

Theorem woken_loop_runs_all_witness :
  exists s', rtc (step no_body) (asleep 1 0) s' /\ phase_ s' = Draining [] /\ executed s' = [7%nat].
Proof. exact (woken_loop_runs_all no_body (asleep 1 0) eq_refl eq_refl). Defined.
