(* ===== verification/LoopThread.v ===== *)
(** * LoopThread: a thread that runs a loop (src/server/eventloopthread.h, eventloopthread.cc)

    [start_loop] makes the thread and spins until the thread has published its
    loop; the destructor tells the loop to quit and joins the thread.  The
    owner and the thread interleave, and inside the thread the loop of
    EventLoop goes on with all its own interleavings.  The loop lives on the
    thread's stack: after the thread's function its address is dangling. *)

From stdpp Require Import base list numbers relations.
From Stdlib Require Import ZArith Lia.
From S2P Require Import Prelude EventLoop.

Local Open Scope Z_scope.

(** ** State *)

(** Where the owner is; [loop] says whether the pointer it holds is set. *)
Inductive owner_phase : Type :=
  | Idle
  | Spinning                    (** [while (loop_.load() == nullptr)] *)
  | Rereading                   (** [loop = loop_.load()] *)
  | Started (loop : bool)       (** what [start_loop] returned *)
  | Testing                     (** the destructor: [loop_.load() != nullptr] *)
  | Loading                     (** [EventLoop *loop = loop_.load()] *)
  | Quitting (loop : bool)      (** [loop->quit()] *)
  | Waking                      (** the [wakeup_] of [quit] *)
  | Joining
  | Gone
  | Crashed.

(** Where [thread_func_] is. *)
Inductive thread_phase : Type :=
  | NotCreated
  | Building                    (** the loop's constructor *)
  | CallingBack                 (** [thread_cb_(&loop)] *)
  | Storing                     (** [loop_.store(&loop)] *)
  | Running                     (** [loop.loop()] *)
  | Exiting                     (** after [loop_.store(nullptr)] *)
  | Exited.

Definition is_running (t : thread_phase) : bool := match t with Running => true | _ => false end.
Definition is_exited (t : thread_phase) : bool := match t with Exited => true | _ => false end.

Record EventLoopThread : Type := mkThread {
  owner : owner_phase;
  thread_ : thread_phase;
  loop_ : bool;                 (* the pointer is set *)
  ev : EventLoop
}.

Definition new_thread : EventLoopThread := mkThread Idle NotCreated false new_loop.

Definition set_owner (o : owner_phase) (s : EventLoopThread) : EventLoopThread :=
  mkThread o (thread_ s) (loop_ s) (ev s).
Definition set_thread (t : thread_phase) (s : EventLoopThread) : EventLoopThread :=
  mkThread (owner s) t (loop_ s) (ev s).
Definition set_loop (b : bool) (s : EventLoopThread) : EventLoopThread :=
  mkThread (owner s) (thread_ s) b (ev s).
Definition set_ev (e : EventLoop) (s : EventLoopThread) : EventLoopThread :=
  mkThread (owner s) (thread_ s) (loop_ s) e.

(** ** Steps *)

(** [EventLoopThread::start_loop]. *)
Definition start_loop (s : EventLoopThread) : EventLoopThread := set_owner Spinning (set_thread Building s).

(** The test of the spinning loop, and the load after it. *)
Definition spin (s : EventLoopThread) : EventLoopThread :=
  if loop_ s then set_owner Rereading s else s.
Definition reread (s : EventLoopThread) : EventLoopThread := set_owner (Started (loop_ s)) s.

(** The destructor. *)
Definition test_loop (s : EventLoopThread) : EventLoopThread :=
  set_owner (if loop_ s then Loading else Joining) s.
Definition load_loop (s : EventLoopThread) : EventLoopThread := set_owner (Quitting (loop_ s)) s.

(** [loop->quit()]: through a null pointer, or on a loop that is no more. *)
Definition quit_loop (loop : bool) (s : EventLoopThread) : EventLoopThread :=
  if negb loop || is_exited (thread_ s) then set_owner Crashed s
  else set_owner Waking (set_ev (quit (ev s)) s).
Definition wake_loop (s : EventLoopThread) : EventLoopThread :=
  if is_exited (thread_ s) then set_owner Crashed s
  else set_owner Joining (set_ev (write_wakefd (ev s)) s).

(** [thread_.joinable()], [thread_.join()]. *)
Definition can_join (s : EventLoopThread) : bool :=
  match thread_ s with NotCreated | Exited => true | _ => false end.

Section steps.
Context (body : nat -> list nat).

(** [calm] is false where the loop is told to quit by somebody else than the
    owner. *)
Inductive loop_step (calm : bool) : EventLoop -> EventLoop -> Prop :=
  | loop_step_any e e' :
      EventLoop.step body e e' ->
      (calm = true -> quit_ e' = true -> quit_ e = true) -> loop_step calm e e'.

Inductive tstep (calm : bool) : EventLoopThread -> EventLoopThread -> Prop :=
  (* the owner *)
  | t_start s : owner s = Idle -> tstep calm s (start_loop s)
  | t_spin s : owner s = Spinning -> tstep calm s (spin s)
  | t_reread s : owner s = Rereading -> tstep calm s (reread s)
  | t_destroy s : owner s = Idle \/ (exists b, owner s = Started b) -> tstep calm s (set_owner Testing s)
  | t_test s : owner s = Testing -> tstep calm s (test_loop s)
  | t_load s : owner s = Loading -> tstep calm s (load_loop s)
  | t_quit s b : owner s = Quitting b -> tstep calm s (quit_loop b s)
  | t_wake s : owner s = Waking -> tstep calm s (wake_loop s)
  | t_join s : owner s = Joining -> can_join s = true -> tstep calm s (set_owner Gone s)
  (* [thread_func_] *)
  | t_build s : thread_ s = Building -> tstep calm s (set_thread CallingBack s)
  | t_callback s fs : thread_ s = CallingBack -> tstep calm s (set_thread Storing (set_ev (queue_own fs (ev s)) s))
  | t_store s : thread_ s = Storing -> tstep calm s (set_thread Running (set_loop true s))
  | t_loop s e : thread_ s = Running -> loop_step calm (ev s) e -> tstep calm s (set_ev e s)
  | t_clear s : thread_ s = Running -> phase_ (ev s) = Stopped -> tstep calm s (set_thread Exiting (set_loop false s))
  | t_exit s : thread_ s = Exiting -> tstep calm s (set_thread Exited s).

(** ** What start_loop returns *)

(** The loop is in the thread's hands or was. *)
Definition published (t : thread_phase) : bool :=
  match t with Running | Exiting | Exited => true | _ => false end.

Definition over (t : thread_phase) : bool :=
  match t with Exiting | Exited => true | _ => false end.

Record thread_inv (s : EventLoopThread) : Prop := {
  ti_loop : loop_ s = is_running (thread_ s);
  ti_idle : owner s = Idle -> thread_ s = NotCreated;
  ti_reread : owner s = Rereading -> published (thread_ s) = true;
  ti_started : forall b, owner s = Started b ->
    published (thread_ s) = true /\ (b = false -> over (thread_ s) = true)
}.

Lemma thread_inv_step calm s s' : thread_inv s -> tstep calm s s' -> thread_inv s'.
Proof.
  intros [Hl Hi Hr Hs] Hstep. destruct s as [o t l e]. cbn in *. subst l.
  inversion Hstep as [? Ho|? Ho|? Ho|? Ho|? Ho|? Ho|? b Ho|? Ho|? Ho Hj|? Ht|? fs Ht|? Ht|? e' Ht He|? Ht Hp|? Ht];
    subst; cbn in *; subst;
    unfold start_loop, spin, reread, test_loop, load_loop, quit_loop, wake_loop; cbn;
    try (destruct (negb b || _)); try (destruct t; cbn in *); split; cbn; intros; try done;
    simplify_eq; try done; try (by apply Hi); try (by eapply Hs); try (by apply Hr); try (by destruct (Hs _ eq_refl)).
  all: try (by specialize (Hi eq_refl)); by specialize (Hr eq_refl).
Qed.
End steps.

(** ** The loop's thread on its own *)

Section drive.
Context (body : nat -> list nat).

(** What the thread of a loop does next if no handler queues anything; [None]
    when it sleeps or has stopped. *)
Definition advance (s : EventLoop) : option EventLoop :=
  match phase_ s with
  | NotStarted => if looping_ s then None else Some (enter s)
  | Checking => Some (if quit_ s then leave s else set_phase Polling s)
  | Polling => if 0 <? wakefd_ s then Some (set_phase (Handling true) s) else None
  | Handling true => Some (handle_read_ s)
  | Handling false => Some (swap_pending s)
  | Draining (f :: fs) => Some (EventLoop.run_functor (body f) f fs s)
  | Draining [] => Some (end_pending s)
  | Stopped => None
  end.

Lemma advance_step s s' : advance s = Some s' -> EventLoop.step body s s' /\ quit_ s' = (match phase_ s with NotStarted => false | _ => quit_ s end).
Proof.
  unfold advance. destruct (phase_ s) as [| | |[]|[|f fs]|] eqn:Hp; try done.
  - destruct (looping_ s) eqn:Hl; [done|]. intros [= <-]. split; [by constructor|done].
  - destruct (quit_ s) eqn:Hq; intros [= <-]; split; try done; by constructor.
  - destruct (Z.ltb_spec 0 (wakefd_ s)); [|done]. intros [= <-]. split; [by constructor|done].
  - intros [= <-]. split; [by constructor|done].
  - intros [= <-]. split; [by constructor|done].
  - intros [= <-]. split; [by constructor|done].
  - intros [= <-]. split; [by constructor|done].
Qed.

Fixpoint advance_n (n : nat) (s : EventLoop) : EventLoop :=
  match n with
  | O => s
  | S n => match advance s with Some s' => advance_n n s' | None => s end
  end.

Lemma drain_stops fs : forall s, phase_ s = Draining fs -> quit_ s = true ->
  phase_ (advance_n (length fs + 2) s) = Stopped.
Proof.
  induction fs as [|f fs IH]; intros s Hp Hq.
  - cbn [length Nat.add advance_n]. unfold advance at 1. rewrite Hp. unfold advance. cbn. by rewrite Hq.
  - cbn [length Nat.add advance_n]. unfold advance at 1. rewrite Hp. by apply IH.
Qed.

(** A loop that was told to quit while it ran gets out of [loop] by itself,
    after the functors that wait. *)
Lemma told_loop_stops s :
  quit_ s = true -> phase_ s <> NotStarted -> (phase_ s = Polling -> 0 < wakefd_ s) ->
  exists n, (n <= length (batch s) + length (pending_func_ s) + 5)%nat /\ phase_ (advance_n n s) = Stopped.
Proof.
  intros Hq Hns Hw. destruct (phase_ s) as [| | |[]|fs|] eqn:Hp; [done|..].
  - exists 1%nat. split; [lia|]. cbn [advance_n]. unfold advance. by rewrite Hp, Hq.
  - exists (S (S (S (length (pending_func_ s) + 2)))). split; [lia|].
    cbn [advance_n]. unfold advance at 1. rewrite Hp, (proj2 (Z.ltb_lt _ _)) by auto.
    unfold advance at 1. cbn [phase_ set_phase]. unfold advance at 1. cbn [phase_ handle_read_].
    by apply drain_stops.
  - exists (S (S (length (pending_func_ s) + 2))). split; [lia|].
    cbn [advance_n]. unfold advance at 1. rewrite Hp. unfold advance at 1. cbn [phase_ handle_read_].
    by apply drain_stops.
  - exists (S (length (pending_func_ s) + 2)). split; [lia|].
    cbn [advance_n]. unfold advance at 1. rewrite Hp. by apply drain_stops.
  - exists (length fs + 2)%nat. split; [unfold batch; rewrite Hp; lia|]. by apply drain_stops.
  - exists 0%nat. split; [lia|]. done.
Qed.

Lemma advance_run calm n : forall s,
  thread_ s = Running -> phase_ (ev s) <> NotStarted ->
  rtc (tstep body calm) s (set_ev (advance_n n (ev s)) s).
Proof.
  induction n as [|n IH]; intros s Ht Hns; cbn [advance_n]; [destruct s; apply rtc_refl|].
  destruct (advance (ev s)) as [e|] eqn:Ha; [|destruct s; apply rtc_refl].
  destruct (advance_step _ _ Ha) as [Hstep Hq].
  eapply rtc_l; [apply (t_loop body calm s e Ht); constructor; [exact Hstep|]|].
  - intros _. rewrite Hq. by destruct (phase_ (ev s)).
  - apply (IH (set_ev e s)); [done|]. cbn. unfold advance in Ha.
    destruct (phase_ (ev s)) as [| | |[]|[|f fs]|]; simplify_eq; try done.
    + by destruct (quit_ (ev s)); simplify_eq.
    + by destruct (0 <? _); simplify_eq.
Qed.
End drive.

(** ** The theorems *)

Section theorems.
Context (body : nat -> list nat).

Lemma thread_inv_reachable calm s : rtc (tstep body calm) new_thread s -> thread_inv s.
Proof.
  intros Hr. remember new_thread as s0 eqn:Hs0.
  assert (Hi : thread_inv s0) by (rewrite Hs0; by split).
  clear Hs0. induction Hr as [|s1 s2 s3 H12 H23 IH]; [done|]. apply IH. by eapply thread_inv_step.
Qed.

(** What [start_loop] returns is a loop that is complete, whose callback has
    run and which its thread is about to run or runs, unless that loop is over
    already: a null pointer is returned only then. *)
Theorem start_loop_returns_ready (s : EventLoopThread) (loop : bool) :
  rtc (tstep body false) new_thread s -> owner s = Started loop ->
  published (thread_ s) = true /\ (loop = false -> over (thread_ s) = true).
Proof. intros Hr. apply (thread_inv_reachable false s Hr). Qed.

(** *** The destructor of a thread whose loop runs *)

(** The thread runs its loop, or has left it. *)
Definition at_loop (s : EventLoopThread) : Prop :=
  match thread_ s with
  | Running => phase_ (ev s) <> NotStarted /\ 0 <= wakefd_ (ev s)
  | Exiting | Exited => True
  | _ => False
  end.

(** A loop that was told to quit; if its eventfd was written too, it can no
    longer sleep. *)
Definition told_loop (woken : bool) (e : EventLoop) : Prop :=
  quit_ e = true /\ (woken = true -> phase_ e = Polling -> 0 < wakefd_ e).
Definition told (woken : bool) (s : EventLoopThread) : Prop := thread_ s = Running -> told_loop woken (ev s).

(** How far the destructor has come. *)
Definition destroying (s : EventLoopThread) : Prop :=
  match owner s with
  | Quitting true => at_loop s
  | Waking => at_loop s /\ told false s
  | Joining => at_loop s /\ told true s
  | Gone | Crashed => thread_ s = Exited
  | _ => False
  end.

(** A step of the loop keeps it running, told and awake. *)
Lemma loop_step_keeps e e' :
  loop_step body true e e' -> phase_ e <> NotStarted -> 0 <= wakefd_ e ->
  (phase_ e' <> NotStarted /\ 0 <= wakefd_ e') /\ forall woken, told_loop woken e -> told_loop woken e'.
Proof.
  intros [e0 e1 Hstep _] Hp Hw. unfold told_loop.
  destruct Hstep as [s Hph|s Hph Hq|s Hph|s Hph|s Hph|s Hph|s w fs Hph|s Hph|s f fs Hph|s Hph|s Hph|s f|s|s Ho];
    cbn [phase_ quit_ wakefd_ set_phase leave handle_read_ queue_own swap_pending EventLoop.run_functor end_pending set_quit
      EventLoop.queue_in_loop quit write_wakefd] in *; try done.
  - split; [done|]. intros woken [Hq' _]. congruence.
  - split; [by split|]. intros woken [Hq' _]. by split.
  - split; [by split|]. intros woken [Hq' _]. by split.
  - split; [by split|]. intros woken [Hq' _]. by split.
  - split; [split; [done|]; destruct (calling_ s); [by apply wakeups_nonneg|done]|].
    intros woken [Hq' _]. split; [done|congruence].
  - split; [by split|]. intros woken [Hq' _]. by split.
  - split; [split; [done|by apply wakeups_nonneg || (destruct (calling_ s); [by apply wakeups_nonneg|done])]|].
    intros woken [Hq' _]. by split.
  - split; [by split|]. intros woken [Hq' _]. by split.
  - split; [by split|]. intros woken [_ Hpoll]. by split.
  - pose proof (wakeup_pos _ Hw). split; [split; [done|lia]|]. by intros woken [Hq' _].
Qed.

Lemma destroying_step s s' : destroying s -> tstep body true s s' ->
  destroying s' /\ (owner s = Joining -> owner s' = Joining \/ owner s' = Gone) /\ (owner s = Gone -> owner s' = Gone).
Proof.
  intros Hd Hstep. unfold destroying in *. destruct s as [o t l e].
  inversion Hstep as [? Ho|? Ho|? Ho|? Ho|? Ho|? Ho|? b Ho|? Ho|? Ho Hj|? Ht|? fs Ht|? Ht|? e' Ht He|? Ht Hp|? Ht];
    subst; cbn [owner thread_ ev] in *; subst; try done.
  - by destruct Ho as [-> |[b ->]].
  - destruct b; [|done]. unfold quit_loop. cbn [negb orb]. destruct (is_exited _) eqn:Hex; cbn [owner thread_ ev set_owner set_ev].
    + split; [by destruct t|done].
    + split; [|done]. split; [by destruct t|]. by intros _.
  - unfold wake_loop. cbn [thread_]. destruct Hd as [Hat Htold]. destruct (is_exited t) eqn:Hex; cbn [owner thread_ ev set_owner set_ev].
    + split; [by destruct t|done].
    + split; [|done]. split.
      * unfold at_loop in *. cbn [thread_ ev] in *. destruct t; try done. destruct Hat as [Hns Hw]. split; [done|].
        cbn. pose proof (wakeup_pos _ Hw). lia.
      * intros Hrun. unfold at_loop in Hat. cbn [thread_ ev set_owner set_ev] in *. subst t. destruct Hat as [_ Hw].
        destruct (Htold eq_refl) as [Hq _]. split; [exact Hq|]. intros _ _. by apply wakeup_pos.
  - split; [|by auto]. cbn. destruct Hd as [Hat _]. unfold at_loop in Hat. cbn [thread_] in Hat. by destruct t.
  - unfold at_loop in Hd. cbn [thread_] in Hd. destruct o as [| | | | | |[]| | | |]; try done; by destruct Hd.
  - unfold at_loop in Hd. cbn [thread_] in Hd. destruct o as [| | | | | |[]| | | |]; try done; by destruct Hd.
  - unfold at_loop in Hd. cbn [thread_] in Hd. destruct o as [| | | | | |[]| | | |]; try done; by destruct Hd.
  - assert (Hat : at_loop (mkThread o Running l e)) by (destruct o as [| | | | | |[]| | | |]; try done; by destruct Hd).
    destruct Hat as [Hns Hw]. cbn [ev] in *. destruct (loop_step_keeps _ _ He Hns Hw) as [Hkeep Htold].
    destruct o as [| | | | | |[]| | | |]; cbn [owner set_ev] in *; try done; (split; [|by auto]);
      destruct Hd as [_ Ht]; (split; [exact Hkeep|]); intros _; by apply Htold, Ht.
  - destruct o as [| | | | | |[]| | | |]; cbn in *; try done; (split; [|by auto]); by split.
  - destruct o as [| | | | | |[]| | | |]; cbn in *; try done; (split; [|by auto]); by split.
Qed.

Lemma destroying_reachable s s' : destroying s -> rtc (tstep body true) s s' ->
  destroying s' /\ (owner s = Joining -> owner s' = Joining \/ owner s' = Gone).
Proof.
  intros Hd Hr. assert (Hgen : destroying s' /\ (owner s = Joining \/ owner s = Gone -> owner s' = Joining \/ owner s' = Gone)).
  { induction Hr as [s|s s1 s2 Hstep _ IH]; [by split|]. destruct (destroying_step s s1 Hd Hstep) as (Hd1 & Hj & Hg).
    destruct (IH Hd1) as [Hd2 Hend]. split; [done|]. intros [Ho|Ho]; apply Hend; [by apply Hj|right; by apply Hg]. }
  destruct Hgen as [? Hend]. split; [done|]. intros Ho. apply Hend. by left.
Qed.

(** The owner that waits in [join] gets out, the thread needing nobody's help. *)
Lemma joining_ends s :
  destroying s -> owner s = Joining ->
  exists n s', (n <= length (batch (ev s)) + length (pending_func_ (ev s)) + 5)%nat /\
    rtc (tstep body true) s s' /\ owner s' = Gone /\ thread_ s' = Exited /\
    (thread_ s = Running -> ev s' = advance_n body n (ev s)).
Proof.
  intros Hd Ho. destruct s as [o t l e]. unfold destroying, at_loop, told in Hd. cbn [owner thread_ ev] in *. subst o.
  destruct Hd as [Hat Htold]. destruct t; try done.
  - destruct Hat as [Hns Hw]. destruct (Htold eq_refl) as [Hq Hpoll].
    destruct (told_loop_stops body e Hq Hns (Hpoll eq_refl)) as (n & Hn & Hstop).
    exists n, (mkThread Gone Exited false (advance_n body n e)). split; [exact Hn|]. split; [|done].
    etransitivity; [apply (advance_run body true n (mkThread Joining Running l e)); done|].
    eapply rtc_l; [by apply t_clear|]. eapply rtc_l; [by apply t_exit|]. eapply rtc_l; [by apply t_join|]. apply rtc_refl.
  - exists 0%nat, (mkThread Gone Exited l e). split; [lia|]. split; [|done].
    eapply rtc_l; [by apply t_exit|]. eapply rtc_l; [by apply t_join|]. apply rtc_refl.
  - exists 0%nat, (mkThread Gone Exited l e). split; [lia|]. split; [|done].
    eapply rtc_l; [by apply t_join|]. apply rtc_refl.
Qed.

(** From wherever it has come to, the destructor can get to its end. *)
Lemma destroying_ends s :
  destroying s -> exists s', rtc (tstep body true) s s' /\ (owner s' = Gone \/ owner s' = Crashed).
Proof.
  intros Hd.
  assert (Hwake : forall s, destroying s -> owner s = Waking -> exists s', rtc (tstep body true) s s' /\ (owner s' = Gone \/ owner s' = Crashed)).
  { intros s1 Hd1 Ho1. pose proof (t_wake body true s1 Ho1) as Hstep. destruct (destroying_step _ _ Hd1 Hstep) as [Hd2 _].
    destruct (is_exited (thread_ s1)) eqn:Hex.
    - exists (wake_loop s1). split; [by apply rtc_once|]. right. unfold wake_loop. by rewrite Hex.
    - destruct (joining_ends (wake_loop s1) Hd2) as (n & s2 & _ & Hr & Hg & _); [unfold wake_loop; by rewrite Hex|].
      exists s2. split; [by eapply rtc_l|by left]. }
  destruct (owner s) as [| | | | | |[]| | | |] eqn:Ho; try (unfold destroying in Hd; rewrite Ho in Hd; done).
  - pose proof (t_quit body true s true Ho) as Hstep. destruct (destroying_step _ _ Hd Hstep) as [Hd2 _].
    destruct (is_exited (thread_ s)) eqn:Hex.
    + exists (quit_loop true s). split; [by apply rtc_once|]. right. unfold quit_loop. by rewrite Hex.
    + destruct (Hwake (quit_loop true s) Hd2) as (s2 & Hr & Hend); [unfold quit_loop; by rewrite Hex|].
      exists s2. split; [by eapply rtc_l|done].
  - by apply Hwake.
  - destruct (joining_ends s Hd Ho) as (n & s2 & _ & Hr & Hg & _). exists s2. split; [done|by left].
  - exists s. split; [done|by left].
  - exists s. split; [done|by right].
Qed.

(** A loop that sees the flag before the wakeup comes: its poll returns for
    another reason, and the thread is done with it. *)
Lemma loop_leaves_unwoken s :
  owner s = Waking -> thread_ s = Running -> phase_ (ev s) <> NotStarted -> quit_ (ev s) = true ->
  exists s', rtc (tstep body true) s s' /\ owner s' = Waking /\ thread_ s' = Exited.
Proof.
  intros Ho Ht Hns Hq.
  assert (Hgo : forall e1, (phase_ e1 = Polling -> 0 < wakefd_ e1) -> phase_ e1 <> NotStarted -> quit_ e1 = true ->
    exists s', rtc (tstep body true) (set_ev e1 s) s' /\ owner s' = Waking /\ thread_ s' = Exited).
  { intros e1 Hp1 Hns1 Hq1. destruct (told_loop_stops body e1 Hq1 Hns1 Hp1) as (n & _ & Hstop).
    exists (mkThread Waking Exited false (advance_n body n e1)). split; [|done]. destruct s as [o t l e]. cbn in Ho, Ht. subst o t.
    etransitivity; [apply (advance_run body true n (mkThread Waking Running l e1)); done|].
    eapply rtc_l; [by apply t_clear|]. eapply rtc_l; [by apply t_exit|]. apply rtc_refl. }
  assert (Hor : phase_ (ev s) = Polling \/ phase_ (ev s) <> Polling) by (destruct (phase_ (ev s)); by auto).
  destruct Hor as [Hp|Hp].
  - destruct (Hgo (set_phase (Handling false) (ev s))) as (s' & Hr & Hend); [done|done|done|]. exists s'. split; [|done].
    eapply rtc_l; [|exact Hr]. apply (t_loop body true s _ Ht). constructor; [by apply step_poll_other|by auto].
  - destruct (Hgo (ev s)) as (s' & Hr & Hend); [by intros ?|done|done|]. exists s'. split; [|done].
    by replace (set_ev (ev s) s) with s in Hr by by destruct s.
Qed.

(** C31: A destructor that comes while the loop runs, and whoever calls [quit].  In
    every interleaving in which nobody else tells the loop to quit, the owner
    stays on its way from the flag over the wakeup to the join, can always get
    to an end, and there is no other end than two: it has joined a thread that
    is done, or it has called into a loop that is gone.  Once the wakeup is
    written only the first is left, and the thread gets there by itself within
    as many rounds as functors wait and five more.  Before that the second can
    happen: a loop that sees the flag before the wakeup may be gone when
    [quit] calls [wakeup_]. *)
Theorem thread_destructor_returns (s : EventLoopThread) :
  owner s = Quitting true -> thread_ s = Running -> phase_ (ev s) <> NotStarted -> 0 <= wakefd_ (ev s) ->
  (forall s', rtc (tstep body true) s s' ->
    (owner s' = Quitting true \/ owner s' = Waking \/ owner s' = Joining \/
      (owner s' = Gone \/ owner s' = Crashed) /\ thread_ s' = Exited) /\
    (exists s2, rtc (tstep body true) s' s2 /\ (owner s2 = Gone \/ owner s2 = Crashed)) /\
    (owner s' = Joining ->
      (forall s2, rtc (tstep body true) s' s2 -> owner s2 = Joining \/ owner s2 = Gone /\ thread_ s2 = Exited) /\
      exists n s2, (n <= length (batch (ev s')) + length (pending_func_ (ev s')) + 5)%nat /\
        rtc (tstep body true) s' s2 /\ owner s2 = Gone /\ thread_ s2 = Exited /\
        (thread_ s' = Running -> ev s2 = advance_n body n (ev s')))) /\
  (exists s', rtc (tstep body true) s s' /\ owner s' = Joining) /\
  (exists s', rtc (tstep body true) s s' /\ owner s' = Crashed).
Proof.
  intros Ho Ht Hns Hw.
  assert (Hd : destroying s) by (unfold destroying, at_loop; by rewrite Ho, Ht).
  assert (Hquit : tstep body true s (quit_loop true s)) by by apply t_quit.
  assert (Hq : quit_loop true s = set_owner Waking (set_ev (quit (ev s)) s)) by (unfold quit_loop; by rewrite Ht).
  rewrite Hq in Hquit. split; [|split].
  - intros s' Hr. destruct (destroying_reachable s s' Hd Hr) as [Hd' _]. split; [|split].
    + unfold destroying in Hd'. destruct (owner s') as [| | | | | |[]| | | |]; try done; by auto 10.
    + by apply destroying_ends.
    + intros Hj. split; [|by apply joining_ends]. intros s2 Hr2. destruct (destroying_reachable s' s2 Hd' Hr2) as [Hd2 Hend].
      destruct (Hend Hj) as [Hj2|Hg]; [by left|]. right. split; [done|]. unfold destroying in Hd2. by rewrite Hg in Hd2.
  - exists (wake_loop (set_owner Waking (set_ev (quit (ev s)) s))). split.
    + eapply rtc_l; [exact Hquit|]. apply rtc_once. by apply t_wake.
    + unfold wake_loop. cbn [thread_ set_owner set_ev]. by rewrite Ht.
  - destruct (loop_leaves_unwoken (set_owner Waking (set_ev (quit (ev s)) s))) as (s' & Hr & Ho' & Ht'); [done|done|done|done|].
    exists (wake_loop s'). split.
    + eapply rtc_l; [exact Hquit|]. eapply rtc_r; [exact Hr|]. by apply t_wake.
    + unfold wake_loop. by rewrite Ht'.
Qed.

(** A loop nobody tells to quit does not stop. *)
Lemma calm_step_running e e' :
  loop_step body true e e' -> quit_ e = false -> phase_ e <> Stopped ->
  quit_ e' = false /\ phase_ e' <> Stopped.
Proof.
  intros [e0 e1 Hstep Hc] Hq Hp. split.
  - destruct (quit_ e1); [|done]. by rewrite Hc in Hq.
  - destruct Hstep; cbn; congruence.
Qed.

Lemma hung_step s s' :
  tstep body true s s' -> owner s = Joining -> thread_ s = Running -> quit_ (ev s) = false -> phase_ (ev s) <> Stopped ->
  owner s' = Joining /\ thread_ s' = Running /\ quit_ (ev s') = false /\ phase_ (ev s') <> Stopped.
Proof.
  intros Hstep Ho Ht Hq Hp. destruct Hstep as [s Ho'|s Ho'|s Ho'|s Ho'|s Ho'|s Ho'|s b Ho'|s Ho'|s Ho' Hj|s Ht'|s fs Ht'|s Ht'|s e Ht' He|s Ht' Hp'|s Ht'];
    try congruence.
  - by destruct Ho' as [|[? ?]]; congruence.
  - unfold can_join in Hj. by rewrite Ht in Hj.
  - destruct (calm_step_running _ _ He Hq Hp). by split_and!.
Qed.

(** A destructor that comes before the thread has entered [loop] hangs: [loop]
    forgets the quit, and from then on, unless somebody else tells the loop to
    quit, the thread runs it for ever and the owner waits in [join]. *)
Theorem early_destructor_hangs :
  exists s, rtc (tstep body true) new_thread s /\ owner s = Joining /\ thread_ s = Running /\
    forall s', rtc (tstep body true) s s' -> owner s' = Joining /\ thread_ s' = Running.
Proof.
  pose (told := write_wakefd (quit (queue_own [] new_loop))).
  exists (mkThread Joining Running true (enter told)). split; [|split; [done|split; [done|]]].
  - eapply rtc_l; [by apply t_start|]. eapply rtc_l; [by apply t_build|].
    eapply rtc_l; [by apply (t_callback _ _ _ [])|]. eapply rtc_l; [by apply t_store|].
    eapply rtc_l; [by apply t_spin|]. eapply rtc_l; [by apply t_reread|].
    eapply rtc_l; [apply t_destroy; right; by eexists|]. eapply rtc_l; [by apply t_test|].
    eapply rtc_l; [by apply t_load|]. eapply rtc_l; [by apply (t_quit _ _ _ true)|].
    eapply rtc_l; [by apply t_wake|].
    eapply rtc_l; [apply (t_loop _ _ _ (enter told)); [done|]; constructor; [by apply step_loop|done]|].
    apply rtc_refl.
  - intros s' Hr. remember (mkThread Joining Running true (enter told)) as s eqn:Hs.
    assert (Hi : owner s = Joining /\ thread_ s = Running /\ quit_ (ev s) = false /\ phase_ (ev s) <> Stopped)
      by (rewrite Hs; by split_and!).
    clear Hs. induction Hr as [s|s1 s2 s3 H12 H23 IH]; [by destruct Hi as (? & ? & _)|].
    apply IH. destruct Hi as (? & ? & ? & ?). by eapply hung_step.
Qed.

(** A loop that quits by itself takes the owner by surprise: the owner may
    miss the moment its pointer was set and spin for ever, or see it set and
    then, in the destructor, call [quit] through a null pointer. *)
Theorem owner_misses_loop :
  (exists s, rtc (tstep body false) new_thread s /\ owner s = Spinning /\ thread_ s = Exited /\
     forall s', rtc (tstep body false) s s' -> owner s' = Spinning) /\
  (exists s, rtc (tstep body false) new_thread s /\ owner s = Crashed).
Proof.
  pose (e0 := queue_own [] new_loop). pose (e1 := set_quit (enter e0)).
  assert (Hup : forall o, (o = Spinning \/ o = Loading) ->
            rtc (tstep body false) (mkThread o Running true e0) (mkThread o Exited false (leave e1))).
  { intros o Ho. eapply rtc_l.
    { apply (t_loop _ _ _ (enter e0)); [done|]. constructor; [by apply step_loop|done]. }
    eapply rtc_l. { apply (t_loop _ _ _ e1); [done|]. constructor; [by apply step_quit_own|done]. }
    eapply rtc_l. { apply (t_loop _ _ _ (leave e1)); [done|]. constructor; [by apply step_stop|done]. }
    eapply rtc_l; [by apply t_clear|]. eapply rtc_l; [by apply t_exit|]. apply rtc_refl. }
  assert (Hstart : rtc (tstep body false) new_thread (mkThread Spinning Running true e0)).
  { eapply rtc_l; [by apply t_start|]. eapply rtc_l; [by apply t_build|].
    eapply rtc_l; [by apply (t_callback _ _ _ [])|]. eapply rtc_l; [by apply t_store|]. apply rtc_refl. }
  split.
  - exists (mkThread Spinning Exited false (leave e1)).
    split; [etransitivity; [exact Hstart|apply Hup; by left]|]. split; [done|]. split; [done|].
    intros s' Hr. remember (mkThread Spinning Exited false (leave e1)) as s eqn:Hs.
    assert (Hi : owner s = Spinning /\ thread_ s = Exited /\ loop_ s = false) by (rewrite Hs; by split_and!).
    clear Hs. induction Hr as [s|s1 s2 s3 H12 H23 IH]; [by destruct Hi|].
    apply IH. destruct Hi as (Ho & Ht & Hl).
    destruct H12 as [s Ho'|s Ho'|s Ho'|s [Ho'|[? Ho']]|s Ho'|s Ho'|s b Ho'|s Ho'|s Ho' Hj|s Ht'|s fs Ht'|s Ht'|s e Ht' He|s Ht' Hp'|s Ht'];
      try congruence.
    unfold spin. by rewrite Hl.
  - exists (mkThread Crashed Exited false (leave e1)). split; [|done].
    etransitivity; [exact Hstart|]. eapply rtc_l; [by apply t_spin|]. eapply rtc_l; [by apply t_reread|].
    eapply rtc_l; [apply t_destroy; right; by eexists|]. eapply rtc_l; [by apply t_test|].
    etransitivity; [apply Hup; by right|]. eapply rtc_l; [by apply t_load|].
    eapply rtc_l; [by apply (t_quit _ _ _ false)|]. apply rtc_refl.
Qed.
End theorems.

(** ** Witnesses *)

Definition ready_thread : EventLoopThread := mkThread (Started true) Running true (queue_own [] new_loop).

Theorem start_loop_returns_ready_witness :
  published (thread_ ready_thread) = true /\ (true = false -> over (thread_ ready_thread) = true).
Proof.
  apply (start_loop_returns_ready no_body ready_thread true); [|reflexivity].
  eapply rtc_l; [by apply t_start|]. eapply rtc_l; [by apply t_build|].
  eapply rtc_l; [by apply (t_callback _ _ _ [])|]. eapply rtc_l; [by apply t_store|].
  eapply rtc_l; [by apply t_spin|]. eapply rtc_l; [by apply t_reread|]. apply rtc_refl.
Defined.

(** The loop sleeps in its poll. *)
Theorem thread_destructor_returns_witness :
  let s := mkThread (Quitting true) Running true idle_loop in
  (exists s', rtc (tstep no_body true) s s' /\ owner s' = Joining) /\
  (exists s', rtc (tstep no_body true) s s' /\ owner s' = Crashed).
Proof.
  exact (proj2 (thread_destructor_returns no_body (mkThread (Quitting true) Running true idle_loop)
    eq_refl eq_refl ltac:(discriminate) ltac:(cbn; lia))).
Defined.
