(* ===== verification/HttpServer.v ===== *)
(** * HttpServer: idle timeouts and the message handler (src/httpserver.h, httpserver.cc, server/entry.h)

    Idle connections are found with a wheel of three buckets of shared
    [Entry] objects: a message puts the connection's entry into the newest
    bucket, every second the oldest bucket is dropped, and an entry that is in
    no bucket any more is destroyed, which shuts its connection down.  The
    message handler ties the wheel, the HTTP context and the connection
    together, and the last theorem follows a request from the received bytes
    to the socket. *)

From stdpp Require Import base list numbers strings gmap sets.
From Stdlib Require Import ZArith Lia Ascii.
From S2P Require Import Prelude Buffer Regex SqlConnPool HttpRequest Forms Parsing Accounts HttpResponse HttpContext Channel TcpConnection ConnectionProofs.

Local Open Scope Z_scope.
Local Open Scope result_scope.

(** ** The wheel *)

(** A bucket holds entries; an entry belongs to one connection and is known by
    its number.  The weak pointer a connection keeps can be locked as long as
    some bucket holds the entry. *)
Abbreviation entry := nat (only parsing).

Definition Bucket : Type := gset entry.

Definition wheel_size : nat := 3.

(** [connection_list_(3)] and [resize(3)]; the newest bucket is the last. *)
Definition new_wheel : list Bucket := replicate wheel_size ∅.

Definition alive (e : entry) (w : list Bucket) : bool := bool_decide (e ∈ ⋃ w).

(** [connection_list_.back().insert(entry)]. *)
Definition touch (e : entry) (w : list Bucket) : list Bucket :=
  match last w with
  | Some b => take (length w - 1) w ++ [{[e]} ∪ b]
  | None => w
  end.

(** [ontime]: a full circular buffer drops its oldest bucket; the entries that
    were only there are destroyed. *)
Definition ontime (w : list Bucket) : Bucket * list Bucket :=
  match w with
  | [] => (∅, [])
  | b :: w' => (b ∖ ⋃ w', w' ++ [∅])
  end.

(** [~Entry]: shut the connection down, if it still exists. *)
Definition destroy_entry (conn : option TcpConnection) : result (option TcpConnection) :=
  match conn with
  | Some c => Some <$> shutdown true c
  | None => Ok None
  end.

Definition connection_cb (up : bool) (e : entry) (w : list Bucket) : list Bucket :=
  if up then touch e w else w.

(** [extend_time] makes a second entry for the connection. *)
Definition extend_time (e' : entry) (w : list Bucket) : list Bucket := touch e' w.

(** What happens to the wheel. *)
Inductive wheel_op : Type :=
  | Up (e : entry)
  | Message (e : entry)
  | Tick.

(** The entries destroyed and the wheel after. *)
Definition wheel_step (op : wheel_op) (w : list Bucket) : Bucket * list Bucket :=
  match op with
  | Up e => (∅, connection_cb true e w)
  | Message e => (∅, if alive e w then touch e w else w)
  | Tick => ontime w
  end.

Fixpoint wheel_run (ops : list wheel_op) (w : list Bucket) : Bucket * list Bucket :=
  match ops with
  | [] => (∅, w)
  | op :: ops =>
      let '(d1, w1) := wheel_step op w in
      let '(d2, w2) := wheel_run ops w1 in (d1 ∪ d2, w2)
  end.

(** *** Timeouts *)

(** The ticks an entry has left: its place in the wheel, counted from the
    oldest bucket; 0 if it is gone. *)
Fixpoint life (e : entry) (w : list Bucket) : nat :=
  match w with
  | [] => 0
  | b :: w' =>
      match life e w' with
      | O => if bool_decide (e ∈ b) then 1%nat else 0%nat
      | k => S k
      end
  end.

Definition concerns (e : entry) (op : wheel_op) : bool :=
  match op with Up e' | Message e' => bool_decide (e = e') | Tick => false end.

Definition is_tick (op : wheel_op) : bool := match op with Tick => true | _ => false end.
Definition ticks (ops : list wheel_op) : nat := length (List.filter is_tick ops).

Lemma life_alive e w : alive e w = true <-> (0 < life e w)%nat.
Proof.
  unfold alive. rewrite bool_decide_eq_true. induction w as [|b w IH]; simpl; [set_solver by lia|].
  rewrite elem_of_union. destruct (life e w); [|set_solver by lia].
  case_bool_decide; [|rewrite IH]; split; try lia; naive_solver lia.
Qed.

Lemma life_app e w b :
  life e (w ++ [b]) = if bool_decide (e ∈ b) then S (length w) else life e w.
Proof.
  induction w as [|b0 w IH]; simpl; [by case_bool_decide|]. rewrite IH. by case_bool_decide.
Qed.

Lemma touch_app e w b : touch e (w ++ [b]) = w ++ [{[e]} ∪ b].
Proof.
  unfold touch. rewrite last_snoc, length_app. simpl. rewrite Nat.add_sub, take_app_length. done.
Qed.

Lemma life_touch e w : w <> [] -> life e (touch e w) = length w.
Proof.
  destruct w as [|b w _] using rev_ind; [done|]. intros _.
  rewrite touch_app, life_app, length_app, bool_decide_true by set_solver. simpl. lia.
Qed.

Lemma life_touch_other e e' w : e <> e' -> life e (touch e' w) = life e w.
Proof.
  intros He. destruct w as [|b w _] using rev_ind; [done|]. rewrite touch_app, !life_app.
  by rewrite (bool_decide_ext _ (e ∈ b)) by set_solver.
Qed.

Lemma length_touch e w : length (touch e w) = length w.
Proof.
  destruct w as [|b w _] using rev_ind; [done|]. by rewrite touch_app, !length_app.
Qed.

Lemma life_ontime e w : life e (ontime w).2 = pred (life e w).
Proof.
  destruct w as [|b w]; [done|]. simpl. rewrite life_app, bool_decide_false by set_solver.
  destruct (life e w); [by case_bool_decide|done].
Qed.

Lemma ontime_destroys e w : e ∈ (ontime w).1 <-> life e w = 1%nat.
Proof.
  destruct w as [|b w]; simpl; [set_solver by lia|]. rewrite elem_of_difference.
  pose proof (life_alive e w) as Ha. unfold alive in Ha. rewrite bool_decide_eq_true in Ha.
  destruct (life e w) as [|k].
  - case_bool_decide; split; try done; [intros _; split; [done|]; rewrite Ha; lia|naive_solver].
  - split; [|lia]. intros [_ Hn]. destruct Hn. apply Ha. lia.
Qed.

(** A step that does not concern the entry: only ticks bring it closer to its
    end, and only the tick that ends its life destroys it. *)
Lemma step_life e op w :
  concerns e op = false ->
  life e (wheel_step op w).2 = (life e w - if is_tick op then 1 else 0)%nat /\
  (e ∈ (wheel_step op w).1 <-> is_tick op = true /\ life e w = 1%nat).
Proof.
  destruct op as [e'|e'|]; simpl; intros Hc.
  - apply bool_decide_eq_false in Hc. rewrite life_touch_other by done. split; [lia|set_solver].
  - apply bool_decide_eq_false in Hc.
    split; [destruct (alive e' w); rewrite ?life_touch_other by done; lia|set_solver].
  - rewrite life_ontime, ontime_destroys. split; [lia|naive_solver].
Qed.

Lemma run_life e ops : forall w,
  Forall (fun op => concerns e op = false) ops ->
  life e (wheel_run ops w).2 = (life e w - ticks ops)%nat /\
  (e ∈ (wheel_run ops w).1 <-> (0 < life e w <= ticks ops)%nat).
Proof.
  induction ops as [|op ops IH]; intros w Hops; cbn [wheel_run].
  - unfold ticks. simpl. split; [lia|]. split; [set_solver|lia].
  - apply Forall_cons in Hops as [Hop Hops]. destruct (step_life e op w Hop) as [Hl Hd].
    destruct (wheel_step op w) as [d1 w1]. destruct (IH w1 Hops) as [Hl2 Hd2].
    destruct (wheel_run ops w1) as [d2 w2]. simpl in *.
    unfold ticks in *. cbn [List.filter]. rewrite elem_of_union, Hd, Hd2, Hl2, Hl.
    destruct (is_tick op); simpl; split; [lia| |lia|]; split; intros; naive_solver lia.
Qed.

(** C24: An idle connection is shut down at the third tick after its last message,
    not before and not again, whatever the other connections do. *)
Theorem idle_timeout (e : nat) (w : list Bucket) (ops : list wheel_op) :
  length w = wheel_size -> alive e w = true ->
  Forall (fun op => concerns e op = false) ops ->
  let '(destroyed, w') := wheel_run (Message e :: ops) w in
  (e ∈ destroyed <-> (3 <= ticks ops)%nat) /\ (alive e w' = true <-> (ticks ops < 3)%nat).
Proof.
  intros Hlen Ha Hops. cbn [wheel_run wheel_step]. rewrite Ha.
  assert (Hlife : life e (touch e w) = 3%nat).
  { rewrite life_touch; [done|]. by intros ->. }
  destruct (run_life e ops (touch e w) Hops) as [Hl Hd].
  destruct (wheel_run ops (touch e w)) as [d w']. simpl in *.
  rewrite life_alive, Hl, Hlife. rewrite Hlife in Hd. split; [|lia].
  rewrite elem_of_union, Hd. split; [|intros; right; lia].
  intros [He|He]; [by apply elem_of_empty in He|lia].
Qed.

(** ** The message handler *)

(** What the server keeps for a connection. *)
Record http_conn : Type := mkHttp {
  hc_entry : entry;
  hc_context : HttpContext;
  hc_conn : TcpConnection
}.

(** [b'] is [b] without its contents, grown by at most [n]. *)
Definition emptied (b : Buffer) (n : Z) (b' : Buffer) : Prop :=
  wf b' /\ contents b' = [] /\ vsize b' <= vsize b + n.

Section handler.
Context {DB : Type} `{!MySQL DB} {FS : FileSystem} (srcDir : bytes).

Definition set_write (b : Buffer) (c : HttpContext) : HttpContext :=
  mkContext (readBuff_ c) b (request_ c) (response_ c).

(** [message_cb], run by the connection's own loop; a connection whose entry
    is gone is not read. *)
Definition message_cb (sent : io nat) (h : http_conn) (w : list Bucket) (wd : world (DB := DB)) :
    result (http_conn * list Bucket * world (DB := DB)) :=
  if alive (hc_entry h) w then
    '(_, buff, ctx, wd1) ← HttpContext.read srcDir (input_buffer_ (hc_conn h)) (hc_context h) wd;
    '(out, conn) ← send_buffer true (HttpContext.write ctx) sent (set_input buff (hc_conn h));
    Ok (mkHttp (hc_entry h) (set_write out ctx) conn, touch (hc_entry h) w, wd1)
  else Ok (h, w, wd).

(** Functors that only report. *)
Definition reports (f : functor) : Prop :=
  match f with FWriteComplete | FHighWater _ => True | _ => False end.

(** A connection that is up, that nobody asked to change, and that can take
    [n] more bytes of output. *)
Record ready (c : TcpConnection) (n : Z) : Prop := {
  ready_up : status_ c = CONNECTED;
  ready_channel : exists ch, get_channel c = Ok ch /\ Channel.status_ ch = ADD /\ is_reading ch = true;
  ready_mirrors : mirrors (poller_ c);
  ready_output : wf (output_buffer_ c);
  ready_room : vsize (output_buffer_ c) + n <= max_size;
  ready_pending : Forall reports (pending_ c)
}.

Lemma reading_lor e m : has_bits e kReadEvent = true -> has_bits (Z.lor e m) kReadEvent = true.
Proof.
  unfold has_bits. rewrite Z.land_lor_distr_l. rewrite !negb_true_iff, !Z.eqb_neq.
  intros He [H0 _]%Z.lor_eq_0_iff. done.
Qed.

Lemma reading_ldiff e :
  has_bits (Z.land e (Z.lnot kWriteEvent)) kReadEvent = has_bits e kReadEvent.
Proof. unfold has_bits. by rewrite <-Z.land_assoc. Qed.

Lemma reading_some e : has_bits e kReadEvent = true -> e <> kNoneEvent.
Proof. by intros H ->. Qed.

(** An operation that leaves the channel reading leaves the connection ready. *)
Lemma ready_on_channel f c n :
  ready c n -> (forall e, has_bits e kReadEvent = true -> has_bits (f e) kReadEvent = true) ->
  exists c', on_channel (with_events f) c = Ok c' /\ ready c' n /\ (exists p, c' = set_poller p c).
Proof.
  intros [Hup (ch & Hch & Hst & Hrd) Hm Ho Hr Hp] Hf. unfold on_channel. apply get_channel_ok in Hch.
  pose proof (with_events_cases f _ _ _ Hm Hch) as Hw. cbv zeta in Hw. rewrite Hst in Hw.
  assert (Hne : is_none_event (changed f ch) = false) by (apply Z.eqb_neq, reading_some, Hf, Hrd).
  rewrite Hne in Hw. pose proof (with_events_mirrors _ _ _ _ Hm Hw) as Hm'. rewrite Hw, bind_ok.
  eexists. split; [reflexivity|]. split; [|by eexists]. split; simpl; try done.
  exists (changed f ch). unfold get_channel. simpl. rewrite lookup_insert_eq. split; [done|].
  split; [done|]. apply Hf, Hrd.
Qed.

Lemma ready_queue c n f : reports f -> ready c n -> ready (queue_in_loop f c) n.
Proof. intros Hf [? ? ? ? ? Hp]; split; try done. simpl. apply Forall_app. by repeat constructor. Qed.

Lemma ready_wire c n d : ready c n -> ready (write_to_wire d c) n.
Proof. by intros [? ? ? ? ? ?]; split. Qed.

Lemma store_rest_ok rest c n :
  ready c n -> Z.of_nat (length rest) <= n ->
  exists c', store_rest rest c = Ok c' /\ ready c' (n - Z.of_nat (length rest)).
Proof.
  intros Hready Hlen. unfold store_rest. cbv zeta. set (c1 := if _ && _ then _ else _).
  assert (Hready1 : ready c1 n) by (unfold c1; destruct (_ && _); [by apply ready_queue|done]).
  pose proof Hready1 as [Hup (ch & Hch & Hst & Hrd) Hm Hwf Hroom Hpend].
  destruct (append_emits rest (output_buffer_ c1) Hwf) as (out & -> & (Hwf' & _ & Hv)); [lia|]. rewrite bind_ok.
  assert (Hready2 : ready (set_output out c1) (n - Z.of_nat (length rest))).
  { split; simpl; try done; [by exists ch|lia]. }
  change (get_channel (set_output out c1)) with (get_channel c1). rewrite Hch, bind_ok.
  destruct (is_writing ch); [by eexists|].
  destruct (ready_on_channel (fun e => Z.lor e kWriteEvent) _ _ Hready2) as (c' & Hc' & Hr & _).
  { intros e. apply reading_lor. }
  by exists c'.
Qed.

(** What the socket answers while the peer is there. *)
Definition peer_there (sent : io nat) (len : nat) : Prop :=
  match sent with
  | IoOk n => (n <= len)%nat
  | IoErr errno => fault_error errno = false
  end.

Lemma send_in_loop_ok data sent c n :
  ready c n -> Z.of_nat (length data) <= n -> peer_there sent (length data) ->
  exists c', send_in_loop_ data sent c = Ok c' /\ ready c' (n - Z.of_nat (length data)).
Proof.
  intros Hready Hlen Hsent. pose proof Hready as [Hup (ch & Hch & Hst & Hrd) Hm Hwf Hroom _].
  assert (Hsz : 0 <= vsize (output_buffer_ c)) by (unfold vsize; lia).
  assert (Hless : forall d, (length d <= length data)%nat -> forall c1, ready c1 n ->
    exists c', (if negb false && (0 <? Z.of_nat (length d)) then store_rest d c1 else Ok c1) = Ok c' /\
      ready c' (n - Z.of_nat (length data))).
  { intros d Hd c1 Hc1. assert (Hweak : forall c2, ready c2 (n - Z.of_nat (length d)) ->
      ready c2 (n - Z.of_nat (length data))) by (intros c2 []; split; try done; lia).
    destruct (negb false && _) eqn:He.
    - destruct (store_rest_ok d c1 n Hc1) as (c' & ? & ?); [lia|]. exists c'. auto.
    - exists c1. split; [done|]. destruct Hc1; split; try done; lia. }
  unfold send_in_loop_. rewrite bool_decide_false by congruence. rewrite Hch, bind_ok. cbv zeta.
  destruct (negb _ && _); cbn [try_send].
  - destruct sent as [errno|k]; cbn [try_send peer_there] in *.
    + rewrite assert_true by (apply Z.leb_le; lia). cbv beta. rewrite Hsent. by apply (Hless data).
    + set (c1 := if (_ =? 0) && _ then _ else _).
      assert (Hc1 : ready c1 n).
      { unfold c1. destruct (_ && _); [apply ready_queue; [done|]|]; by apply ready_wire. }
      rewrite u64_small by (unfold max_size in *; lia).
      rewrite assert_true by (apply Z.leb_le; lia). cbv beta.
      replace (Z.of_nat (length data) - Z.of_nat k) with (Z.of_nat (length (drop k data)))
        by (rewrite length_drop; lia).
      apply Hless; [rewrite length_drop; lia|done].
  - rewrite assert_true by (apply Z.leb_le; lia). cbv beta. by apply (Hless data).
Qed.

(** Sending leaves the input buffer alone. *)
Lemma store_rest_input rest c c' : store_rest rest c = Ok c' -> input_buffer_ c' = input_buffer_ c.
Proof.
  unfold store_rest. cbv zeta. intros Hr. inv_bind Hr. inv_bind Hr.
  destruct ((high_water_mark_ c <=? _) && _); (destruct (is_writing a0); [by simplify_eq|]);
    by apply on_channel_ok in Hr as (p & _ & ->).
Qed.

Lemma send_in_loop_input data sent c c' :
  send_in_loop_ data sent c = Ok c' -> input_buffer_ c' = input_buffer_ c.
Proof.
  unfold send_in_loop_. case_bool_decide; [by intros [= <-]|]. intros Hr. inv_bind Hr. cbv zeta in Hr.
  assert (Ht : input_buffer_ (try_send data sent c).2 = input_buffer_ c).
  { destruct sent; [done|]. simpl. by destruct ((u64 _ =? 0) && _). }
  destruct (negb _ && _).
  - destruct (try_send data sent c) as [[[nw rem] fault] c1]. simpl in Ht. inv_bind Hr.
    destruct (negb fault && _); [|by simplify_eq]. apply store_rest_input in Hr. congruence.
  - inv_bind Hr. destruct (negb false && _); [by apply store_rest_input in Hr|by simplify_eq].
Qed.

Lemma send_buffer_ok buff sent c n :
  wf buff -> ready c n -> Z.of_nat (length (contents buff)) <= n ->
  peer_there sent (length (contents buff)) ->
  exists c', send_buffer true buff sent c = Ok (retrieve_all buff, c') /\
    stream c' = stream c ++ contents buff /\ input_buffer_ c' = input_buffer_ c /\
    ready c' (n - Z.of_nat (length (contents buff))) /\ (conn_inv c -> conn_inv c').
Proof.
  intros Hwf Hready Hn Hsent. pose proof Hready as [Hup (ch & Hch & _) _ Hout Hroom _].
  destruct (send_in_loop_ok (contents buff) sent c n) as (c' & Hc' & Hready'); [done..|].
  exists c'. unfold send_buffer, send, run_in_loop. rewrite !bool_decide_true by done.
  assert (Hl : Z.of_nat (length (contents buff)) <= max_size) by (unfold vsize in Hroom; lia).
  rewrite Hc', bind_ok. split; [done|].
  split; [|split; [by eapply send_in_loop_input|split; [done|]]].
  2: { intros Hi. eapply send_in_loop_inv; [exact Hi|congruence|exact Hl|exact Hc']. }
  destruct (send_in_loop_extends _ _ _ _ Hout Hl Hc') as [_ ->].
  unfold taken. rewrite bool_decide_false by congruence. rewrite Hch.
  destruct sent as [errno|]; [|done]. cbn [peer_there] in Hsent. by rewrite Hsent, andb_false_r.
Qed.

(** One request: what the handler writes, and how the buffers are left. *)
Lemma message_served (h : http_conn) (w : list Bucket) (wd : world (DB := DB))
    (m p v : bytes) (hs : list (bytes * bytes)) (size : Z) (file : bytes) (sent : io nat) (n : Z) :
  let req := request_of FINISH m p v hs in
  let text := answer_200 srcDir req size file in
  let ctx := hc_context h in
  let input := input_buffer_ (hc_conn h) in
  alive (hc_entry h) w = true -> srcDir <> [] ->
  word m -> word p -> word v -> Forall header_ok hs ->
  wf input -> contents input = print_request m p v hs [] ->
  wf (readBuff_ ctx) -> contents (readBuff_ ctx) = [] ->
  vsize (readBuff_ ctx) + Z.of_nat (length (contents input)) <= max_size ->
  wf (writeBuff_ ctx) -> contents (writeBuff_ ctx) = [] ->
  vsize (writeBuff_ ctx) + Z.of_nat (length text) <= max_size ->
  fs_stat (c_str (srcDir ++ path req)) = Some (mkStat false true size) ->
  mappable (c_str (srcDir ++ path req)) size file -> 0 < size <= Z.of_nat (length file) ->
  ready (hc_conn h) n -> Z.of_nat (length text) <= n -> peer_there sent (length text) ->
  exists h' wd', message_cb sent h w wd = Ok (h', touch (hc_entry h) w, wd') /\
    hc_entry h' = hc_entry h /\
    stream (hc_conn h') = stream (hc_conn h) ++ text /\ ready (hc_conn h') (n - Z.of_nat (length text)) /\
    (conn_inv (hc_conn h) -> conn_inv (hc_conn h')) /\
    emptied input 0 (input_buffer_ (hc_conn h')) /\
    emptied (readBuff_ ctx) (Z.of_nat (length (contents input))) (readBuff_ (hc_context h')) /\
    emptied (writeBuff_ ctx) (Z.of_nat (length text)) (writeBuff_ (hc_context h')).
Proof.
  intros req text ctx input Ha Hsrc Hm Hp Hv Hhs Hwi Hci Hwr Hcr Hrr Hww Hcw Hrw Hst Hmap Hsize Hready Hn Hsent.
  unfold message_cb. rewrite Ha. unfold HttpContext.read. fold input ctx.
  destruct (retrieve_all_string_spec input Hwi) as (input' & -> & Hwi' & Hci' & Hbi'). rewrite bind_ok.
  destruct (append_emits (contents input) (readBuff_ ctx) Hwr Hrr) as (rb & -> & (Hwrb & Hcrb & Hvrb)).
  rewrite bind_ok. rewrite Hcr, Hci in Hcrb.
  set (ctx0 := mkContext rb (writeBuff_ ctx) (request_ ctx) (response_ ctx)).
  destruct (get_is_served_lemma srcDir ctx0 wd m p v hs size file)
    as (ctx1 & -> & Hw1 & Hr1 & _ & Hwr1 & Hww1 & Hvr1 & Hvw1); [done..|].
  rewrite bind_ok. cbv beta iota. rewrite bind_ok. unfold HttpContext.write.
  change (writeBuff_ ctx0) with (writeBuff_ ctx) in Hw1, Hvw1. change (readBuff_ ctx0) with rb in Hvr1.
  rewrite Hcw in Hw1. cbn [app] in Hw1. fold req text in Hw1, Hvw1.
  destruct (send_buffer_ok (writeBuff_ ctx1) sent (set_input input' (hc_conn h)) n)
    as (conn & -> & Hstream & Hinput & Hready' & Hinv);
    [done|by destruct Hready; split|by rewrite Hw1|by rewrite Hw1|].
  rewrite bind_ok. do 2 eexists. split; [reflexivity|]. cbn [hc_conn hc_context hc_entry set_write readBuff_ writeBuff_].
  rewrite Hw1 in Hready', Hstream. rewrite Hstream, Hinput.
  split; [done|]. split; [done|]. split; [done|]. split; [intros []; by apply Hinv; split|].
  split; [|split].
  - split_and!; try done. simpl. unfold vsize. rewrite Hbi'. lia.
  - split_and!; try done. rewrite Hvr1. exact Hvrb.
  - split_and!; [by apply retrieve_all_wf|done|exact Hvw1].
Qed.

(** From the received bytes to the socket: a complete GET request for an
    existing file, received on a connection that is up and not timed out, is
    answered; the status line, the headers and the file are handed to the
    socket or wait behind what waited before, the request is used up, and the
    connection's idle time starts again. *)
Theorem get_reaches_the_wire (h : http_conn) (w : list Bucket) (wd : world (DB := DB))
    (m p v : bytes) (hs : list (bytes * bytes)) (size : Z) (file : bytes) (sent : nat) :
  let req := request_of FINISH m p v hs in
  let text := answer_200 srcDir req size file in
  let ctx := hc_context h in
  let input := input_buffer_ (hc_conn h) in
  alive (hc_entry h) w = true -> srcDir <> [] ->
  word m -> word p -> word v -> Forall header_ok hs ->
  wf input -> contents input = print_request m p v hs [] ->
  wf (readBuff_ ctx) -> contents (readBuff_ ctx) = [] ->
  vsize (readBuff_ ctx) + Z.of_nat (length (contents input)) <= max_size ->
  wf (writeBuff_ ctx) -> contents (writeBuff_ ctx) = [] ->
  vsize (writeBuff_ ctx) + Z.of_nat (length text) <= max_size ->
  fs_stat (c_str (srcDir ++ path req)) = Some (mkStat false true size) ->
  mappable (c_str (srcDir ++ path req)) size file -> 0 < size <= Z.of_nat (length file) ->
  ready (hc_conn h) (Z.of_nat (length text)) -> (sent <= length text)%nat ->
  exists h' wd', message_cb (IoOk sent) h w wd = Ok (h', touch (hc_entry h) w, wd') /\
    stream (hc_conn h') = stream (hc_conn h) ++ text /\
    contents (input_buffer_ (hc_conn h')) = [] /\
    contents (readBuff_ (hc_context h')) = [] /\ contents (writeBuff_ (hc_context h')) = [].
Proof.
  intros req text ctx input Ha Hsrc Hm Hp Hv Hhs Hwi Hci Hwr Hcr Hrr Hww Hcw Hrw Hst Hmap Hsize Hready Hsent.
  destruct (message_served h w wd m p v hs size file (IoOk sent) (Z.of_nat (length text)))
    as (h' & wd' & Hrun & _ & Hs & _ & _ & (_ & Hi & _) & (_ & Hr & _) & (_ & Hw & _)); [done..|].
  by exists h', wd'.
Qed.
End handler.

(** ** Witnesses *)

Definition demo_wheel : list Bucket := [∅; {[0%nat]}; {[1%nat]}].

(** Connection 0 is silent after its message while connection 1 goes on. *)
Theorem idle_timeout_witness :
  let ops := [Tick; Message 1%nat; Tick; Message 1%nat; Tick] in
  let '(destroyed, w') := wheel_run (Message 0%nat :: ops) demo_wheel in
  0%nat ∈ destroyed /\ alive 0%nat w' = false /\ alive 1%nat w' = true.
Proof.
  intros ops.
  assert (H0 : Forall (fun op => concerns 0%nat op = false) ops) by (by repeat constructor).
  pose proof (idle_timeout 0%nat demo_wheel ops eq_refl eq_refl H0) as Hi.
  assert (H1 : alive 1%nat (wheel_run (Message 0%nat :: ops) demo_wheel).2 = true) by (vm_compute; reflexivity).
  destruct (wheel_run (Message 0%nat :: ops) demo_wheel) as [d w']. destruct Hi as [Hd Ha].
  split; [|split; [|exact H1]].
  - apply Hd. vm_compute. repeat constructor.
  - destruct (alive 0%nat w'); [|reflexivity]. apply proj1 in Ha. specialize (Ha eq_refl).
    vm_compute in Ha. exfalso. lia.
Defined.

(** The connection is up, its request has been read from the socket. *)
Definition demo_http : http_conn :=
  mkHttp 1%nat (demo_context []) (set_input (filled index_text) (after [OpBuild])).

Lemma demo_ready n : 0 <= n <= 1000 -> ready (hc_conn demo_http) n.
Proof.
  intros Hn. split.
  - vm_compute. reflexivity.
  - exists (mkChannel 5 3 0 ADD true false true). split_and!; vm_compute; reflexivity.
  - assert (Hr : conn_run [OpBuild] demo_start = Ok (after [OpBuild])) by (vm_compute; reflexivity).
    refine (proj1 (inv_channel _ (conn_run_inv [OpBuild] demo_start _ _ _ Hr))); [|by repeat constructor].
    by apply (new_connection_inv 0 false (new_poller demo_chans) (new_channel 5) demo_start_mirrors).
  - split; vm_compute; intuition discriminate.
  - assert (Hv : vsize (output_buffer_ (hc_conn demo_http)) = 1032) by (vm_compute; reflexivity).
    rewrite Hv. unfold max_size. lia.
  - by constructor.
Qed.

(** The socket takes 20 bytes of the answer; the rest waits. *)
Theorem get_reaches_the_wire_witness :
  exists h' wd',
    message_cb (lit "/w") (IoOk 20%nat) demo_http demo_wheel demo_world =
      Ok (h', touch 1%nat demo_wheel, wd') /\
    stream (hc_conn h') = status_line 200 ++ header_lines false (lit "text/html") ++
      content_length 5 ++ lit "hello" /\
    contents (readBuff_ (hc_context h')) = [].
Proof.
  destruct (get_reaches_the_wire (lit "/w") demo_http demo_wheel demo_world (lit "GET") (lit "/") (lit "1.1")
              [(lit "Host", lit "h")] 5 (demo_map (lit "hello")) 20%nat)
    as (h' & wd' & Hm & Hs & _ & Hr & _).
  - vm_compute. reflexivity.
  - discriminate.
  - by_free.
  - by_free.
  - by_free.
  - by_free.
  - split; vm_compute; intuition discriminate.
  - vm_compute. reflexivity.
  - split; vm_compute; intuition discriminate.
  - vm_compute. reflexivity.
  - vm_compute. discriminate.
  - exact demo_out_wf.
  - vm_compute. reflexivity.
  - vm_compute. discriminate.
  - vm_compute. reflexivity.
  - split_and!; vm_compute; reflexivity.
  - split; vm_compute; [reflexivity|discriminate].
  - apply demo_ready. vm_compute. split; discriminate.
  - vm_compute. repeat constructor.
  - exists h', wd'. split; [exact Hm|]. split; [|exact Hr]. rewrite Hs. vm_compute. reflexivity.
Defined.
