(* ===== verification/Serving.v ===== *)
(** * Serving: a connection over many requests (src/httpserver.cc, server/tcpconnection.cc)

    The handlers of one connection put together: what the socket reports, the
    message callback, the functors the connection queued for itself, and the
    wheel that closes it when it is idle.  The theorems follow a client over
    as many requests as it sends. *)

From stdpp Require Import base list numbers strings gmap sets.
From Stdlib Require Import ZArith Lia Ascii.
From S2P Require Import Prelude Buffer Regex SqlConnPool HttpRequest Forms Parsing Accounts HttpResponse HttpContext Channel TcpConnection ConnectionProofs HttpServer.

Local Open Scope Z_scope.
Local Open Scope result_scope.

(** ** One connection's events *)

Inductive conn_event : Type :=
  | Readable (readv : io bytes) (sent : io nat)   (* [sent]: what the direct [send] answers *)
  | Writable (written : io nat)
  | Queued                                        (* the oldest functor queued in the loop *)
  | Wheel (op : wheel_op).

Section serve.
Context {DB : Type} `{!MySQL DB} {FS : FileSystem} (srcDir : bytes).

(** The connection with what the server keeps for it, the wheel, and what the
    connections share. *)
Record serve_state : Type := mkServe {
  client : http_conn;
  wheel : list Bucket;
  shared : world (DB := DB)
}.

Definition set_conn (c : TcpConnection) (h : http_conn) : http_conn :=
  mkHttp (hc_entry h) (hc_context h) c.

(** [TcpConnection::handle_read_] with the server's message callback. *)
Definition on_readable (readv : io bytes) (sent : io nat) (s : serve_state) : result serve_state :=
  conn ← handle_read_ readv (hc_conn (client s));
  let h := set_conn conn (client s) in
  match readv with
  | IoOk (_ :: _) =>
      '(h1, w1, wd1) ← message_cb srcDir sent h (wheel s) (shared s);
      Ok (mkServe h1 w1 wd1)
  | _ => Ok (mkServe h (wheel s) (shared s))
  end.

(** What happens to the wheel; an entry of this connection that is destroyed
    shuts the connection down. *)
Definition on_wheel (op : wheel_op) (s : serve_state) : result serve_state :=
  let h := client s in
  let '(dead, w) := wheel_step op (wheel s) in
  if bool_decide (hc_entry h ∈ dead) then
    conn ← destroy_entry (Some (hc_conn h));
    Ok (mkServe (set_conn (default (hc_conn h) conn) h) w (shared s))
  else Ok (mkServe h w (shared s)).

Definition on_conn (op : conn_op) (s : serve_state) : result serve_state :=
  conn ← conn_step op (hc_conn (client s));
  Ok (mkServe (set_conn conn (client s)) (wheel s) (shared s)).

Definition serve_step (ev : conn_event) (s : serve_state) : result serve_state :=
  match ev with
  | Readable readv sent => on_readable readv sent s
  | Writable written => on_conn (OpWritable written) s
  | Queued => on_conn (OpRunQueued [] (IoOk 0%nat)) s
  | Wheel op => on_wheel op s
  end.

Fixpoint serve_run (evs : list conn_event) (s : serve_state) : result serve_state :=
  match evs with
  | [] => Ok s
  | ev :: evs => s1 ← serve_step ev s; serve_run evs s1
  end.

(** ** The client and the socket *)

(** A client that waits: [ev] is a whole GET of an existing file, and [text]
    its answer, or an event that asks for none. *)
Inductive asks : conn_event -> bytes -> Prop :=
  | asks_get m p v hs size file sent :
      word m -> word p -> word v -> Forall header_ok hs ->
      let req := request_of FINISH m p v hs in
      let text := answer_200 srcDir req size file in
      fs_stat (c_str (srcDir ++ path req)) = Some (mkStat false true size) ->
      mappable (c_str (srcDir ++ path req)) size file -> 0 < size <= Z.of_nat (length file) ->
      peer_there sent (length text) ->
      asks (Readable (IoOk (print_request m p v hs [])) sent) text
  | asks_writable written : asks (Writable written) []
  | asks_queued : asks Queued []
  | asks_wheel op : asks (Wheel op) [].

(** The bytes an event can add to a buffer. *)
Definition weight (ev : conn_event) (text : bytes) : Z :=
  match ev with
  | Readable (IoOk data) _ => Z.of_nat (length data)
  | _ => 0
  end + Z.of_nat (length text).

Fixpoint total (evs : list conn_event) (texts : list bytes) : Z :=
  match evs, texts with
  | ev :: evs, text :: texts => weight ev text + total evs texts
  | _, _ => 0
  end.

(** The client is never silent for three ticks; [k] ticks are left.  The other
    connections do what they like. *)
Fixpoint lively (e k : nat) (evs : list conn_event) : Prop :=
  match evs with
  | [] => True
  | Readable _ _ :: evs => lively e wheel_size evs
  | Wheel op :: evs =>
      concerns e op = false /\
      if is_tick op then (1 < k)%nat /\ lively e (k - 1) evs else lively e k evs
  | _ :: evs => lively e k evs
  end.

(** [write] accepts at most what it was offered. *)
Fixpoint socket_sound (evs : list conn_event) (s : serve_state) : Prop :=
  match evs with
  | [] => True
  | ev :: evs =>
      match ev with
      | Writable (IoOk n) => (n <= length (contents (output_buffer_ (hc_conn (client s)))))%nat
      | _ => True
      end /\
      match serve_step ev s with Ok s1 => socket_sound evs s1 | Fault _ => True end
  end.
End serve.
Arguments mkServe {DB}. Arguments client {DB}. Arguments wheel {DB}. Arguments shared {DB}.

(** ** The handlers of a ready connection *)

Lemma handle_write_ok w c n :
  ready c n -> match w with IoOk k => (k <= length (contents (output_buffer_ c)))%nat | _ => True end ->
  exists c', handle_write_ w c = Ok c' /\ ready c' n /\ stream c' = stream c /\
    input_buffer_ c' = input_buffer_ c /\ (conn_inv c -> conn_inv c').
Proof.
  intros Hready Hw. pose proof Hready as [Hup (ch & Hch & Hst & Hrd) Hm Hwf Hroom Hpend].
  assert (Hgo : exists c', handle_write_ w c = Ok c' /\ ready c' n /\ input_buffer_ c' = input_buffer_ c).
  2: { destruct Hgo as (c' & Hc' & ? & ?). exists c'. split_and!; try done.
       - destruct (handle_write_extends w c c' Hwf Hc') as [_ Hs]. by rewrite app_nil_r in Hs.
       - intros Hi. by eapply handle_write_inv. }
  unfold handle_write_. rewrite Hch, bind_ok. destruct (is_writing ch); [|by exists c].
  destruct w as [|[|k]]; [by exists c..|]. set (m := S k) in *. cbv zeta.
  destruct (retrieve_spec (Z.of_nat m) (output_buffer_ c) Hwf) as (out & -> & Hwf' & _ & Hbuf); [lia|].
  rewrite bind_ok. set (c1 := write_to_wire _ _).
  assert (Hready1 : ready c1 n).
  { apply ready_wire. split; simpl; try done; [by exists ch|]. unfold vsize in *. by rewrite Hbuf. }
  destruct (read_able_bytes out =? 0); [|by exists c1].
  destruct (ready_on_channel (fun e => Z.land e (Z.lnot kWriteEvent)) c1 n Hready1) as (c2 & Hc2 & Hready2 & p & ->).
  { intros e. by rewrite reading_ldiff. }
  unfold disable_writing. rewrite Hc2, bind_ok.
  assert (Hready3 : ready (if write_complete_cb_ (set_poller p c1) then queue_in_loop FWriteComplete (set_poller p c1)
            else set_poller p c1) n).
  { destruct (write_complete_cb_ _); [by apply ready_queue|done]. }
  rewrite bool_decide_false by (rewrite (ready_up _ _ Hready3); done).
  eexists. split; [reflexivity|]. split; [done|]. by destruct (write_complete_cb_ _).
Qed.

(** A functor the connection queued only reports. *)
Lemma run_queued_ok c n :
  ready c n ->
  exists c', conn_step (OpRunQueued [] (IoOk 0%nat)) c = Ok c' /\ ready c' n /\ stream c' = stream c /\
    input_buffer_ c' = input_buffer_ c /\ (conn_inv c -> conn_inv c').
Proof.
  intros Hready.
  assert (Hinv : forall c', conn_step (OpRunQueued [] (IoOk 0%nat)) c = Ok c' -> conn_inv c -> conn_inv c').
  { intros c' Hc' Hi. eapply conn_step_inv; [exact Hi| |exact Hc']. simpl. unfold max_size. lia. }
  pose proof Hready as [Hup Hch Hm Hwf Hroom Hpend]. cbn [conn_step] in *.
  destruct (pending_ c) as [|f fs] eqn:Hp; [by exists c|].
  apply Forall_cons in Hpend as [Hf Hfs].
  destruct f; try done; (eexists; split; [reflexivity|]; split; [split; simpl; done|]; split_and!; [done..|by apply Hinv]).
Qed.

Lemma handle_read_ok data c n :
  ready c n -> wf (input_buffer_ c) -> contents (input_buffer_ c) = [] -> data <> [] ->
  vsize (input_buffer_ c) + Z.of_nat (length data) <= max_size ->
  exists c', handle_read_ (IoOk data) c = Ok c' /\ ready c' n /\ stream c' = stream c /\
    wf (input_buffer_ c') /\ contents (input_buffer_ c') = data /\
    vsize (input_buffer_ c') <= vsize (input_buffer_ c) + Z.of_nat (length data) /\
    (conn_inv c -> conn_inv c').
Proof.
  intros [Hup Hch Hm Hwf Hroom Hpend] Hi Hc Hd Hv. unfold handle_read_.
  destruct (read_fd_spec data (input_buffer_ c) Hi Hv) as (b & -> & Hwf' & Hc' & Hv').
  rewrite bind_ok. rewrite (proj2 (Z.ltb_lt _ _)) by (destruct data; [done|simpl; lia]).
  eexists. split; [reflexivity|]. rewrite Hc in Hc'. split; [by split|]. split_and!; try done.
  intros []; by split.
Qed.

(** ** Serving *)

Section serving.
Context {DB : Type} `{!MySQL DB} {FS : FileSystem} (srcDir : bytes).
Implicit Types (s : serve_state (DB := DB)).

(** The buffer is empty and can take [n] more bytes. *)
Definition drained (b : Buffer) (n : Z) : Prop := wf b /\ contents b = [] /\ vsize b + n <= max_size.

Lemma drained_emptied b n k b' m : drained b n -> emptied b k b' -> m <= n - k -> drained b' m.
Proof. intros (_ & _ & ?) (? & ? & ?) ?. split_and!; try done. lia. Qed.

Lemma drained_less b n m : drained b n -> m <= n -> drained b m.
Proof. intros (? & ? & ?) ?. split_and!; try done. lia. Qed.

Lemma ready_less c n m : ready c n -> m <= n -> ready c m.
Proof. intros [] ?. split; try done. lia. Qed.

(** Between two requests, with room for [n] more bytes. *)
Record serving (s : serve_state (DB := DB)) (n : Z) : Prop := {
  sv_ready : ready (hc_conn (client s)) n;
  sv_inv : conn_inv (hc_conn (client s));
  sv_input : drained (input_buffer_ (hc_conn (client s))) n;
  sv_read : drained (readBuff_ (hc_context (client s))) n;
  sv_write : drained (writeBuff_ (hc_context (client s))) n;
  sv_wheel : length (wheel s) = wheel_size
}.

(** [s'] has sent [text] more, and can go on. *)
Definition served (s : serve_state (DB := DB)) (text : bytes) (n : Z) (s' : serve_state (DB := DB)) : Prop :=
  serving s' n /\ stream (hc_conn (client s')) = stream (hc_conn (client s)) ++ text /\
  hc_entry (client s') = hc_entry (client s).

Lemma readable_served data sent s text n :
  asks srcDir (Readable (IoOk data) sent) text -> srcDir <> [] -> serving s n ->
  alive (hc_entry (client s)) (wheel s) = true -> weight (Readable (IoOk data) sent) text <= n ->
  exists s', serve_step srcDir (Readable (IoOk data) sent) s = Ok s' /\
    served s text (n - weight (Readable (IoOk data) sent) text) s' /\
    wheel s' = touch (hc_entry (client s)) (wheel s).
Proof.
  intros Hasks Hsrc [Hready Hinv (Hwi & Hci & Hvi) (Hwr & Hcr & Hvr) (Hww & Hcw & Hvw) Hlen] Ha Hn.
  inversion Hasks as [m p v hs size file sent' Hm Hp Hv Hhs req text' Hst Hmap Hsize Hsent Hev| | |]; subst.
  cbn [weight] in Hn. set (data := print_request m p v hs []) in *.
  assert (Hne : data <> []) by (unfold data, print_request; by destruct m).
  destruct (handle_read_ok data (hc_conn (client s)) n) as (c1 & Hc1 & Hready1 & Hs1 & Hw1 & Hi1 & Hv1 & Hinv1); [done..|unfold weight in *; lia|].
  cbn [serve_step]. unfold on_readable. rewrite Hc1, bind_ok.
  destruct data as [|x data'] eqn:Hdata; [done|]. rewrite <-Hdata in *.
  destruct (message_served srcDir (set_conn c1 (client s)) (wheel s) (shared s) m p v hs size file sent n)
    as (h' & wd' & Hrun & He & Hs & Hready' & Hinv' & Hin & Hrd & Hwr');
    [done..|exact Hi1|done|done| |done|done| |done|done|done|done| |done|].
  { cbn [hc_conn set_conn hc_context]. rewrite Hi1. unfold weight in *. lia. }
  { cbn [set_conn hc_context]. fold req text'. unfold weight in *. lia. }
  { fold req text'. unfold weight in *. lia. }
  rewrite Hrun, bind_ok. eexists. split; [reflexivity|]. split; [|done].
  cbn [hc_conn set_conn hc_context hc_entry] in *. cbn [weight]. fold req text' in Hs, Hready', Hwr'. rewrite Hi1 in Hrd.
  split; [split; cbn [client wheel hc_conn]|split; [by rewrite <-Hs1|done]].
  - eapply ready_less; [exact Hready'|(unfold weight in *; lia)].
  - by apply Hinv', Hinv1.
  - destruct Hin as (? & ? & ?). split_and!; try done. (unfold weight in *; lia).
  - eapply drained_emptied; [|exact Hrd|]; [split_and!; [done|done|exact Hvr]|(unfold weight in *; lia)].
  - eapply drained_emptied; [|exact Hwr'|]; [split_and!; [done|done|exact Hvw]|(unfold weight in *; lia)].
  - by rewrite length_touch.
Qed.

Lemma on_conn_served op s n :
  serving s n ->
  (exists c', conn_step op (hc_conn (client s)) = Ok c' /\ ready c' n /\
     stream c' = stream (hc_conn (client s)) /\ input_buffer_ c' = input_buffer_ (hc_conn (client s)) /\
     (conn_inv (hc_conn (client s)) -> conn_inv c')) ->
  exists s', on_conn op s = Ok s' /\ served s [] n s' /\ wheel s' = wheel s.
Proof.
  intros [Hready Hinv Hi Hr Hw Hlen] (c' & Hc' & Hready' & Hs & Hin & Hinv'). unfold on_conn. rewrite Hc', bind_ok.
  eexists. split; [reflexivity|]. split; [|done]. split; [split; simpl; rewrite ?Hin; auto|].
  split; [simpl; by rewrite Hs, app_nil_r|done].
Qed.

Lemma length_wheel_step op w : length w = wheel_size -> length (wheel_step op w).2 = wheel_size.
Proof.
  intros Hl. destruct op as [e|e|]; cbn [wheel_step snd connection_cb].
  - by rewrite length_touch.
  - destruct (alive e w); by rewrite ?length_touch.
  - destruct w as [|b w]; [done|]. simpl in *. rewrite length_app. simpl. lia.
Qed.

(** The wheel moves, and the connection has ticks left. *)
Lemma wheel_served op s n :
  serving s n -> concerns (hc_entry (client s)) op = false ->
  (is_tick op = true -> (1 < life (hc_entry (client s)) (wheel s))%nat) ->
  exists s', on_wheel op s = Ok s' /\ served s [] n s' /\ wheel s' = (wheel_step op (wheel s)).2.
Proof.
  intros [Hready Hinv Hi Hr Hw Hlen] Hc Ht. destruct (step_life _ op (wheel s) Hc) as [_ Hd].
  pose proof (length_wheel_step op _ Hlen) as Hlen'.
  unfold on_wheel. destruct (wheel_step op (wheel s)) as [dead w'] eqn:Hw'. simpl in Hd, Hlen'.
  rewrite bool_decide_false by (rewrite Hd; intros [Htick Hone]; specialize (Ht Htick); lia).
  eexists. split; [reflexivity|]. split; [|done].
  split; [by split|]. split; [simpl; by rewrite app_nil_r|done].
Qed.

(** One event of a client that is alive. *)
Lemma event_served ev text evs s n :
  asks srcDir ev text -> srcDir <> [] -> serving s n -> weight ev text <= n ->
  alive (hc_entry (client s)) (wheel s) = true ->
  lively (hc_entry (client s)) (life (hc_entry (client s)) (wheel s)) (ev :: evs) ->
  socket_sound srcDir (ev :: evs) s ->
  exists s', serve_step srcDir ev s = Ok s' /\ served s text (n - weight ev text) s' /\
    alive (hc_entry (client s')) (wheel s') = true /\
    lively (hc_entry (client s')) (life (hc_entry (client s')) (wheel s')) evs /\
    socket_sound srcDir evs s'.
Proof.
  intros Hasks Hsrc Hs Hn Ha Hl [Hsock Hsound]. set (e := hc_entry (client s)) in *.
  assert (Hfin : forall s' k, serve_step srcDir ev s = Ok s' -> served s text k s' -> k = n - weight ev text ->
    (0 < life e (wheel s'))%nat /\ lively e (life e (wheel s')) evs ->
    exists s', serve_step srcDir ev s = Ok s' /\ served s text (n - weight ev text) s' /\
      alive (hc_entry (client s')) (wheel s') = true /\
      lively (hc_entry (client s')) (life (hc_entry (client s')) (wheel s')) evs /\ socket_sound srcDir evs s').
  { intros s' k Hrun Hserved -> [Hpos Hlive]. exists s'. rewrite Hrun in Hsound.
    pose proof Hserved as (_ & _ & ->). fold e. split_and!; try done. by apply life_alive. }
  destruct ev as [readv sent|written| |op]; cbn [lively] in Hl.
  - destruct readv as [|data]; [inversion Hasks|].
    destruct (readable_served data sent s text n) as (s' & Hrun & Hserved & Hw); [done..|].
    eapply (Hfin s'); [done..|]. rewrite Hw, life_touch by (intros Hnil; by rewrite Hnil in Ha).
    rewrite (sv_wheel _ _ Hs). split; [unfold wheel_size; lia|done].
  - inversion Hasks; subst. destruct (on_conn_served (OpWritable written) s n Hs) as (s' & Hrun & Hserved & Hw).
    { by apply handle_write_ok; [apply Hs|]. }
    apply (Hfin s' n); [done|done|by unfold weight; simpl; lia|]. rewrite Hw. split; [by apply life_alive|done].
  - inversion Hasks; subst.
    destruct (on_conn_served (OpRunQueued [] (IoOk 0%nat)) s n Hs) as (s' & Hrun & Hserved & Hw).
    { apply run_queued_ok, Hs. }
    apply (Hfin s' n); [done|done|by unfold weight; simpl; lia|]. rewrite Hw. split; [by apply life_alive|done].
  - inversion Hasks; subst. destruct Hl as [Hc Hl].
    destruct (wheel_served op s n Hs Hc) as (s' & Hrun & Hserved & Hw).
    { intros Ht. rewrite Ht in Hl. apply Hl. }
    apply (Hfin s' n); [done|done|by unfold weight; simpl; lia|].
    destruct (step_life e op (wheel s) Hc) as [Hlife _]. rewrite Hw, Hlife.
    destruct (is_tick op) eqn:Ht; [destruct Hl; split; [lia|done]|].
    rewrite Nat.sub_0_r. split; [by apply life_alive|done].
Qed.

Lemma total_nonneg evs texts : 0 <= total evs texts.
Proof.
  revert texts. induction evs as [|ev evs IH]; intros [|t texts]; simpl; try lia.
  specialize (IH texts). unfold weight. destruct ev as [[]| | |]; lia.
Qed.

Lemma serve_run_ok evs texts : forall s n,
  Forall2 (asks srcDir) evs texts -> srcDir <> [] -> serving s n -> total evs texts <= n ->
  alive (hc_entry (client s)) (wheel s) = true ->
  lively (hc_entry (client s)) (life (hc_entry (client s)) (wheel s)) evs ->
  socket_sound srcDir evs s ->
  exists s', serve_run srcDir evs s = Ok s' /\ served s (concat texts) (n - total evs texts) s'.
Proof.
  intros s n Hall. revert s n. induction Hall as [|ev text evs texts Hasks Hall IH]; intros s n Hsrc Hs Hn Ha Hl Hsock.
  - exists s. split; [done|]. split; [by rewrite Z.sub_0_r|]. by rewrite app_nil_r.
  - cbn [total] in *. pose proof (total_nonneg evs texts).
    destruct (event_served ev text evs s n) as (s1 & Hrun & (Hs1 & Hst1 & He1) & Ha1 & Hl1 & Hsock1); [done..|lia|done|done|done|].
    destruct (IH s1 (n - weight ev text)) as (s2 & Hrun2 & (Hs2 & Hst2 & He2)); [done|done|lia|done..|].
    exists s2. cbn [serve_run]. rewrite Hrun, bind_ok. split; [done|]. split.
    + by replace (n - (weight ev text + total evs texts)) with (n - weight ev text - total evs texts) by lia.
    + cbn [concat]. rewrite Hst2, Hst1, He2, He1. by rewrite app_assoc.
Qed.


(** A writable event of a connection that has output takes some of it. *)
Lemma handle_write_takes k c n :
  ready c n -> conn_inv c -> (0 < k <= length (contents (output_buffer_ c)))%nat ->
  exists c', handle_write_ (IoOk k) c = Ok c' /\ ready c' n /\ conn_inv c' /\
    stream c' = stream c /\ contents (output_buffer_ c') = drop k (contents (output_buffer_ c)) /\
    input_buffer_ c' = input_buffer_ c.
Proof.
  intros Hready Hi Hk. destruct (handle_write_ok (IoOk k) c n Hready) as (c' & Hc' & Hready' & Hs & Hin & Hinv); [lia|].
  exists c'. split_and!; try done; [by apply Hinv|].
  destruct (inv_watching _ Hi (ready_up _ _ Hready)) as (ch & Hch & _ & Hwr).
  { intros Hnil. rewrite Hnil in Hk. simpl in Hk. lia. }
  revert Hc'. unfold handle_write_, get_channel. rewrite Hch. cbn [of_option]. rewrite bind_ok, Hwr.
  destruct k as [|k]; [lia|]. intros Hc'. inv_bind Hc'. cbv zeta in Hc'.
  destruct (retrieve_ok_inv _ _ _ (ready_output _ _ Hready) (Zle_0_nat (S k)) Ha) as (_ & Hc & _).
  rewrite Nat2Z.id in Hc. rewrite <-Hc.
  destruct (read_able_bytes a =? 0); [|by simplify_eq].
  inv_bind Hc'. apply on_channel_same in Ha0 as [Ho _]. cbn [output_buffer_ write_to_wire set_socket set_output] in Ho.
  case_bool_decide; [|destruct (write_complete_cb_ a0); by simplify_eq].
  apply shutdown_same in Hc' as [Hc' _]. rewrite Hc', <-Ho. by destruct (write_complete_cb_ a0).
Qed.

(** The writable events that take these numbers of bytes. *)
Definition writables (ks : list nat) : list conn_event := (fun k => Writable (IoOk k)) <$> ks.

Lemma writables_ok ks : forall s n,
  serving s n -> Forall (lt 0) ks ->
  sum_list ks = length (contents (output_buffer_ (hc_conn (client s)))) ->
  exists s', serve_run srcDir (writables ks) s = Ok s' /\
    contents (output_buffer_ (hc_conn (client s'))) = [] /\
    stream (hc_conn (client s')) = stream (hc_conn (client s)).
Proof.
  induction ks as [|k ks IH]; intros s n Hs Hks Hsum.
  - exists s. split; [done|]. split; [|done]. apply length_zero_iff_nil. by rewrite <-Hsum.
  - apply Forall_cons in Hks as [Hk Hks]. change (sum_list (k :: ks)) with (k + sum_list ks)%nat in Hsum.
    destruct (handle_write_takes k (hc_conn (client s)) n) as (c' & Hc' & Hready & Hinv & Hst & Hc & Hin).
    { apply Hs. } { apply Hs. } { lia. }
    destruct (IH (mkServe (set_conn c' (client s)) (wheel s) (shared s)) n) as (s' & Hrun & Hnil & Hst').
    { destruct Hs as [? ? ? ? ? ?]. split; simpl; rewrite ?Hin; done. }
    { done. }
    { simpl. rewrite Hc, length_drop. lia. }
    exists s'. cbn [writables fmap list_fmap serve_run serve_step]. unfold on_conn. cbn [conn_step].
    rewrite Hc', bind_ok. split; [exact Hrun|]. split; [done|]. by rewrite Hst'.
Qed.

Lemma serve_run_app evs1 evs2 s s1 :
  serve_run srcDir evs1 s = Ok s1 -> serve_run srcDir (evs1 ++ evs2) s = serve_run srcDir evs2 s1.
Proof.
  revert s. induction evs1 as [|ev evs1 IH]; intros s Hrun; cbn [serve_run app] in *; [by simplify_eq|].
  inv_bind Hrun. rewrite Ha, bind_ok. by apply IH.
Qed.

(** Every answer arrives: after the events of such a client, the socket need
    only take some bytes at each writable event, and when it has taken as many
    as wait, the kernel has all the answers, in order, and nothing waits. *)
Theorem answers_delivered (evs : list conn_event) (texts : list bytes) (s : serve_state) :
  Forall2 (asks srcDir) evs texts -> srcDir <> [] -> serving s (total evs texts) ->
  alive (hc_entry (client s)) (wheel s) = true ->
  lively (hc_entry (client s)) (life (hc_entry (client s)) (wheel s)) evs ->
  socket_sound srcDir evs s ->
  exists s', serve_run srcDir evs s = Ok s' /\
    forall ks, Forall (lt 0) ks -> sum_list ks = length (contents (output_buffer_ (hc_conn (client s')))) ->
    exists s2, serve_run srcDir (evs ++ writables ks) s = Ok s2 /\
      wire (socket_ (hc_conn (client s2))) = stream (hc_conn (client s)) ++ concat texts /\
      contents (output_buffer_ (hc_conn (client s2))) = [].
Proof.
  intros Hall Hsrc Hs Ha Hl Hsock.
  destruct (serve_run_ok evs texts s _ Hall Hsrc Hs (Z.le_refl _) Ha Hl Hsock) as (s' & Hrun & Hs' & Hst & _).
  exists s'. split; [done|]. intros ks Hks Hsum.
  destruct (writables_ok ks s' _ Hs' Hks Hsum) as (s2 & Hrun2 & Hnil & Hst2).
  exists s2. rewrite (serve_run_app _ _ _ _ Hrun). split; [done|]. split; [|done].
  rewrite <-Hst, <-Hst2. unfold stream. by rewrite Hnil, app_nil_r.
Qed.
End serving.

(** ** A request in two segments *)

Section split.
Context {DB : Type} `{!MySQL DB} {FS : FileSystem} (srcDir : bytes).

(** The state the parser is left in by a request line alone. *)
Definition headless (m p v : bytes) : HttpRequest := ParsePath_ (mkRequest HEADERS m p v [] ∅ ∅).

Lemma parse_line_alone (b : Buffer) (e : env DB) (m p v : bytes) :
  wf b -> contents b = m ++ lit " " ++ p ++ lit " HTTP/" ++ v ++ CRLF -> word m -> word p -> word v ->
  exists b1, parse b HttpRequest.Init e = Ok (true, headless m p v, b1, e) /\ wf b1 /\ contents b1 = [].
Proof.
  intros Hwf Hc Hm Hp Hv.
  assert (Hc' : contents b = (m ++ lit " " ++ p ++ lit " HTTP/" ++ v) ++ CR :: LF :: []).
  { rewrite Hc. by rewrite <-!app_assoc. }
  destruct (parse_loop_line (length (contents b)) b HttpRequest.Init e (m ++ lit " " ++ p ++ lit " HTTP/" ++ v)
              [] (headless m p v) e) as (f1 & b1 & Hp1 & Hwf1 & Hc1 & _);
    [done|lia|exact Hc'|by apply no_crlf_free, request_line_free|done| |].
  { unfold parse_line. cbn [state_ HttpRequest.Init]. rewrite ParseRequestLine_printed by done. reflexivity. }
  exists b1. split; [|done]. unfold parse. rewrite (proj2 (Z.leb_gt _ _)).
  - rewrite Hp1. apply parse_loop_stop; [done|by left].
  - rewrite read_able_contents, Hc', length_app by done. simpl. lia.
Qed.

(** A request whose request line arrives alone is answered at once, before its
    headers: with the file, and with [close] whatever the headers will ask.
    The headers, when they come, are taken for a second request: unless the
    first of them reads as a request line they get an answer of their own, the
    404 page, and stay in the buffer in front of all that follows. *)
Theorem split_request_answered_twice (c : HttpContext) (w : world (DB := DB)) (m p v : bytes)
    (hs : list (bytes * bytes)) (n : Z) (file : bytes) (st dir : file_stat) (page : bytes) :
  let req := headless m p v in
  let text := answer_200 srcDir req n file in
  let text404 := status_line 404 ++ header_lines false (lit "text/html") ++
                 content_length (st_size st) ++ take (Z.to_nat (st_size st)) page in
  srcDir <> [] -> wf (readBuff_ c) -> contents (readBuff_ c) = m ++ lit " " ++ p ++ lit " HTTP/" ++ v ++ CRLF ->
  word m -> word p -> word v -> Forall header_ok hs ->
  Forall (fun h => split_request_line (h.1 ++ lit ": " ++ h.2) = None) hs ->
  fs_stat (c_str (srcDir ++ path req)) = Some (mkStat false true n) ->
  mappable (c_str (srcDir ++ path req)) n file -> 0 < n <= Z.of_nat (length file) ->
  wf (writeBuff_ c) -> vsize (writeBuff_ c) + Z.of_nat (length text) <= max_size ->
  fs_stat (c_str srcDir) = Some dir -> st_isdir dir = true ->
  fs_stat (c_str (srcDir ++ lit "/404.html")) = Some st ->
  mappable (c_str (srcDir ++ lit "/404.html")) (st_size st) page -> 0 < st_size st <= Z.of_nat (length page) ->
  IsKeepAlive req = false /\
  exists c1 w1, process srcDir c w = Ok (true, c1, w1) /\
    contents (writeBuff_ c1) = contents (writeBuff_ c) ++ text /\ contents (readBuff_ c1) = [] /\
    forall rb wb, wf rb -> contents rb = concat (print_header <$> hs) ++ CRLF ->
      wf wb -> contents wb = [] -> vsize wb + Z.of_nat (length text404) <= max_size ->
      exists c2 w2, process srcDir (mkContext rb wb (request_ c1) (response_ c1)) w1 = Ok (true, c2, w2) /\
        contents (writeBuff_ c2) = text404 /\ readBuff_ c2 = rb.
Proof.
  intros req text text404 Hsrc Hwf Hc Hm Hp Hv Hhs Hbad Hst Hmap Hn Hww Hroom Hdir Hisdir H404 Hmap404 Hn404.
  assert (Hka : IsKeepAlive req = false).
  { unfold IsKeepAlive, req, headless. destruct (ParsePath_fields (mkRequest HEADERS m p v [] ∅ ∅)) as (-> & _ & _).
    reflexivity. }
  split; [done|].
  destruct (parse_line_alone (readBuff_ c) (w_env w) m p v Hwf Hc Hm Hp Hv) as (b1 & Hparse & Hwf1 & Hc1).
  fold req in Hparse.
  assert (Hread : 0 < read_able_bytes (readBuff_ c)).
  { rewrite read_able_contents, Hc, !length_app by done. simpl. lia. }
  pose proof (choose_status_found (response_for srcDir 200 (IsKeepAlive req) (path req)) _ Hst eq_refl eq_refl)
    as Hchoose.
  destruct (process_respond srcDir c w true req b1 (w_env w)
              (set_stat (mkStat false true n) (response_for srcDir 200 (IsKeepAlive req) (path req))) file)
    as (wb1 & Hproc & (_ & Hcwb & _)); try done.
  { cbn [andb]. by rewrite Hchoose. }
  { by left. }
  do 2 eexists. split; [exact Hproc|]. split; [exact Hcwb|]. split; [done|].
  intros rb wb Hwfrb Hcrb Hwfwb Hcwb0 Hroom404.
  assert (Hline : exists l rest, concat (print_header <$> hs) ++ CRLF = l ++ CRLF ++ rest /\ no_crlf l /\
            split_request_line l = None).
  { destruct hs as [|h hs]; [by exists [], []|].
    apply Forall_cons in Hhs as [Hh _]. apply Forall_cons in Hbad as [Hb _].
    exists (h.1 ++ lit ": " ++ h.2), (concat (print_header <$> hs) ++ CRLF). split; [|split; [|done]].
    - cbn [fmap list_fmap concat]. unfold print_header at 1. by rewrite <-!app_assoc.
    - by apply no_crlf_free, header_line_free. }
  destruct Hline as (l & rest & Hl & Hcrlf & Hnone). rewrite Hl in Hcrb.
  match goal with |- context [process srcDir (mkContext rb wb ?rq ?rs) ?w1] =>
    destruct (bad_request_answers_404 srcDir (mkContext rb wb rq rs) w1 l rest st page dir)
      as (c2 & w2 & Hp2 & Hr2 & Hw2); [done..|] end.
  exists c2, w2. split; [exact Hp2|]. cbn [writeBuff_] in Hw2. by rewrite Hcwb0 in Hw2.
Qed.
End split.

(** ** Witnesses *)

(** A connection that was just accepted. *)
Definition demo_client : serve_state :=
  mkServe (mkHttp 1%nat (mkContext demo_out demo_out HttpRequest.Init new_response) (after [OpBuild]))
    demo_wheel demo_world.

Lemma demo_serving n : 0 <= n <= 100000 -> serving demo_client n.
Proof.
  intros Hn.
  assert (Hd : drained demo_out n).
  { split_and!; [exact demo_out_wf|reflexivity|].
    assert (Hv : vsize demo_out = 1032) by (vm_compute; reflexivity). rewrite Hv. unfold max_size. lia. }
  assert (Hi : conn_inv (after [OpBuild])).
  { assert (Hr : conn_run [OpBuild] demo_start = Ok (after [OpBuild])) by (vm_compute; reflexivity).
    refine (conn_run_inv [OpBuild] demo_start _ _ _ Hr); [|by repeat constructor].
    by apply (new_connection_inv 0 false (new_poller demo_chans) (new_channel 5) demo_start_mirrors). }
  split; [split|exact Hi|exact Hd|exact Hd|exact Hd|reflexivity].
  - vm_compute. reflexivity.
  - exists (mkChannel 5 3 0 ADD true false true). split_and!; vm_compute; reflexivity.
  - apply (inv_channel _ Hi).
  - apply (inv_output _ Hi).
  - apply Hd.
  - by constructor.
Qed.

(** Two requests; the socket takes the first answer in two pieces. *)
Definition demo_events : list conn_event :=
  [Readable (IoOk index_text) (IoOk 20%nat); Wheel Tick; Writable (IoOk 30%nat); Wheel Tick;
   Readable (IoOk index_text) (IoErr EWOULDBLOCK)].

Definition demo_answer : bytes :=
  status_line 200 ++ header_lines false (lit "text/html") ++ content_length 5 ++ lit "hello".

Lemma demo_ask sent : peer_there sent 20 -> asks (lit "/w") (Readable (IoOk index_text) sent) demo_answer.
Proof.
  intros Hs.
  apply (asks_get (lit "/w") (lit "GET") (lit "/") (lit "1.1") [(lit "Host", lit "h")] 5 (demo_map (lit "hello")));
    [by_free|by_free|by_free|by_free|vm_compute; reflexivity|split_and!; vm_compute; reflexivity|
     split; vm_compute; [reflexivity|discriminate]|].
  destruct sent as [e|k]; [exact Hs|]. cbn [peer_there] in *.
  assert (Hl : (20 <= length (answer_200 (lit "/w") (request_of FINISH (lit "GET") (lit "/") (lit "1.1")
                 [(lit "Host", lit "h")]) 5 (demo_map (lit "hello"))))%nat)
    by (apply Nat.leb_le; vm_compute; reflexivity). lia.
Qed.

Lemma demo_asks : Forall2 (asks (lit "/w")) demo_events [demo_answer; []; []; []; demo_answer].
Proof.
  constructor; [apply demo_ask; simpl; lia|].
  constructor; [constructor|]. constructor; [constructor|]. constructor; [constructor|].
  constructor; [by apply demo_ask|]. constructor.
Qed.

Lemma demo_sound : socket_sound (lit "/w") demo_events demo_client.
Proof.
  assert (Hb : (fix go evs (s : serve_state (DB := demo_db)) := match evs with
      | [] => true
      | ev :: evs =>
          match ev with
          | Writable (IoOk n) => (n <=? length (contents (output_buffer_ (hc_conn (client s)))))%nat
          | _ => true
          end && match serve_step (lit "/w") ev s with Ok s1 => go evs s1 | Fault _ => true end
      end) demo_events demo_client = true) by (vm_compute; reflexivity).
  revert Hb. generalize demo_events demo_client. intros evs. induction evs as [|ev evs IH]; intros s Hb; [done|].
  apply andb_true_iff in Hb as [Hw Hb]. split.
  - destruct ev as [|[]| |]; try done. by apply Nat.leb_le.
  - destruct (serve_step _ _ _); [by apply IH|done].
Qed.


(** The second answer, which could not be sent at all, arrives behind the rest
    of the first. *)
Theorem answers_delivered_witness :
  exists s', serve_run (lit "/w") demo_events demo_client = Ok s' /\
    forall ks, Forall (lt 0) ks -> sum_list ks = length (contents (output_buffer_ (hc_conn (client s')))) ->
    exists s2, serve_run (lit "/w") (demo_events ++ writables ks) demo_client = Ok s2 /\
      wire (socket_ (hc_conn (client s2))) = demo_answer ++ demo_answer /\
      contents (output_buffer_ (hc_conn (client s2))) = [].
Proof.
  apply (answers_delivered (lit "/w") demo_events [demo_answer; []; []; []; demo_answer] demo_client).
  - exact demo_asks.
  - discriminate.
  - apply demo_serving. vm_compute. split; discriminate.
  - vm_compute. reflexivity.
  - vm_compute. repeat constructor.
  - exact demo_sound.
Defined.

Theorem split_request_answered_twice_witness :
  exists c1 w1, process (lit "/w") (demo_context (lit "GET / HTTP/1.1" ++ CRLF)) demo_world = Ok (true, c1, w1) /\
    contents (writeBuff_ c1) = demo_answer.
Proof.
  destruct (split_request_answered_twice (lit "/w") (demo_context (lit "GET / HTTP/1.1" ++ CRLF)) demo_world
              (lit "GET") (lit "/") (lit "1.1") [(lit "Host", lit "h")] 5 (demo_map (lit "hello"))
              (mkStat false true 12) (mkStat true true 4096) (demo_map (lit "nothing here")))
    as [_ (c1 & w1 & Hp & Hw & _)];
    [discriminate|split; vm_compute; intuition discriminate|reflexivity|by_free|by_free|by_free|by_free|by_free|
     vm_compute; reflexivity|split_and!; vm_compute; reflexivity|split; vm_compute; [reflexivity|discriminate]|
     exact demo_out_wf|vm_compute; discriminate|vm_compute; reflexivity|reflexivity|vm_compute; reflexivity|
     split_and!; vm_compute; reflexivity|split; vm_compute; [reflexivity|discriminate]|].
  exists c1, w1. split; [exact Hp|]. rewrite Hw. vm_compute. reflexivity.
Defined.
