(* ===== verification/Clients.v ===== *)
(** * Clients: many connections of one loop (src/httpserver.cc, httpserver.h)

    The connections of a loop share the wheel, the connection pool and the
    files; their events come in any order, and every second the wheel turns
    for all of them.  Each connection's record has its own part of the poller,
    which no other connection's handlers touch (SharedPoller).  The theorem
    lifts what Serving proves of one client to all of them at once. *)

From stdpp Require Import base list numbers strings gmap sets.
From Stdlib Require Import ZArith Lia Ascii.
From S2P Require Import Prelude Buffer Regex SqlConnPool HttpRequest Forms Parsing Accounts HttpResponse HttpContext Channel TcpConnection ConnectionProofs HttpServer Serving.

Local Open Scope Z_scope.
Local Open Scope result_scope.

(** ** State and events *)

Section clients.
Context {DB : Type} `{!MySQL DB} {FS : FileSystem} (srcDir : bytes).

Record house : Type := mkHouse {
  guests : list http_conn;
  buckets : list Bucket;
  common : world (DB := DB)
}.

(** What one connection and the house see of each other. *)
Definition seat (h : http_conn) (s : house) : serve_state (DB := DB) := mkServe h (buckets s) (common s).

Inductive house_event : Type :=
  | At (i : nat) (ev : conn_event)     (* a handler of connection [i], or a functor it queued *)
  | Second.                            (* the wheel's timer *)

Definition is_wheel (ev : conn_event) : bool := match ev with Wheel _ => true | _ => false end.

(** Every connection whose entry was destroyed is shut down. *)
Fixpoint shut_down (dead : Bucket) (hs : list http_conn) : result (list http_conn) :=
  match hs with
  | [] => Ok []
  | h :: hs =>
      h1 ← (if bool_decide (hc_entry h ∈ dead) then
              c ← destroy_entry (Some (hc_conn h)); Ok (set_conn (default (hc_conn h) c) h)
            else Ok h);
      hs1 ← shut_down dead hs;
      Ok (h1 :: hs1)
  end.

(** [HttpServer::ontime]. *)
Definition second (s : house) : result house :=
  let '(dead, w) := ontime (buckets s) in
  hs ← shut_down dead (guests s);
  Ok (mkHouse hs w (common s)).

Definition house_step (e : house_event) (s : house) : result house :=
  match e with
  | At i ev =>
      h ← of_option OutOfRange (guests s !! i);
      s1 ← serve_step srcDir ev (seat h s);
      Ok (mkHouse (<[i := client s1]> (guests s)) (wheel s1) (shared s1))
  | Second => second s
  end.

Fixpoint house_run (es : list house_event) (s : house) : result house :=
  match es with
  | [] => Ok s
  | e :: es => s1 ← house_step e s; house_run es s1
  end.

(** ** What the clients ask *)

Definition house_asks (e : house_event) (text : bytes) : Prop :=
  match e with
  | At _ ev => is_wheel ev = false /\ asks srcDir ev text
  | Second => text = []
  end.

Definition house_weight (e : house_event) (text : bytes) : Z :=
  match e with At _ ev => weight ev text | Second => 0 end.

Fixpoint house_total (es : list house_event) (texts : list bytes) : Z :=
  match es, texts with
  | e :: es, text :: texts => house_weight e text + house_total es texts
  | _, _ => 0
  end.

(** The answers to client [i]. *)
Fixpoint answers_to (i : nat) (es : list house_event) (texts : list bytes) : bytes :=
  match es, texts with
  | At j _ :: es, text :: texts => (if (j =? i)%nat then text else []) ++ answers_to i es texts
  | Second :: es, _ :: texts => answers_to i es texts
  | _, _ => []
  end.

(** Client [i] is never silent for three seconds; it has [k] left. *)
Fixpoint talks (i k : nat) (es : list house_event) : Prop :=
  match es with
  | [] => True
  | At j (Readable _ _) :: es => talks i (if (j =? i)%nat then wheel_size else k) es
  | At _ _ :: es => talks i k es
  | Second :: es => (1 < k)%nat /\ talks i (k - 1) es
  end.

(** The sockets take at most what they are offered. *)
Fixpoint house_sound (es : list house_event) (s : house) : Prop :=
  match es with
  | [] => True
  | e :: es =>
      match e with
      | At i (Writable (IoOk n)) =>
          match guests s !! i with
          | Some h => (n <= length (contents (output_buffer_ (hc_conn h))))%nat
          | None => True
          end
      | _ => True
      end /\
      match house_step e s with Ok s1 => house_sound es s1 | Fault _ => True end
  end.

(** ** One step *)

(** Client [i] can be served [n] more bytes, and talks. *)
Definition seated (n : Z) (es : list house_event) (s : house) (i : nat) (h : http_conn) : Prop :=
  serving (seat h s) n /\ alive (hc_entry h) (buckets s) = true /\ talks i (life (hc_entry h) (buckets s)) es.

Lemma serving_less (s : serve_state (DB := DB)) n m : serving s n -> m <= n -> serving s m.
Proof.
  intros [Hr Hi Hin Hrd Hw Hl] Hm. split; [by eapply ready_less|done|by eapply drained_less..|done].
Qed.

Lemma serving_eta (s1 : serve_state (DB := DB)) n :
  serving s1 n -> serving (mkServe (client s1) (wheel s1) (shared s1)) n.
Proof. by destruct s1. Qed.

(** The wheel moves and the common state changes. *)
Lemma serving_moves h s s' n :
  serving (seat h s) n -> length (buckets s') = wheel_size -> serving (seat h s') n.
Proof. intros [Hr Hi Hin Hrd Hw Hl] Hlen. by split. Qed.

(** What an event of its connection does to the wheel. *)
Definition wheel_after (ev : conn_event) (e : nat) (w : list Bucket) : list Bucket :=
  match ev with Readable _ _ => touch e w | _ => w end.

Lemma seat_step ev text s h n :
  asks srcDir ev text -> is_wheel ev = false -> srcDir <> [] -> serving (seat h s) n -> weight ev text <= n ->
  alive (hc_entry h) (buckets s) = true ->
  match ev with
  | Writable (IoOk k) => (k <= length (contents (output_buffer_ (hc_conn h))))%nat
  | _ => True
  end ->
  exists s1, serve_step srcDir ev (seat h s) = Ok s1 /\ served (seat h s) text (n - weight ev text) s1 /\
    wheel s1 = wheel_after ev (hc_entry h) (buckets s).
Proof.
  intros Hasks Hnw Hsrc Hs Hn Ha Hsock. destruct ev as [readv sent|written| |op]; [| | |done].
  - destruct readv as [|data]; [inversion Hasks|]. by apply readable_served.
  - inversion Hasks; subst. destruct (on_conn_served (OpWritable written) (seat h s) n Hs) as (s1 & Hrun & Hserved & Hw).
    { apply handle_write_ok; [apply Hs|exact Hsock]. }
    exists s1. split; [exact Hrun|]. split; [|exact Hw].
    replace (n - weight (Writable written) []) with n by (unfold weight; simpl; lia). exact Hserved.
  - inversion Hasks; subst.
    destruct (on_conn_served (OpRunQueued [] (IoOk 0%nat)) (seat h s) n Hs) as (s1 & Hrun & Hserved & Hw).
    { apply run_queued_ok, Hs. }
    exists s1. split; [exact Hrun|]. split; [|exact Hw].
    replace (n - weight Queued []) with n by (unfold weight; simpl; lia). exact Hserved.
Qed.

Lemma weight_nonneg ev text : 0 <= weight ev text.
Proof. unfold weight. destruct ev as [[]| | |]; lia. Qed.

(** Everybody in the house can be served [n] more bytes and talks. *)
Record content (n : Z) (es : list house_event) (s : house) : Prop := {
  ct_seated : forall i h, guests s !! i = Some h -> seated n es s i h;
  ct_distinct : forall i j h h', guests s !! i = Some h -> guests s !! j = Some h' -> hc_entry h = hc_entry h' -> i = j;
  ct_wheel : length (buckets s) = wheel_size
}.

(** Client [i] of [s'] has sent [text] more than in [s], the others nothing. *)
Definition only_sends (i : nat) (text : bytes) (s s' : house) : Prop :=
  forall j h, guests s !! j = Some h -> exists h', guests s' !! j = Some h' /\
    stream (hc_conn h') = stream (hc_conn h) ++ (if (i =? j)%nat then text else []).

Lemma at_step i ev text es s n :
  house_asks (At i ev) text -> srcDir <> [] -> content n (At i ev :: es) s -> weight ev text <= n ->
  is_Some (guests s !! i) -> house_sound (At i ev :: es) s ->
  exists s', house_step (At i ev) s = Ok s' /\ content (n - weight ev text) es s' /\
    length (guests s') = length (guests s) /\ only_sends i text s s'.
Proof.
  intros [Hnw Hasks] Hsrc [Hall Hdist Hlen] Hn [h Hh] [Hsock _].
  destruct (Hall i h Hh) as (Hs & Ha & Ht). pose proof (weight_nonneg ev text) as Hw0.
  destruct (seat_step ev text s h n) as (s1 & Hrun & (Hs1 & Hst & He) & Hw); try done.
  { destruct ev as [|[]| |]; try done. cbn beta iota in Hsock. by rewrite Hh in Hsock. }
  cbn [house_step]. rewrite Hh. cbn [of_option]. rewrite bind_ok, Hrun, bind_ok.
  set (s' := mkHouse _ _ _). exists s'. split; [reflexivity|].
  assert (Hi : guests s' !! i = Some (client s1)) by (apply list_lookup_insert_eq; by eapply lookup_lt_Some).
  assert (Hj : forall j, j <> i -> guests s' !! j = guests s !! j) by (intros j Hne; by apply list_lookup_insert_ne).
  assert (Hlen1 : length (wheel s1) = wheel_size).
  { rewrite Hw. unfold wheel_after. destruct ev; rewrite ?length_touch; done. }
  cbn [client seat] in He. split; [split|split; [apply length_insert|]].
  - intros j hj Hguest. destruct (decide (j = i)) as [->|Hne].
    + rewrite Hi in Hguest. injection Hguest as <-. split; [by apply serving_eta|]. cbn [buckets s']. rewrite He, Hw.
      cbn [talks] in Ht. unfold wheel_after. destruct ev as [readv sent|written| |op]; [|by split..|done].
      rewrite Nat.eqb_refl in Ht. rewrite life_alive, life_touch by (intros Hnil; by rewrite Hnil in Hlen).
      rewrite Hlen. split; [unfold wheel_size; lia|done].
    + rewrite (Hj j Hne) in Hguest. destruct (Hall j hj Hguest) as (Hsj & Haj & Htj).
      assert (Hdiff : hc_entry hj <> hc_entry h) by (intros Heq; apply Hne; by eapply Hdist).
      assert (Hlife : life (hc_entry hj) (wheel s1) = life (hc_entry hj) (buckets s)).
      { rewrite Hw. unfold wheel_after. destruct ev; [by apply life_touch_other|done..]. }
      split; [eapply serving_less; [by apply (serving_moves hj s s' n)|lia]|].
      cbn [buckets s']. rewrite life_alive, Hlife. rewrite life_alive in Haj. split; [done|].
      cbn [talks] in Htj. destruct ev; [by rewrite (proj2 (Nat.eqb_neq i j)) in Htj by done|done..].
  - intros j k hj hk. destruct (decide (j = i)) as [->|Hnj], (decide (k = i)) as [->|Hnk];
      rewrite ?Hi, ?(Hj j), ?(Hj k) by done; intros Hgj Hgk Heq; try done.
    + injection Hgj as <-. rewrite He in Heq. by eapply Hdist.
    + injection Hgk as <-. rewrite He in Heq. by eapply Hdist.
    + by eapply Hdist.
  - exact Hlen1.
  - intros j hj Hguest. destruct (Nat.eqb_spec i j) as [<-|Hne].
    + rewrite Hh in Hguest. injection Hguest as <-. exists (client s1). split; [exact Hi|exact Hst].
    + exists hj. rewrite (Hj j) by done. by rewrite app_nil_r.
Qed.

Lemma nobody_shut_down dead hs :
  Forall (fun h => hc_entry h ∉ dead) hs -> shut_down dead hs = Ok hs.
Proof.
  induction 1 as [|h hs Hh Hhs IH]; [done|]. cbn [shut_down]. rewrite bool_decide_false by done.
  by rewrite bind_ok, IH.
Qed.

Lemma second_step es s n :
  content n (Second :: es) s ->
  exists s', house_step Second s = Ok s' /\ content n es s' /\ guests s' = guests s.
Proof.
  intros [Hall Hdist Hlen]. cbn [house_step]. unfold second.
  destruct (ontime (buckets s)) as [dead w] eqn:Hon.
  assert (Hlife : forall e, life e w = pred (life e (buckets s))) by (intros e; by rewrite <-life_ontime, Hon).
  assert (Hlw : length w = wheel_size).
  { pose proof (length_wheel_step Tick (buckets s) Hlen) as Hw. cbn [wheel_step] in Hw. by rewrite Hon in Hw. }
  rewrite nobody_shut_down, bind_ok.
  - eexists. split; [reflexivity|]. split; [|done]. split; [|exact Hdist|exact Hlw].
    intros i h Hh. destruct (Hall i h Hh) as (Hs & Ha & Hk & Ht).
    split; [by apply (serving_moves h s)|]. cbn [buckets]. rewrite life_alive, Hlife.
    split; [lia|]. by rewrite <-Nat.sub_1_r.
  - apply Forall_forall. intros h [i Hi]%list_elem_of_lookup. destruct (Hall i h Hi) as (_ & _ & Hk & _).
    pose proof (ontime_destroys (hc_entry h) (buckets s)) as Hd. rewrite Hon in Hd. rewrite Hd. lia.
Qed.

(** ** All clients *)

Definition known (n : nat) (e : house_event) : Prop := match e with At i _ => (i < n)%nat | Second => True end.

Lemma house_total_nonneg es : forall texts, 0 <= house_total es texts.
Proof.
  induction es as [|e es IH]; intros [|t texts]; simpl; try lia. specialize (IH texts).
  destruct e as [i ev|]; cbn [house_weight]; [pose proof (weight_nonneg ev t)|]; lia.
Qed.

Lemma house_run_ok es texts : forall s n,
  Forall2 house_asks es texts -> srcDir <> [] -> Forall (known (length (guests s))) es ->
  content n es s -> house_total es texts <= n -> house_sound es s ->
  exists s', house_run es s = Ok s' /\ content (n - house_total es texts) [] s' /\
    forall i h, guests s !! i = Some h -> exists h', guests s' !! i = Some h' /\
      stream (hc_conn h') = stream (hc_conn h) ++ answers_to i es texts.
Proof.
  intros s n Hall. revert s n. induction Hall as [|e text es texts Hasks Hall IH]; intros s n Hsrc Hk Hc Hn Hsound.
  { exists s. cbn [house_total]. rewrite Z.sub_0_r. split; [done|]. split; [done|]. intros i h Hh.
    exists h. by rewrite app_nil_r. }
  apply Forall_cons in Hk as [Hk1 Hk]. cbn [house_total] in *. pose proof (house_total_nonneg es texts) as H0.
  cbn [house_run]. destruct e as [i ev|]; cbn [house_weight] in *.
  - destruct (at_step i ev text es s n Hasks Hsrc Hc) as (s1 & Hrun & Hc1 & Hlen & Hsend);
      [lia|by apply lookup_lt_is_Some_2|done|].
    destruct Hsound as [_ Hsound]. rewrite Hrun in Hsound. rewrite Hrun, bind_ok.
    destruct (IH s1 (n - weight ev text)) as (s2 & Hrun2 & Hc2 & Hst2); [done|by rewrite Hlen|done|lia|done|].
    exists s2. split; [done|]. split; [by rewrite Z.sub_add_distr|]. intros j h Hh.
    destruct (Hsend j h Hh) as (h1 & Hh1 & Hs1). destruct (Hst2 j h1 Hh1) as (h2 & Hh2 & Hs2).
    exists h2. split; [done|]. rewrite Hs2, Hs1. cbn [answers_to]. by rewrite app_assoc.
  - destruct (second_step es s n Hc) as (s1 & Hrun & Hc1 & Hg). destruct Hsound as [_ Hsound].
    rewrite Hrun in Hsound. rewrite Hrun, bind_ok.
    destruct (IH s1 n) as (s2 & Hrun2 & Hc2 & Hst2); [done|by rewrite Hg|done|lia|done|].
    exists s2. split; [done|]. split; [done|]. intros j h Hh. apply Hst2. by rewrite Hg.
Qed.

(** Clients do not disturb each other.  Any number of connections share a loop,
    its wheel, the connection pool and the files; their requests, the sockets'
    readiness and the seconds come in any order.  As long as each client sends
    whole requests for existing files and is never silent for three seconds,
    nothing fails and every one of them gets the answers to its own requests,
    complete and in order, and nothing else. *)
Theorem clients_undisturbed (es : list house_event) (texts : list bytes) (s : house) :
  Forall2 house_asks es texts -> srcDir <> [] -> Forall (known (length (guests s))) es ->
  content (house_total es texts) es s -> house_sound es s ->
  exists s', house_run es s = Ok s' /\
    forall i h, guests s !! i = Some h -> exists h', guests s' !! i = Some h' /\
      status_ (hc_conn h') = CONNECTED /\
      stream (hc_conn h') = stream (hc_conn h) ++ answers_to i es texts.
Proof.
  intros Hall Hsrc Hk Hc Hsound.
  destruct (house_run_ok es texts s _ Hall Hsrc Hk Hc (Z.le_refl _) Hsound) as (s' & Hrun & Hc' & Hst).
  exists s'. split; [done|]. intros i h Hh. destruct (Hst i h Hh) as (h' & Hh' & Hs').
  exists h'. split; [done|]. split; [|done].
  destruct (ct_seated _ _ _ Hc' i h' Hh') as (Hserv & _). apply (ready_up _ _ (sv_ready _ _ Hserv)).
Qed.
End clients.

(** ** Witness *)

(** Two connections that were just accepted. *)
Definition demo_guest (e : nat) : http_conn :=
  mkHttp e (mkContext demo_out demo_out HttpRequest.Init new_response) (after [OpBuild]).
Definition demo_house : house := mkHouse [demo_guest 0; demo_guest 1] demo_wheel demo_world.

Definition demo_house_events : list house_event :=
  [At 0 (Readable (IoOk index_text) (IoOk 20%nat)); At 1 (Readable (IoOk index_text) (IoErr EWOULDBLOCK)); Second;
   At 0 (Writable (IoOk 30%nat)); At 1 (Writable (IoOk 5%nat)); At 1 Queued; Second; At 0 (Readable (IoOk index_text) (IoOk 0%nat))].

Definition demo_house_texts : list bytes := [demo_answer; demo_answer; []; []; []; []; []; demo_answer].

Lemma demo_house_asks : Forall2 (house_asks (lit "/w")) demo_house_events demo_house_texts.
Proof.
  constructor; [split; [reflexivity|apply demo_ask; cbn; lia]|].
  constructor; [split; [reflexivity|by apply demo_ask]|]. constructor; [reflexivity|].
  constructor; [split; [reflexivity|apply asks_writable]|]. constructor; [split; [reflexivity|apply asks_writable]|].
  constructor; [split; [reflexivity|apply asks_queued]|]. constructor; [reflexivity|].
  constructor; [split; [reflexivity|apply demo_ask; cbn; lia]|]. constructor.
Qed.

Lemma demo_house_sound : house_sound (lit "/w") demo_house_events demo_house.
Proof.
  assert (Hb : (fix go es (s : house (DB := demo_db)) := match es with
      | [] => true
      | e :: es =>
          match e with
          | At i (Writable (IoOk n)) =>
              match guests s !! i with
              | Some h => (n <=? length (contents (output_buffer_ (hc_conn h))))%nat
              | None => true
              end
          | _ => true
          end && match house_step (lit "/w") e s with Ok s1 => go es s1 | Fault _ => true end
      end) demo_house_events demo_house = true) by (vm_compute; reflexivity).
  revert Hb. generalize demo_house_events demo_house. intros es. induction es as [|e es IH]; intros s Hb; [done|].
  apply andb_true_iff in Hb as [Hw Hb]. split.
  - destruct e as [i [|[]| |]|]; try done. destruct (guests s !! i); [by apply Nat.leb_le|done].
  - destruct (house_step _ _ _); [by apply IH|done].
Qed.

Lemma demo_content : content (house_total demo_house_events demo_house_texts) demo_house_events demo_house.
Proof.
  assert (Hserv : forall e, serving (seat (demo_guest e) demo_house) (house_total demo_house_events demo_house_texts)).
  { intros e. destruct (demo_serving (house_total demo_house_events demo_house_texts)) as [Hr Hi Hin Hrd Hw Hl];
      [vm_compute; split; discriminate|]. by split. }
  split.
  - intros i h Hh. destruct i as [|[|i]]; [| |discriminate Hh]; injection Hh as <-; (split; [apply Hserv|]);
      (split; [vm_compute; reflexivity|]); vm_compute; repeat constructor.
  - intros [|[|i]] [|[|j]] h h' Hi Hj; try discriminate Hi; try discriminate Hj;
      injection Hi as <-; injection Hj as <-; cbn; congruence.
  - reflexivity.
Qed.

Theorem clients_undisturbed_witness :
  exists s' h0 h1, house_run (lit "/w") demo_house_events demo_house = Ok s' /\
    guests s' !! 0%nat = Some h0 /\ stream (hc_conn h0) = demo_answer ++ demo_answer /\
    guests s' !! 1%nat = Some h1 /\ stream (hc_conn h1) = demo_answer.
Proof.
  destruct (clients_undisturbed (lit "/w") demo_house_events demo_house_texts demo_house demo_house_asks)
    as (s' & Hrun & Hall); [discriminate|repeat constructor|exact demo_content|exact demo_house_sound|].
  destruct (Hall 0%nat (demo_guest 0) eq_refl) as (h0 & H0 & _ & S0).
  destruct (Hall 1%nat (demo_guest 1) eq_refl) as (h1 & H1 & _ & S1).
  exists s', h0, h1. split; [exact Hrun|]. split; [exact H0|]. split; [rewrite S0; reflexivity|].
  split; [exact H1|]. rewrite S1. reflexivity.
Defined.
