(* ===== verification/SharedPoller.v ===== *)
(** * SharedPoller: the connections of a loop and its one poller (src/event, src/server)

    TcpConnection keeps the poller in the state of the connection.  In a loop
    all connections share one poller.  Here every call of a connection is
    shown to be local: run on the shared poller it does what it does on the
    part of the poller that is the connection's own, and leaves the other
    channels alone. *)

From stdpp Require Import base list numbers strings gmap sets.
From Stdlib Require Import ZArith Lia.
From S2P Require Import Prelude Buffer Regex SqlConnPool HttpRequest Forms Parsing Accounts HttpResponse HttpContext Channel TcpConnection ConnectionProofs HttpServer Serving.

Local Open Scope Z_scope.
Local Open Scope result_scope.

(** ** The part of a poller that is a channel's own *)

Definition solo (i : nat) (c : Channel) : Epoller :=
  mkEpoller (if decide (Channel.status_ c = NEW) then ∅ else {[fd_ c := i]})
    (if decide (Channel.status_ c = ADD) then {[fd_ c := (events_ c, i)]} else ∅)
    EventListSize {[i := c]}.

Definition own (i : nat) (p : Epoller) : Epoller :=
  match store p !! i with Some c => solo i c | None => new_poller ∅ end.

(** Open channels have descriptors of their own: the kernel gives them out. *)
Definition distinct_fds (p : Epoller) : Prop :=
  forall i j ci cj, store p !! i = Some ci -> store p !! j = Some cj -> fd_ ci = fd_ cj -> i = j.

Definition shared_ok (p : Epoller) : Prop := mirrors p /\ distinct_fds p.

(** What an operation on a channel leaves of it. *)
Definition same_channel (c c' : Channel) : Prop := fd_ c' = fd_ c /\ event_handing_ c' = event_handing_ c.

(** [p'] is [p] but for the state of channel [i]. *)
Definition frames (i : nat) (p p' : Epoller) : Prop :=
  shared_ok p' /\ list_size p' = list_size p /\
  (forall j, option_Forall2 same_channel (store p !! j) (store p' !! j)) /\
  forall j, j <> i -> store p' !! j = store p !! j.

Lemma solo_mirrors i c : mirrors (solo i c).
Proof.
  unfold solo, mirrors, registered, watched. simpl. split.
  - intros fd j. case_decide as Hst; rewrite ?lookup_empty, ?lookup_singleton_Some.
    + split; [done|]. intros (d & [<- <-]%lookup_singleton_Some & _ & Hn). done.
    + split; [intros [<- <-]; exists c; by rewrite lookup_singleton_eq|].
      by intros (d & [<- <-]%lookup_singleton_Some & <- & _).
  - intros fd ev j. case_decide as Hst; rewrite ?lookup_empty, ?lookup_singleton_Some.
    + split; [intros [<- [= <- <-]]; exists c; by rewrite lookup_singleton_eq|].
      by intros (d & [<- <-]%lookup_singleton_Some & <- & _ & <-).
    + split; [done|]. intros (d & [<- <-]%lookup_singleton_Some & _ & Hn & _). done.
Qed.

(** The own part holds exactly the entries of the channel. *)
Lemma own_part i p :
  mirrors p ->
  channels_ (own i p) = filter (fun x => x.2 = i) (channels_ p) /\
  interest (own i p) = filter (fun x => x.2.2 = i) (interest p).
Proof.
  intros Hm. pose proof Hm as [Hc Hk]. unfold own. destruct (store p !! i) as [c|] eqn:Hi.
  - destruct (solo_mirrors i c) as [Hsc Hsk]. split; apply map_eq; intros fd; apply option_eq.
    + intros j. rewrite map_lookup_filter_Some, Hsc, Hc. simpl. split.
      * intros (d & [<- <-]%lookup_singleton_Some & ? & ?). split; [by exists c|done].
      * intros [(d & Hd & ? & ?) ->]. exists d. rewrite Hi in Hd. injection Hd as ->. by rewrite lookup_singleton_eq.
    + intros [ev j]. rewrite map_lookup_filter_Some, Hsk, Hk. simpl. split.
      * intros (d & [<- <-]%lookup_singleton_Some & ? & ? & ?). split; [by exists c|done].
      * intros [(d & Hd & ? & ? & ?) ->]. exists d. rewrite Hi in Hd. injection Hd as ->. by rewrite lookup_singleton_eq.
  - split; symmetry; apply map_empty; intros fd; apply eq_None_not_Some; intros [x Hx];
      apply map_lookup_filter_Some in Hx as [Hx Hj]; simpl in Hj.
    + subst. apply Hc in Hx as (d & Hd & _). congruence.
    + destruct x as [ev j]; simpl in *; subst. apply Hk in Hx as (d & Hd & _). congruence.
Qed.

Lemma own_store i p c : store p !! i = Some c -> own i p = solo i c.
Proof. unfold own. by intros ->. Qed.

Lemma own_lookup i p : store (own i p) !! i = store p !! i.
Proof. unfold own. destruct (store p !! i) as [c|]; [apply lookup_singleton_eq|apply lookup_empty]. Qed.

Lemma own_own i p : own i (own i p) = own i p.
Proof. unfold own at 1. rewrite own_lookup. unfold own. by destruct (store p !! i). Qed.

Lemma own_mirrors i p : mirrors (own i p).
Proof.
  unfold own. destruct (store p !! i) as [c|]; [apply solo_mirrors|]. apply new_poller_mirrors.
  intros j c. by rewrite lookup_empty.
Qed.

Lemma frames_own i j p p' : frames i p p' -> j <> i -> own j p' = own j p.
Proof. intros (_ & _ & _ & Hj) Hne. unfold own. by rewrite Hj. Qed.

Lemma frames_refl i p : shared_ok p -> frames i p p.
Proof.
  intros Hp. split; [exact Hp|]. split; [done|]. split; [|done]. intros j.
  destruct (store p !! j); constructor. by split.
Qed.

Lemma frames_trans i p p1 p2 : frames i p p1 -> frames i p1 p2 -> frames i p p2.
Proof.
  intros (_ & Hl1 & Hd1 & H1) (Hs & Hl2 & Hd2 & H2). split; [done|]. split; [congruence|]. split.
  - intros j. specialize (Hd2 j). destruct (Hd1 j) as [c c1 [Hfd Hh]|]; inversion Hd2 as [? c2 [Hfd2 Hh2]|]; subst; constructor.
    split; congruence.
  - intros j Hj. by rewrite H2, H1.
Qed.

(** No channel is running its callbacks. *)
Definition calm (p : Epoller) : Prop := forall i c, store p !! i = Some c -> event_handing_ c = false.

Lemma frames_calm i p p' : frames i p p' -> calm p -> calm p'.
Proof.
  intros (_ & _ & Hd & _) Hk j c' Hc'. specialize (Hd j). rewrite Hc' in Hd.
  inversion Hd as [c ? [_ Hh] Hc|]; subst. rewrite Hh. by eapply Hk.
Qed.

Lemma frames_dom i p p' : frames i p p' -> dom (store p') = dom (store p).
Proof.
  intros (_ & _ & Hd & _). apply set_eq. intros j. rewrite !elem_of_dom. destruct (Hd j); split; intros []; by eauto.
Qed.

(** Changing a channel and not its descriptor keeps the descriptors distinct. *)
Lemma distinct_insert i c c' p p' :
  distinct_fds p -> store p !! i = Some c -> fd_ c' = fd_ c -> store p' = <[i := c']> (store p) -> distinct_fds p'.
Proof.
  intros Hd Hc Hfd Hs j k cj ck. rewrite Hs.
  intros [[<- <-]|[Hj Hcj]]%lookup_insert_Some [[<- <-]|[Hk Hck]]%lookup_insert_Some Heq; try done.
  - rewrite Hfd in Heq. by eapply Hd.
  - rewrite Hfd in Heq. by eapply Hd.
  - by eapply Hd.
Qed.

(** A free descriptor for a channel that is not registered. *)
Lemma new_is_free i c p : shared_ok p -> store p !! i = Some c -> Channel.status_ c = NEW -> channels_ p !! fd_ c = None.
Proof.
  intros [[Hm _] Hd] Hc Hst. apply eq_None_not_Some. intros [j Hj]. apply Hm in Hj as (d & Hj & Hfd & Hn).
  assert (j = i) as -> by (by eapply Hd). rewrite Hc in Hj. injection Hj as <-. done.
Qed.

(** ** Operations on a channel are local *)

(** [g] for channel [i] does the same to the channel's own part, and nothing to
    the others. *)
Class LocalOp (g : nat -> Epoller -> result Epoller) : Prop :=
  local_op i p : shared_ok p ->
    match g i p with
    | Ok p' => g i (own i p) = Ok (own i p') /\ frames i p p'
    | Fault f => g i (own i p) = Fault f
    end.

Lemma frames_insert i c c' p m k :
  shared_ok p -> store p !! i = Some c -> same_channel c c' ->
  mirrors (mkEpoller m k (list_size p) (<[i := c']> (store p))) ->
  frames i p (mkEpoller m k (list_size p) (<[i := c']> (store p))).
Proof.
  intros [_ Hd] Hc Hsame Hm. pose proof Hsame as [Hfd _]. split; [split; [done|by eapply distinct_insert]|].
  split; [done|]. split; simpl.
  - intros j. destruct (decide (j = i)) as [->|Hne]; [rewrite lookup_insert_eq, Hc; by constructor|].
    rewrite lookup_insert_ne by done. destruct (store p !! j); constructor. by split.
  - intros j Hj. by rewrite lookup_insert_ne.
Qed.

(** A changed channel with the entries it should have. *)
Lemma solo_insert i c c2 m k :
  m = (if decide (Channel.status_ c2 = NEW) then ∅ else {[fd_ c2 := i]}) ->
  k = (if decide (Channel.status_ c2 = ADD) then {[fd_ c2 := (events_ c2, i)]} else ∅) ->
  mkEpoller m k EventListSize (<[i := c2]> {[i := c]}) = solo i c2.
Proof. intros -> ->. unfold solo. by rewrite insert_singleton_eq. Qed.

#[export] Instance with_events_local f : LocalOp (with_events f).
Proof.
  intros i p Hok. pose proof Hok as [Hm Hd]. destruct (store p !! i) as [c|] eqn:Hc.
  2: { unfold with_events. by rewrite own_lookup, Hc. }
  assert (Hsolo : store (solo i c) !! i = Some c) by apply lookup_singleton_eq.
  rewrite (own_store i p c Hc). pose proof (with_events_mirrors f i p) as Hkeep.
  rewrite (with_events_cases f (solo i c) i c (solo_mirrors i c) Hsolo).
  rewrite (with_events_cases f p i c Hm Hc) in *. cbv zeta in *. set (c' := changed f c) in *.
  assert (Hown : forall c2 m k, own i (mkEpoller m k (list_size p) (<[i := c2]> (store p))) = solo i c2).
  { intros c2 m k. apply own_store. apply lookup_insert_eq. }
  assert (Hfr : forall c2 m k, same_channel c c2 -> mirrors (mkEpoller m k (list_size p) (<[i := c2]> (store p))) ->
    frames i p (mkEpoller m k (list_size p) (<[i := c2]> (store p)))) by (intros; by eapply frames_insert).
  destruct (Channel.status_ c) eqn:Hst; [| |done].
  - rewrite (decide_True _ _ (new_is_free i c p Hok Hc Hst)) in *. rewrite Hown. split; [|apply Hfr; [done|by eapply Hkeep]].
    assert (Hfree : channels_ (solo i c) !! fd_ c = None).
    { unfold solo. simpl. by rewrite (decide_True _ _ Hst), lookup_empty. }
    rewrite (decide_True _ _ Hfree). apply f_equal, solo_insert; simpl;
      rewrite ?(decide_True _ _ Hst), ?(decide_False (P := Channel.status_ c = ADD)) by congruence; by rewrite insert_empty.
  - assert (Hne : Channel.status_ c <> NEW) by congruence.
    destruct (is_none_event c') eqn:Hn; rewrite Hown; (split; [|apply Hfr; [done|by eapply Hkeep]]);
      apply f_equal, solo_insert; simpl; rewrite ?(decide_True _ _ Hst), ?(decide_False _ _ Hne).
    + done.
    + by rewrite delete_singleton_eq.
    + done.
    + by rewrite insert_singleton_eq.
Qed.

#[export] Instance remove_local : LocalOp remove.
Proof.
  intros i p Hok. pose proof Hok as [Hm Hd]. destruct (store p !! i) as [c|] eqn:Hc.
  2: { unfold remove. by rewrite own_lookup, Hc. }
  rewrite (own_store i p c Hc). pose proof (remove_mirrors i p) as Hkeep.
  rewrite (remove_cases (solo i c) i c (solo_mirrors i c)) by apply lookup_singleton_eq.
  rewrite (remove_cases p i c Hm Hc) in *. destruct (_ && _) eqn:Hb; [|done].
  split; [|eapply frames_insert; [done|exact Hc|done|by eapply Hkeep]].
  rewrite (own_store i _ (Channel.set_status NEW (set_added false c))) by apply lookup_insert_eq.
  apply andb_true_iff in Hb as [_ Hst%negb_true_iff%bool_decide_eq_false].
  apply f_equal, solo_insert; simpl; rewrite ?(decide_False _ _ Hst); [by rewrite delete_singleton_eq|].
  case_decide; [apply delete_singleton_eq|apply delete_empty].
Qed.

(** Tying a channel. *)
Definition tie_op (i : nat) (p : Epoller) : result Epoller :=
  ch ← of_option NullDeref (store p !! i); Ok (set_chan i (tie ch) p).

#[export] Instance tie_local : LocalOp tie_op.
Proof.
  intros i p Hok. pose proof Hok as [Hm Hd]. unfold tie_op. rewrite own_lookup.
  destruct (store p !! i) as [c|] eqn:Hc; [|done]. cbn [of_option]. rewrite !bind_ok.
  rewrite (own_store i p c Hc), (own_store i _ (tie c)) by apply lookup_insert_eq. split.
  - unfold solo, set_chan. simpl. by rewrite insert_singleton_eq.
  - eapply frames_insert; [done|exact Hc|done|by apply tie_mirrors].
Qed.

(** ** The calls of a connection are local *)

Definition part (c : TcpConnection) : TcpConnection := set_poller (own (channel_ c) (poller_ c)) c.

(** [c'] is the same connection; only its channel changed in the poller. *)
Definition follows (c c' : TcpConnection) : Prop :=
  channel_ c' = channel_ c /\ frames (channel_ c) (poller_ c) (poller_ c').

(** A call on the shared poller, and the same call on the connection's part. *)
Definition matches (c : TcpConnection) (r r0 : result TcpConnection) : Prop :=
  match r with
  | Ok c' => r0 = Ok (part c') /\ follows c c'
  | Fault f => r0 = Fault f
  end.

Class Local (f : TcpConnection -> result TcpConnection) : Prop :=
  local c : shared_ok (poller_ c) -> matches c (f c) (f (part c)).

Lemma follows_ok c c' : follows c c' -> shared_ok (poller_ c').
Proof. by intros [_ [? _]]. Qed.

Lemma follows_refl c : shared_ok (poller_ c) -> follows c c.
Proof. intros Hc. split; [done|by apply frames_refl]. Qed.

Lemma follows_trans c c1 c2 : follows c c1 -> follows c1 c2 -> follows c c2.
Proof. intros [Hc1 H1] [Hc2 H2]. split; [congruence|]. rewrite Hc1 in H2. by eapply frames_trans. Qed.

Lemma matches_trans c c1 r r0 : follows c c1 -> matches c1 r r0 -> matches c r r0.
Proof. intros Hf. destruct r as [c'|]; [|done]. intros [-> H]. split; [done|by eapply follows_trans]. Qed.

(** The result has the same poller. *)
Lemma matches_same c c1 : shared_ok (poller_ c) -> channel_ c1 = channel_ c -> poller_ c1 = poller_ c ->
  matches c (Ok c1) (Ok (part c1)).
Proof. intros Hc Hch Hp. split; [done|]. split; [done|]. rewrite Hp. by apply frames_refl. Qed.

Lemma matches_bind c (r r0 : result TcpConnection) k k0 :
  matches c r r0 -> (forall c', follows c c' -> matches c' (k c') (k0 (part c'))) ->
  matches c (r ≫= k) (r0 ≫= k0).
Proof.
  intros Hr Hk. destruct r as [c'|f]; cbn in Hr; [|by rewrite Hr]. destruct Hr as [-> Hf].
  rewrite !bind_ok. eapply matches_trans; [exact Hf|by apply Hk].
Qed.

(** A value that does not depend on the rest of the poller. *)
Lemma matches_value {A} c (m : result A) k k0 :
  (forall a, m = Ok a -> matches c (k a) (k0 a)) -> matches c (m ≫= k) (m ≫= k0).
Proof. intros Hk. destruct m; [by apply Hk|done]. Qed.

Lemma get_channel_part c : get_channel (part c) = get_channel c.
Proof. unfold get_channel, part. simpl. by rewrite own_lookup. Qed.

#[export] Instance on_channel_local g : LocalOp g -> Local (on_channel g).
Proof.
  intros Hg c Hc. unfold on_channel. pose proof (Hg (channel_ c) (poller_ c) Hc) as Hl.
  change (poller_ (part c)) with (own (channel_ c) (poller_ c)). change (channel_ (part c)) with (channel_ c).
  destruct (g (channel_ c) (poller_ c)) as [p'|f]; cbn; [|by rewrite Hl].
  destruct Hl as [-> Hf]. split; [reflexivity|]. by split.
Qed.

(** [g] only changes fields of the connection; then [f]. *)
Lemma local_at f c c1 : Local f -> shared_ok (poller_ c) -> channel_ c1 = channel_ c -> poller_ c1 = poller_ c ->
  matches c (f c1) (f (part c1)).
Proof.
  intros Hf Hc Hch Hp. apply (matches_trans c c1); [|apply Hf; by rewrite Hp].
  split; [done|]. rewrite Hp. by apply frames_refl.
Qed.

(** The last step of a branch: a state with the same poller, or a local call. *)
Ltac local_end :=
  match goal with
  | Hc : shared_ok (poller_ ?c) |- matches ?c (Ok ?c1) _ => exact (matches_same c c1 Hc eq_refl eq_refl)
  | Hc : shared_ok (poller_ ?c) |- matches ?c (?f ?c1) _ =>
      exact (local_at f c c1 _ Hc eq_refl eq_refl)
  end.

(** Read the channel. *)
Ltac local_get c := rewrite (get_channel_part c); apply matches_value; intros ? _.

(** A local call, then the rest. *)
Ltac local_then :=
  apply matches_bind; [local_end|];
  let c' := fresh "c'" in let Hf := fresh "Hf" in let Hc := fresh "Hc" in
  intros c' Hf; pose proof (follows_ok _ _ Hf) as Hc; cbv beta.

#[export] Instance shutdown_in_loop_local : Local shutdown_in_loop_.
Proof.
  intros c Hc. unfold shutdown_in_loop_. change (status_ (part c)) with (status_ c). case_bool_decide; [|local_end].
  cbv zeta. change (set_status_ DISCONNECTING (part c)) with (part (set_status_ DISCONNECTING c)).
  local_get (set_status_ DISCONNECTING c). destruct (negb _); local_end.
Qed.

#[export] Instance handle_close_local : Local handle_close_.
Proof.
  intros c Hc. unfold handle_close_. change (status_ (part c)) with (status_ c).
  apply matches_value. intros _ _. change (set_status_ DISCONNECTED (part c)) with (part (set_status_ DISCONNECTED c)).
  local_then. local_end.
Qed.

#[export] Instance force_close_in_loop_local : Local force_close_in_loop_.
Proof.
  intros c Hc. unfold force_close_in_loop_. change (status_ (part c)) with (status_ c).
  destruct (_ && _); local_end.
Qed.

#[export] Instance start_read_in_loop_local : Local start_read_in_loop_.
Proof.
  intros c Hc. unfold start_read_in_loop_. local_get c. change (reading_ (part c)) with (reading_ c).
  destruct (_ || _); [|local_end]. local_then. local_end.
Qed.

#[export] Instance stop_read_in_loop_local : Local stop_read_in_loop_.
Proof.
  intros c Hc. unfold stop_read_in_loop_. local_get c. change (reading_ (part c)) with (reading_ c).
  destruct (_ || _); [|local_end]. local_then. local_end.
Qed.

(** Tying the channel is a call of its own. *)
Lemma build_connect_tie c :
  build_connect c =
    assert! (bool_decide (status_ c = CONNECTING));
    c1 ← on_channel tie_op (set_status_ CONNECTED c);
    c2 ← on_channel enable_reading c1;
    Ok (emit (EvConnection (is_connected c2)) c2).
Proof.
  unfold build_connect. case_bool_decide; [|done]. cbn [assert_]. rewrite !bind_ok. cbv zeta.
  unfold on_channel, tie_op, get_channel. cbn [poller_ channel_ set_status_].
  by destruct (store (poller_ c) !! channel_ c).
Qed.

#[export] Instance build_connect_local : Local build_connect.
Proof.
  intros c Hc. rewrite !build_connect_tie. change (status_ (part c)) with (status_ c).
  apply matches_value. intros _ _. change (set_status_ CONNECTED (part c)) with (part (set_status_ CONNECTED c)).
  local_then. local_then. local_end.
Qed.

#[export] Instance destroy_connect_local : Local destroy_connect.
Proof.
  intros c Hc. unfold destroy_connect. change (status_ (part c)) with (status_ c).
  change (set_status_ DISCONNECTING (part c)) with (part (set_status_ DISCONNECTING c)). apply matches_bind.
  - case_bool_decide; [|local_end]. local_then. local_end.
  - intros c' Hf. pose proof (follows_ok _ _ Hf) as Hc'. local_end.
Qed.

#[export] Instance handle_read_local r : Local (handle_read_ r).
Proof.
  intros c Hc. unfold handle_read_. change (input_buffer_ (part c)) with (input_buffer_ c).
  apply matches_value. intros [[n e] b] _. cbv beta iota zeta.
  destruct (0 <? n); [local_end|]. destruct (n =? 0); [|local_end].
  change (set_input b (part c)) with (part (set_input b c)). local_end.
Qed.

#[export] Instance store_rest_local rest : Local (store_rest rest).
Proof.
  intros c Hc. unfold store_rest. cbv zeta. change (output_buffer_ (part c)) with (output_buffer_ c).
  change (high_water_mark_ (part c)) with (high_water_mark_ c).
  match goal with |- matches _ _ (_ ← append rest (output_buffer_ (if ?b then ?f (part c) else _)); _) =>
    assert (Hq : (if b then f (part c) else part c) = part (if b then f c else c)) by (by destruct b); rewrite Hq; set (c1 := if b then f c else c) end.
  assert (Hc1 : shared_ok (poller_ c1) /\ channel_ c1 = channel_ c /\ poller_ c1 = poller_ c)
    by (unfold c1; by destruct (_ && _)).
  destruct Hc1 as (Hok & Hch & Hp). change (output_buffer_ (part c1)) with (output_buffer_ c1).
  apply matches_value. intros out _. change (set_output out (part c1)) with (part (set_output out c1)).
  apply (matches_trans c c1); [split; [done|rewrite Hp; by apply frames_refl]|].
  local_get (set_output out c1). destruct (is_writing a); local_end.
Qed.

(** The direct attempt does not look at the poller. *)
Lemma try_send_part data sent c :
  try_send data sent (part c) = (let '(n, rest, fault, c1) := try_send data sent c in (n, rest, fault, part c1)) /\
  channel_ (try_send data sent c).2 = channel_ c /\ poller_ (try_send data sent c).2 = poller_ c.
Proof.
  unfold try_send. destruct sent as [e|n]; [done|]. cbv zeta.
  change (write_complete_cb_ (part c)) with (write_complete_cb_ c). by destruct (_ && write_complete_cb_ c).
Qed.

#[export] Instance send_in_loop_local data sent : Local (send_in_loop_ data sent).
Proof.
  intros c Hc. unfold send_in_loop_. change (status_ (part c)) with (status_ c). case_bool_decide; [local_end|].
  local_get c. change (output_buffer_ (part c)) with (output_buffer_ c). cbv zeta.
  destruct (try_send_part data sent c) as (Ht & Hch & Hp). rewrite Ht.
  set (len := Z.of_nat (length data)). destruct (negb (is_writing a) && _).
  - destruct (try_send data sent c) as [[[n rest] fault] c1]. cbn [snd] in Hch, Hp.
    apply matches_value. intros _ _. cbv beta.
    apply (matches_trans c c1); [split; [done|rewrite Hp; by apply frames_refl]|].
    assert (Hc1 : shared_ok (poller_ c1)) by by rewrite Hp.
    destruct (negb fault && _); local_end.
  - apply matches_value. intros _ _. cbv beta. destruct (negb false && _); local_end.
Qed.

(** A call that runs now or is queued. *)
#[export] Instance run_in_loop_local b f now : Local now -> Local (run_in_loop b f now).
Proof. intros Hn c Hc. unfold run_in_loop. destruct b; local_end. Qed.

#[export] Instance send_local b data sent : Local (send b data sent).
Proof.
  intros c Hc. unfold send. change (status_ (part c)) with (status_ c). case_bool_decide; local_end.
Qed.

#[export] Instance handle_write_local w : Local (handle_write_ w).
Proof.
  intros c Hc. unfold handle_write_. local_get c. destruct (is_writing a); [|local_end].
  destruct w as [e|[|k]]; [local_end..|]. change (output_buffer_ (part c)) with (output_buffer_ c).
  apply matches_value. intros out _. cbv zeta.
  change (write_to_wire (take (S k) (contents (output_buffer_ c))) (set_output out (part c)))
    with (part (write_to_wire (take (S k) (contents (output_buffer_ c))) (set_output out c))).
  destruct (read_able_bytes out =? 0); [|local_end]. local_then.
  change (write_complete_cb_ (part c')) with (write_complete_cb_ c').
  destruct (write_complete_cb_ c').
  - change (status_ (queue_in_loop FWriteComplete (part c'))) with (status_ (queue_in_loop FWriteComplete c')).
    case_bool_decide; local_end.
  - change (status_ (part c')) with (status_ c'). case_bool_decide; local_end.
Qed.

#[export] Instance run_functor_local f late sent : Local (run_functor f late sent).
Proof.
  intros c Hc. destruct f; cbn [run_functor]; try local_end. apply matches_value. intros _ _. local_end.
Qed.

Lemma conn_step_queued op : Local (fun c =>
  match pending_ c with [] => Ok c | f :: fs => run_functor f op.1 op.2 (set_pending fs c) end).
Proof.
  intros c Hc. change (pending_ (part c)) with (pending_ c). destruct (pending_ c) as [|f fs]; [local_end|].
  apply (local_at (run_functor f op.1 op.2) c (set_pending fs c)); [apply _|done..].
Qed.

#[export] Instance conn_step_local op : Local (conn_step op).
Proof.
  destruct op as [|l d s|l| |l|l|r|w| |late s|]; try apply _;
    try (intros c Hc; cbn [conn_step]; unfold shutdown, start_read, stop_read; local_end).
  - intros c Hc. cbn [conn_step]. unfold force_close. change (status_ (part c)) with (status_ c). destruct (_ || _); local_end.
  - exact (conn_step_queued (late, s)).
Qed.

(** Any sequence of calls. *)
#[export] Instance conn_run_local ops : Local (conn_run ops).
Proof.
  induction ops as [|op ops IH]; intros c Hc; cbn [conn_run]; [local_end|].
  apply matches_bind; [by apply conn_step_local|]. intros c' Hf. apply IH. by apply follows_ok in Hf.
Qed.

(** ** The handlers of the server are local *)

Section server.
Context {DB : Type} `{!MySQL DB} {FS : FileSystem} (srcDir : bytes).
Implicit Types (s : serve_state (DB := DB)).

Definition spart s : serve_state := mkServe (set_conn (part (hc_conn (client s))) (client s)) (wheel s) (shared s).

Definition serve_matches s (r r0 : result serve_state) : Prop :=
  match r with
  | Ok s' => r0 = Ok (spart s') /\ follows (hc_conn (client s)) (hc_conn (client s'))
  | Fault f => r0 = Fault f
  end.

Definition LocalServe (f : serve_state (DB := DB) -> result serve_state) : Prop :=
  forall s, shared_ok (poller_ (hc_conn (client s))) -> serve_matches s (f s) (f (spart s)).

Lemma send_buffer_local buff sent c : shared_ok (poller_ c) ->
  match send_buffer true buff sent c with
  | Ok (b, c') => send_buffer true buff sent (part c) = Ok (b, part c') /\ follows c c'
  | Fault f => send_buffer true buff sent (part c) = Fault f
  end.
Proof.
  intros Hc. unfold send_buffer. change (status_ (part c)) with (status_ c).
  case_bool_decide; [|split; [done|by apply follows_refl]].
  pose proof (send_local true (contents buff) sent c Hc) as Hs.
  destruct (send true (contents buff) sent c) as [c'|f]; cbn in Hs; [|by rewrite Hs].
  destruct Hs as [-> Hf]. by rewrite !bind_ok.
Qed.

Lemma on_conn_local op : LocalServe (on_conn op).
Proof.
  intros s Hs. unfold on_conn. change (hc_conn (client (spart s))) with (part (hc_conn (client s))).
  pose proof (conn_step_local op _ Hs) as Hl.
  destruct (conn_step op (hc_conn (client s))) as [c'|f]; cbn in Hl; [|by rewrite Hl].
  destruct Hl as [-> Hf]. by rewrite !bind_ok.
Qed.

Lemma on_readable_local readv sent : LocalServe (on_readable srcDir readv sent).
Proof.
  intros s Hs. unfold on_readable. change (hc_conn (client (spart s))) with (part (hc_conn (client s))).
  pose proof (handle_read_local readv _ Hs) as Hl.
  destruct (handle_read_ readv (hc_conn (client s))) as [c1|f]; cbn in Hl; [|by rewrite Hl].
  destruct Hl as [-> Hf]. rewrite !bind_ok. cbv zeta. destruct readv as [e|[|x data]]; [done..|].
  change (set_conn (part c1) (client (spart s))) with (set_conn (part c1) (client s)).
  unfold message_cb. cbn [hc_entry set_conn wheel spart shared hc_conn hc_context].
  destruct (alive (hc_entry (client s)) (wheel s)); [|done].
  change (input_buffer_ (part c1)) with (input_buffer_ c1).
  destruct (HttpContext.read srcDir (input_buffer_ c1) (hc_context (client s)) (shared s))
    as [[[[n b] ctx] wd]|f]; [|done]. rewrite !bind_ok. cbv beta iota.
  change (set_input b (part c1)) with (part (set_input b c1)).
  pose proof (send_buffer_local (HttpContext.write ctx) sent (set_input b c1) (follows_ok _ _ Hf)) as Hb.
  destruct (send_buffer true (HttpContext.write ctx) sent (set_input b c1)) as [[b' c2]|f]; [|by rewrite Hb].
  destruct Hb as [-> Hf2]. rewrite !bind_ok. split; [done|]. by eapply follows_trans.
Qed.

(** Every event of Serving is local. *)
Lemma serve_step_local ev : LocalServe (serve_step srcDir ev).
Proof.
  destruct ev as [readv sent|written| |op]; cbn [serve_step].
  - apply on_readable_local.
  - apply on_conn_local.
  - apply on_conn_local.
  - intros s Hs. unfold serve_step, on_wheel. cbv zeta.
    change (hc_entry (client (spart s))) with (hc_entry (client s)). change (wheel (spart s)) with (wheel s).
    destruct (wheel_step op (wheel s)) as [dead w]. case_bool_decide; [|split; [done|by apply follows_refl]].
    cbn [destroy_entry]. change (hc_conn (client (spart s))) with (part (hc_conn (client s))).
    pose proof (run_in_loop_local true FShutdown shutdown_in_loop_ _ _ Hs) as Hl.
    change (run_in_loop true FShutdown shutdown_in_loop_) with (shutdown true) in Hl.
    destruct (shutdown true (hc_conn (client s))) as [c'|f]; unfold matches in Hl; [|by rewrite Hl].
    destruct Hl as [Hl Hf]. by rewrite Hl.
Qed.
End server.
