(* ===== verification/Reactor.v ===== *)
(** * Reactor: one event loop with its poller, connections and wheel (src/event/eventloop.cc, src/httpserver.cc)

    The state of a loop that serves: the connections, the poller they share,
    the wheel and what all connections use; and the events it serves, one
    callback of a channel or one functor each.  Every event is local: what it
    does to its connection does not depend on the others, and they do not
    notice it. *)

From stdpp Require Import base list numbers strings gmap sets.
From Stdlib Require Import ZArith Lia.
From S2P Require Import Prelude Buffer Regex SqlConnPool HttpRequest Forms Parsing Accounts HttpResponse HttpContext Channel TcpConnection ConnectionProofs HttpServer Serving SharedPoller.

Local Open Scope Z_scope.
Local Open Scope result_scope.

(** ** State *)

(** A connection is known by its channel; so is its entry in the wheel. *)
Inductive loop_event : Type :=
  | Accept (i : nat) (fd : Z)                               (* a new connection for this loop *)
  | Read (i : nat) (readv : io bytes) (sent : io nat)       (* the channel's read callback *)
  | Write (i : nat) (written : io nat)                      (* its write callback *)
  | Hangup (i : nat)                                        (* its close callback *)
  | Functor (i : nat)                                       (* the oldest functor the connection queued *)
  | Remove (i : nat)                                        (* [destroy_connect] *)
  | Release (i : nat)                                       (* the last pointer to the connection goes *)
  | Second.                                                 (* the wheel's timer *)

Section reactor.
Context {DB : Type} `{!MySQL DB} {FS : FileSystem} (srcDir : bytes).

Record loop_state : Type := mkLoopState {
  members : gmap nat http_conn;
  epoll : Epoller;
  buckets : list Bucket;
  common : world (DB := DB)
}.

(** ** Operations *)

(** A connection and the loop as its handlers see them. *)
Definition seated_at (s : loop_state) (h : http_conn) : serve_state (DB := DB) :=
  mkServe (set_conn (set_poller (epoll s) (hc_conn h)) h) (buckets s) (common s).

Definition handle (i : nat) (f : serve_state (DB := DB) -> result serve_state) (s : loop_state) : result loop_state :=
  h ← of_option NullDeref (members s !! i);
  s1 ← f (seated_at s h);
  Ok (mkLoopState (<[i := client s1]> (members s)) (poller_ (hc_conn (client s1))) (wheel s1) (shared s1)).

(** [TcpServer::new_connection] in the connection's loop: the object with its
    channel, [build_connect] and the server's connection callback. *)
Definition accept (i : nat) (fd : Z) (s : loop_state) : result loop_state :=
  conn ← build_connect (new_connection i false (set_chan i (new_channel fd) (epoll s)));
  Ok (mkLoopState (<[i := mkHttp i (init new_context) conn]> (members s)) (poller_ conn)
        (connection_cb (is_connected conn) i (buckets s)) (common s)).

(** [~TcpConnection]: the object goes, with its channel and the mapping of its
    response. *)
Definition release (i : nat) (s : loop_state) : result loop_state :=
  h ← of_option NullDeref (members s !! i);
  _ ← destroy (set_poller (epoll s) (hc_conn h));
  let p := epoll s in
  Ok (mkLoopState (delete i (members s))
        (mkEpoller (channels_ p) (interest p) (list_size p) (delete i (store p))) (buckets s)
        (mkWorld (w_env (common s)) (HttpResponse.destroy (response_ (hc_context h)) (w_os (common s))))).

(** [~Entry]: shut the connection down, if it still exists. *)
Definition expire (i : nat) (s : loop_state) : result loop_state :=
  match members s !! i with
  | Some _ => handle i (on_conn (OpShutdown true)) s
  | None => Ok s
  end.

Fixpoint expire_all (dead : list nat) (s : loop_state) : result loop_state :=
  match dead with
  | [] => Ok s
  | i :: dead => s1 ← expire i s; expire_all dead s1
  end.

(** [HttpServer::ontime]: the wheel turns, and the entries only the oldest
    bucket held are destroyed. *)
Definition second (s : loop_state) : result loop_state :=
  let '(dead, w) := ontime (buckets s) in
  expire_all (elements dead) (mkLoopState (members s) (epoll s) w (common s)).

Definition loop_step (e : loop_event) (s : loop_state) : result loop_state :=
  match e with
  | Accept i fd => accept i fd s
  | Read i readv sent => handle i (on_readable srcDir readv sent) s
  | Write i written => handle i (on_conn (OpWritable written)) s
  | Hangup i => handle i (on_conn OpHangup) s
  | Functor i => handle i (on_conn (OpRunQueued [] (IoOk 0%nat))) s
  | Remove i => handle i (on_conn OpDestroy) s
  | Release i => release i s
  | Second => second s
  end.

Fixpoint loop_run (es : list loop_event) (s : loop_state) : result loop_state :=
  match es with
  | [] => Ok s
  | e :: es => s1 ← loop_step e s; loop_run es s1
  end.

(** ** What each connection sees *)

(** The connections, each with its own part of the poller. *)
Definition guests_of (s : loop_state) : gmap nat http_conn :=
  (fun h => set_conn (part (set_poller (epoll s) (hc_conn h))) h) <$> members s.

(** The loop as the handlers of a connection with its own poller see it. *)
Definition private (s : loop_state) (g : http_conn) : serve_state (DB := DB) := mkServe g (buckets s) (common s).

Record loop_ok (s : loop_state) : Prop := {
  lo_shared : shared_ok (epoll s);
  lo_channel : forall i h, members s !! i = Some h -> channel_ (hc_conn h) = i;
  lo_calm : calm (epoll s)
}.

Lemma guests_lookup s i h :
  members s !! i = Some h -> guests_of s !! i = Some (client (spart (seated_at s h))).
Proof. intros Hh. unfold guests_of. by rewrite lookup_fmap, Hh. Qed.

Lemma guests_inv s i g :
  guests_of s !! i = Some g -> exists h, members s !! i = Some h /\ g = client (spart (seated_at s h)).
Proof. unfold guests_of. rewrite lookup_fmap. intros (h & Hh & ->)%fmap_Some. by exists h. Qed.

Lemma guests_none s i : guests_of s !! i = None <-> members s !! i = None.
Proof. unfold guests_of. rewrite lookup_fmap. by destruct (members s !! i). Qed.

(** Only the part of its own channel matters to a connection. *)
Lemma part_frame i p p' c : channel_ c <> i -> frames i p p' -> part (set_poller p' c) = part (set_poller p c).
Proof. intros Hne Hf. unfold part. simpl. by rewrite (frames_own i (channel_ c) p p' Hf Hne). Qed.

(** A handler of connection [i] does on the shared poller what it does on the
    connection's own part of it, and the other connections do not notice. *)
Lemma handle_local i f s g :
  loop_ok s -> LocalServe f -> guests_of s !! i = Some g ->
  match handle i f s with
  | Ok s' => exists g', f (private s g) = Ok (private s' g') /\ guests_of s' = <[i := g']> (guests_of s) /\
      loop_ok s' /\ frames i (epoll s) (epoll s')
  | Fault x => f (private s g) = Fault x
  end.
Proof.
  intros [Hs Hch Hcalm] Hf (h & Hh & ->)%guests_inv. unfold handle. rewrite Hh. cbn [of_option]. rewrite bind_ok.
  change (private s (client (spart (seated_at s h)))) with (spart (seated_at s h)).
  specialize (Hf (seated_at s h) Hs). destruct (f (seated_at s h)) as [s1|x]; [|exact Hf].
  destruct Hf as [Hf [Hc Hfr]]. change (channel_ (hc_conn (client (seated_at s h)))) with (channel_ (hc_conn h)) in *.
  rewrite (Hch i h Hh) in *. change (poller_ (hc_conn (client (seated_at s h)))) with (epoll s) in Hfr.
  rewrite bind_ok. exists (client (spart s1)). split; [exact Hf|]. split; [|split; [|exact Hfr]].
  - apply map_eq. intros j. unfold guests_of. rewrite lookup_fmap. cbn [members epoll].
    destruct (decide (j = i)) as [->|Hne].
    + rewrite !lookup_insert_eq. cbn [fmap option_fmap option_map]. destruct s1 as [[e ctx c] w sh]. by destruct c.
    + rewrite !lookup_insert_ne, lookup_fmap by done. destruct (members s !! j) as [k|] eqn:Hk; [|done].
      cbn [fmap option_fmap option_map]. by rewrite (part_frame i (epoll s)) by (rewrite ?(Hch j k Hk); done).
  - split; [apply Hfr| |by eapply frames_calm]. intros j k. cbn [members].
    intros [[<- <-]|[_ Hk]]%lookup_insert_Some; [exact Hc|by apply Hch].
Qed.

(** The handler an event runs for a connection. *)
Definition client_handler (e : loop_event) : option (nat * (serve_state (DB := DB) -> result serve_state)) :=
  match e with
  | Read i readv sent => Some (i, on_readable srcDir readv sent)
  | Write i written => Some (i, on_conn (OpWritable written))
  | Hangup i => Some (i, on_conn OpHangup)
  | Functor i => Some (i, on_conn (OpRunQueued [] (IoOk 0%nat)))
  | Remove i => Some (i, on_conn OpDestroy)
  | Accept _ _ | Release _ | Second => None
  end.

(** C9: Connections share the loop's poller and do not notice.  A callback or a
    functor of a connection does in the loop what it would do if the poller
    held its own channel and nothing else, the assertions that fail included,
    and leaves every other connection as it was, with its channel, its buffers
    and what the kernel watches for it. *)
Theorem handlers_separate e i f s g :
  loop_ok s -> client_handler e = Some (i, f) -> guests_of s !! i = Some g ->
  match loop_step e s with
  | Ok s' => exists g', f (private s g) = Ok (private s' g') /\ guests_of s' = <[i := g']> (guests_of s) /\ loop_ok s'
  | Fault x => f (private s g) = Fault x
  end.
Proof.
  intros Hs He Hg.
  assert (Hf : LocalServe f /\ loop_step e s = handle i f s).
  { destruct e; simplify_eq/=; (split; [first [apply on_readable_local|apply on_conn_local]|done]). }
  destruct Hf as [Hf ->]. pose proof (handle_local i f s g Hs Hf Hg) as Hl.
  destruct (handle i f s) as [s'|]; [|done]. destruct Hl as (g' & ? & ? & ? & _). by exists g'.
Qed.

(** A handler that succeeds on the connection's own part succeeds. *)
Lemma handle_ok i f s g g' w wd :
  loop_ok s -> LocalServe f -> guests_of s !! i = Some g -> f (private s g) = Ok (mkServe g' w wd) ->
  exists s', handle i f s = Ok s' /\ guests_of s' = <[i := g']> (guests_of s) /\ buckets s' = w /\ common s' = wd /\
    loop_ok s' /\ frames i (epoll s) (epoll s').
Proof.
  intros Hs Hf Hg Hrun. pose proof (handle_local i f s g Hs Hf Hg) as Hl. rewrite Hrun in Hl.
  destruct (handle i f s) as [s'|]; [|done]. destruct Hl as (g2 & [= -> Hw Hwd] & Hgs & Hok & Hfr). by exists s'.
Qed.

(** *** A new connection *)

(** The kernel and the allocator give what nobody has. *)
Definition fresh (i : nat) (fd : Z) (s : loop_state) : Prop :=
  store (epoll s) !! i = None /\ (forall j c, store (epoll s) !! j = Some c -> fd_ c <> fd) /\
  alive i (buckets s) = false.

Definition accepted_guest (i : nat) (fd : Z) : http_conn :=
  mkHttp i (init new_context) (emit (EvConnection true) (set_poller (solo i (mkChannel fd kReadEvent 0 ADD true false true))
    (set_status_ CONNECTED (new_connection i false (new_poller ∅))))).

Lemma accept_local i fd s :
  loop_ok s -> fresh i fd s -> members s !! i = None ->
  exists s', accept i fd s = Ok s' /\ guests_of s' = <[i := accepted_guest i fd]> (guests_of s) /\
    buckets s' = touch i (buckets s) /\ common s' = common s /\ loop_ok s' /\
    dom (store (epoll s')) = {[i]} ∪ dom (store (epoll s)) /\
    forall j, j <> i -> store (epoll s') !! j = store (epoll s) !! j.
Proof.
  intros [[Hm Hd] Hch Hcalm] (Hfree & Hfd & Ha) Hnone. unfold accept.
  set (p := set_chan i (new_channel fd) (epoll s)). set (c0 := new_connection i false p).
  assert (Hp : shared_ok p).
  { split; [by apply fresh_mirrors|]. intros j k cj ck. cbn [store p set_chan].
    intros [[<- <-]|[Hj Hcj]]%lookup_insert_Some [[<- <-]|[Hk Hck]]%lookup_insert_Some Heq; try done.
    - by destruct (Hfd k ck Hck).
    - by destruct (Hfd j cj Hcj).
    - by eapply Hd. }
  assert (Hown : own i p = solo i (new_channel fd)) by (apply own_store, lookup_insert_eq).
  pose proof (build_connect_local c0 Hp) as Hl.
  assert (Hrun : build_connect (part c0) = Ok (hc_conn (accepted_guest i fd))).
  { unfold part. change (poller_ c0) with p. change (channel_ c0) with i. rewrite Hown.
    set (ch := tie (new_channel fd)). set (c1 := set_poller (solo i (new_channel fd)) c0).
    assert (Hget : get_channel (set_status_ CONNECTED c1) = Ok (new_channel fd)).
    { unfold get_channel. cbn. by rewrite lookup_singleton_eq. }
    assert (Htie : set_chan i ch (solo i (new_channel fd)) = solo i ch).
    { unfold set_chan, solo. cbn [store]. by rewrite insert_singleton_eq. }
    unfold build_connect. change (status_ c1) with CONNECTING. rewrite bool_decide_true by done. cbn [assert_].
    rewrite bind_ok. cbv zeta. rewrite Hget, bind_ok. change (tie (new_channel fd)) with ch.
    change (channel_ (set_status_ CONNECTED c1)) with i.
    change (poller_ (set_status_ CONNECTED c1)) with (solo i (new_channel fd)). rewrite Htie.
    unfold on_channel, enable_reading. change (poller_ (set_poller ?q _)) with q. cbn [channel_ set_poller set_status_ c1 c0 new_connection].
    rewrite (with_events_cases _ (solo i ch) i ch (solo_mirrors i ch) (lookup_singleton_eq i ch)).
    cbv zeta. change (Channel.status_ ch) with NEW. cbv iota.
    rewrite decide_True by done. rewrite !bind_ok. unfold solo. cbn [channels_ interest list_size store].
    rewrite insert_singleton_eq. reflexivity. }
  destruct (build_connect c0) as [c1|x]; unfold matches in Hl; [|congruence].
  destruct Hl as [Hl [Hc Hfr]]. rewrite Hrun in Hl. rewrite bind_ok.
  assert (Heq : hc_conn (accepted_guest i fd) = part c1) by congruence. clear Hl. rename Heq into Hl.
  change (channel_ c0) with i in *. change (poller_ c0) with p in Hfr.
  assert (Hup : is_connected c1 = true).
  { change (is_connected c1) with (is_connected (part c1)). rewrite <-Hl. reflexivity. }
  rewrite Hup. eexists. split; [reflexivity|]. 
  pose proof (frames_dom i p _ Hfr) as Hdom.
  assert (Hcalm1 : calm (poller_ c1)).
  { eapply frames_calm; [exact Hfr|]. intros j cj. unfold p. cbn [store set_chan].
    intros [[_ <-]|[_ Hj]]%lookup_insert_Some; [done|by eapply Hcalm]. }
  destruct Hfr as (Hs1 & Hls & _ & Hst). split; [|split_and!; try done].
  - apply map_eq. intros j. unfold guests_of. rewrite lookup_fmap. cbn [members epoll].
    destruct (decide (j = i)) as [->|Hne].
    + rewrite !lookup_insert_eq. cbn [fmap option_fmap option_map]. unfold accepted_guest. f_equal.
      change (emit (EvConnection true) _) with (hc_conn (accepted_guest i fd)). rewrite Hl. by destruct c1.
    + rewrite !lookup_insert_ne, lookup_fmap by done. destruct (members s !! j) as [k|] eqn:Hk; [|done].
      cbn [fmap option_fmap option_map]. unfold part. cbn [channel_ poller_ set_poller set_conn hc_conn].
      rewrite (Hch j k Hk). unfold own. rewrite Hst by done. unfold p. cbn [store set_chan].
      by rewrite lookup_insert_ne.
  - split; [done| |done]. intros j k. cbn [members]. intros [[<- <-]|[_ Hk]]%lookup_insert_Some; [exact Hc|by apply Hch].
  - cbn [epoll]. rewrite Hdom. unfold p. cbn [store set_chan]. apply dom_insert_L.
  - intros j Hj. cbn [epoll]. rewrite Hst by done. unfold p. cbn [store set_chan]. by rewrite lookup_insert_ne.
Qed.

(** *** The end of a connection *)

(** A closed connection, before ([DEL]) and after ([NEW]) its channel is removed. *)
Record gone (t : POLL_TAG) (c : TcpConnection) : Prop := {
  gone_down : status_ c = DISCONNECTED;
  gone_channel : exists ch, get_channel c = Ok ch /\ Channel.status_ ch = t /\ events_ ch = kNoneEvent /\
    (t = NEW -> added_to_loop_ ch = false);
  gone_pending : Forall reports (pending_ c)
}.

(** A channel that is not registered can be forgotten. *)
Lemma delete_mirrors i c p :
  mirrors p -> store p !! i = Some c -> Channel.status_ c = NEW ->
  mirrors (mkEpoller (channels_ p) (interest p) (list_size p) (delete i (store p))).
Proof.
  intros [Hm Hk] Hc Hst. split; cbn.
  - intros fd j. rewrite Hm. unfold registered. cbn. split; intros (d & Hd & ?); exists d.
    + rewrite lookup_delete_ne; [done|]. intros <-. rewrite Hc in Hd. injection Hd as <-. naive_solver.
    + by apply lookup_delete_Some in Hd as [_ Hd].
  - intros fd ev j. rewrite Hk. unfold watched. cbn. split; intros (d & Hd & ?); exists d.
    + rewrite lookup_delete_ne; [done|]. intros <-. rewrite Hc in Hd. injection Hd as <-. naive_solver congruence.
    + by apply lookup_delete_Some in Hd as [_ Hd].
Qed.

(** [destroy_connect] of a closed connection takes its channel off the poller. *)
Lemma gone_destroy c :
  mirrors (poller_ c) -> gone DEL c ->
  exists c', destroy_connect c = Ok c' /\ gone NEW c' /\ stream c' = stream c /\ input_buffer_ c' = input_buffer_ c.
Proof.
  intros Hm [Hdown (ch & Hch & Hst & He & _) Hp]. apply get_channel_ok in Hch as Hs.
  unfold destroy_connect. rewrite bool_decide_false by (by rewrite Hdown). rewrite bind_ok.
  unfold on_channel. rewrite (remove_cases (poller_ c) (channel_ c) ch Hm Hs).
  unfold is_none_event. rewrite He, Hst. rewrite bool_decide_false by done. cbn [negb andb Z.eqb kNoneEvent].
  rewrite bind_ok. eexists. split; [reflexivity|]. split; [|done]. split; [done| |done].
  exists (Channel.set_status NEW (set_added false ch)). split; [|done].
  unfold get_channel. cbn. by rewrite lookup_insert_eq.
Qed.

(** The own part of a member's channel. *)
Lemma guest_channel_store s i h ch :
  loop_ok s -> members s !! i = Some h ->
  get_channel (hc_conn (client (spart (seated_at s h)))) = Ok ch -> store (epoll s) !! i = Some ch.
Proof.
  intros Hs Hh Hch%get_channel_ok. cbn in Hch. rewrite (lo_channel _ Hs i h Hh) in Hch. by rewrite own_lookup in Hch.
Qed.

Lemma release_local i s g :
  loop_ok s -> guests_of s !! i = Some g -> gone NEW (hc_conn g) ->
  exists s', release i s = Ok s' /\ guests_of s' = delete i (guests_of s) /\ buckets s' = buckets s /\
    common s' = mkWorld (w_env (common s)) (HttpResponse.destroy (response_ (hc_context g)) (w_os (common s))) /\
    loop_ok s' /\ store (epoll s') !! i = None /\ forall j, j <> i -> store (epoll s') !! j = store (epoll s) !! j.
Proof.
  intros Hs (h & Hh & ->)%guests_inv [Hdown (ch & Hch & Hst & _ & Hadd) _].
  apply (guest_channel_store s i h ch Hs Hh) in Hch. specialize (Hadd eq_refl).
  unfold release. rewrite Hh. cbn [of_option]. rewrite bind_ok.
  assert (Hdest : destroy (set_poller (epoll s) (hc_conn h)) = Ok tt).
  { unfold destroy. rewrite bool_decide_true by exact Hdown. cbn [assert_]. rewrite bind_ok.
    cbn [poller_ set_poller channel_]. rewrite (lo_channel _ Hs i h Hh), Hch. cbn [of_option]. rewrite bind_ok.
    unfold destroy_channel. by rewrite (lo_calm _ Hs i ch Hch), Hadd. }
  rewrite Hdest, bind_ok. eexists. split; [reflexivity|]. destruct Hs as [[Hm Hd] Hc Hcalm].
  split; [|split; [done|split; [done|split; [|split]]]].
  - apply map_eq. intros j. unfold guests_of. rewrite lookup_fmap. cbn [members epoll].
    destruct (decide (j = i)) as [->|Hne]; [by rewrite !lookup_delete_eq|]. rewrite !lookup_delete_ne, lookup_fmap by done.
    destruct (members s !! j) as [k|] eqn:Hk; [|done]. cbn [fmap option_fmap option_map].
    unfold part. cbn [channel_ poller_ set_poller set_conn hc_conn]. rewrite (Hc j k Hk). unfold own.
    cbn [store]. by rewrite lookup_delete_ne.
  - split; cbn [epoll members].
    + split; [by eapply delete_mirrors|]. intros j k cj ck. cbn [store].
      intros [_ Hj]%lookup_delete_Some [_ Hk]%lookup_delete_Some. by eapply Hd.
    + intros j k [_ Hk]%lookup_delete_Some. by apply Hc.
    + intros j cj; cbn [store]; intros [_ Hj]%lookup_delete_Some. by eapply Hcalm.
  - cbn [epoll store]. apply lookup_delete_eq.
  - intros j Hj. cbn [epoll store]. by rewrite lookup_delete_ne.
Qed.

(** *** Expired entries *)

(** [shutdown] in the loop, as a function. *)
Definition half_closed (c : TcpConnection) : TcpConnection :=
  match shutdown_in_loop_ c with Ok c' => c' | Fault _ => c end.

Lemma shutdown_half_closed c ch : get_channel c = Ok ch -> shutdown true c = Ok (half_closed c).
Proof.
  intros Hch. unfold shutdown, run_in_loop, half_closed, shutdown_in_loop_. case_bool_decide; [|done]. cbv zeta.
  change (get_channel (set_status_ DISCONNECTING c)) with (get_channel c). rewrite Hch, bind_ok.
  by destruct (negb (is_writing ch)).
Qed.

Definition half_close (g : http_conn) : http_conn := set_conn (half_closed (hc_conn g)) g.

Lemma expire_local i s :
  loop_ok s -> (forall g, guests_of s !! i = Some g -> exists ch, get_channel (hc_conn g) = Ok ch) ->
  exists s', expire i s = Ok s' /\ guests_of s' = alter half_close i (guests_of s) /\ buckets s' = buckets s /\
    common s' = common s /\ loop_ok s' /\ frames i (epoll s) (epoll s').
Proof.
  intros Hs Hch. unfold expire. destruct (guests_of s !! i) as [g|] eqn:Hg.
  - pose proof Hg as (h & Hh & _)%guests_inv. rewrite Hh. destruct (Hch g eq_refl) as [ch Hget].
    destruct (handle_ok i (on_conn (OpShutdown true)) s g (half_close g) (buckets s) (common s) Hs (on_conn_local _) Hg)
      as (s' & Hrun & Hgs & ? & ? & ? & ?).
    { unfold on_conn. cbn [conn_step client private]. by rewrite (shutdown_half_closed _ ch Hget), bind_ok. }
    exists s'. split; [done|]. split; [|done]. rewrite Hgs. symmetry. apply map_eq. intros j.
    destruct (decide (j = i)) as [->|Hne].
    + by rewrite lookup_alter_eq, lookup_insert_eq, Hg.
    + by rewrite lookup_alter_ne, lookup_insert_ne.
  - pose proof Hg as Hn%guests_none. rewrite Hn. exists s. split; [done|]. split; [|split_and!; try done; apply frames_refl, Hs].
    symmetry. by apply alter_id; intros x Hx; rewrite Hg in Hx.
Qed.

Lemma expire_all_local dead : forall s,
  loop_ok s -> NoDup dead ->
  (forall i g, guests_of s !! i = Some g -> exists ch, get_channel (hc_conn g) = Ok ch) ->
  exists s', expire_all dead s = Ok s' /\ buckets s' = buckets s /\ common s' = common s /\ loop_ok s' /\
    dom (store (epoll s')) = dom (store (epoll s)) /\
    forall i, guests_of s' !! i = (if decide (i ∈ dead) then half_close else id) <$> guests_of s !! i.
Proof.
  induction dead as [|i dead IH]; intros s Hs Hnd Hch; cbn [expire_all].
  - exists s. split_and!; try done. intros i. rewrite decide_False by apply not_elem_of_nil.
    by destruct (guests_of s !! i).
  - apply NoDup_cons in Hnd as [Hi Hnd]. destruct (expire_local i s Hs (Hch i)) as (s1 & Hrun & Hgs & Hb & Hc & Hs1 & Hfr).
    rewrite Hrun, bind_ok. destruct (IH s1 Hs1 Hnd) as (s2 & Hrun2 & Hb2 & Hc2 & Hs2 & Hd2 & Hg2).
    { intros j g. rewrite Hgs. destruct (decide (j = i)) as [->|Hne].
      - rewrite lookup_alter_eq. intros (g0 & Hg0 & ->)%fmap_Some. destruct (Hch i g0 Hg0) as [ch Hget].
        cbn [half_close hc_conn set_conn]. unfold half_closed, shutdown_in_loop_. case_bool_decide; [|by exists ch].
        cbv zeta. change (get_channel (set_status_ DISCONNECTING (hc_conn g0))) with (get_channel (hc_conn g0)).
        rewrite Hget, bind_ok. destruct (negb _); by exists ch.
      - rewrite lookup_alter_ne by done. apply Hch. }
    exists s2. rewrite Hb2, Hc2, Hd2, <-(frames_dom _ _ _ Hfr). split_and!; try done.
    intros j. rewrite Hg2, Hgs. destruct (decide (j = i)) as [->|Hne].
    + rewrite lookup_alter_eq, decide_False, decide_True by (done || by left). by destruct (guests_of s !! i).
    + rewrite lookup_alter_ne by done. destruct (decide (j ∈ dead)) as [Hj|Hj].
      * by rewrite decide_True by by right.
      * by rewrite decide_False by by intros [?|?]%elem_of_cons.
Qed.
End reactor.

(** ** Witness *)

Definition empty_loop : loop_state := mkLoopState ∅ (new_poller ∅) new_wheel demo_world.

(** Two connections; one of them hangs up. *)
Theorem handlers_separate_witness :
  exists s1 s2 g, accept 0 5 empty_loop = Ok s1 /\ accept 1 6 s1 = Ok s2 /\ guests_of s2 !! 0%nat = Some g /\
    match loop_step (lit "/w") (Hangup 0) s2 with
    | Ok s' => exists g', on_conn OpHangup (private s2 g) = Ok (private s' g') /\ guests_of s' = <[0%nat := g']> (guests_of s2) /\ loop_ok s'
    | Fault x => on_conn OpHangup (private s2 g) = Fault x
    end.
Proof.
  assert (H0 : loop_ok empty_loop).
  { split; [split; [by apply new_poller_mirrors|]|..]; by intros ?. }
  destruct (accept_local 0 5 empty_loop H0) as (s1 & Hrun1 & Hg1 & Hb1 & _ & H1 & Hdom1 & _); [done|done|].
  assert (Hf : fresh 1 6 s1).
  { split; [|split; [|by rewrite Hb1]].
    - apply not_elem_of_dom. rewrite Hdom1. cbn. set_solver.
    - intros j c Hj. assert (j = 0%nat) as -> by (apply elem_of_dom_2 in Hj; rewrite Hdom1 in Hj; cbn in Hj; set_solver).
      assert (Hg : guests_of s1 !! 0%nat = Some (accepted_guest 0 5)) by (rewrite Hg1; apply lookup_insert_eq).
      apply guests_inv in Hg as (h & Hh & Hg). apply (f_equal (fun g => store (poller_ (hc_conn g)) !! 0%nat)) in Hg.
      cbn in Hg. rewrite (lo_channel _ H1 0%nat h Hh), own_lookup, Hj in Hg. by injection Hg as <-. }
  destruct (accept_local 1 6 s1 H1 Hf) as (s2 & Hrun2 & Hg2 & _ & _ & H2 & _).
  { apply guests_none. rewrite Hg1. by rewrite lookup_insert_ne. }
  exists s1, s2, (accepted_guest 0 5). split; [exact Hrun1|]. split; [exact Hrun2|].
  assert (Hg : guests_of s2 !! 0%nat = Some (accepted_guest 0 5)).
  { rewrite Hg2, lookup_insert_ne, Hg1 by done. apply lookup_insert_eq. }
  split; [exact Hg|]. exact (handlers_separate (lit "/w") (Hangup 0) 0 (on_conn OpHangup) s2 _ H2 eq_refl Hg).
Defined.
