(* ===== verification/Service.v ===== *)
(** * Service: what a message is answered with

    The answer to a text, without buffers, mappings and responses: how far the
    parser gets in it, [understand]; the page it is led to, [sheet_of]; and, if
    it carries a login or a registration, what the accounts say.  Whoever keeps
    the accounts is the interface [Books].  The context of a connection is shown
    to answer so whatever it has received, and to fail exactly where this
    fails. *)

From stdpp Require Import base list numbers strings gmap sets.
From Stdlib Require Import ZArith Lia Ascii.
From S2P Require Import Prelude Buffer Regex SqlConnPool HttpRequest Forms Parsing Accounts HttpResponse HttpContext.

Local Open Scope Z_scope.
Local Open Scope result_scope.

(** ** Reading a text *)

(** A login or a registration: the name and the password that were posted. *)
Record question : Type := mkQuestion { q_login : bool; q_name : bytes; q_password : bytes }.

#[export] Instance question_eq_dec : EqDecision question.
Proof. solve_decision. Defined.

(** What the parser makes of a text: whether it took the request line, the
    request, what has to be asked of the accounts, and what it leaves. *)
Record reading : Type := mkReading {
  rd_ok : bool;
  rd_request : HttpRequest;
  rd_ask : option question;
  rd_rest : bytes
}.

(** A form posted to the login or the registration page. *)
Definition form_question (r : HttpRequest) : HttpRequest * option question :=
  match DEFAULT_HTML_TAG !! HttpRequest.path_ r with
  | Some tag =>
      if (tag =? 0) || (tag =? 1) then
        let '(username, m1) := subscript (lit "username") (post_ r) in
        let '(password, m2) := subscript (lit "password") m1 in
        (set_post m2 r, Some (mkQuestion (tag =? 1) username password))
      else (r, None)
  | None => (r, None)
  end.

Definition is_form (r : HttpRequest) : Prop :=
  method_ r = lit "POST" /\ default [] (header_ r !! lit "Content-Type") = lit "application/x-www-form-urlencoded".

#[export] Instance is_form_dec r : Decision (is_form r).
Proof. unfold is_form. apply _. Defined.

(** A body: only that of a form is looked into. *)
Definition body_reading (line : bytes) (r : HttpRequest) : result (HttpRequest * option question) :=
  let r0 := if bool_decide (method_ r = lit "POST")
            then set_header (subscript (lit "Content-Type") (header_ r)).2 (set_body line r) else set_body line r in
  if bool_decide (is_form r) then
    r1 ← ParseFromUrlencoded_ r0;
    let '(r2, q) := form_question r1 in Ok (set_state FINISH r2, q)
  else Ok (set_state FINISH r0, None).

(** One line of a text of which [len] characters are left; [None] gives up. *)
Definition line_reading (line : bytes) (len : nat) (r : HttpRequest) : result (option HttpRequest * option question) :=
  match state_ r with
  | REQUEST_LINE => Ok (ParsePath_ <$> ParseRequestLine_ line r, None)
  | HEADERS =>
      let r1 := ParseHeader_ line r in
      Ok (Some (if (len <=? 2)%nat then set_state FINISH r1 else r1), None)
  | BODY => '(r1, q) ← body_reading line r; Ok (Some r1, q)
  | FINISH => Ok (Some r, None)
  end.

Fixpoint read_text (fuel : nat) (s : bytes) (r : HttpRequest) (q : option question) : result reading :=
  if bool_decide (s = []) || bool_decide (state_ r = FINISH) then Ok (mkReading true r q s)
  else
    match fuel with
    | O => Fault OutOfFuel
    | S fuel =>
        let k := search_crlf s in
        '(r1, q1) ← line_reading (take k s) (length s) r;
        match r1 with
        | None => Ok (mkReading false r None s)
        | Some r1 =>
            if (k =? length s)%nat then Ok (mkReading true r1 q1 s)
            else read_text fuel (drop (k + 2) s) r1 q1
        end
    end.

Definition understand (s : bytes) : result reading := read_text (length s) s HttpRequest.Init None.

(** The pages an account leads to. *)
Definition account_page (ok : bool) : bytes := if ok then lit "/welcome.html" else lit "/error.html".

(** ** Pages *)

Section pages.
Context {FS : FileSystem} (srcDir : bytes).

(** The code a path is answered with, the page that is sent, and what is known
    of its file; the page of an error takes the place of the path. *)
Definition page_for (code0 : Z) (p : bytes) : Z * bytes * file_stat :=
  let found := fs_stat (c_str (srcDir ++ p)) in
  let code := chosen_code found code0 in
  match CODE_PATH !! code with
  | Some q => (code, q, default (default stat_zero found) (fs_stat (c_str (srcDir ++ q))))
  | None => (code, p, default stat_zero found)
  end.

Definition file_type (p : bytes) : bytes := GetFileType_ (mkResponse 0 false p [] None stat_zero).

(** The text in place of a page that cannot be had. *)
Definition no_file (code : Z) : bytes :=
  let body := error_body (set_code code new_response) (lit "File NotFound!") in
  content_length (Z.of_nat (length body)) ++ body.

(** An answer: its text, whether its file stays mapped, and whether a
    descriptor and a mapping are lost with it. *)
Record sheet : Type := mkSheet { sh_text : bytes; sh_mapped : bool; sh_lost : bool }.

Definition sheet_head (keep : bool) (code : Z) (q : bytes) : bytes := status_line code ++ header_lines keep (file_type q).

(** The answer for a path of a request that was taken ([ok]) or not.  Where the
    mapping fails, as for an empty file, the server reads through its result;
    a file that begins with four bytes FF is taken for such a failure. *)
Definition sheet_of (keep ok : bool) (p : bytes) : result sheet :=
  let '(code, q, st) := page_for (if ok then 200 else 400) p in
  let head := sheet_head keep code q in
  if negb (fs_open (c_str (srcDir ++ q))) then Ok (mkSheet (head ++ no_file code) false false)
  else
    m ← of_option NullDeref (fs_mmap (c_str (srcDir ++ q)) (st_size st));
    bad ← reads_minus_one m;
    if bad : bool then Ok (mkSheet (head ++ no_file code) false true)
    else if 0 <? st_size st then
      guard_ OutOfRange (st_size st <=? Z.of_nat (length m)) ≫= fun _ =>
      Ok (mkSheet (head ++ content_length (st_size st) ++ take (Z.to_nat (st_size st)) m) true false)
    else Ok (mkSheet (head ++ content_length (st_size st)) true false).
End pages.

(** ** Who keeps the accounts *)

(** What the accounts may answer to a question, and the accounts after it; the
    questions that bring the server down; and the questions that may be put. *)
Class Books (B : Type) := {
  decides : B -> question -> bool -> B -> Prop;
  fails : B -> question -> fault -> Prop;
  askable : question -> Prop
}.

(** The promise to the parser: [UserVerify] answers as the books say, from any
    pool and database they describe. *)
Class BooksOk (B DB : Type) `{!MySQL DB} `{!Books B} := {
  describes : B -> env DB -> Prop;
  books_answer b e q : describes b e -> askable q ->
    match UserVerify (q_name q) (q_password q) (q_login q) e with
    | Ok (ok, e1) => exists b1, decides b q ok b1 /\ describes b1 e1
    | Fault f => fails b q f
    end
}.

(** The pool and the database themselves, whatever is asked. *)
#[export] Instance own_books {DB} `{!MySQL DB} : Books (env DB) := {
  decides e q ok e1 := UserVerify (q_name q) (q_password q) (q_login q) e = Ok (ok, e1);
  fails e q f := UserVerify (q_name q) (q_password q) (q_login q) e = Fault f;
  askable _ := True
}.
#[export] Instance own_books_ok {DB} `{!MySQL DB} : BooksOk (env DB) DB.
Proof.
  refine {| describes := eq |}. intros b e q -> _.
  destruct (UserVerify _ _ _ e) as [[ok e1]|f] eqn:Hv; [by exists e1|exact Hv].
Defined.

(** ** The answer to a text *)

(** What is sent, what was asked of the accounts, and whether a descriptor and
    a mapping were lost. *)
Record output : Type := mkOutput { said : bytes; asked : option question; lost : bool }.
Definition nothing : output := mkOutput [] None false.

Section answers.
Context {B : Type} `{!Books B} {FS : FileSystem} (srcDir : bytes).
Implicit Types b : B.

(** The path a request is led to, and the accounts after. *)
Inductive routed b (rd : reading) : bytes -> B -> Prop :=
  | routed_plain : rd_ask rd = None -> routed b rd (path (rd_request rd)) b
  | routed_account q ok b1 : rd_ask rd = Some q -> decides b q ok b1 -> routed b rd (account_page ok) b1.

Definition keeps_alive (rd : reading) : bool := rd_ok rd && IsKeepAlive (rd_request rd).

(** The answer to what a connection has received, what is kept of it, and the
    accounts after. *)
Inductive responds b (whole : bytes) : output -> bytes -> B -> Prop :=
  responds_sheet rd p b1 sh :
    understand whole = Ok rd -> routed b rd p b1 -> sheet_of srcDir (keeps_alive rd) (rd_ok rd) p = Ok sh ->
    responds b whole (mkOutput (sh_text sh) (rd_ask rd) (sh_lost sh)) (rd_rest rd) b1.

(** What brings the server down: a form that cannot be decoded, a question the
    accounts fail at, a page that cannot be mapped. *)
Inductive refuses b (whole : bytes) : fault -> Prop :=
  | refuses_text f : understand whole = Fault f -> refuses b whole f
  | refuses_question rd q f : understand whole = Ok rd -> rd_ask rd = Some q -> fails b q f -> refuses b whole f
  | refuses_page rd p b1 f :
      understand whole = Ok rd -> routed b rd p b1 -> sheet_of srcDir (keeps_alive rd) (rd_ok rd) p = Fault f ->
      refuses b whole f.

(** The question a text puts may be put. *)
Definition proper (whole : bytes) : Prop :=
  match understand whole with
  | Ok rd => match rd_ask rd with Some q => askable q | None => True end
  | Fault _ => True
  end.
End answers.

(** Anything may be asked of the pool and the database themselves. *)
Lemma proper_own {DB} `{!MySQL DB} whole : proper (B := env DB) whole.
Proof. unfold proper. destruct (understand whole) as [rd|]; [|done]. by destruct (rd_ask rd). Qed.

(** ** The parser reads so *)

Section parser.
Context {DB : Type} `{!MySQL DB}.
Implicit Types (e : env DB) (r : HttpRequest) (b : Buffer).

(** The question is put where the parser finds it. *)
Definition settle (q : option question) (r : HttpRequest) (e : env DB) : result (HttpRequest * env DB) :=
  match q with
  | None => Ok (r, e)
  | Some q =>
      '(ok, e1) ← UserVerify (q_name q) (q_password q) (q_login q) e;
      Ok (HttpRequest.set_path (account_page ok) r, e1)
  end.

Lemma ParseBody_settles line r e :
  ParseBody_ line r e = ('(r1, q) ← body_reading line r; settle q r1 e).
Proof.
  unfold ParseBody_, ParsePost_, body_reading, is_form. change (method_ (set_body line r)) with (method_ r).
  change (header_ (set_body line r)) with (header_ r).
  case_bool_decide as Hm; [|by rewrite bool_decide_false by naive_solver].
  assert (Hct : (subscript (lit "Content-Type") (header_ r)).1 = default [] (header_ r !! lit "Content-Type")).
  { unfold subscript. by destruct (header_ r !! lit "Content-Type"). }
  destruct (subscript (lit "Content-Type") (header_ r)) as [ct h]. cbn [fst snd] in *. subst ct.
  case_bool_decide as Hf; [rewrite bool_decide_true by done|by rewrite bool_decide_false by naive_solver].
  cbv zeta. destruct (ParseFromUrlencoded_ _) as [r1|f]; [|done]. rewrite !bind_ok. unfold form_question.
  destruct (DEFAULT_HTML_TAG !! _) as [tag|]; [|done]. destruct (_ || _); [|done].
  destruct (subscript _ (post_ r1)) as [u m1]. destruct (subscript _ m1) as [w m2]. cbn [q_name q_password q_login].
  rewrite bind_ok. cbn [settle q_name q_password q_login]. by destruct (UserVerify u w (tag =? 1) e) as [[ok e1]|f].
Qed.

Lemma body_reading_finishes line r r1 q : body_reading line r = Ok (r1, q) -> state_ r1 = FINISH.
Proof.
  unfold body_reading. case_bool_decide as Hf; [|by intros [= <- <-]]. intros Hr. inv_bind Hr.
  destruct (form_question _) as [r2 q2]. by injection Hr as <- <-.
Qed.

Lemma line_reading_asks line len r r1 q : line_reading line len r = Ok (Some r1, Some q) -> state_ r1 = FINISH.
Proof.
  unfold line_reading. destruct (state_ r); try done. intros Hr. inv_bind Hr. destruct a as [r2 q2].
  injection Hr as -> ->. by eapply body_reading_finishes.
Qed.

Lemma parse_line_settles line b r e :
  wf b -> parse_line line b r e =
    ('(r1, q) ← line_reading line (length (contents b)) r;
     match r1 with Some r1 => '(r2, e2) ← settle q r1 e; Ok (Some r2, e2) | None => Ok (None, e) end).
Proof.
  intros Hwf. unfold parse_line, line_reading. destruct (state_ r).
  - rewrite bind_ok. by destruct (ParseRequestLine_ line r).
  - rewrite bind_ok. cbn [settle]. rewrite bind_ok, read_able_contents by done.
    assert (Hle : (Z.of_nat (length (contents b)) <=? 2) = (length (contents b) <=? 2)%nat); [|by rewrite Hle].
    destruct (Z.leb_spec (Z.of_nat (length (contents b))) 2), (Nat.leb_spec (length (contents b)) 2); done || lia.
  - rewrite ParseBody_settles. destruct (body_reading line r) as [[r1 q]|f]; [|done]. by rewrite !bind_ok.
  - done.
Qed.

(** What the parser leaves, given what it read. *)
Definition parses_to (rd : reading) b e (run : result (outcome (DB := DB))) : Prop :=
  match settle (rd_ask rd) (rd_request rd) e with
  | Ok (r1, e1) => exists b1, run = Ok (rd_ok rd, r1, b1, e1) /\ wf b1 /\ buffer_ b1 = buffer_ b /\ contents b1 = rd_rest rd
  | Fault f => run = Fault f
  end.

Lemma parse_loop_reads fuel : forall b r e,
  wf b -> (length (contents b) <= fuel)%nat ->
  match read_text fuel (contents b) r None with
  | Ok rd => parses_to rd b e (parse_loop fuel b r e)
  | Fault f => parse_loop fuel b r e = Fault f
  end.
Proof.
  induction fuel as [|fuel IH]; intros b r e Hwf Hfuel; cbn [read_text].
  { destruct (contents b) as [|] eqn:Hc; [|simpl in Hfuel; lia]. rewrite bool_decide_true by done. cbn [orb].
    unfold parses_to. cbn [settle rd_ask rd_request rd_ok rd_rest]. exists b. rewrite parse_loop_stop by auto. by rewrite Hc. }
  destruct (bool_decide (contents b = []) || bool_decide (state_ r = FINISH)) eqn:Hstop.
  { unfold parses_to. cbn [settle rd_ask rd_request rd_ok rd_rest]. exists b. rewrite parse_loop_stop; [done|done|].
    apply orb_true_iff in Hstop as [H%bool_decide_eq_true|H%bool_decide_eq_true]; auto. }
  apply orb_false_iff in Hstop as [Hne%bool_decide_eq_false Hst%bool_decide_eq_false].
  cbn [parse_loop]. rewrite read_able_positive, !bool_decide_false by done. cbn [negb andb]. rewrite parse_line_settles by done.
  set (k := search_crlf (contents b)).
  destruct (line_reading (take k (contents b)) (length (contents b)) r) as [[[r1|] q]|f] eqn:Hline; rewrite ?bind_ok; [| |done].
  2: { unfold parses_to. cbn [settle rd_ask rd_request rd_ok rd_rest]. by exists b. }
  pose proof (length_contents b Hwf) as Hlen. pose proof (search_crlf_le (contents b)) as Hk. fold k in Hk.
  assert (Hend : (peek b + Z.of_nat k =? begin_write b) = (k =? length (contents b))%nat).
  { unfold peek, begin_write. destruct (Z.eqb_spec (reader_index_ b + Z.of_nat k) (writer_index_ b)), (Nat.eqb_spec k (length (contents b))); done || lia. }
  destruct (settle q r1 e) as [[r2 e2]|f] eqn:Hq; rewrite ?bind_ok.
  - rewrite Hend. destruct (Nat.eqb_spec k (length (contents b))) as [Heq|Hneq].
    { unfold parses_to. cbn [rd_ask rd_request rd_ok rd_rest]. rewrite Hq. by exists b. }
    destruct (retrieve_unitil_spec (peek b + Z.of_nat k + 2) b Hwf) as (b1 & -> & Hwf1 & Hc1 & Hbuf).
    { pose proof (search_crlf_found (contents b)) as Hf. fold k in Hf. specialize (Hf ltac:(lia)). apply (f_equal length) in Hf.
      rewrite length_app, length_take in Hf. cbn [length] in Hf. rewrite length_drop in Hf. unfold peek, begin_write. lia. }
    rewrite bind_ok. replace (Z.to_nat (peek b + Z.of_nat k + 2 - peek b)) with (k + 2)%nat in Hc1 by lia.
    destruct q as [q|].
    + apply line_reading_asks in Hline as Hfin.
      assert (Hrt : read_text fuel (drop (k + 2) (contents b)) r1 (Some q) = Ok (mkReading true r1 (Some q) (drop (k + 2) (contents b))))
        by (destruct fuel; cbn [read_text]; by rewrite (bool_decide_true (state_ r1 = FINISH)), orb_true_r by done).
      rewrite Hrt. unfold parses_to. cbn [rd_ask rd_request rd_ok rd_rest]. rewrite Hq. exists b1.
      rewrite parse_loop_stop; [done|done|]. right. cbn [settle] in Hq. inv_bind Hq. destruct a. by injection Hq as <- <-.
    + cbn [settle] in Hq. injection Hq as <- <-. specialize (IH b1 r1 e Hwf1). rewrite Hc1, length_drop in IH.
      specialize (IH ltac:(lia)). destruct (read_text _ _ _ _) as [rd|f]; [|done]. unfold parses_to in *.
      destruct (settle _ _ _) as [[r2 e2]|f]; [|done]. destruct IH as (b2 & -> & ? & ? & ?). exists b2. by rewrite <-Hbuf.
  - destruct q as [q|]; [|done]. destruct (Nat.eqb_spec k (length (contents b))) as [Heq|Hneq].
    { unfold parses_to. cbn [rd_ask rd_request rd_ok rd_rest]. by rewrite Hq. }
    apply line_reading_asks in Hline as Hfin.
    assert (Hrt : read_text fuel (drop (k + 2) (contents b)) r1 (Some q) = Ok (mkReading true r1 (Some q) (drop (k + 2) (contents b))))
      by (destruct fuel; cbn [read_text]; by rewrite (bool_decide_true (state_ r1 = FINISH)), orb_true_r by done).
    rewrite Hrt. unfold parses_to. cbn [rd_ask rd_request rd_ok rd_rest]. by rewrite Hq.
Qed.

Lemma parse_reads b e :
  wf b -> contents b <> [] ->
  match understand (contents b) with
  | Ok rd => parses_to rd b e (parse b HttpRequest.Init e)
  | Fault f => parse b HttpRequest.Init e = Fault f
  end.
Proof.
  intros Hwf Hne. unfold parse, understand. rewrite (proj2 (Z.leb_gt _ _)) by (rewrite read_able_contents by done; destruct (contents b); simpl; lia || done).
  by apply parse_loop_reads.
Qed.
End parser.

(** ** The response is made so *)

Section responses.
Context {FS : FileSystem} (srcDir : bytes).
Implicit Types (b : Buffer) (o : os).

Lemma page_for_known ok p : known_code (page_for srcDir (if ok : bool then 200 else 400) p).1.1.
Proof.
  unfold page_for, known_code, chosen_code. set (code := match fs_stat _ with Some _ => _ | None => _ end).
  assert (Hc : code = 200 \/ code = 400 \/ code = 403 \/ code = 404).
  { unfold code. destruct (fs_stat _) as [st|]; [|lia]. destruct (st_isdir st), (st_roth st), ok; cbn; lia. }
  clearbody code. by destruct (CODE_PATH !! code).
Qed.

Lemma response_page keep ok p :
  ErrorHtml_ (choose_status (response_for srcDir (if ok : bool then 200 else 400) keep p)) =
    let '(code, q, st) := page_for srcDir (if ok then 200 else 400) p in mkResponse code keep q srcDir None st.
Proof.
  set (code0 := if ok then 200 else 400). assert (H0 : code0 =? -1 = false) by (by destruct ok).
  set (found := fs_stat (c_str (srcDir ++ p))).
  assert (Hch : choose_status (response_for srcDir code0 keep p) =
    mkResponse (chosen_code found code0) keep p srcDir None (default stat_zero found)).
  { unfold choose_status, stat, chosen_code. change (full_path (response_for srcDir code0 keep p)) with (c_str (srcDir ++ p)).
    fold found. destruct found as [st|]; [|done]. cbn [negb orb set_stat mmFileStat_ response_for].
    destruct (st_isdir st); [done|]. destruct (st_roth st); cbn [negb]; [|done].
    cbn [HttpResponse.code_ response_for set_stat]. by rewrite H0. }
  rewrite Hch. unfold page_for. fold found. unfold ErrorHtml_. cbn [HttpResponse.code_].
  destruct (CODE_PATH !! _) as [q|]; [|done]. unfold stat, full_path. cbn [srcDir_ HttpResponse.path_ HttpResponse.set_path].
  by destruct (fs_stat (c_str (srcDir ++ q))).
Qed.

Lemma known_status code : known_code code -> (length (status_line code) <= 40)%nat.
Proof. intros [->|[->|[->| ->]]]; apply Nat.leb_le; vm_compute; reflexivity. Qed.

Lemma file_type_short p : (length (file_type p) <= 30)%nat.
Proof.
  assert (Hall : map_Forall (fun _ t => (length t <= 30)%nat) SUFFIX_TYPE)
    by (apply (bool_decide_unpack _); vm_compute; exact I).
  unfold file_type, GetFileType_. destruct (last_suffix _) as [x|]; [|apply Nat.leb_le; reflexivity].
  destruct (SUFFIX_TYPE !! x) as [t|] eqn:Ht; [exact (Hall x t Ht)|apply Nat.leb_le; reflexivity].
Qed.

Lemma header_lines_short keep t : (length (header_lines keep t) <= 80 + length t)%nat.
Proof. unfold header_lines. rewrite !length_app. destruct keep; cbn; lia. Qed.

Lemma head_short keep code q : known_code code -> Z.of_nat (length (sheet_head keep code q)) <= 150.
Proof.
  intros Hk. unfold sheet_head. rewrite length_app. pose proof (known_status code Hk).
  pose proof (header_lines_short keep (file_type q)). pose proof (file_type_short q). lia.
Qed.

(** No answer is longer, and no file has a size of more than eighty digits. *)
Definition page_limit (A : Z) : Prop :=
  250 <= A /\ (forall p st, fs_stat p = Some st -> Z.of_nat (length (content_length (st_size st))) <= 100) /\
  forall keep ok p sh, sheet_of srcDir keep ok p = Ok sh -> Z.of_nat (length (sh_text sh)) <= A.

Lemma page_size code0 p A :
  page_limit A -> Z.of_nat (length (content_length (st_size (page_for srcDir code0 p).2))) <= 100.
Proof.
  intros (_ & Hst & _).
  assert (Hdef : forall found, (forall st, found = Some st -> exists q, fs_stat q = Some st) ->
    Z.of_nat (length (content_length (st_size (default stat_zero found)))) <= 100).
  { intros [st|] Hf; [destruct (Hf st eq_refl) as [q Hq]; exact (Hst q st Hq)|]. apply Z.leb_le. vm_compute. reflexivity. }
  unfold page_for. destruct (CODE_PATH !! _) as [q|]; cbn [snd].
  - destruct (fs_stat (c_str (srcDir ++ q))) as [st|] eqn:Hq; cbn [default from_option id]; [by apply (Hst _ st Hq)|].
    apply Hdef. eauto.
  - apply Hdef. eauto.
Qed.

(** What [MakeResponse] and the copy of the file do to the files. *)
Definition charged (sh : sheet) (o : os) : os :=
  mkOs (fds o + Z.b2z (sh_lost sh)) (maps o + Z.b2z (sh_lost sh) + Z.b2z (sh_mapped sh)).

Definition make_sheet (r : HttpResponse) b o : result (HttpResponse * Buffer * os) :=
  '(res, b1, o1) ← MakeResponse r b o; b2 ← append_file res b1; Ok (res, b2, o1).

Lemma error_content_emits code keep q st b :
  wf b -> vsize b + Z.of_nat (length (no_file code)) <= max_size ->
  exists b1, ErrorContent (mkResponse code keep q srcDir None st) (lit "File NotFound!") b = Ok b1 /\ emits b (no_file code) b1.
Proof. intros Hwf Hroom. exact (writes_error (mkResponse code keep q srcDir None st) (lit "File NotFound!") b Hwf Hroom). Qed.

Lemma make_sheet_spec keep ok p b o A :
  wf b -> vsize b + A <= max_size -> page_limit A ->
  let r := response_for srcDir (if ok : bool then 200 else 400) keep p in
  match sheet_of srcDir keep ok p with
  | Ok sh => exists res b1, make_sheet r b o = Ok (res, b1, charged sh o) /\ emits b (sh_text sh) b1 /\
      (is_Some (mmFile_ res) <-> sh_mapped sh = true)
  | Fault f => make_sheet r b o = Fault f
  end.
Proof.
  intros Hwf Hroom HA r. pose proof HA as (Hmin & _ & Hlim). specialize (Hlim keep ok p).
  pose proof (response_page keep ok p) as Hr. fold r in Hr. pose proof (page_for_known ok p) as Hk.
  pose proof (page_size (if ok : bool then 200 else 400) p A HA) as Hsize. unfold sheet_of in *.
  destruct (page_for srcDir (if ok then 200 else 400) p) as [[code q] st]. cbn [fst snd] in Hk, Hsize.
  set (r2 := mkResponse code keep q srcDir None st) in *. set (head := sheet_head keep code q) in *.
  assert (Hhead : Z.of_nat (length head) <= 150) by by apply head_short.
  destruct (AddState_header r2 b Hwf Hk) as (b0 & He0 & Hrun); [change (head_text r2) with head; lia|].
  change (head_text r2) with head in He0. pose proof He0 as (Hwf0 & _ & Hv0).
  unfold make_sheet, MakeResponse. rewrite Hr. cbv zeta. rewrite (Hrun _ (fun r3 b2 => AddContent_ r3 b2 o)).
  unfold AddContent_. change (full_path r2) with (c_str (srcDir ++ q)). change (mmFileStat_ r2) with st.
  assert (Herr : forall l, (forall sh, Ok (mkSheet (head ++ no_file code) false l) = Ok sh -> Z.of_nat (length (sh_text sh)) <= A) ->
    exists b1, ErrorContent r2 (lit "File NotFound!") b0 = Ok b1 /\ emits b (head ++ no_file code) b1).
  { intros l Hl. specialize (Hl _ eq_refl). cbn [sh_text] in Hl. rewrite length_app in Hl.
    destruct (error_content_emits code keep q st b0 Hwf0) as (b1 & Hb1 & He1); [lia|].
    exists b1. split; [exact Hb1|by eapply emits_app]. }
  destruct (negb (fs_open (c_str (srcDir ++ q)))).
  { destruct (Herr false Hlim) as (b1 & -> & He). exists r2, b1. rewrite !bind_ok. unfold charged. cbn. rewrite !Z.add_0_r.
    destruct o. split; [done|]. split; [exact He|]. by split; [intros []|]. }
  destruct (fs_mmap (c_str (srcDir ++ q)) (st_size st)) as [m|]; [|done]. cbn [of_option] in *. rewrite !bind_ok in *.
  destruct (reads_minus_one m) as [[|]|f]; [| |done]; rewrite !bind_ok in *.
  { destruct (Herr true Hlim) as (b1 & -> & He). exists r2, b1. rewrite !bind_ok. unfold charged. cbn. rewrite !Z.add_0_r.
    split; [done|]. split; [exact He|]. by split; [intros []|]. }
  destruct (append_emits (content_length (st_size st)) b0 Hwf0) as (b1 & Hb1 & He1); [lia|].
  pose proof (emits_app _ _ _ _ _ He0 He1) as He. pose proof He as (Hwf1 & _ & Hv1). rewrite length_app in Hv1.
  assert (Hcharge : forall t, charged (mkSheet t true false) o = mkOs (fds o + 1 - 1) (maps o + 1))
    by (intros t; unfold charged; cbn; f_equal; lia).
  rewrite Hb1, !bind_ok. unfold append_file. change (File (set_file (Some m) r2)) with (Some m).
  change (FileLen (set_file (Some m) r2)) with (st_size st). cbn [fds maps]. destruct (0 <? st_size st).
  - unfold guard_ in *. destruct (st_size st <=? Z.of_nat (length m)); [|done]. rewrite !bind_ok in *.
    specialize (Hlim _ eq_refl). cbn [sh_text] in Hlim. rewrite !length_app in Hlim.
    destruct (append_emits (take (Z.to_nat (st_size st)) m) b1 Hwf1) as (b2 & Hb2 & He2); [lia|].
    rewrite Hb2, bind_ok, Hcharge. do 2 eexists. split; [done|]. split; [|done]. rewrite app_assoc. by eapply emits_app.
  - rewrite !bind_ok, Hcharge. do 2 eexists. split; [done|]. by split.
Qed.
End responses.

(** ** The context answers so *)

Section contexts.
Context {B DB : Type} `{!MySQL DB} `{!Books B} `{!BooksOk B DB} {FS : FileSystem} (srcDir : bytes).
Implicit Types (c : HttpContext) (w : world (DB := DB)) (b : B).

(** The question of a text, put to the database: the request with its path, and
    the accounts. *)
Lemma settle_routes b e rd :
  describes b e -> (forall q, rd_ask rd = Some q -> askable q) ->
  match settle (rd_ask rd) (rd_request rd) e with
  | Ok (r1, e1) => exists b1, routed b rd (path r1) b1 /\ describes b1 e1 /\ IsKeepAlive r1 = IsKeepAlive (rd_request rd)
  | Fault f => exists q, rd_ask rd = Some q /\ fails b q f
  end.
Proof.
  intros Hb Hask. destruct (rd_ask rd) as [q|] eqn:Hq; cbn [settle].
  - specialize (Hask q eq_refl). pose proof (books_answer b e q Hb Hask) as Hans.
    destruct (UserVerify _ _ _ e) as [[ok e1]|f]; [|by exists q].
    rewrite bind_ok. destruct Hans as (b1 & Hd & Hb1). exists b1. split; [|done]. by eapply routed_account.
  - exists b. split; [|done]. by apply routed_plain.
Qed.

(** What a message leaves of the mapping of the response before, and its own. *)
Definition remapped (r : HttpResponse) (l m : bool) (o : os) : os :=
  let o1 := unmapped r o in mkOs (fds o1 + Z.b2z l) (maps o1 + Z.b2z l + Z.b2z m).

Lemma process_answers c w b A :
  srcDir <> [] -> wf (readBuff_ c) -> contents (readBuff_ c) <> [] -> describes b (w_env w) ->
  proper (B := B) (contents (readBuff_ c)) -> wf (writeBuff_ c) -> vsize (writeBuff_ c) + A <= max_size -> page_limit srcDir A ->
  match process srcDir c w with
  | Ok (ok, c1, w1) => exists x rest b1 m, ok = true /\ responds srcDir b (contents (readBuff_ c)) x rest b1 /\
      describes b1 (w_env w1) /\ emits (writeBuff_ c) (said x) (writeBuff_ c1) /\
      wf (readBuff_ c1) /\ contents (readBuff_ c1) = rest /\ vsize (readBuff_ c1) = vsize (readBuff_ c) /\
      w_os w1 = remapped (response_ c) (lost x) m (w_os w) /\ (is_Some (mmFile_ (response_ c1)) <-> m = true)
  | Fault f => refuses srcDir b (contents (readBuff_ c)) f
  end.
Proof.
  intros Hsrc Hwf Hne Hb Hprop Hww Hroom Hlim. unfold process.
  rewrite (proj2 (Z.leb_gt _ _)) by (rewrite read_able_contents by done; destruct (contents (readBuff_ c)); simpl; lia || done).
  pose proof (parse_reads (readBuff_ c) (w_env w) Hwf Hne) as Hparse. unfold proper in Hprop.
  destruct (understand (contents (readBuff_ c))) as [rd|f] eqn:Hund; [|rewrite Hparse; by apply refuses_text].
  unfold parses_to in Hparse. pose proof (settle_routes b (w_env w) rd Hb) as Hsettle.
  assert (Hq : forall q, rd_ask rd = Some q -> askable q) by (intros q Hq; by rewrite Hq in Hprop).
  specialize (Hsettle Hq). destruct (settle (rd_ask rd) (rd_request rd) (w_env w)) as [[r1 e1]|f].
  2: { rewrite Hparse. destruct Hsettle as (q & Hask & Hf). by eapply refuses_question. }
  destruct Hsettle as (b1 & Hrouted & Hb1 & Hka). destruct Hparse as (rb & -> & Hwrb & Hbrb & Hcrb). rewrite bind_ok.
  rewrite Init_response, bind_ok by done. rewrite Hka. set (o1 := unmapped (response_ c) (w_os w)).
  pose proof (make_sheet_spec srcDir (keeps_alive rd) (rd_ok rd) (path r1) (writeBuff_ c) o1 A Hww Hroom Hlim) as Hmake.
  unfold make_sheet, response_for in Hmake. fold (keeps_alive rd). destruct (sheet_of srcDir _ _ _) as [sh|f] eqn:Hsh.
  - destruct Hmake as (res & wb & Hrun & He & Hmap).
    destruct (MakeResponse _ (writeBuff_ c) o1) as [[[res1 wb0] o2]|f]; [|done]. rewrite bind_ok in Hrun. rewrite bind_ok.
    destruct (append_file res1 wb0) as [wb1|f]; [|done]. rewrite bind_ok in Hrun. rewrite bind_ok. injection Hrun as -> -> ->.
    do 3 eexists. exists (sh_mapped sh). split; [done|]. split; [by eapply responds_sheet|]. cbn. split_and!; try done.
    unfold vsize. by rewrite Hbrb.
  - assert (Href : refuses srcDir b (contents (readBuff_ c)) f) by by eapply refuses_page.
    destruct (MakeResponse _ (writeBuff_ c) o1) as [[[res1 wb0] o2]|f']; [|by injection Hmake as ->].
    rewrite bind_ok in Hmake. rewrite bind_ok. destruct (append_file res1 wb0); [done|by injection Hmake as ->].
Qed.
End contexts.
