(* ===== verification/Determined.v ===== *)
(** * Determined: requests as they are printed, and one answer for each text

    The specification of Service on the texts clients mean to send: what is
    understood of a request as it is printed, and of a posted form.  A text is
    the print of at most one request, and its answer leaves nothing open but
    what the accounts decide. *)

From stdpp Require Import base list numbers strings gmap.
From Stdlib Require Import ZArith Lia Ascii.
From S2P Require Import Prelude Buffer Regex SqlConnPool HttpRequest Forms Parsing Accounts HttpResponse HttpContext Service.

Local Open Scope Z_scope.
Local Open Scope result_scope.

(** ** A request is printed in one way *)

(** The text up to a character it does not contain. *)
Lemma free_cut c s1 s2 r1 r2 : free_of c s1 -> free_of c s2 -> s1 ++ c :: r1 = s2 ++ c :: r2 -> s1 = s2 /\ r1 = r2.
Proof.
  intros H1 H2 Heq. pose proof (span_sep c s1 r1 H1) as Hs. rewrite Heq, (span_sep c s2 r2 H2) in Hs. by injection Hs.
Qed.

Lemma request_line_inj m1 p1 v1 r1 m2 p2 v2 r2 :
  word m1 -> word p1 -> word v1 -> word m2 -> word p2 -> word v2 ->
  m1 ++ lit " " ++ p1 ++ lit " HTTP/" ++ v1 ++ CRLF ++ r1 = m2 ++ lit " " ++ p2 ++ lit " HTTP/" ++ v2 ++ CRLF ++ r2 ->
  (m1, p1, v1, r1) = (m2, p2, v2, r2).
Proof.
  intros [M1 _] [P1 _] [_ V1] [M2 _] [P2 _] [_ V2] Heq.
  destruct (free_cut _ _ _ _ _ M1 M2 Heq) as [-> Heq1].
  destruct (free_cut _ _ _ _ _ P1 P2 Heq1) as [-> Heq2].
  assert (Heq3 : v1 ++ CR :: LF :: r1 = v2 ++ CR :: LF :: r2) by (by injection Heq2).
  destruct (free_cut _ _ _ _ _ V1 V2 Heq3) as [-> Heq4]. by injection Heq4 as ->.
Qed.

Lemma print_header_split h rest : print_header h ++ rest = (h.1 ++ lit ": " ++ h.2) ++ CR :: LF :: rest.
Proof. unfold print_header. by rewrite <-!app_assoc. Qed.

Lemma header_not_blank h rest body : header_ok h -> print_header h ++ rest <> CRLF ++ body.
Proof.
  intros (_ & Hk & _) Heq. destruct h as [[|x k] v]; cbn in *; [done|]. injection Heq as -> _.
  by apply Forall_cons in Hk as [?%not_char_true _].
Qed.

Lemma headers_inj hs1 : forall hs2 b1 b2,
  Forall header_ok hs1 -> Forall header_ok hs2 ->
  concat (print_header <$> hs1) ++ CRLF ++ b1 = concat (print_header <$> hs2) ++ CRLF ++ b2 -> (hs1, b1) = (hs2, b2).
Proof.
  induction hs1 as [|h1 hs1 IH]; intros [|h2 hs2] b1 b2 H1 H2 Heq; rewrite ?fmap_cons in Heq; cbn [concat] in Heq;
    rewrite <-?app_assoc in Heq; cbn [fmap list_fmap concat] in Heq; rewrite ?app_nil_l in Heq.
  - by injection Heq as ->.
  - apply Forall_cons in H2 as [H2 _]. by apply eq_sym, header_not_blank in Heq.
  - apply Forall_cons in H1 as [H1 _]. by apply header_not_blank in Heq.
  - apply Forall_cons in H1 as [H1 Hs1]. apply Forall_cons in H2 as [H2 Hs2]. rewrite !print_header_split in Heq.
    destruct (free_cut _ _ _ _ _ (header_line_free h1 H1) (header_line_free h2 H2) Heq) as [Hl Hr].
    injection Hr as Hr. pose proof (IH hs2 b1 b2 Hs1 Hs2 Hr) as [= -> ->].
    destruct H1 as (K1 & _), H2 as (K2 & _), h1 as [k1 v1], h2 as [k2 v2]. cbn [fst snd] in *.
    destruct (free_cut _ _ _ _ _ K1 K2 Hl) as [-> Hv]. by injection Hv as ->.
Qed.

Lemma print_request_inj m1 p1 v1 hs1 b1 m2 p2 v2 hs2 b2 :
  word m1 -> word p1 -> word v1 -> Forall header_ok hs1 -> word m2 -> word p2 -> word v2 -> Forall header_ok hs2 ->
  print_request m1 p1 v1 hs1 b1 = print_request m2 p2 v2 hs2 b2 -> (m1, p1, v1, hs1, b1) = (m2, p2, v2, hs2, b2).
Proof.
  intros M1 P1 V1 H1 M2 P2 V2 H2 Heq.
  pose proof (request_line_inj _ _ _ _ _ _ _ _ M1 P1 V1 M2 P2 V2 Heq) as [= -> -> -> Hr].
  by pose proof (headers_inj _ _ _ _ H1 H2 Hr) as [= -> ->].
Qed.

(** A line without CR LF is found again. *)
Lemma line_inj l1 l2 r1 r2 : no_crlf l1 -> no_crlf l2 -> l1 ++ CRLF ++ r1 = l2 ++ CRLF ++ r2 -> l1 = l2 /\ r1 = r2.
Proof.
  intros H1 H2 Heq. pose proof (search_crlf_line l1 r1 H1) as S1. pose proof (search_crlf_line l2 r2 H2) as S2.
  change (l1 ++ CR :: LF :: r1 = l2 ++ CR :: LF :: r2) in Heq. rewrite Heq, S2 in S1.
  destruct (app_inj_1 l1 l2 _ _ (eq_sym S1) Heq) as [-> Hr]. by injection Hr as ->.
Qed.

(** ** What is understood of a printed request *)

(** What the parser keeps of a body. *)
Definition kept (body : bytes) : bytes :=
  if decide (no_crlf body) then body else drop (search_crlf body + 2) body.

Lemma read_line fuel l rest r r1 q q1 :
  (length (l ++ CR :: LF :: rest) <= fuel)%nat -> no_crlf l -> state_ r <> FINISH ->
  line_reading l (length (l ++ CR :: LF :: rest)) r = Ok (Some r1, q1) ->
  exists fuel1, (length rest <= fuel1)%nat /\ read_text fuel (l ++ CR :: LF :: rest) r q = read_text fuel1 rest r1 q1.
Proof.
  intros Hfuel Hl Hst Hline. destruct fuel as [|fuel]; [rewrite length_app in Hfuel; simpl in Hfuel; lia|].
  exists fuel. split; [rewrite length_app in Hfuel; simpl in Hfuel; lia|]. cbn [read_text].
  rewrite !bool_decide_false by (done || by destruct l). cbn [orb]. rewrite search_crlf_line, take_app_length by done.
  rewrite Hline, bind_ok. rewrite (proj2 (Nat.eqb_neq _ _)) by (rewrite length_app; simpl; lia).
  rewrite drop_app_ge by lia. by replace (length l + 2 - length l)%nat with 2%nat by lia.
Qed.

Lemma read_headers hs : forall fuel r body,
  (length (concat (print_header <$> hs) ++ CRLF ++ body) <= fuel)%nat -> Forall header_ok hs -> state_ r = HEADERS ->
  exists fuel1, (length body <= fuel1)%nat /\ read_text fuel (concat (print_header <$> hs) ++ CRLF ++ body) r None =
    read_text fuel1 body (set_state (if decide (body = []) then FINISH else BODY)
      (set_header (set_headers hs (header_ r)) r)) None.
Proof.
  induction hs as [|h hs IH]; intros fuel r body Hfuel Hhs Hst.
  - cbn [fmap list_fmap concat app] in *. apply (read_line fuel [] body r); [done|done|by rewrite Hst|].
    unfold line_reading. rewrite Hst, ParseHeader_blank. cbn [app length]. cbn [set_headers foldl].
    destruct body as [|x body]; [rewrite decide_True by done|rewrite decide_False by done]; cbn [Nat.leb length]; by destruct r.
  - apply Forall_cons in Hhs as [Hh Hhs]. rewrite fmap_cons in *. cbn [concat] in *. rewrite <-!app_assoc in *.
    rewrite print_header_split in *.
    destruct (read_line fuel (h.1 ++ lit ": " ++ h.2) (concat (print_header <$> hs) ++ CRLF ++ body) r
      (set_header (<[h.1 := h.2]> (header_ r)) r) None None) as (fuel1 & Hf1 & ->); [done| |by rewrite Hst| |].
    + by apply no_crlf_free, header_line_free.
    + unfold line_reading. rewrite Hst, ParseHeader_printed by done.
      rewrite (proj2 (Nat.leb_gt _ _)); [done|]. rewrite !length_app. cbn [length]. rewrite !length_app. cbn. lia.
    + destruct (IH fuel1 (set_header (<[h.1 := h.2]> (header_ r)) r) body Hf1 Hhs Hst) as (fuel2 & Hf2 & ->).
      exists fuel2. split; [done|]. done.
Qed.

(** A request as it is printed: its headers are all read, and of its body the
    first line. *)
Lemma understand_printed m p v hs body :
  word m -> word p -> word v -> Forall header_ok hs ->
  understand (print_request m p v hs body) =
    if decide (body = []) then Ok (mkReading true (request_of FINISH m p v hs) None [])
    else '(r1, q) ← body_reading (take (search_crlf body) body) (request_of BODY m p v hs);
         Ok (mkReading true r1 q (kept body)).
Proof.
  intros Hm Hp Hv Hhs. unfold understand.
  assert (Hsplit : print_request m p v hs body =
    (m ++ lit " " ++ p ++ lit " HTTP/" ++ v) ++ CR :: LF :: concat (print_header <$> hs) ++ CRLF ++ body)
    by (unfold print_request; by rewrite <-!app_assoc).
  rewrite Hsplit.
  destruct (read_line (length ((m ++ lit " " ++ p ++ lit " HTTP/" ++ v) ++ CR :: LF :: concat (print_header <$> hs) ++ CRLF ++ body))
    (m ++ lit " " ++ p ++ lit " HTTP/" ++ v) (concat (print_header <$> hs) ++ CRLF ++ body) HttpRequest.Init
    (ParsePath_ (mkRequest HEADERS m p v [] ∅ ∅)) None None) as (fuel1 & Hf1 & ->); [done| |done| |].
  { by apply no_crlf_free, request_line_free. }
  { unfold line_reading. cbn [state_ HttpRequest.Init]. rewrite ParseRequestLine_split.
    rewrite (proj2 (split_request_line_spec _ [m; p; v])); [done|]. exists m, p, v. by destruct Hm, Hp, Hv. }
  destruct (ParsePath_fields (mkRequest HEADERS m p v [] ∅ ∅)) as (Hh & Hst & _). cbn [header_ state_] in Hh, Hst.
  destruct (read_headers hs fuel1 (ParsePath_ (mkRequest HEADERS m p v [] ∅ ∅)) body Hf1 Hhs Hst) as (fuel2 & Hf2 & ->).
  rewrite Hh. fold (request_of (if decide (body = []) then FINISH else BODY) m p v hs).
  destruct (decide (body = [])) as [->|Hne]; [by destruct fuel2|].
  destruct fuel2 as [|fuel2]; [destruct body; [done|simpl in Hf2; lia]|]. cbn [read_text]. rewrite !bool_decide_false by done. cbn [orb].
  change (line_reading ?l ?n (request_of BODY m p v hs)) with
    ('(r1, q) ← body_reading l (request_of BODY m p v hs); Ok (Some r1, q)).
  destruct (body_reading _ _) as [[r1 q]|f] eqn:Hb; rewrite ?bind_ok; [|done].
  apply body_reading_finishes in Hb as Hfin. unfold kept, no_crlf.
  destruct (Nat.eqb_spec (search_crlf body) (length body)) as [Heq|Hneq]; [by rewrite decide_True|].
  rewrite decide_False by done. by destruct fuel2; cbn [read_text]; rewrite (bool_decide_true (state_ r1 = FINISH)), orb_true_r by done.
Qed.

(** ** Forms *)

(** The fields of a form. *)
Inductive decoded : bytes -> gmap bytes bytes -> Prop :=
  | decoded_nothing : decoded [] ∅
  | decoded_form kvs last :
      Forall plain_pair kvs -> plain_pair last -> Z.of_nat (length (form_text plus kvs last)) < 2 ^ 31 ->
      decoded (form_text plus kvs last) (set_last last (set_fields kvs ∅)).

Definition field (k : string) (fields : gmap bytes bytes) : bytes := default [] (fields !! lit k).

Lemma decoded_form_parsed body fields r :
  decoded body fields -> body_ r = body -> post_ r = ∅ ->
  exists b', ParseFromUrlencoded_ r = Ok (set_post fields (set_body b' r)).
Proof.
  intros Hd Hb Hp. destruct Hd as [|kvs last Hk Hl Hlen].
  - exists []. unfold ParseFromUrlencoded_. rewrite bool_decide_true by done. destruct r; cbn in *; by subst.
  - exists (form_text id kvs last). rewrite (form_decoded kvs last r Hk Hl Hb) by by rewrite Hb. by rewrite Hp.
Qed.

(** What a subscript reads, and that it does not touch other fields. *)
Lemma subscript_reads key m : (subscript key m).1 = default [] (m !! key) /\
  forall k, default [] ((subscript key m).2 !! k) = default [] (m !! k) /\ (k <> key -> (subscript key m).2 !! k = m !! k).
Proof.
  unfold subscript. destruct (m !! key) as [v|] eqn:Hm; [done|]. split; [done|]. intros k. cbn [snd].
  destruct (decide (k = key)) as [->|Hne]; [by rewrite lookup_insert_eq, Hm|]. by rewrite lookup_insert_ne.
Qed.

Lemma IsKeepAlive_ext r r' :
  default [] (header_ r' !! lit "Connection") = default [] (header_ r !! lit "Connection") -> version_ r' = version_ r ->
  IsKeepAlive r' = IsKeepAlive r.
Proof.
  unfold IsKeepAlive. intros Hc ->.
  destruct (header_ r' !! lit "Connection"), (header_ r !! lit "Connection"); cbn in Hc; by subst.
Qed.

Lemma account_tag p tag : DEFAULT_HTML_TAG !! p = Some tag -> tag = 0 \/ tag = 1.
Proof.
  unfold DEFAULT_HTML_TAG. intros [[_ <-]|[_ [_ <-]%lookup_singleton_Some]]%lookup_insert_Some; auto.
Qed.

Lemma post_request_of st m p v hs : post_ (request_of st m p v hs) = ∅.
Proof. unfold request_of, ParsePath_. cbn. by repeat case_bool_decide. Qed.

(** A form on one of the two pages asks for an account. *)
Lemma form_asks r body fields tag :
  is_form r -> decoded body fields -> post_ r = ∅ -> DEFAULT_HTML_TAG !! path r = Some tag ->
  exists r1, body_reading body r = Ok (r1, Some (mkQuestion (tag =? 1) (field "username" fields) (field "password" fields))) /\
    IsKeepAlive r1 = IsKeepAlive r.
Proof.
  intros Hf Hd Hpost Htag. pose proof Hf as [Hm _]. unfold body_reading. rewrite !bool_decide_true by done. cbv zeta.
  set (h := (subscript (lit "Content-Type") (header_ r)).2).
  destruct (decoded_form_parsed body fields (set_header h (set_body body r)) Hd eq_refl Hpost) as [b' ->]. rewrite bind_ok.
  unfold form_question. change (HttpRequest.path_ (set_post fields _)) with (path r). rewrite Htag.
  pose proof (account_tag _ _ Htag) as Ht01.
  replace ((tag =? 0) || (tag =? 1)) with true by (destruct Ht01; by subst).
  cbn [post_ set_post]. destruct (subscript_reads (lit "username") fields) as [Hu Hfs].
  destruct (subscript (lit "username") fields) as [u m1]. cbn [fst snd] in *.
  destruct (subscript_reads (lit "password") m1) as [Hp _].
  destruct (subscript (lit "password") m1) as [w m2]. cbn [fst snd] in *. rewrite (proj1 (Hfs _)) in Hp. subst u w.
  eexists. split; [reflexivity|]. apply IsKeepAlive_ext; [|done].
  cbn [header_ set_state set_post set_body set_header]. apply (subscript_reads (lit "Content-Type") (header_ r)).
Qed.

(** Any other body asks for nothing and leads where the path did. *)
Lemma plain_body line r :
  ~ is_form r -> exists r1, body_reading line r = Ok (r1, None) /\ path r1 = path r /\ IsKeepAlive r1 = IsKeepAlive r.
Proof.
  intros Hf. unfold body_reading. rewrite (bool_decide_false (is_form r)) by done. eexists. split; [reflexivity|].
  case_bool_decide; [|done]. split; [done|]. apply IsKeepAlive_ext; [|done]. cbn [header_ set_state set_header set_body].
  apply (subscript_reads (lit "Content-Type") (header_ r)).
Qed.

(** ** One answer *)

Section determined.
Context {B : Type} `{!Books B} {FS : FileSystem} (srcDir : bytes).
Implicit Types b : B.

(** Where the accounts have one answer to each question, a text has one, and
    leaves the same behind. *)
Lemma responds_fun b whole x1 r1 b1 x2 r2 b2 :
  (forall q ok1 c1 ok2 c2, decides b q ok1 c1 -> decides b q ok2 c2 -> ok1 = ok2) ->
  responds srcDir b whole x1 r1 b1 -> responds srcDir b whole x2 r2 b2 -> x1 = x2 /\ r1 = r2.
Proof.
  intros Hone [rd1 p1 c1 sh1 Hu1 Hr1 Hs1] [rd2 p2 c2 sh2 Hu2 Hr2 Hs2].
  assert (rd1 = rd2) as -> by congruence.
  assert (p1 = p2) as -> by (destruct Hr1 as [|q1 ok1 ? Hq1 Hd1], Hr2 as [|q2 ok2 ? Hq2 Hd2]; [done|congruence|congruence|];
    simplify_eq; by rewrite (Hone _ _ _ _ _ Hd1 Hd2)).
  by assert (sh1 = sh2) as -> by congruence.
Qed.
End determined.

(** The pool and the database answer in one way, so a text is answered or it is
    refused. *)
Section own.
Context {DB : Type} `{!MySQL DB} {FS : FileSystem} (srcDir : bytes).
Implicit Types e : env DB.

Lemma routed_own e rd p1 e1 p2 e2 : routed e rd p1 e1 -> routed e rd p2 e2 -> p1 = p2 /\ e1 = e2.
Proof.
  intros [Hn|q ok e1' Hq Hd] [Hn'|q' ok' e2' Hq' Hd']; [done|congruence|congruence|].
  cbn [decides own_books] in *. assert (q = q') as -> by congruence. split; [f_equal|]; congruence.
Qed.

Lemma responds_or_refuses e whole x r e1 f : responds srcDir e whole x r e1 -> refuses srcDir e whole f -> False.
Proof.
  intros [rd p e1' sh Hu Hr Hs] Href. destruct Href as [f Hu'|rd' q f Hu' Hq Hf|rd' p' e2 f Hu' Hr' Hs'].
  - congruence.
  - assert (rd' = rd) as -> by congruence. destruct Hr as [Hn|q' ok e2 Hq' Hd]; [congruence|].
    cbn [decides fails own_books] in *. assert (q' = q) as -> by congruence. congruence.
  - assert (rd' = rd) as -> by congruence. destruct (routed_own _ _ _ _ _ _ Hr Hr') as [-> _]. congruence.
Qed.
End own.
