(* ===== verification/Refinement.v ===== *)
(** * Refinement: the loop implements the service (src/httpserver.cc, server, http, event)

    The service serves clients one event at a time: a client is live with what
    the parser kept of it and the seconds it has left, or idle, or gone; the
    accounts are any [Books].  The loop of Reactor, with its shared poller, its
    buffers and its wheel, is shown to do nothing else, whatever the events and
    whatever the clients send, and to fail exactly at the events the service
    breaks at. *)

From stdpp Require Import base list numbers strings gmap sets.
From Stdlib Require Import ZArith Lia Ascii.
From S2P Require Import Prelude Buffer Regex SqlConnPool HttpRequest Forms Parsing Accounts HttpResponse HttpContext Channel TcpConnection ConnectionProofs HttpServer Serving SharedPoller Reactor Service.

Local Open Scope Z_scope.
Local Open Scope result_scope.

(** ** The service *)

Inductive guest : Type :=
  | Live (held : bytes) (seconds : nat)
  | Idle
  | Gone
  | Removed.

Record service (B : Type) : Type := mkService { accounts : B; clients : gmap nat guest }.
Arguments mkService {B}. Arguments accounts {B}. Arguments clients {B}.

Definition set_client {B} (i : nat) (g : guest) (a : service B) : service B :=
  mkService (accounts a) (<[i := g]> (clients a)).

(** A second passes. *)
Definition turn (g : guest) : guest :=
  match g with
  | Live held k => if (k <=? 1)%nat then Idle else Live held (k - 1)
  | _ => g
  end.

(** The socket says that the peer is gone. *)
Definition peer_gone (sent : io nat) : Prop := match sent with IoErr e => fault_error e = true | IoOk _ => False end.

(** An answer to a client that is gone may be dropped. *)
Definition delivered (sent : io nat) (text out : bytes) : Prop := out = text \/ peer_gone sent /\ out = [].

(** A client that has not closed its connection. *)
Definition is_open (g : guest) : Prop := match g with Live _ _ | Idle => True | _ => False end.

(** [send] takes at most what it is offered. *)
Definition sent_sound (sent : io nat) (len : nat) : Prop :=
  match sent with IoOk n => (n <= len)%nat | IoErr _ => True end.

Section spec.
Context {B : Type} `{!Books B} {FS : FileSystem} (srcDir : bytes).
Implicit Types a : service B.

(** One event: what comes of it for its client, and the service after. *)
Inductive serves a : loop_event -> output -> service B -> Prop :=
  | serves_accept i fd : clients a !! i = None -> serves a (Accept i fd) nothing (set_client i (Live [] wheel_size) a)
  | serves_message i data sent held k x held' b out :
      clients a !! i = Some (Live held k) -> data <> [] ->
      responds srcDir (accounts a) (held ++ data) x held' b -> delivered sent (said x) out ->
      serves a (Read i (IoOk data) sent) (mkOutput out (asked x) (lost x))
        (mkService b (<[i := Live held' wheel_size]> (clients a)))
  | serves_ignored i data sent :
      clients a !! i = Some Idle -> data <> [] -> serves a (Read i (IoOk data) sent) nothing a
  | serves_end i g sent :
      clients a !! i = Some g -> is_open g -> serves a (Read i (IoOk []) sent) nothing (set_client i Gone a)
  | serves_hangup i g : clients a !! i = Some g -> is_open g -> serves a (Hangup i) nothing (set_client i Gone a)
  | serves_remove i : clients a !! i = Some Gone -> serves a (Remove i) nothing (set_client i Removed a)
  | serves_release i :
      clients a !! i = Some Removed -> serves a (Release i) nothing (mkService (accounts a) (delete i (clients a)))
  | serves_second : serves a Second nothing (mkService (accounts a) (turn <$> clients a))
  | serves_read_error i e sent : is_Some (clients a !! i) -> serves a (Read i (IoErr e) sent) nothing a
  | serves_write i written : is_Some (clients a !! i) -> serves a (Write i written) nothing a
  | serves_functor i : is_Some (clients a !! i) -> serves a (Functor i) nothing a.

(** The events that bring the server down: a message that has no answer, and the
    end of a connection that has been closed already. *)
Inductive breaks a : loop_event -> fault -> Prop :=
  | breaks_message i data sent held k f :
      clients a !! i = Some (Live held k) -> data <> [] -> refuses srcDir (accounts a) (held ++ data) f ->
      breaks a (Read i (IoOk data) sent) f
  | breaks_closed i g sent :
      clients a !! i = Some g -> ~ is_open g -> breaks a (Read i (IoOk []) sent) AssertFailed.

(** What the environment may do next.  Clients send whatever they like, as long
    as the accounts may be asked what they ask; [send] takes at most the text; a
    closed connection has nothing to read; [destroy_connect] runs once, after
    the close, and the object goes after it. *)
Definition possible a e : Prop :=
  match e with
  | Accept i _ => clients a !! i = None
  | Read i (IoOk []) _ => is_Some (clients a !! i)
  | Read i (IoOk data) sent =>
      match clients a !! i with
      | Some (Live held _) =>
          proper (B := B) (held ++ data) /\
          forall x held' b, responds srcDir (accounts a) (held ++ data) x held' b -> sent_sound sent (length (said x))
      | Some Idle => True
      | _ => False
      end
  | Hangup i => exists g, clients a !! i = Some g /\ is_open g
  | Remove i => clients a !! i = Some Gone
  | Release i => clients a !! i = Some Removed
  | Second => True
  | Read i (IoErr _) _ | Write i _ | Functor i => is_Some (clients a !! i)
  end.

(** A run, with what comes of each event. *)
Inductive serves_all : service B -> list loop_event -> list output -> service B -> Prop :=
  | serves_nil a : serves_all a [] [] a
  | serves_cons a e es x xs a1 a2 :
      serves a e x a1 -> serves_all a1 es xs a2 -> serves_all a (e :: es) (x :: xs) a2.

(** A run that breaks at one of its events, after those before it were served. *)
Inductive breaks_in : service B -> list loop_event -> list output -> fault -> Prop :=
  | breaks_now a e es f : breaks a e f -> breaks_in a (e :: es) [] f
  | breaks_later a e es x xs a1 f : serves a e x a1 -> breaks_in a1 es xs f -> breaks_in a (e :: es) (x :: xs) f.

(** All events of a run are possible, whatever the service chose before. *)
Fixpoint may_happen (es : list loop_event) a : Prop :=
  match es with
  | [] => True
  | e :: es => possible a e /\ forall x a', serves a e x a' -> may_happen es a'
  end.

Lemma serves_app a es1 x1 a1 es2 x2 a2 :
  serves_all a es1 x1 a1 -> serves_all a1 es2 x2 a2 -> serves_all a (es1 ++ es2) (x1 ++ x2) a2.
Proof. induction 1 as [|a e es x xs a1 a' Hs Hall IH]; intros H2; [done|]. cbn [app]. econstructor; [done|by apply IH]. Qed.

Lemma serves_breaks a es1 x1 a1 es2 x2 f :
  serves_all a es1 x1 a1 -> breaks_in a1 es2 x2 f -> breaks_in a (es1 ++ es2) (x1 ++ x2) f.
Proof. induction 1 as [|a e es x xs a1 a' Hs Hall IH]; intros H2; [done|]. cbn [app]. econstructor; [done|by apply IH]. Qed.

Lemma breaks_more a es xs f es' : breaks_in a es xs f -> breaks_in a (es ++ es') xs f.
Proof. induction 1; cbn [app]; [by apply breaks_now|by eapply breaks_later]. Qed.

Lemma serves_length a es xs a' : serves_all a es xs a' -> length es = length xs.
Proof. induction 1 as [|a e es x xs a1 a' Hs Hall IH]; [done|]. cbn [length]. by rewrite IH. Qed.
End spec.

(** *** What may follow *)

Section may.
Context {B : Type} `{!Books B} {FS : FileSystem} (srcDir : bytes).
Implicit Types (a : service B) (es : list loop_event).

Lemma may_accept i fd es a :
  clients a !! i = None -> may_happen srcDir es (set_client i (Live [] wheel_size) a) ->
  may_happen srcDir (Accept i fd :: es) a.
Proof. intros Hc Hes. split; [done|]. intros x a' Hs. by inversion Hs; subst. Qed.

Lemma may_message i data sent held k es a :
  clients a !! i = Some (Live held k) -> data <> [] -> possible srcDir a (Read i (IoOk data) sent) ->
  (forall held' b, may_happen srcDir es (mkService b (<[i := Live held' wheel_size]> (clients a)))) ->
  may_happen srcDir (Read i (IoOk data) sent :: es) a.
Proof.
  intros Hc Hd Hp Hes. split; [exact Hp|]. intros x a' Hs. inversion Hs; subst; [apply Hes|congruence|done].
Qed.

Lemma may_ignored i data sent es a :
  clients a !! i = Some Idle -> data <> [] -> may_happen srcDir es a -> may_happen srcDir (Read i (IoOk data) sent :: es) a.
Proof.
  intros Hc Hd Hes. split; [cbn [possible]; destruct data; [done|by rewrite Hc]|].
  intros x a' Hs. inversion Hs; subst; [congruence|done|done].
Qed.

Lemma may_close i g es a e sent :
  clients a !! i = Some g -> is_open g -> e = Hangup i \/ e = Read i (IoOk []) sent ->
  may_happen srcDir es (set_client i Gone a) -> may_happen srcDir (e :: es) a.
Proof.
  intros Hc Ho [->| ->] Hes; (split; [by eexists|]); intros x a' Hs; by inversion Hs; subst.
Qed.

(** Nothing follows the end of a connection that was closed. *)
Lemma may_closed i g es a sent :
  clients a !! i = Some g -> ~ is_open g -> may_happen srcDir (Read i (IoOk []) sent :: es) a.
Proof. intros Hc Ho. split; [by eexists|]. intros x a' Hs. inversion Hs; subst; [done|done|congruence]. Qed.

Lemma may_remove i es a :
  clients a !! i = Some Gone -> may_happen srcDir es (set_client i Removed a) -> may_happen srcDir (Remove i :: es) a.
Proof. intros Hc Hes. split; [done|]. intros x a' Hs. by inversion Hs; subst. Qed.

Lemma may_release i es a :
  clients a !! i = Some Removed -> may_happen srcDir es (mkService (accounts a) (delete i (clients a))) ->
  may_happen srcDir (Release i :: es) a.
Proof. intros Hc Hes. split; [done|]. intros x a' Hs. by inversion Hs; subst. Qed.

Lemma may_second es a :
  may_happen srcDir es (mkService (accounts a) (turn <$> clients a)) -> may_happen srcDir (Second :: es) a.
Proof. intros Hes. split; [done|]. intros x a' Hs. by inversion Hs; subst. Qed.

(** Writing, functors and failed reads. *)
Lemma may_quiet i e es a :
  is_Some (clients a !! i) ->
  (exists w, e = Write i w) \/ e = Functor i \/ (exists er sent, e = Read i (IoErr er) sent) ->
  may_happen srcDir es a -> may_happen srcDir (e :: es) a.
Proof.
  intros Hc [[w ->]|[->|(er & sent & ->)]] Hes; (split; [done|]); intros x a' Hs; by inversion Hs; subst.
Qed.
End may.

(** ** Sending *)

(** The direct attempt finds the peer gone: the message is given up, or goes
    behind what waits. *)
Lemma send_in_loop_gone data e c ch :
  fault_error e = true -> status_ c = CONNECTED -> get_channel c = Ok ch ->
  send_in_loop_ data (IoErr e) c = Ok c \/ send_in_loop_ data (IoErr e) c = send_in_loop_ data (IoErr EWOULDBLOCK) c.
Proof.
  intros He Hup Hch. unfold send_in_loop_. rewrite bool_decide_false by congruence. rewrite Hch, !bind_ok. cbv zeta.
  destruct (negb (is_writing ch) && _); [left|by right]. cbn [try_send].
  rewrite assert_true by (apply Z.leb_le; lia). cbv beta. by rewrite He.
Qed.

Lemma send_buffer_any buff sent c n :
  wf buff -> ready c n -> Z.of_nat (length (contents buff)) <= n -> sent_sound sent (length (contents buff)) ->
  exists c' out, send_buffer true buff sent c = Ok (retrieve_all buff, c') /\ delivered sent (contents buff) out /\
    stream c' = stream c ++ out /\ input_buffer_ c' = input_buffer_ c /\ ready c' (n - Z.of_nat (length (contents buff))).
Proof.
  intros Hwf Hready Hn Hsent.
  assert (Hthere : forall sent', peer_there sent' (length (contents buff)) ->
    exists c', send_buffer true buff sent' c = Ok (retrieve_all buff, c') /\ stream c' = stream c ++ contents buff /\
      input_buffer_ c' = input_buffer_ c /\ ready c' (n - Z.of_nat (length (contents buff)))).
  { intros sent' Hp. destruct (send_buffer_ok buff sent' c n Hwf Hready Hn Hp) as (c' & ? & ? & ? & ? & _). by exists c'. }
  assert (Hok : peer_there sent (length (contents buff)) \/ peer_gone sent).
  { destruct sent as [e|k]; [cbn; destruct (fault_error e); auto|by left]. }
  destruct Hok as [Hok|Hgone].
  - destruct (Hthere sent Hok) as (c' & ? & ? & ? & ?). exists c', (contents buff). split_and!; try done. by left.
  - pose proof Hready as [Hup (ch & Hch & _) _ _ _ _]. destruct sent as [e|]; [|done].
    assert (Heq : forall s', send_buffer true buff s' c = (c1 ← send_in_loop_ (contents buff) s' c; Ok (retrieve_all buff, c1))).
    { intros s'. unfold send_buffer, send, run_in_loop. by rewrite !bool_decide_true. }
    destruct (send_in_loop_gone (contents buff) e c ch Hgone Hup Hch) as [Hs|Hs].
    + exists c, []. rewrite Heq, Hs, bind_ok, app_nil_r. split_and!; try done; [by right|].
      destruct Hready; split; try done. lia.
    + destruct (Hthere (IoErr EWOULDBLOCK) eq_refl) as (c' & Hc' & ? & ? & ?). rewrite Heq, Hs, <-Heq.
      exists c', (contents buff). split_and!; try done. by left.
Qed.

(** ** A message *)

(** The buffer holds [s] and can take [n] more bytes. *)
Definition holds (b : Buffer) (s : bytes) (n : Z) : Prop := wf b /\ contents b = s /\ vsize b + n <= max_size.

Lemma holds_less b s n m : holds b s n -> m <= n -> holds b s m.
Proof. intros (? & ? & ?) ?. split_and!; try done. lia. Qed.

Section messages.
Context {B DB : Type} `{!MySQL DB} `{!Books B} `{!BooksOk B DB} {FS : FileSystem} (srcDir : bytes).
Implicit Types (g : http_conn) (wd : world (DB := DB)) (b : B).

(** A client that is connected and can be served [n] more bytes. *)
Record live (held : bytes) (n : Z) g : Prop := {
  lv_ready : ready (hc_conn g) n;
  lv_input : holds (input_buffer_ (hc_conn g)) [] n;
  lv_read : holds (readBuff_ (hc_context g)) held n;
  lv_write : holds (writeBuff_ (hc_context g)) [] n
}.

Definition is_mapped g : Prop := is_Some (mmFile_ (response_ (hc_context g))).

Lemma responds_limit A b whole x rest b1 :
  page_limit srcDir A -> responds srcDir b whole x rest b1 -> Z.of_nat (length (said x)) <= A.
Proof. intros (_ & _ & Hlim) [rd p b2 sh _ _ Hsh]. exact (Hlim _ _ _ _ Hsh). Qed.

(** A message of a client that is alive: answered as the service says, or the
    end of the server. *)
Lemma message_answers g w wd data held b A n sent :
  alive (hc_entry g) w = true -> srcDir <> [] -> data <> [] ->
  ready (hc_conn g) n -> wf (input_buffer_ (hc_conn g)) -> contents (input_buffer_ (hc_conn g)) = data ->
  holds (readBuff_ (hc_context g)) held n -> holds (writeBuff_ (hc_context g)) [] n ->
  describes b (w_env wd) -> proper (B := B) (held ++ data) -> page_limit srcDir A ->
  Z.of_nat (length data) + A <= n ->
  (forall x rest b1, responds srcDir b (held ++ data) x rest b1 -> sent_sound sent (length (said x))) ->
  let n1 := n - (Z.of_nat (length data) + A) in
  match message_cb srcDir sent g w wd with
  | Ok (g1, w1, wd1) => w1 = touch (hc_entry g) w /\ exists x rest b1 m out,
      responds srcDir b (held ++ data) x rest b1 /\ describes b1 (w_env wd1) /\ delivered sent (said x) out /\
      stream (hc_conn g1) = stream (hc_conn g) ++ out /\ hc_entry g1 = hc_entry g /\ ready (hc_conn g1) n1 /\
      emptied (input_buffer_ (hc_conn g)) 0 (input_buffer_ (hc_conn g1)) /\
      holds (readBuff_ (hc_context g1)) rest n1 /\ holds (writeBuff_ (hc_context g1)) [] n1 /\
      w_os wd1 = remapped (response_ (hc_context g)) (lost x) m (w_os wd) /\ (is_mapped g1 <-> m = true)
  | Fault f => refuses srcDir b (held ++ data) f
  end.
Proof.
  intros Ha Hsrc Hne Hready Hwi Hci (Hwr & Hcr & Hvr) (Hww & Hcw & Hvw) Hb Hprop Hlim Hn Hsent n1.
  pose proof Hlim as (HA & _). unfold message_cb. rewrite Ha. unfold HttpContext.read.
  destruct (retrieve_all_string_spec _ Hwi) as (input1 & -> & Hwi1 & Hci1 & Hbi1). rewrite bind_ok, Hci.
  destruct (append_emits data (readBuff_ (hc_context g)) Hwr) as (rb & -> & (Hwrb & Hcrb & Hvrb)); [lia|].
  rewrite bind_ok. rewrite Hcr in Hcrb.
  set (ctx0 := mkContext rb (writeBuff_ (hc_context g)) (request_ (hc_context g)) (response_ (hc_context g))).
  pose proof (process_answers srcDir ctx0 wd b A Hsrc) as Hproc.
  change (readBuff_ ctx0) with rb in Hproc. change (writeBuff_ ctx0) with (writeBuff_ (hc_context g)) in Hproc.
  rewrite Hcrb in Hproc. specialize (Hproc Hwrb ltac:(by destruct held, data) Hb Hprop Hww ltac:(lia) Hlim).
  destruct (process srcDir ctx0 wd) as [[[ok ctx1] wd1]|f]; [|exact Hproc].
  destruct Hproc as (x & rest & b1 & m & -> & Hresp & Hb1 & (Hww1 & Hcw1 & Hvw1) & Hwr1 & Hcr1 & Hvr1 & Hos & Hmap).
  rewrite Hcw in Hcw1. cbn [app] in Hcw1. rewrite bind_ok. cbv beta iota. rewrite bind_ok. unfold HttpContext.write.
  pose proof (responds_limit A b _ x rest b1 Hlim Hresp) as Hx.
  destruct (send_buffer_any (writeBuff_ ctx1) sent (set_input input1 (hc_conn g)) n)
    as (conn & out & -> & Hout & Hstream & Hinput & Hready1);
    [done|by destruct Hready; split|rewrite Hcw1; lia|rewrite Hcw1; by eapply Hsent|].
  rewrite Hcw1 in Hout, Hready1. rewrite bind_ok. split; [done|]. exists x, rest, b1, m, out.
  cbn [hc_conn hc_context hc_entry set_write readBuff_ writeBuff_]. rewrite Hinput.
  split_and!; try done.
  - destruct Hready1; split; try done. unfold n1. lia.
  - split; [done|]. split; [done|]. cbn. unfold vsize. rewrite Hbi1. lia.
  - split; [done|]. split; [done|]. unfold n1. lia.
  - split; [by apply retrieve_all_wf|]. split; [done|]. change (vsize (retrieve_all ?z)) with (vsize z). unfold n1. lia.
Qed.
End messages.

(** ** The other events of a connection *)

(** A connection the server has shut down: it is still read, and what waits is
    still written. *)
Definition can_read (n : Z) (c : TcpConnection) : Prop := wf (input_buffer_ c) /\ vsize (input_buffer_ c) + n <= max_size.

Record idle (n : Z) (g : http_conn) : Prop := {
  id_status : status_ (hc_conn g) = DISCONNECTING;
  id_ready : ready (set_status_ CONNECTED (hc_conn g)) n;
  id_input : can_read n (hc_conn g)
}.

Lemma can_read_less n m c : can_read n c -> m <= n -> can_read m c.
Proof. intros [??] ?. split; [done|lia]. Qed.

Lemma set_status_same c s : status_ c = s -> set_status_ s c = c.
Proof. intros <-. by destruct c. Qed.

(** *** Writing *)

Lemma on_channel_status f s c : on_channel f (set_status_ s c) = set_status_ s <$> on_channel f c.
Proof. unfold on_channel. cbn [channel_ poller_ set_status_]. by destruct (f (channel_ c) (poller_ c)). Qed.

(** A connection that is shut down writes like one that is up: the last
    [shutdown_in_loop_] does nothing. *)
Lemma handle_write_idle w c c' :
  status_ c = DISCONNECTING -> handle_write_ w (set_status_ CONNECTED c) = Ok c' -> status_ c' = CONNECTED ->
  handle_write_ w c = Ok (set_status_ DISCONNECTING c').
Proof.
  intros Hst Hrun Hst'. rewrite <-(set_status_same c DISCONNECTING Hst).
  change (set_status_ CONNECTED c) with (set_status_ CONNECTED (set_status_ DISCONNECTING c)) in Hrun.
  set (d := set_status_ DISCONNECTING c) in *. unfold handle_write_ in *.
  change (get_channel (set_status_ CONNECTED d)) with (get_channel d) in Hrun.
  destruct (get_channel d) as [ch|]; [|done]. rewrite bind_ok in *.
  destruct (is_writing ch); [|by injection Hrun as <-].
  destruct w as [e|[|k]]; [by injection Hrun as <-..|]. change (output_buffer_ (set_status_ CONNECTED d)) with (output_buffer_ d) in Hrun.
  destruct (Buffer.retrieve _ _) as [out|]; [|done]. rewrite bind_ok in *. cbv zeta in *.
  set (d1 := write_to_wire (take (S k) (contents (output_buffer_ d))) (set_output out d)) in *.
  change (write_to_wire _ (set_output out (set_status_ CONNECTED d))) with (set_status_ CONNECTED d1) in Hrun.
  destruct (read_able_bytes out =? 0); [|by injection Hrun as <-].
  rewrite on_channel_status in Hrun. assert (Hd1 : status_ d1 = DISCONNECTING) by done.
  destruct (on_channel disable_writing d1) as [d2|] eqn:Hd2; [|done]. cbn [fmap result_fmap] in Hrun. rewrite bind_ok in *.
  assert (Hs2 : status_ d2 = DISCONNECTING) by (by apply on_channel_ok in Hd2 as (p & _ & ->)).
  change (write_complete_cb_ (set_status_ CONNECTED d2)) with (write_complete_cb_ d2) in Hrun.
  assert (Hfin : forall x, status_ x = DISCONNECTING ->
    (if bool_decide (status_ (set_status_ CONNECTED x) = DISCONNECTING) then shutdown_in_loop_ (set_status_ CONNECTED x)
     else Ok (set_status_ CONNECTED x)) = Ok c' ->
    (if bool_decide (status_ x = DISCONNECTING) then shutdown_in_loop_ x else Ok x) = Ok (set_status_ DISCONNECTING c')).
  { intros x Hx. rewrite bool_decide_false by done. intros [= <-]. rewrite bool_decide_true by done.
    unfold shutdown_in_loop_. rewrite bool_decide_false by congruence. f_equal. symmetry.
    change (set_status_ DISCONNECTING (set_status_ CONNECTED x)) with (set_status_ DISCONNECTING x).
    by apply set_status_same. }
  destruct (write_complete_cb_ d2).
  - by apply (Hfin (queue_in_loop FWriteComplete d2)).
  - by apply (Hfin d2).
Qed.

Lemma gone_write t w c : gone t c -> handle_write_ w c = Ok c.
Proof.
  intros [_ (ch & Hch & _ & He & _) _]. unfold handle_write_. rewrite Hch, bind_ok. unfold is_writing. by rewrite He.
Qed.

(** *** Queued functors *)

Lemma run_reports c :
  Forall reports (pending_ c) ->
  conn_step (OpRunQueued [] (IoOk 0%nat)) c = Ok c \/
  exists e fs, conn_step (OpRunQueued [] (IoOk 0%nat)) c = Ok (emit e (set_pending fs c)) /\ Forall reports fs.
Proof.
  intros Hp. cbn [conn_step]. destruct (pending_ c) as [|f fs]; [by left|]. right.
  apply Forall_cons in Hp as [Hf Hfs]. destruct f; try done; by eexists _, fs.
Qed.

(** *** Closing *)

Lemma close_gone c n :
  status_ c = CONNECTED \/ status_ c = DISCONNECTING -> ready (set_status_ CONNECTED c) n ->
  exists c', handle_close_ c = Ok c' /\ gone DEL c' /\ stream c' = stream c /\ input_buffer_ c' = input_buffer_ c.
Proof.
  intros Hst [_ (ch & Hch & Hadd & _) Hm _ _ Hpend]. unfold handle_close_.
  rewrite assert_true by (destruct Hst as [->| ->]; done).
  change (get_channel (set_status_ CONNECTED c)) with (get_channel c) in Hch. apply get_channel_ok in Hch as Hst'.
  change (poller_ (set_status_ CONNECTED c)) with (poller_ c) in Hm.
  pose proof (with_events_cases (fun _ => kNoneEvent) _ _ _ Hm Hst') as Hw. cbv zeta in Hw. rewrite Hadd in Hw.
  change (is_none_event (changed _ ch)) with true in Hw. cbv iota in Hw.
  unfold on_channel, disable_all. cbn [poller_ channel_ set_status_]. rewrite Hw, !bind_ok.
  eexists. split; [reflexivity|]. split; [|done]. split; [done| |done].
  exists (Channel.set_status DEL (changed (fun _ => kNoneEvent) ch)). split; [|done].
  unfold get_channel. cbn. by rewrite lookup_insert_eq.
Qed.

(** It is closed once. *)
Lemma close_again c t : gone t c -> handle_close_ c = Fault AssertFailed.
Proof. intros [Hst _ _]. unfold handle_close_. by rewrite Hst. Qed.

(** *** Reading *)

Lemma handle_read_some data c :
  wf (input_buffer_ c) -> data <> [] -> vsize (input_buffer_ c) + Z.of_nat (length data) <= max_size ->
  exists b, handle_read_ (IoOk data) c = Ok (emit EvMessage (set_input b c)) /\ wf b /\
    contents b = contents (input_buffer_ c) ++ data /\ vsize b <= vsize (input_buffer_ c) + Z.of_nat (length data).
Proof.
  intros Hi Hd Hv. unfold handle_read_.
  destruct (read_fd_spec data (input_buffer_ c) Hi Hv) as (b & -> & Hwf' & Hc' & Hv').
  rewrite bind_ok. rewrite (proj2 (Z.ltb_lt _ _)) by (destruct data; [done|simpl; lia]). by exists b.
Qed.

Lemma handle_read_end c :
  wf (input_buffer_ c) -> vsize (input_buffer_ c) <= max_size ->
  exists b, handle_read_ (IoOk []) c = handle_close_ (set_input b c) /\ wf b /\ vsize b <= vsize (input_buffer_ c).
Proof.
  intros Hi Hv. unfold handle_read_.
  destruct (read_fd_spec [] (input_buffer_ c) Hi) as (b & -> & Hwf' & _ & Hvb); [cbn; lia|]. exists b.
  split; [done|]. split; [done|]. cbn in Hvb. lia.
Qed.

Lemma handle_read_failed e c : handle_read_ (IoErr e) c = Ok c.
Proof. unfold handle_read_, read_fd. rewrite bind_ok. cbn. by destruct c. Qed.

(** ** Representation *)

Section refinement.
Context {B DB : Type} `{!MySQL DB} `{!Books B} `{!BooksOk B DB} {FS : FileSystem} (srcDir : bytes).
Implicit Types (s : loop_state (DB := DB)) (a : service B) (g : http_conn).

(** *** Mappings *)

#[local] Instance is_mapped_dec g : Decision (is_mapped g).
Proof. unfold is_mapped. apply _. Defined.

(** The connections whose last response has its file mapped. *)
Definition mapped (gs : gmap nat http_conn) : gset nat := dom (filter (fun x => is_mapped x.2) gs).

(** The mappings of the connections beside [o]; no file stays open. *)
Definition accounted (o : os) (gs : gmap nat http_conn) : os :=
  mkOs (fds o) (maps o + Z.of_nat (size (mapped gs))).

Lemma elem_of_mapped i gs : i ∈ mapped gs <-> exists g, gs !! i = Some g /\ is_mapped g.
Proof.
  unfold mapped. rewrite elem_of_dom. split.
  - intros [g [? ?]%map_lookup_filter_Some]. by exists g.
  - intros (g & ? & ?). exists g. by apply map_lookup_filter_Some.
Qed.

Lemma mapped_pointwise gs gs' :
  (forall i, (exists g, gs' !! i = Some g /\ is_mapped g) <-> (exists g, gs !! i = Some g /\ is_mapped g)) ->
  mapped gs' = mapped gs.
Proof. intros H. apply set_eq. intros i. by rewrite !elem_of_mapped, H. Qed.

Lemma mapped_insert_same i g g' gs :
  gs !! i = Some g -> (is_mapped g' <-> is_mapped g) -> mapped (<[i := g']> gs) = mapped gs.
Proof.
  intros Hg Hm. apply mapped_pointwise. intros j. destruct (decide (j = i)) as [->|Hne].
  - rewrite lookup_insert_eq, Hg. split; intros (x & [= <-] & Hx); eexists; (split; [done|by apply Hm]).
  - by rewrite lookup_insert_ne.
Qed.

Lemma mapped_insert i g gs : is_mapped g -> mapped (<[i := g]> gs) = {[i]} ∪ mapped gs.
Proof.
  intros Hm. apply set_eq. intros j. rewrite elem_of_union, elem_of_singleton, !elem_of_mapped.
  destruct (decide (j = i)) as [->|Hne].
  - rewrite lookup_insert_eq. split; [by left|]. intros _. by exists g.
  - rewrite lookup_insert_ne by done. naive_solver.
Qed.

Lemma mapped_delete i gs : mapped (delete i gs) = mapped gs ∖ {[i]}.
Proof.
  apply set_eq. intros j. rewrite elem_of_difference, elem_of_singleton, !elem_of_mapped.
  destruct (decide (j = i)) as [->|Hne].
  - rewrite lookup_delete_eq. naive_solver.
  - rewrite lookup_delete_ne by done. naive_solver.
Qed.

(** A descriptor and a mapping are lost, or several. *)
Definition lose (l : Z) (o : os) : os := mkOs (fds o + l) (maps o + l).
Definition losses (xs : list output) : Z := foldr (fun x n => Z.b2z (lost x) + n) 0 xs.

Lemma lose_none o : lose 0 o = o.
Proof. unfold lose. rewrite !Z.add_0_r. by destruct o. Qed.
Lemma lose_lose k l o : lose k (lose l o) = lose (l + k) o.
Proof. unfold lose. cbn. f_equal; lia. Qed.
Lemma losses_app xs ys : losses (xs ++ ys) = losses xs + losses ys.
Proof. unfold losses. induction xs as [|x xs IH]; cbn [app foldr]; [done|]. rewrite IH. lia. Qed.

(** A message replaces the mapping of the response before. *)
Lemma accounted_message o i g g' l (m : bool) gs :
  gs !! i = Some g -> (is_mapped g' <-> m = true) ->
  remapped (response_ (hc_context g)) l m (accounted o gs) = accounted (lose (Z.b2z l) o) (<[i := g']> gs).
Proof.
  intros Hg Hm. unfold remapped, unmapped, accounted, lose.
  assert (Hbefore : Z.of_nat (size (mapped gs)) = Z.of_nat (size (mapped gs ∖ {[i]})) +
    match mmFile_ (response_ (hc_context g)) with Some _ => 1 | None => 0 end).
  { destruct (mmFile_ (response_ (hc_context g))) as [x|] eqn:Hx.
    - assert (Hi : {[i]} ⊆ mapped gs) by (apply singleton_subseteq_l, elem_of_mapped; exists g; split; [done|by exists x]).
      rewrite size_difference, size_singleton by done. apply subseteq_size in Hi. rewrite size_singleton in Hi. lia.
    - rewrite Z.add_0_r. do 2 f_equal. apply set_eq. intros j.
      assert (i ∉ mapped gs) by (rewrite elem_of_mapped; intros (g0 & Hg0 & [y Hy]); congruence). set_solver. }
  assert (Hafter : Z.of_nat (size (mapped (<[i := g']> gs))) = Z.of_nat (size (mapped gs ∖ {[i]})) + Z.b2z m).
  { rewrite <-mapped_delete. destruct m; cbn [Z.b2z].
    - rewrite <-insert_delete_eq, (mapped_insert i g') by by apply Hm. rewrite size_union, size_singleton; [lia|].
      apply disjoint_singleton_l. rewrite elem_of_mapped. intros (g0 & Hg0 & _). by rewrite lookup_delete_eq in Hg0.
    - rewrite Z.add_0_r. do 2 f_equal. apply mapped_pointwise. intros j. destruct (decide (j = i)) as [->|Hne].
      + rewrite lookup_insert_eq, lookup_delete_eq. split; [intros (x & [= <-] & Hx%Hm); done|by intros (? & ? & _)].
      + by rewrite lookup_insert_ne, lookup_delete_ne. }
  destruct (mmFile_ (response_ (hc_context g))); cbn [fds maps]; f_equal; lia.
Qed.

Lemma accounted_release o i g gs :
  gs !! i = Some g -> HttpResponse.destroy (response_ (hc_context g)) (accounted o gs) = accounted o (delete i gs).
Proof.
  intros Hg. unfold HttpResponse.destroy, UnmapFile, accounted. rewrite mapped_delete.
  destruct (mmFile_ (response_ (hc_context g))) as [x|] eqn:Hx; cbn [snd fds maps].
  - assert (Hi : {[i]} ⊆ mapped gs) by (apply singleton_subseteq_l, elem_of_mapped; exists g; split; [done|by exists x]).
    rewrite size_difference, size_singleton by done. apply subseteq_size in Hi. rewrite size_singleton in Hi. f_equal. lia.
  - replace (mapped gs ∖ {[i]}) with (mapped gs); [done|]. apply set_eq. intros j.
    assert (i ∉ mapped gs) by (rewrite elem_of_mapped; intros (g0 & Hg0 & [y Hy]); congruence). set_solver.
Qed.

(** *** The loop represents the service *)

Definition guest_rep (n : Z) (k : nat) (st : guest) g : Prop :=
  match st with
  | Live held k' => k = k' /\ (0 < k')%nat /\ live held n g
  | Idle => k = 0%nat /\ idle n g
  | Gone => gone DEL (hc_conn g) /\ can_read n (hc_conn g)
  | Removed => gone NEW (hc_conn g) /\ can_read n (hc_conn g)
  end.

Definition seat_rep (n : Z) s (i : nat) (st : guest) g : Prop :=
  hc_entry g = i /\ guest_rep n (life i (buckets s)) st g.

(** [n]: the bytes every buffer can still take; [o]: the files and mappings of
    the process without the connections. *)
Record represents (o : os) (n : Z) s a : Prop := {
  rp_loop : loop_ok s;
  rp_wheel : length (buckets s) = wheel_size;
  rp_accounts : describes (accounts a) (w_env (common s));
  rp_guests : forall i, option_Forall2 (seat_rep n s i) (clients a !! i) (guests_of s !! i);
  rp_files : w_os (common s) = accounted o (guests_of s)
}.

Lemma ready_lower c n m : ready c n -> m <= n -> ready c m.
Proof. intros [] ?. split; try done. lia. Qed.

Lemma guest_rep_less n m k st g : guest_rep n k st g -> m <= n -> guest_rep m k st g.
Proof.
  destruct st as [held k'| | |]; cbn.
  - intros (? & ? & []) ?. split_and!; try done. split; [by eapply ready_lower|by eapply holds_less..].
  - intros [? []] ?. split; [done|]. split; [done|by eapply ready_lower|by eapply can_read_less].
  - intros [? ?] ?. split; [done|by eapply can_read_less].
  - intros [? ?] ?. split; [done|by eapply can_read_less].
Qed.

(** Client [i] changes, the others stay. *)
Lemma represents_update o o' n m s s' a b i g' st' :
  represents o n s a -> m <= n -> loop_ok s' -> guests_of s' = <[i := g']> (guests_of s) ->
  length (buckets s') = wheel_size -> (forall j, j <> i -> life j (buckets s') = life j (buckets s)) ->
  describes b (w_env (common s')) -> seat_rep m s' i st' g' -> w_os (common s') = accounted o' (guests_of s') ->
  represents o' m s' (mkService b (<[i := st']> (clients a))).
Proof.
  intros [Hl Hw Ha Hg Hf] Hm Hl' Hgs Hw' Hlife Ha' Hseat Hf'. split; try done. intros j. cbn [clients].
  rewrite Hgs. destruct (decide (j = i)) as [->|Hne]; [rewrite !lookup_insert_eq; by constructor|].
  rewrite !lookup_insert_ne by done. destruct (Hg j) as [st g [He Hr]|]; constructor. split; [done|].
  rewrite (Hlife j Hne). by eapply guest_rep_less.
Qed.

Lemma represents_guest o n s a i st :
  represents o n s a -> clients a !! i = Some st ->
  exists g, guests_of s !! i = Some g /\ hc_entry g = i /\ guest_rep n (life i (buckets s)) st g.
Proof.
  intros [_ _ _ Hg _] Hst. specialize (Hg i). rewrite Hst in Hg. inversion Hg as [? g [He Hr] Hx Hy|]; subst. by exists g.
Qed.

(** Bytes sent to a client so far. *)
Definition sent_to s (i : nat) : bytes := default [] (stream ∘ hc_conn <$> guests_of s !! i).

(** What an event sends to client [i]. *)
Definition outs (i : nat) (e : loop_event) (x : output) : bytes :=
  match e with Read j _ _ => if (j =? i)%nat then said x else [] | _ => [] end.

(** Events whose effect stays with their client. *)
Lemma outs_nil i e : outs i e nothing = [].
Proof. destruct e; try done. cbn. by destruct (_ =? _)%nat. Qed.

Lemma sent_update s s' i g g' out j :
  guests_of s !! i = Some g -> guests_of s' = <[i := g']> (guests_of s) ->
  stream (hc_conn g') = stream (hc_conn g) ++ out ->
  sent_to s' j = sent_to s j ++ (if (i =? j)%nat then out else []).
Proof.
  intros Hg Hgs Hst. unfold sent_to. rewrite Hgs. destruct (Nat.eqb_spec i j) as [<-|Hne].
  - rewrite lookup_insert_eq, Hg. exact Hst.
  - by rewrite lookup_insert_ne, app_nil_r.
Qed.

(** *** Events that send nothing *)

Lemma quiet_step o n m s a i st st' g g' f :
  represents o n s a -> m <= n -> LocalServe f -> clients a !! i = Some st -> guests_of s !! i = Some g ->
  f (private s g) = Ok (mkServe g' (buckets s) (common s)) -> hc_entry g' = hc_entry g -> hc_context g' = hc_context g ->
  stream (hc_conn g') = stream (hc_conn g) -> guest_rep m (life i (buckets s)) st' g' ->
  exists s', handle i f s = Ok s' /\ represents o m s' (set_client i st' a) /\ forall j, sent_to s' j = sent_to s j.
Proof.
  intros Hrep Hm Hf Hst Hg Hrun He Hctx Hstream Hr.
  destruct (represents_guest _ _ _ _ _ _ Hrep Hst) as (g0 & Hg0 & He0 & _). rewrite Hg in Hg0. injection Hg0 as <-.
  destruct (handle_ok i f s g g' (buckets s) (common s) (rp_loop _ _ _ _ Hrep) Hf Hg Hrun)
    as (s' & Hrun' & Hgs & Hb & Hc & Hl & _).
  exists s'. split; [done|]. split.
  - eapply represents_update; try done; rewrite ?Hb, ?Hc; try by apply Hrep.
    + done.
    + split; [by rewrite He|by rewrite Hb].
    + rewrite (rp_files _ _ _ _ Hrep), Hgs. unfold accounted.
      rewrite (mapped_insert_same i g g'); [done|done|]. unfold is_mapped. by rewrite Hctx.
  - intros j. rewrite (sent_update s s' i g g' [] j Hg Hgs) by by rewrite Hstream, app_nil_r.
    destruct (_ =? _)%nat; by rewrite app_nil_r.
Qed.

Lemma set_client_same i st a : clients a !! i = Some st -> set_client i st a = a.
Proof. intros Hst. unfold set_client. rewrite insert_id by done. by destruct a. Qed.

(** An operation of the connection that leaves the client what it is. *)
Lemma conn_quiet o n s a i st op :
  represents o n s a -> clients a !! i = Some st ->
  (forall k g, hc_entry g = i -> guests_of s !! i = Some g -> guest_rep n k st g ->
    exists c', conn_step op (hc_conn g) = Ok c' /\ stream c' = stream (hc_conn g) /\ guest_rep n k st (set_conn c' g)) ->
  exists s', handle i (on_conn op) s = Ok s' /\ represents o n s' a /\ forall j, sent_to s' j = sent_to s j.
Proof.
  intros Hrep Hst Hop. destruct (represents_guest _ _ _ _ _ _ Hrep Hst) as (g & Hg & He & Hr).
  destruct (Hop _ g He Hg Hr) as (c' & Hc' & Hstream & Hr').
  rewrite <-(set_client_same i st a Hst).
  apply (quiet_step o n n s a i st st g (set_conn c' g) (on_conn op)); try done; [apply on_conn_local|].
  unfold on_conn. cbn [client private]. by rewrite Hc', bind_ok.
Qed.

Lemma write_quiet o n s a i written :
  represents o n s a -> is_Some (clients a !! i) ->
  (forall g k, written = IoOk k -> guests_of s !! i = Some g -> (k <= length (contents (output_buffer_ (hc_conn g))))%nat) ->
  exists s', loop_step srcDir (Write i written) s = Ok s' /\ represents o n s' a /\ forall j, sent_to s' j = sent_to s j.
Proof.
  intros Hrep [st Hst] Hsound. cbn [loop_step]. apply (conn_quiet o n s a i st); [done..|].
  intros k g He Hg Hr.
  assert (Hw : match written with IoOk k => (k <= length (contents (output_buffer_ (hc_conn g))))%nat | IoErr _ => True end).
  { destruct written as [|k']; [done|by apply (Hsound g k')]. }
  destruct st as [held k'| | |]; cbn [guest_rep conn_step] in *.
  - destruct Hr as (-> & Hk & [Hready Hin Hrd Hwr]).
    destruct (handle_write_ok written (hc_conn g) n Hready Hw) as (c' & Hc' & Hready' & Hs & Hinp & _).
    exists c'. split; [done|]. split; [done|]. split; [done|]. split; [done|]. split; try done. cbn. by rewrite Hinp.
  - destruct Hr as (-> & [Hs Hready Hin]).
    destruct (handle_write_ok written (set_status_ CONNECTED (hc_conn g)) n Hready Hw) as (c' & Hc' & Hready' & Hst' & Hinp & _).
    pose proof (handle_write_idle written _ _ Hs Hc' (ready_up _ _ Hready')) as Hrun.
    exists (set_status_ DISCONNECTING c'). split; [done|]. split; [exact Hst'|]. split; [done|]. split; [done| |].
    + cbn [hc_conn set_conn]. change (set_status_ CONNECTED (set_status_ DISCONNECTING c')) with (set_status_ CONNECTED c').
      by rewrite (set_status_same c' CONNECTED (ready_up _ _ Hready')).
    + unfold can_read. cbn [hc_conn set_conn]. change (input_buffer_ (set_status_ DISCONNECTING c')) with (input_buffer_ c'). by rewrite Hinp.
  - exists (hc_conn g). split; [by eapply gone_write, Hr|]. by destruct g.
  - exists (hc_conn g). split; [by eapply gone_write, Hr|]. by destruct g.
Qed.

Lemma functor_quiet o n s a i :
  represents o n s a -> is_Some (clients a !! i) ->
  exists s', loop_step srcDir (Functor i) s = Ok s' /\ represents o n s' a /\ forall j, sent_to s' j = sent_to s j.
Proof.
  intros Hrep [st Hst]. cbn [loop_step]. apply (conn_quiet o n s a i st); [done..|]. intros k g He Hg Hr.
  assert (Hpend : Forall reports (pending_ (hc_conn g))).
  { destruct st as [held k'| | |]; [destruct Hr as (_ & _ & [Hready _ _ _])|destruct Hr as (_ & [_ Hready _])| |];
      [exact (ready_pending _ _ Hready)|exact (ready_pending _ _ Hready)|exact (gone_pending _ _ (proj1 Hr))|exact (gone_pending _ _ (proj1 Hr))]. }
  destruct (run_reports _ Hpend) as [Hrun|(e & fs & Hrun & Hfs)]; rewrite Hrun;
    [exists (hc_conn g); split; [done|]; split; [done|]; by destruct g|].
  eexists. split; [reflexivity|]. split; [done|]. destruct st as [held k'| | |].
  - destruct Hr as (-> & Hk & [[] Hin Hrd Hwr]). split; [done|]. split; [done|]. by split.
  - destruct Hr as (-> & [Hs [] Hin]). split; [done|]. split; [done|by split|done].
  - destruct Hr as [[] Hin]. split; [by split|exact Hin].
  - destruct Hr as [[] Hin]. split; [by split|exact Hin].
Qed.

(** *** Closing *)

(** Every client's connection can be read. *)
Lemma guest_reads n k st g : guest_rep n k st g -> can_read n (hc_conn g).
Proof.
  destruct st as [held k'| | |]; cbn.
  - by intros (_ & _ & [_ (? & _ & ?) _ _]).
  - by intros (_ & [_ _ ?]).
  - by intros [_ ?].
  - by intros [_ ?].
Qed.

(** A client that is open can be closed. *)
Lemma open_closes n k st g :
  guest_rep n k st g -> is_open st -> 0 <= n ->
  forall b, wf b ->
  exists c', handle_close_ (set_input b (hc_conn g)) = Ok c' /\ gone DEL c' /\ stream c' = stream (hc_conn g) /\
    input_buffer_ c' = b.
Proof.
  intros Hr Ho Hn b Hb.
  assert (Hup : (status_ (hc_conn g) = CONNECTED \/ status_ (hc_conn g) = DISCONNECTING) /\
    ready (set_status_ CONNECTED (hc_conn g)) n).
  { destruct st as [held k'| | |]; [|destruct Hr as (_ & [Hs Hready _]); split; [by right|done]|done|done].
    destruct Hr as (_ & _ & [Hready _ _ _]). pose proof (ready_up _ _ Hready) as Hs. split; [by left|].
    by rewrite set_status_same. }
  destruct Hup as [Hst Hready].
  destruct (close_gone (set_input b (hc_conn g)) n) as (c' & Hc' & Hg & Hs & Hi); [exact Hst|by destruct Hready; split|].
  by exists c'.
Qed.

Lemma hangup_step o n s a i st :
  represents o n s a -> 0 <= n -> clients a !! i = Some st -> is_open st ->
  exists s', loop_step srcDir (Hangup i) s = Ok s' /\ represents o n s' (set_client i Gone a) /\
    forall j, sent_to s' j = sent_to s j.
Proof.
  intros Hrep Hn Hst Ho. destruct (represents_guest _ _ _ _ _ _ Hrep Hst) as (g & Hg & He & Hr).
  assert (Hin : can_read n (hc_conn g)) by by eapply guest_reads.
  destruct (open_closes _ _ _ _ Hr Ho Hn (input_buffer_ (hc_conn g)) (proj1 Hin)) as (c' & Hc' & Hgone & Hs & Hi).
  replace (set_input (input_buffer_ (hc_conn g)) (hc_conn g)) with (hc_conn g) in Hc' by by destruct (hc_conn g).
  apply (quiet_step o n n s a i st Gone g (set_conn c' g)); try done; [apply on_conn_local| |].
  - unfold on_conn. cbn [client private conn_step]. by rewrite Hc', bind_ok.
  - split; [done|]. unfold can_read. cbn [hc_conn set_conn]. by rewrite Hi.
Qed.

Lemma end_step o n s a i st sent :
  represents o n s a -> 0 <= n -> clients a !! i = Some st -> is_open st ->
  exists s', loop_step srcDir (Read i (IoOk []) sent) s = Ok s' /\ represents o n s' (set_client i Gone a) /\
    forall j, sent_to s' j = sent_to s j.
Proof.
  intros Hrep Hn Hst Ho. destruct (represents_guest _ _ _ _ _ _ Hrep Hst) as (g & Hg & He & Hr).
  destruct (guest_reads _ _ _ _ Hr) as [Hwf Hv]. destruct (handle_read_end (hc_conn g) Hwf) as (b & Hread & Hb & Hvb); [lia|].
  destruct (open_closes _ _ _ _ Hr Ho Hn b Hb) as (c' & Hc' & Hgone & Hs & Hi).
  apply (quiet_step o n n s a i st Gone g (set_conn c' g)); try done; [apply on_readable_local| |].
  - unfold on_readable. cbn [client private]. by rewrite Hread, Hc', bind_ok.
  - split; [done|]. unfold can_read. cbn [hc_conn set_conn]. rewrite Hi. split; [done|lia].
Qed.

(** A connection that was closed is not closed again: the assertion fails. *)
Lemma closed_step o n s a i st sent :
  represents o n s a -> 0 <= n -> clients a !! i = Some st -> ~ is_open st ->
  loop_step srcDir (Read i (IoOk []) sent) s = Fault AssertFailed.
Proof.
  intros Hrep Hn Hst Ho. destruct (represents_guest _ _ _ _ _ _ Hrep Hst) as (g & Hg & He & Hr).
  destruct (guest_reads _ _ _ _ Hr) as [Hwf Hv]. destruct (handle_read_end (hc_conn g) Hwf) as (b & Hread & _); [lia|].
  assert (Hcl : handle_close_ (set_input b (hc_conn g)) = Fault AssertFailed).
  { destruct st as [held k| | |]; try by destruct Ho; exact I.
    - apply (close_again _ DEL). by destruct Hr as [[] _].
    - apply (close_again _ NEW). by destruct Hr as [[] _]. }
  assert (Hl : LocalServe (on_readable srcDir (IoOk []) sent)) by apply on_readable_local.
  pose proof (handle_local i _ s g (rp_loop _ _ _ _ Hrep) Hl Hg) as Hloc. cbn [loop_step].
  assert (Hrun : on_readable srcDir (IoOk []) sent (private s g) = Fault AssertFailed).
  { unfold on_readable. cbn [client private]. by rewrite Hread, Hcl. }
  destruct (handle i _ s) as [s'|f]; [destruct Hloc as (g' & Hok & _); congruence|congruence].
Qed.

Lemma error_quiet o n s a i e sent :
  represents o n s a -> is_Some (clients a !! i) ->
  exists s', loop_step srcDir (Read i (IoErr e) sent) s = Ok s' /\ represents o n s' a /\ forall j, sent_to s' j = sent_to s j.
Proof.
  intros Hrep [st Hst]. destruct (represents_guest _ _ _ _ _ _ Hrep Hst) as (g & Hg & He & Hr).
  rewrite <-(set_client_same i st a Hst).
  apply (quiet_step o n n s a i st st g g); try done; [apply on_readable_local|].
  unfold on_readable. cbn [client private]. rewrite handle_read_failed, bind_ok. by destruct g.
Qed.

(** *** Messages *)

Lemma ready_input c n b : ready c n -> ready (emit EvMessage (set_input b c)) n.
Proof. by intros []; split. Qed.

Lemma message_step o n s a i data sent held k A :
  represents o n s a -> clients a !! i = Some (Live held k) -> data <> [] -> srcDir <> [] ->
  possible srcDir a (Read i (IoOk data) sent) -> page_limit srcDir A -> Z.of_nat (length data) + A <= n ->
  match loop_step srcDir (Read i (IoOk data) sent) s with
  | Ok s' => exists x rest b out, responds srcDir (accounts a) (held ++ data) x rest b /\ delivered sent (said x) out /\
      represents (lose (Z.b2z (lost x)) o) (n - (Z.of_nat (length data) + A)) s'
        (mkService b (<[i := Live rest wheel_size]> (clients a))) /\
      forall j, sent_to s' j = sent_to s j ++ (if (i =? j)%nat then out else [])
  | Fault f => refuses srcDir (accounts a) (held ++ data) f
  end.
Proof.
  intros Hrep Hst Hne Hsrc Hposs Hlim Hn. pose proof Hlim as (HA & _).
  assert (Hp : proper (B := B) (held ++ data) /\
    forall x rest b, responds srcDir (accounts a) (held ++ data) x rest b -> sent_sound sent (length (said x))).
  { cbn [possible] in Hposs. destruct data; [done|]. by rewrite Hst in Hposs. }
  destruct Hp as [Hprop Hsent].
  destruct (represents_guest _ _ _ _ _ _ Hrep Hst) as (g & Hg & He & (Hk & Hpos & [Hready (Hwi & Hci & Hvi) Hrd Hwr])).
  destruct (handle_read_some data (hc_conn g) Hwi Hne) as (b0 & Hread & Hwb & Hcb & Hvb); [lia|].
  rewrite Hci in Hcb. cbn [app] in Hcb.
  set (h := set_conn (emit EvMessage (set_input b0 (hc_conn g))) g).
  pose proof (message_answers srcDir h (buckets s) (common s) data held (accounts a) A n sent) as Hmsg. cbv zeta in Hmsg.
  specialize (Hmsg ltac:(cbn [h hc_entry set_conn]; rewrite He, life_alive; lia) Hsrc Hne ltac:(by apply ready_input) Hwb Hcb Hrd Hwr
    (rp_accounts _ _ _ _ Hrep) Hprop Hlim Hn Hsent).
  assert (Hrun : on_readable srcDir (IoOk data) sent (private s g) =
    ('(h1, w1, wd1) ← message_cb srcDir sent h (buckets s) (common s); Ok (mkServe h1 w1 wd1))).
  { unfold on_readable. cbn [client private wheel shared]. rewrite Hread, bind_ok. by destruct data. }
  pose proof (handle_local i _ s g (rp_loop _ _ _ _ Hrep) (on_readable_local srcDir (IoOk data) sent) Hg) as Hloc.
  rewrite Hrun in Hloc. cbn [loop_step].
  destruct (message_cb srcDir sent h (buckets s) (common s)) as [[[g1 w1] wd1]|f].
  2: { destruct (handle i _ s) as [s'|f']; [by destruct Hloc as (? & ? & _)|]. by injection Hloc as <-. }
  rewrite bind_ok in Hrun. clear Hloc.
  destruct Hmsg as (-> & x & rest & b & m & out & Hresp & Hb & Hout & Hstream & He1 & Hready1 & (Hwi1 & Hci1 & Hvi1) & Hrd1 & Hwr1 & Hos & Hmap).
  destruct (handle_ok i _ s g _ _ _ (rp_loop _ _ _ _ Hrep) (on_readable_local srcDir (IoOk data) sent) Hg Hrun)
    as (s' & -> & Hgs & Hbk & Hc & Hl & _).
  change (hc_entry h) with (hc_entry g) in *. rewrite He in *.
  assert (Hwheel : life i (touch i (buckets s)) = wheel_size).
  { rewrite life_touch; [by apply Hrep|]. intros Hnil. pose proof (rp_wheel _ _ _ _ Hrep) as Hlen. by rewrite Hnil in Hlen. }
  exists x, rest, b, out. split; [done|]. split; [done|]. split.
  - apply (represents_update o _ n _ s s' a _ i g1 _ Hrep); try done; rewrite ?Hbk, ?Hc; try done.
    + lia.
    + rewrite length_touch. by apply Hrep.
    + intros j Hj. by apply life_touch_other.
    + split; [done|]. rewrite Hbk, Hwheel. split; [done|]. split; [unfold wheel_size; lia|].
      split; [done| |done|done]. split; [done|]. split; [done|]. cbn [h hc_conn set_conn input_buffer_ emit set_input] in Hvi1. lia.
    + rewrite Hos, (rp_files _ _ _ _ Hrep), Hgs. change (hc_context h) with (hc_context g). by apply accounted_message.
  - intros j. by apply (sent_update s s' i g g1).
Qed.

Lemma ignored_step o n s a i data sent :
  represents o n s a -> clients a !! i = Some Idle -> data <> [] -> Z.of_nat (length data) <= n ->
  exists s', loop_step srcDir (Read i (IoOk data) sent) s = Ok s' /\
    represents o (n - Z.of_nat (length data)) s' a /\ forall j, sent_to s' j = sent_to s j.
Proof.
  intros Hrep Hst Hne Hn.
  destruct (represents_guest _ _ _ _ _ _ Hrep Hst) as (g & Hg & He & (Hk & [Hs Hready [Hwi Hvi]])).
  destruct (handle_read_some data (hc_conn g) Hwi Hne) as (b & Hread & Hwb & _ & Hvb); [lia|].
  rewrite <-(set_client_same i Idle a Hst).
  apply (quiet_step o n (n - Z.of_nat (length data)) s a i Idle Idle g (set_conn (emit EvMessage (set_input b (hc_conn g))) g));
    try done; [lia|apply on_readable_local| |].
  - unfold on_readable. cbn [client private]. rewrite Hread, bind_ok. destruct data as [|x data]; [done|].
    unfold message_cb. cbn [hc_entry set_conn].
    change (wheel (private s g)) with (buckets s). destruct (alive (hc_entry g) (buckets s)) eqn:Ha; [|done].
    rewrite He, life_alive in Ha. lia.
  - split; [done|]. split; [done| |]; cbn.
    + destruct Hready; split; try done. cbn in *. lia.
    + unfold can_read. cbn. split; [done|lia].
Qed.

(** *** Connections come and go *)

Lemma accepted_live i fd n : 0 <= n <= max_size - 2048 -> live [] n (accepted_guest i fd).
Proof.
  intros Hn. assert (Hb : holds (new_buffer initial_size_default) [] n).
  { destruct (new_buffer_wf initial_size_default) as [? ?]; [unfold max_size, initial_size_default; lia|].
    split; [done|]. split; [done|]. assert (Hv : vsize (new_buffer initial_size_default) = 1032) by (vm_compute; reflexivity).
    rewrite Hv. lia. }
  assert (Hr : holds (retrieve_all (new_buffer initial_size_default)) [] n).
  { destruct Hb as (? & ? & ?). split; [by apply retrieve_all_wf|done]. }
  split; [|exact Hb|exact Hr|exact Hr]. unfold accepted_guest. cbn [hc_conn]. split; try done.
  - exists (mkChannel fd kReadEvent 0 ADD true false true). unfold get_channel. cbn. by rewrite lookup_singleton_eq.
  - apply solo_mirrors.
  - apply Hb.
Qed.

Lemma accept_step o n s a i fd :
  represents o n s a -> 0 <= n <= max_size - 2048 -> clients a !! i = None -> fresh i fd s ->
  exists s', loop_step srcDir (Accept i fd) s = Ok s' /\ represents o n s' (set_client i (Live [] wheel_size) a) /\
    forall j, sent_to s' j = sent_to s j.
Proof.
  intros Hrep Hn Hnone Hfresh. pose proof (rp_guests _ _ _ _ Hrep i) as Hi. rewrite Hnone in Hi.
  inversion Hi as [|Hx Hnoguest]; clear Hi. symmetry in Hnoguest. pose proof (proj1 (guests_none s i) Hnoguest) as Hnomember.
  destruct (accept_local i fd s (rp_loop _ _ _ _ Hrep) Hfresh Hnomember) as (s' & Hrun & Hgs & Hb & Hc & Hl & _).
  exists s'. split; [exact Hrun|].
  assert (Hwheel : life i (touch i (buckets s)) = wheel_size).
  { rewrite life_touch; [by apply Hrep|]. intros Hnil. pose proof (rp_wheel _ _ _ _ Hrep) as Hlen. by rewrite Hnil in Hlen. }
  split.
  - apply (represents_update o o n n s s' a _ i (accepted_guest i fd) _ Hrep); rewrite ?Hb, ?Hc; try done; try apply Hrep.
    + rewrite length_touch. apply Hrep.
    + intros j Hj. by apply life_touch_other.
    + split; [done|]. rewrite Hb, Hwheel. split; [done|]. split; [unfold wheel_size; lia|]. by apply accepted_live.
    + rewrite (rp_files _ _ _ _ Hrep), Hgs. unfold accounted. f_equal. f_equal. f_equal. f_equal. symmetry.
      apply mapped_pointwise. intros j. destruct (decide (j = i)) as [->|Hne]; [|by rewrite lookup_insert_ne].
      rewrite lookup_insert_eq, Hnoguest. split; [|by intros (? & ? & _)]. intros (x & [= <-] & [m Hm]). discriminate Hm.
  - intros j. unfold sent_to. rewrite Hgs. destruct (decide (j = i)) as [->|Hne]; [|by rewrite lookup_insert_ne].
    by rewrite lookup_insert_eq, Hnoguest.
Qed.

Lemma remove_step o n s a i :
  represents o n s a -> clients a !! i = Some Gone ->
  exists s', loop_step srcDir (Remove i) s = Ok s' /\ represents o n s' (set_client i Removed a) /\
    forall j, sent_to s' j = sent_to s j.
Proof.
  intros Hrep Hst. destruct (represents_guest _ _ _ _ _ _ Hrep Hst) as (g & Hg & He & Hr).
  assert (Hm : mirrors (poller_ (hc_conn g))) by (apply guests_inv in Hg as (h & _ & ->); apply own_mirrors).
  destruct Hr as [Hr Hin]. destruct (gone_destroy (hc_conn g) Hm Hr) as (c' & Hc' & Hgone & Hs & Hi).
  apply (quiet_step o n n s a i Gone Removed g (set_conn c' g)); try done; [apply on_conn_local| |].
  - unfold on_conn. cbn [client private conn_step]. by rewrite Hc', bind_ok.
  - split; [done|]. unfold can_read. cbn [hc_conn set_conn]. by rewrite Hi.
Qed.

Lemma release_step o n s a i :
  represents o n s a -> clients a !! i = Some Removed ->
  exists s', loop_step srcDir (Release i) s = Ok s' /\
    represents o n s' (mkService (accounts a) (delete i (clients a))) /\ forall j, j <> i -> sent_to s' j = sent_to s j.
Proof.
  intros Hrep Hst. destruct (represents_guest _ _ _ _ _ _ Hrep Hst) as (g & Hg & He & Hr).
  destruct (release_local i s g (rp_loop _ _ _ _ Hrep) Hg (proj1 Hr)) as (s' & Hrun & Hgs & Hb & Hc & Hl & _).
  exists s'. split; [exact Hrun|]. split.
  - destruct Hrep as [Hlo Hw Ha Hgu Hf]. split; rewrite ?Hb, ?Hc; try done.
    + intros j. rewrite Hgs. cbn [clients]. destruct (decide (j = i)) as [->|Hne]; [rewrite !lookup_delete_eq; constructor|].
      rewrite !lookup_delete_ne by done. unfold seat_rep. rewrite Hb. apply Hgu.
    + cbn [w_os]. rewrite Hf, Hgs. by apply accounted_release.
  - intros j Hj. unfold sent_to. by rewrite Hgs, lookup_delete_ne.
Qed.

(** *** A second *)

Lemma guest_channel n k st g : guest_rep n k st g -> exists ch, get_channel (hc_conn g) = Ok ch.
Proof.
  destruct st as [held k'| | |].
  - intros (_ & _ & [[_ (ch & Hch & _) _ _ _ _] _ _ _]). by exists ch.
  - intros (_ & [_ [_ (ch & Hch & _) _ _ _ _] _]). by exists ch.
  - intros [[_ (ch & Hch & _) _] _]. by exists ch.
  - intros [[_ (ch & Hch & _) _] _]. by exists ch.
Qed.

(** A client whose last second is over is shut down; one that closed already
    does not notice. *)
Lemma half_close_live held n g : live held n g -> idle n (half_close g).
Proof.
  intros [Hready (Hwi & _ & Hvi) _ _]. pose proof Hready as [Hup (ch & Hch & Hrest) Hm Hwf Hroom Hp].
  unfold half_close, half_closed, shutdown_in_loop_. rewrite bool_decide_true by done. cbv zeta.
  change (get_channel (set_status_ DISCONNECTING (hc_conn g))) with (get_channel (hc_conn g)). rewrite Hch, bind_ok.
  destruct (negb (is_writing ch)); (split; [done| |done]); (split; [done|exists ch; done|done..]).
Qed.

Lemma half_close_gone t g : gone t (hc_conn g) -> half_close g = g.
Proof.
  intros [Hst _ _]. unfold half_close, half_closed, shutdown_in_loop_. rewrite bool_decide_false by congruence. by destruct g.
Qed.

Lemma half_close_same g : stream (hc_conn (half_close g)) = stream (hc_conn g) /\ hc_entry (half_close g) = hc_entry g /\
  hc_context (half_close g) = hc_context g.
Proof.
  split; [|done]. unfold half_close, half_closed. cbn [hc_conn set_conn].
  destruct (shutdown_in_loop_ (hc_conn g)) as [c'|] eqn:Hs; [|done]. apply shutdown_same in Hs as [Ho Hw].
  unfold stream. by rewrite Ho, Hw.
Qed.

Lemma second_turns o n s a :
  represents o n s a ->
  exists s', loop_step srcDir Second s = Ok s' /\ represents o n s' (mkService (accounts a) (turn <$> clients a)) /\
    forall j, sent_to s' j = sent_to s j.
Proof.
  intros [Hl Hw Ha Hg Hf]. cbn [loop_step]. unfold second. destruct (ontime (buckets s)) as [dead w] eqn:Hon.
  assert (Hlife : forall e, life e w = pred (life e (buckets s))) by (intros e; by rewrite <-life_ontime, Hon).
  assert (Hdead : forall e, e ∈ elements dead <-> life e (buckets s) = 1%nat).
  { intros e. rewrite elem_of_elements. pose proof (ontime_destroys e (buckets s)) as Hd. by rewrite Hon in Hd. }
  assert (Hlw : length w = wheel_size).
  { pose proof (length_wheel_step Tick (buckets s) Hw) as Hlw. cbn [wheel_step] in Hlw. by rewrite Hon in Hlw. }
  set (s0 := mkLoopState (members s) (epoll s) w (common s)).
  assert (Hgs0 : guests_of s0 = guests_of s) by done.
  destruct (expire_all_local (elements dead) s0) as (s' & Hrun & Hb & Hc & Hl' & _ & Hgs);
    [by destruct Hl; split|apply NoDup_elements| |].
  { intros i g Hgi. rewrite Hgs0 in Hgi. specialize (Hg i). rewrite Hgi in Hg. inversion Hg as [st ? [_ Hr]|]; subst.
    by eapply guest_channel. }
  rewrite Hgs0 in Hgs. exists s'. split; [exact Hrun|].
  assert (Hsame : forall i g, ((if decide (i ∈ elements dead) then half_close else id) g = g \/
      (if decide (i ∈ elements dead) then half_close else id) g = half_close g)) by (intros i g; case_decide; auto).
  split.
  - split; rewrite ?Hb, ?Hc; try done.
    + intros i. rewrite Hgs. cbn [clients]. rewrite lookup_fmap.
      destruct (Hg i) as [st g [He Hr]|]; cbn [fmap option_fmap option_map]; constructor.
      split; [by destruct (Hsame i g) as [->| ->]|]. rewrite Hb. change (buckets s0) with w. rewrite Hlife.
      destruct st as [held k| | |]; cbn [turn].
      * destruct Hr as (Hk & Hpos & Hlive). destruct (Nat.leb_spec k 1) as [Hle|Hlt].
        -- rewrite decide_True by (apply Hdead; lia). split; [lia|]. by eapply half_close_live.
        -- rewrite decide_False by (rewrite Hdead; lia). split; [lia|]. split; [lia|done].
      * destruct Hr as [Hk Hidle]. rewrite decide_False by (rewrite Hdead; lia). split; [by rewrite Hk|done].
      * case_decide; [by erewrite half_close_gone by apply Hr|done].
      * case_decide; [by erewrite half_close_gone by apply Hr|done].
    + change (common s0) with (common s). rewrite Hf. unfold accounted. f_equal. f_equal. f_equal. f_equal. symmetry.
      apply mapped_pointwise. intros i. rewrite Hgs. destruct (guests_of s !! i) as [g|]; [|by split; intros (? & ? & _)].
      cbn [fmap option_fmap option_map]. split.
      * intros (x & [= <-] & Hx). exists g. split; [done|]. by destruct (Hsame i g) as [E|E]; rewrite E in Hx.
      * intros (x & [= <-] & Hx). eexists. split; [done|]. by destruct (Hsame i g) as [E|E]; rewrite E.
  - intros j. unfold sent_to. rewrite Hgs. destruct (guests_of s !! j) as [g|]; [|done]. cbn.
    destruct (Hsame j g) as [E|E]; rewrite E; [done|]. apply half_close_same.
Qed.

(** *** Any event *)

(** What an event can add to a buffer. *)
Definition cost (A : Z) (e : loop_event) : Z :=
  match e with Read _ (IoOk (x :: data)) _ => Z.of_nat (length (x :: data)) + A | _ => 0 end.

Fixpoint total_cost (A : Z) (es : list loop_event) : Z :=
  match es with [] => 0 | e :: es => cost A e + total_cost A es end.

(** The kernel and the allocator: a new connection gets a channel and a
    descriptor nobody has, and [write] takes at most what it is offered. *)
Definition sound_event s (e : loop_event) : Prop :=
  match e with
  | Accept i fd => fresh i fd s
  | Write i (IoOk k) => forall g, guests_of s !! i = Some g -> (k <= length (contents (output_buffer_ (hc_conn g))))%nat
  | _ => True
  end.

Fixpoint loop_sound (es : list loop_event) s : Prop :=
  match es with
  | [] => True
  | e :: es => sound_event s e /\ match loop_step srcDir e s with Ok s1 => loop_sound es s1 | Fault _ => True end
  end.

Lemma represents_less o n m s a : represents o n s a -> m <= n -> represents o m s a.
Proof.
  intros [Hl Hw Ha Hg Hf] Hm. split; try done. intros i. destruct (Hg i) as [st g [He Hr]|]; constructor.
  split; [done|]. by eapply guest_rep_less.
Qed.

Lemma service_step o n s a e A :
  represents o n s a -> srcDir <> [] -> page_limit srcDir A -> possible srcDir a e -> sound_event s e ->
  cost A e <= n <= max_size - 2048 -> 0 <= n ->
  match loop_step srcDir e s with
  | Ok s' => exists x a', serves srcDir a e x a' /\ represents (lose (Z.b2z (lost x)) o) (n - cost A e) s' a' /\
      forall j, e <> Release j -> sent_to s' j = sent_to s j ++ outs j e x
  | Fault f => breaks srcDir a e f
  end.
Proof.
  intros Hrep Hsrc Hlim Hposs Hsound Hn Hn0. pose proof Hlim as (HA & _).
  assert (Hquiet : forall m a', n - cost A e <= m -> serves srcDir a e nothing a' ->
    (exists s', loop_step srcDir e s = Ok s' /\ represents o m s' a' /\ forall j, e <> Release j -> sent_to s' j = sent_to s j) ->
    match loop_step srcDir e s with
    | Ok s' => exists x a', serves srcDir a e x a' /\ represents (lose (Z.b2z (lost x)) o) (n - cost A e) s' a' /\
        forall j, e <> Release j -> sent_to s' j = sent_to s j ++ outs j e x
    | Fault f => breaks srcDir a e f
    end).
  { intros m a' Hm Hs (s' & -> & Hrep' & Hsent). exists nothing, a'. cbn [lost nothing Z.b2z]. rewrite lose_none.
    split; [done|]. split; [by eapply represents_less|]. intros j Hj. by rewrite outs_nil, app_nil_r, Hsent. }
  assert (Hcost : forall m, cost A e = 0 -> m = n -> n - cost A e <= m) by lia.
  destruct e as [i fd|i [er|[|y data]] sent|i written|i|i|i|i|]; cbn [possible sound_event] in *.
  - eapply (Hquiet n); [by apply Hcost|by constructor|].
    destruct (accept_step o n s a i fd) as (s' & ? & ? & ?); [done|lia|done|done|]. exists s'. auto.
  - eapply (Hquiet n); [by apply Hcost|by constructor|].
    destruct (error_quiet o n s a i er sent Hrep Hposs) as (s' & ? & ? & ?). exists s'. auto.
  - destruct Hposs as [g Hg]. assert (Ho : is_open g \/ ~ is_open g) by (destruct g; cbn; auto). destruct Ho as [Ho|Ho].
    + eapply (Hquiet n); [by apply Hcost|by econstructor|].
      destruct (end_step o n s a i g sent Hrep Hn0 Hg Ho) as (s' & ? & ? & ?). exists s'. auto.
    + rewrite (closed_step o n s a i g sent Hrep Hn0 Hg Ho). by eapply breaks_closed.
  - cbn [cost] in Hn. destruct (clients a !! i) as [[held k| | |]|] eqn:Hc; try done.
    + pose proof (message_step o n s a i (y :: data) sent held k A Hrep Hc ltac:(done) Hsrc) as Hmsg. cbn [possible] in Hmsg.
      rewrite Hc in Hmsg. specialize (Hmsg Hposs Hlim ltac:(lia)).
      destruct (loop_step srcDir (Read i (IoOk (y :: data)) sent) s) as [s'|f]; [|by eapply breaks_message].
      destruct Hmsg as (x & rest & b & out & Hresp & Hout & Hrep' & Hst). do 2 eexists.
      split; [by eapply serves_message|]. split; [exact Hrep'|]. intros j _. rewrite Hst. done.
    + eapply (Hquiet (n - Z.of_nat (length (y :: data)))); [cbn [cost]; lia|by constructor|].
      destruct (ignored_step o n s a i (y :: data) sent Hrep Hc) as (s' & Hrun & Hrep' & Hst); [done|lia|]. exists s'. auto.
  - eapply (Hquiet n); [by apply Hcost|by constructor|].
    destruct (write_quiet o n s a i written Hrep Hposs) as (s' & ? & ? & ?); [|exists s'; auto].
    intros g k ->. apply Hsound.
  - destruct Hposs as (g & Hg & Ho). eapply (Hquiet n); [by apply Hcost|by econstructor|].
    destruct (hangup_step o n s a i g Hrep Hn0 Hg Ho) as (s' & ? & ? & ?). exists s'. auto.
  - eapply (Hquiet n); [by apply Hcost|by constructor|].
    destruct (functor_quiet o n s a i Hrep Hposs) as (s' & ? & ? & ?). exists s'. auto.
  - eapply (Hquiet n); [by apply Hcost|by constructor|].
    destruct (remove_step o n s a i Hrep Hposs) as (s' & ? & ? & ?). exists s'. auto.
  - eapply (Hquiet n); [by apply Hcost|by constructor|]. destruct (release_step o n s a i Hrep Hposs) as (s' & ? & ? & Hst).
    exists s'. split; [done|]. split; [done|]. intros j Hj. apply Hst. congruence.
  - eapply (Hquiet n); [by apply Hcost|by constructor|].
    destruct (second_turns o n s a Hrep) as (s' & ? & ? & ?). exists s'. auto.
Qed.

(** *** What an event leaves alone *)

Definition subject (e : loop_event) : option nat :=
  match e with
  | Accept i _ | Read i _ _ | Write i _ | Hangup i | Functor i | Remove i | Release i => Some i
  | Second => None
  end.

(** Channel [j], its connection, and what the parser has of its client. *)
Definition elsewhere (j : nat) s s' a a' : Prop :=
  is_Some (store (epoll s) !! j) ->
  store (epoll s') !! j = store (epoll s) !! j /\ (is_Some (members s' !! j) <-> is_Some (members s !! j)) /\
  forall held k, clients a' !! j = Some (Live held k) -> exists k', clients a !! j = Some (Live held k').

Lemma elsewhere_refl j s a : elsewhere j s s a a.
Proof. intros Hj. split; [done|]. split; [done|]. intros held k Hc. by exists k. Qed.

Lemma elsewhere_trans j s s1 s2 a a1 a2 : elsewhere j s s1 a a1 -> elsewhere j s1 s2 a1 a2 -> elsewhere j s s2 a a2.
Proof.
  intros H1 H2 Hj. destruct (H1 Hj) as (Hs1 & Hm1 & Hc1). destruct H2 as (Hs2 & Hm2 & Hc2); [by rewrite Hs1|].
  split; [by rewrite Hs2|]. split; [by rewrite Hm2|]. intros held k Hc. destruct (Hc2 _ _ Hc) as [k' Hk]. by apply Hc1 in Hk.
Qed.

Lemma expire_epoll i s s' : expire i s = Ok s' -> epoll s' = epoll s /\ forall j, is_Some (members s' !! j) <-> is_Some (members s !! j).
Proof.
  unfold expire. destruct (members s !! i) as [h|] eqn:Hh; [|by intros [= <-]].
  unfold handle. rewrite Hh. cbn [of_option]. rewrite bind_ok. intros Hrun. inv_bind Hrun. simplify_eq. cbn [epoll members].
  unfold on_conn in Ha. inv_bind Ha. simplify_eq. cbn [conn_step] in Ha0. cbn [client hc_conn set_conn]. split.
  - revert Ha0. unfold shutdown, run_in_loop, shutdown_in_loop_. case_bool_decide; [|by intros [= <-]]. cbv zeta.
    intros Hs. inv_bind Hs. by destruct (negb _); simplify_eq.
  - intros j. destruct (decide (j = i)) as [->|]; [rewrite lookup_insert_eq, Hh; by split; eexists|by rewrite lookup_insert_ne].
Qed.

Lemma expire_all_epoll dead : forall s s', expire_all dead s = Ok s' ->
  epoll s' = epoll s /\ forall j, is_Some (members s' !! j) <-> is_Some (members s !! j).
Proof.
  induction dead as [|i dead IH]; intros s s'; cbn [expire_all]; [by intros [= <-]|]. intros H. inv_bind H.
  apply expire_epoll in Ha as [He Hm]. apply IH in H as [He' Hm']. split; [congruence|]. intros j. by rewrite Hm', Hm.
Qed.

Lemma handle_elsewhere i f s s' j :
  loop_ok s -> LocalServe f -> handle i f s = Ok s' -> j <> i ->
  store (epoll s') !! j = store (epoll s) !! j /\ (is_Some (members s' !! j) <-> is_Some (members s !! j)).
Proof.
  intros Hs Hf Hrun Hne.
  assert (Hg : exists g, guests_of s !! i = Some g).
  { unfold handle in Hrun. destruct (members s !! i) as [h|] eqn:Hh; [|done]. eexists. by apply guests_lookup. }
  destruct Hg as [g Hg]. pose proof (handle_local i f s g Hs Hf Hg) as Hl. rewrite Hrun in Hl.
  destruct Hl as (g' & _ & Hgs & _ & (_ & _ & _ & Hst)). split; [by apply Hst|].
  rewrite <-!not_eq_None_Some, <-!guests_none, Hgs. by rewrite lookup_insert_ne.
Qed.

Lemma step_elsewhere o n s a e text s' a' j :
  represents o n s a -> sound_event s e -> serves srcDir a e text a' -> loop_step srcDir e s = Ok s' ->
  subject e <> Some j -> elsewhere j s s' a a'.
Proof.
  intros Hrep Hsound Hserve Hrun Hj Hstore. pose proof (rp_loop _ _ _ _ Hrep) as Hs. apply and_assoc. split.
  - destruct e as [i fd|i r sent|i w|i|i|i|i|]; cbn [loop_step subject] in *;
      try (refine (handle_elsewhere i _ s s' j Hs _ Hrun _); [first [apply on_readable_local|apply on_conn_local]|congruence]).
    + assert (Hnone : members s !! i = None).
      { inversion Hserve as [? ? Hc| | | | | | | | | |]; subst. apply guests_none.
        pose proof (rp_guests _ _ _ _ Hrep i) as Hg. rewrite Hc in Hg. by inversion Hg. }
      destruct (accept_local i fd s Hs Hsound Hnone) as (s2 & Hrun2 & Hgs & _ & _ & _ & _ & Hst).
      rewrite Hrun in Hrun2. injection Hrun2 as <-. split; [apply Hst; congruence|].
      rewrite <-!not_eq_None_Some, <-!guests_none, Hgs. by rewrite lookup_insert_ne by congruence.
    + unfold release in Hrun. destruct (members s !! i) as [h|]; [|done]. cbn [of_option] in Hrun. rewrite bind_ok in Hrun.
      inv_bind Hrun. simplify_eq. cbn [epoll members store]. assert (j <> i) by congruence. by rewrite !lookup_delete_ne.
    + unfold second in Hrun. destruct (ontime (buckets s)) as [dead w]. apply expire_all_epoll in Hrun as [He Hm].
      rewrite He. split; [done|apply Hm].
  - intros held k Hk. destruct Hserve; cbn [subject clients set_client] in *;
      rewrite ?lookup_insert_ne, ?lookup_delete_ne in Hk by congruence; try (by exists k).
    rewrite lookup_fmap in Hk. destruct (clients a !! j) as [[held' k'| | |]|]; cbn in Hk; try done.
    destruct (_ <=? _)%nat; simplify_eq. by exists k'.
Qed.
(** *** Any run *)

(** What a run sends to client [i]. *)
Fixpoint answers_for (i : nat) (es : list loop_event) (xs : list output) : bytes :=
  match es, xs with
  | e :: es, x :: xs => outs i e x ++ answers_for i es xs
  | _, _ => []
  end.

Lemma answers_for_app i es1 : forall xs1 es2 xs2,
  length es1 = length xs1 -> answers_for i (es1 ++ es2) (xs1 ++ xs2) = answers_for i es1 xs1 ++ answers_for i es2 xs2.
Proof.
  induction es1 as [|e es1 IH]; intros [|x xs1] es2 xs2 Hl; try done.
  cbn [app answers_for]. rewrite IH by (simpl in Hl; lia). by rewrite app_assoc.
Qed.

Lemma cost_nonneg A e : page_limit srcDir A -> 0 <= cost A e.
Proof. intros [HA _]. destruct e as [|? [|[]]| | | | | |]; cbn [cost]; lia. Qed.

Lemma total_cost_nonneg A es : page_limit srcDir A -> 0 <= total_cost A es.
Proof. intros HA. induction es as [|e es IH]; cbn [total_cost]; [lia|]. pose proof (cost_nonneg A e HA). lia. Qed.

Lemma service_run A es : forall o n s a,
  represents o n s a -> srcDir <> [] -> page_limit srcDir A -> may_happen srcDir es a -> loop_sound es s ->
  total_cost A es <= n <= max_size - 2048 ->
  match loop_run srcDir es s with
  | Ok s' => exists xs a', serves_all srcDir a es xs a' /\ represents (lose (losses xs) o) (n - total_cost A es) s' a' /\
      (forall i, Release i ∉ es -> sent_to s' i = sent_to s i ++ answers_for i es xs) /\
      forall j, Forall (fun e => subject e <> Some j) es -> elsewhere j s s' a a'
  | Fault f => exists xs, breaks_in srcDir a es xs f
  end.
Proof.
  induction es as [|e es IH]; intros o n s a Hrep Hsrc Hlim Hmay Hsound Hn.
  - exists [], a. cbn [losses foldr total_cost]. rewrite Z.sub_0_r, lose_none. split_and!; try done; [constructor| |].
    + intros i _. by rewrite app_nil_r.
    + intros j _. apply elsewhere_refl.
  - destruct Hmay as [Hposs Hmay]. destruct Hsound as [Hsound1 Hsound]. cbn [total_cost loop_run] in *.
    pose proof (cost_nonneg A e Hlim). pose proof (total_cost_nonneg A es Hlim).
    pose proof (service_step o n s a e A Hrep Hsrc Hlim Hposs Hsound1 ltac:(lia) ltac:(lia)) as Hstep.
    destruct (loop_step srcDir e s) as [s1|f] eqn:Hrun; [|exists []; by apply breaks_now].
    destruct Hstep as (x & a1 & Hserve & Hrep1 & Hst1). rewrite bind_ok.
    specialize (IH _ (n - cost A e) s1 a1 Hrep1 Hsrc Hlim (Hmay _ _ Hserve) Hsound ltac:(lia)).
    destruct (loop_run srcDir es s1) as [s2|f].
    + destruct IH as (xs & a2 & Hserve2 & Hrep2 & Hst2 & Helse). exists (x :: xs), a2.
      split; [by econstructor|]. cbn [losses foldr]. rewrite Z.sub_add_distr. rewrite lose_lose in Hrep2. split; [done|]. split.
      * intros i Hi. apply not_elem_of_cons in Hi as [He Hi]. cbn [answers_for].
        rewrite (Hst2 i Hi), Hst1 by congruence. by rewrite app_assoc.
      * intros j [Hj Hes]%Forall_cons. eapply elsewhere_trans; [|by apply Helse]. by eapply step_elsewhere.
    + destruct IH as [xs Hbr]. exists (x :: xs). by eapply breaks_later.
Qed.
End refinement.

(** ** The loop and its own accounts *)

(** The service with the pool and the database themselves: nothing that clients
    may send is excluded. *)
Section own.
Context {DB : Type} `{!MySQL DB} {FS : FileSystem} (srcDir : bytes).
Implicit Types (s : loop_state (DB := DB)) (a : service (env DB)).

(** C3: The loop serves.  Whatever clients connect, send, close or leave idle, in
    whatever order the events come and however the sockets take the answers,
    the loop with its one poller, its buffers and its wheel does what the
    service may do: every message of a live client gets the answer that its
    text, the accounts and the files call for, complete and in order, and goes
    on with what the parser kept; a client that is silent for three seconds is
    shut down and not answered any more.  And the loop fails, with the same
    fault, only where the service breaks: at a form that cannot be decoded, a
    question that the pool or the database cannot answer, a page that cannot be
    mapped, or the end of a connection that is closed already.  The events must
    be the kernel's: new descriptors, no more written than was offered, nothing
    to read on a closed connection; and all that comes in and goes out must fit
    the buffers. *)
Theorem loop_implements_service (o : os) (A : Z) (es : list loop_event) s a :
  represents o (total_cost A es) s a -> srcDir <> [] -> page_limit srcDir A ->
  may_happen srcDir es a -> loop_sound srcDir es s -> total_cost A es <= max_size - 2048 ->
  (exists s' xs a', loop_run srcDir es s = Ok s' /\ serves_all srcDir a es xs a' /\ represents (lose (losses xs) o) 0 s' a' /\
    forall i, Release i ∉ es -> sent_to s' i = sent_to s i ++ answers_for i es xs) \/
  (exists f xs, loop_run srcDir es s = Fault f /\ breaks_in srcDir a es xs f).
Proof.
  intros Hrep Hsrc Hlim Hmay Hsound Htotal.
  pose proof (service_run srcDir A es o _ s a Hrep Hsrc Hlim Hmay Hsound ltac:(lia)) as Hrun.
  destruct (loop_run srcDir es s) as [s'|f].
  - left. destruct Hrun as (xs & a' & ? & Hrep' & ? & _). exists s', xs, a'. by rewrite Z.sub_diag in Hrep'.
  - right. destruct Hrun as [xs Hbr]. by exists f, xs.
Qed.

(** C8: What is left behind.  After a run that did not fail, whatever the clients
    sent, each open mapping belongs to the last response of a connection that
    is there, or was lost, with its descriptor, by an answer from a file that
    begins with four bytes FF, once for each such answer; no other descriptor
    of a file is open, and when all connections are gone nothing but the lost
    ones remains. *)
Theorem files_accounted (o : os) (A : Z) (es : list loop_event) s s' a :
  represents o (total_cost A es) s a -> srcDir <> [] -> page_limit srcDir A ->
  may_happen srcDir es a -> loop_sound srcDir es s -> total_cost A es <= max_size - 2048 ->
  loop_run srcDir es s = Ok s' ->
  exists xs a', serves_all srcDir a es xs a' /\
    fds (w_os (common s')) = fds o + losses xs /\
    maps (w_os (common s')) = maps o + losses xs + Z.of_nat (size (mapped (guests_of s'))) /\
    (members s' = ∅ -> w_os (common s') = lose (losses xs) o).
Proof.
  intros Hrep Hsrc Hlim Hmay Hsound Htotal Hrun.
  pose proof (service_run srcDir A es o _ s a Hrep Hsrc Hlim Hmay Hsound ltac:(lia)) as Hall. rewrite Hrun in Hall.
  destruct Hall as (xs & a' & Hserve & Hrep' & _). exists xs, a'. split; [done|].
  rewrite (rp_files _ _ _ _ Hrep'). split; [done|]. split; [done|].
  intros Hm. unfold accounted, guests_of. rewrite Hm, fmap_empty.
  unfold mapped. rewrite map_filter_empty, dom_empty_L, size_empty, Z.add_0_r. by destruct (lose _ _).
Qed.
End own.

(** ** Witnesses *)

Local Open Scope nat_scope.

(** *** The site *)

(** The files of the site are short. *)
Lemma demo_sizes p st : fs_stat p = Some st -> st_size st ∈ [4096; 12; 7; 5; 0]%Z.
Proof.
  assert (Hall : map_Forall (fun _ d => Z.of_nat (length d) ∈ [4096; 12; 7; 5; 0]%Z) demo_files)
    by (apply (bool_decide_unpack _); vm_compute; exact I).
  unfold fs_stat, demo_fs. case_bool_decide; [intros [= <-]; constructor|].
  intros (d & Hd & ->)%fmap_Some. exact (Hall p d Hd).
Qed.

Lemma demo_page_size code0 p : st_size (page_for (lit "/w") code0 p).2 ∈ [4096; 12; 7; 5; 0]%Z.
Proof.
  assert (Hdef : forall found, (forall st, found = Some st -> exists q, fs_stat q = Some st) ->
    st_size (default stat_zero found) ∈ [4096; 12; 7; 5; 0]%Z).
  { intros [st|] Hf; [destruct (Hf st eq_refl) as [q Hq]; exact (demo_sizes q st Hq)|]. by repeat constructor. }
  unfold page_for. destruct (CODE_PATH !! _) as [q|]; cbn [snd].
  - destruct (fs_stat (c_str (lit "/w" ++ q))) as [st|] eqn:Hq; cbn [default from_option id]; [by apply (demo_sizes _ st Hq)|].
    apply Hdef. eauto.
  - apply Hdef. eauto.
Qed.

Lemma short_number n : (n ∈ [4096; 12; 7; 5; 0])%Z -> length (content_length n) <= 50 /\ Z.to_nat n <= 4096.
Proof.
  rewrite !elem_of_cons, elem_of_nil. intros [->|[->|[->|[->|[->|[]]]]]]; split; apply Nat.leb_le; vm_compute; reflexivity.
Qed.

Lemma no_file_short code : known_code code -> length (no_file code) <= 400.
Proof. intros [->|[->|[->| ->]]]; apply Nat.leb_le; vm_compute; reflexivity. Qed.

Lemma demo_limit : page_limit (lit "/w") 5000.
Proof.
  split; [done|]. split; [intros p st Hst; apply demo_sizes, short_number in Hst; lia|]. intros keep ok p sh.
  pose proof (page_for_known (lit "/w") ok p) as Hk. pose proof (demo_page_size (if ok : bool then 200 else 400)%Z p) as Hsz.
  unfold sheet_of. destruct (page_for _ _ p) as [[code q] st]. cbn [fst snd] in *. apply short_number in Hsz as [Hc Hn].
  pose proof (head_short keep code q Hk) as Hh. pose proof (no_file_short code Hk) as Hno.
  generalize dependent (sheet_head keep code q). generalize dependent (no_file code).
  generalize dependent (content_length (st_size st)). intros len Hc no Hno head Hh Hsh.
  destruct (negb _); [injection Hsh as <-; cbn [sh_text]; rewrite length_app; lia|].
  destruct (fs_mmap _ _) as [m|]; cbn [of_option] in Hsh; [|done]. rewrite bind_ok in Hsh. inv_bind Hsh. destruct a.
  { injection Hsh as <-. cbn [sh_text]. rewrite length_app. lia. }
  destruct (0 <? st_size st)%Z; [|injection Hsh as <-; cbn [sh_text]; rewrite length_app; lia].
  inv_bind Hsh. injection Hsh as <-. cbn [sh_text]. rewrite !length_app, length_take. lia.
Qed.

(** *** A loop that starts *)

(** No connection, nothing in the wheel; the loop may have channels of its own. *)
Definition first_loop {DB} `{!MySQL DB} (p : Epoller) (wd : world (DB := DB)) : loop_state :=
  mkLoopState ∅ p new_wheel wd.

Lemma represents_start {B DB} `{!MySQL DB} `{!Books B} `{!BooksOk B DB} {FS : FileSystem} n p (wd : world (DB := DB)) (b : B) :
  shared_ok p -> calm p -> describes b (w_env wd) ->
  represents (w_os wd) n (first_loop p wd) (mkService b ∅).
Proof.
  intros Hs Hcalm Hb. split; try done.
  - intros i. unfold guests_of. cbn [first_loop members clients]. rewrite fmap_empty, !lookup_empty. constructor.
  - unfold accounted, guests_of. cbn [first_loop members common]. rewrite fmap_empty.
    unfold mapped. rewrite map_filter_empty, dom_empty_L, size_empty, Z.add_0_r. by destruct (w_os wd).
Qed.

Lemma empty_poller_ok : shared_ok (new_poller ∅) /\ calm (new_poller ∅).
Proof. split; [split; [by apply new_poller_mirrors|]|]; by intros i. Qed.

(** The assumptions on the kernel, as a check of a run. *)
Section check.
Context {DB : Type} `{!MySQL DB} {FS : FileSystem} (srcDir : bytes).
Implicit Types s : loop_state (DB := DB).

Definition sound_check s (e : loop_event) : bool :=
  match e with
  | Accept i fd =>
      bool_decide (store (epoll s) !! i = None) && bool_decide (map_Forall (fun _ c => fd_ c <> fd) (store (epoll s))) &&
      negb (alive i (buckets s))
  | Write i (IoOk k) =>
      match guests_of s !! i with
      | Some g => k <=? length (contents (output_buffer_ (hc_conn g)))
      | None => true
      end
  | _ => true
  end.

Fixpoint run_check (es : list loop_event) s : bool :=
  match es with
  | [] => true
  | e :: es => sound_check s e && match loop_step srcDir e s with Ok s1 => run_check es s1 | Fault _ => true end
  end.

Lemma sound_check_ok s e : sound_check s e = true -> sound_event s e.
Proof.
  destruct e as [i fd| |i [er|k]| | | | |]; cbn [sound_check sound_event]; try done.
  - intros [[H1 H2]%andb_true_iff H3%negb_true_iff]%andb_true_iff.
    apply bool_decide_eq_true in H1, H2. split; [done|]. split; [exact H2|done].
  - intros Hk g Hg. rewrite Hg in Hk. by apply Nat.leb_le.
Qed.

Lemma run_check_ok es : forall s, run_check es s = true -> loop_sound srcDir es s.
Proof.
  induction es as [|e es IH]; intros s; cbn [run_check loop_sound]; [done|].
  intros [He Hes]%andb_true_iff. split; [by apply sound_check_ok|]. destruct (loop_step srcDir e s); [by apply IH|done].
Qed.
End check.

(** *** A visit *)

(** One client logs in, one reads the page twice, and then stays silent. *)
Definition login_form : list (bytes * bytes) * (bytes * bytes) :=
  ([(lit "username", lit "mark")], (lit "password", lit "123")).

Definition login_text : bytes :=
  print_request (lit "POST") (lit "/login") (lit "1.1") [(lit "Content-Type", lit "application/x-www-form-urlencoded")]
    (form_text plus (fst login_form) (snd login_form)).

Definition demo_loop : loop_state := first_loop (new_poller ∅) (mkWorld (demo_env [Some 0; Some 1]) (mkOs 3 0)).

Definition demo_service : service (env demo_db) := mkService (w_env (common demo_loop)) ∅.

Definition demo_visit : list loop_event :=
  [Accept 0 5; Read 0 (IoOk login_text) (IoErr EWOULDBLOCK); Accept 1 6; Write 0 (IoOk 60); Functor 0;
   Read 1 (IoOk index_text) (IoErr EPIPE); Second; Read 1 (IoErr EWOULDBLOCK) (IoOk 0); Second; Second;
   Read 0 (IoOk login_text) (IoOk 9); Read 0 (IoOk []) (IoOk 0); Hangup 1; Remove 1; Remove 0; Functor 0;
   Release 0; Release 1].

(** A visitor posts a form that ends in the middle of an escape; another one
    asks for a file that begins with four bytes FF. *)
Definition cut_text : bytes :=
  print_request (lit "POST") (lit "/login") (lit "1.1") [(lit "Content-Type", lit "application/x-www-form-urlencoded")]
    (lit "username=mark&password=%4").

Definition bad_visit : list loop_event :=
  [Accept 1 6; Read 1 (IoOk index_text) (IoErr EWOULDBLOCK); Accept 0 5; Read 0 (IoOk cut_text) (IoErr EWOULDBLOCK); Second].

Definition ff_text : bytes := print_request (lit "GET") (lit "/ff.bin") (lit "1.1") [(lit "Host", lit "h")] [].
Definition ff_visit : list loop_event :=
  [Accept 0 5; Read 0 (IoOk ff_text) (IoErr EWOULDBLOCK); Hangup 0; Remove 0; Release 0].

Example demo_visit_runs :
  match loop_run (lit "/w") demo_visit demo_loop with
  | Ok s => bool_decide (members s = ∅) = true
  | Fault _ => False
  end.
Proof. vm_compute. reflexivity. Qed.

Example bad_visit_fails : loop_run (lit "/w") bad_visit demo_loop = Fault OutOfRange.
Proof. vm_compute. reflexivity. Qed.

Definition ff_end : os := mkOs 4 1.
Example ff_visit_runs :
  match loop_run (lit "/w") ff_visit demo_loop with
  | Ok s => bool_decide (members s = ∅) = true /\ w_os (common s) = ff_end
  | Fault _ => False
  end.
Proof. vm_compute. by split. Qed.

Example demo_visit_checks : forallb (fun es => run_check (lit "/w") es demo_loop) [demo_visit; bad_visit; ff_visit] = true.
Proof. vm_compute. reflexivity. Qed.

(** A client may send anything. *)
Lemma may_send i data err held k es (a : service (env demo_db)) :
  clients a !! i = Some (Live held k) -> data <> [] ->
  (forall held' b, may_happen (lit "/w") es (mkService b (<[i := Live held' wheel_size]> (clients a)))) ->
  may_happen (lit "/w") (Read i (IoOk data) (IoErr err) :: es) a.
Proof.
  intros Hc Hd Hes. eapply may_message; [done|done| |done]. cbn [possible]. destruct data; [done|]. rewrite Hc.
  split; [apply proper_own|done].
Qed.

Lemma demo_may : may_happen (lit "/w") demo_visit demo_service.
Proof.
  apply may_accept; [reflexivity|]. eapply may_send; [reflexivity|discriminate|].
  intros held b. apply may_accept; [reflexivity|].
  apply (may_quiet _ 0); [by eexists|left; by eexists|]. apply (may_quiet _ 0); [by eexists|by right; left|].
  eapply may_send; [reflexivity|discriminate|].
  intros held' b'. apply may_second. apply (may_quiet _ 1); [by eexists|by right; right; do 2 eexists|].
  apply may_second, may_second. apply may_ignored; [reflexivity|discriminate|].
  eapply (may_close _ 0); [reflexivity|exact I|by right|]. eapply (may_close _ 1); [reflexivity|exact I|by left|].
  apply may_remove; [reflexivity|]. apply may_remove; [reflexivity|].
  apply (may_quiet _ 0); [by eexists|by right; left|].
  apply may_release; [reflexivity|]. apply may_release; [reflexivity|]. exact I.
Unshelve.
  exact (IoOk 0).
Qed.

Lemma bad_may : may_happen (lit "/w") bad_visit demo_service.
Proof.
  apply may_accept; [reflexivity|]. eapply may_send; [reflexivity|discriminate|]. intros held b.
  apply may_accept; [reflexivity|]. eapply may_send; [reflexivity|discriminate|]. intros held' b'. by apply may_second.
Qed.

Lemma ff_may : may_happen (lit "/w") ff_visit demo_service.
Proof.
  apply may_accept; [reflexivity|]. eapply may_send; [reflexivity|discriminate|]. intros held b.
  eapply (may_close _ 0); [reflexivity|exact I|by left|]. apply may_remove; [reflexivity|]. by apply may_release.
Unshelve.
  exact (IoOk 0).
Qed.

Lemma demo_represents n : represents (mkOs 3 0) n demo_loop demo_service.
Proof.
  destruct empty_poller_ok as [Hs Hc].
  exact (represents_start n (new_poller ∅) (mkWorld (demo_env [Some 0; Some 1]) (mkOs 3 0)) (demo_env [Some 0; Some 1]) Hs Hc eq_refl).
Qed.

Lemma visit_sound es : es ∈ [demo_visit; bad_visit; ff_visit] -> loop_sound (lit "/w") es demo_loop.
Proof.
  intros Hin. apply run_check_ok. pose proof demo_visit_checks as Hc. rewrite forallb_forall in Hc.
  apply Hc. by apply list_elem_of_In.
Qed.

Lemma demo_cost es : es ∈ [demo_visit; bad_visit; ff_visit] -> (total_cost 5000 es <= max_size - 2048)%Z.
Proof. rewrite !elem_of_cons, elem_of_nil. intros [->|[->|[->|[]]]]; apply Z.leb_le; vm_compute; reflexivity. Qed.

(** The visit is served, and the form that cannot be decoded brings the loop
    down after everything before it was served. *)
Theorem loop_implements_service_witness :
  (exists s' xs a', loop_run (lit "/w") demo_visit demo_loop = Ok s' /\ serves_all (lit "/w") demo_service demo_visit xs a') /\
  (exists xs, breaks_in (lit "/w") demo_service bad_visit xs OutOfRange).
Proof.
  split.
  - destruct (loop_implements_service (lit "/w") (mkOs 3 0) 5000 demo_visit demo_loop demo_service)
      as [(s' & xs & a' & Hrun & Hserve & _)|(f & xs & Hrun & _)];
      [apply demo_represents|discriminate|exact demo_limit|exact demo_may|apply visit_sound; by left|apply demo_cost; by left| |].
    + exists s', xs, a'. exact (conj Hrun Hserve).
    + pose proof demo_visit_runs as Hok. rewrite Hrun in Hok. destruct Hok.
  - destruct (loop_implements_service (lit "/w") (mkOs 3 0) 5000 bad_visit demo_loop demo_service)
      as [(s' & xs & a' & Hrun & _)|(f & xs & Hrun & Hbr)];
      [apply demo_represents|discriminate|exact demo_limit|exact bad_may|apply visit_sound; by right; left|
       apply demo_cost; by right; left| |].
    + rewrite bad_visit_fails in Hrun. discriminate Hrun.
    + exists xs. rewrite bad_visit_fails in Hrun. injection Hrun as <-. exact Hbr.
Defined.

(** One descriptor and one mapping are lost to the file of FF bytes. *)
Theorem files_accounted_witness :
  exists s' xs a', loop_run (lit "/w") ff_visit demo_loop = Ok s' /\ serves_all (lit "/w") demo_service ff_visit xs a' /\
    losses xs = 1%Z /\ w_os (common s') = lose 1 (mkOs 3 0).
Proof.
  pose proof ff_visit_runs as Hok. destruct (loop_run (lit "/w") ff_visit demo_loop) as [s'|f] eqn:Hrun; [|destruct Hok].
  destruct Hok as [Hm Hos].
  destruct (files_accounted (lit "/w") (mkOs 3 0) 5000 ff_visit demo_loop s' demo_service)
    as (xs & a' & Hserve & Hfds & _ & Hend);
    [apply demo_represents|discriminate|exact demo_limit|exact ff_may|apply visit_sound; by right; right; left|
     apply demo_cost; by right; right; left|exact Hrun|].
  exists s', xs, a'. rewrite Hos in Hfds. unfold ff_end in Hfds. cbn [fds] in Hfds.
  assert (Hl : losses xs = 1%Z) by lia. rewrite Hl in Hend.
  exact (conj eq_refl (conj Hserve (conj Hl (Hend (proj1 (bool_decide_eq_true _) Hm))))).
Defined.
