(* ===== verification/Login.v ===== *)
(** * Login: logins and registrations through the loop (src/http/httprequest.cc, httpcontext.cc, httpserver.cc)

    What a client that posts a name and a password gets, from the bytes its
    socket delivers to the bytes the server sends, and what becomes of the
    accounts: at a login, at a registration, and when it posts again on the
    same connection.  The database may fail the query or lose its result; the
    pool has a connection in front, and the name goes into the statement as it
    is, so it has to be text that SQL takes for itself. *)

From stdpp Require Import base list numbers strings gmap.
From Stdlib Require Import ZArith Lia Ascii.
From S2P Require Import Prelude Buffer Regex SqlConnPool HttpRequest Forms Parsing Accounts HttpResponse HttpContext Channel TcpConnection ConnectionProofs HttpServer Serving SharedPoller Reactor Service Determined Refinement.

Local Open Scope Z_scope.
Local Open Scope result_scope.

(** ** The form *)

Definition login_body (u w : bytes) : bytes := form_text plus [(lit "username", u)] (lit "password", w).

(** A name and a password that need no escapes and fit the statement. *)
Record credentials (u w : bytes) : Prop := {
  cr_name : u <> [] /\ Forall plain u /\ sql_text u;
  cr_password : w <> [] /\ Forall plain w;
  cr_line : no_crlf (login_body u w);
  cr_size : Z.of_nat (length (login_body u w)) < 2 ^ 31
}.

Lemma plain_key (s : string) : forallb (fun c => negb (existsb (ascii_eqb c) (lit "=+%&"))) (lit s) = true -> Forall plain (lit s).
Proof.
  intros H. apply Forall_forall. intros c Hc. rewrite forallb_forall in H. apply list_elem_of_In, H in Hc.
  unfold plain. cbn in Hc. split_and!; intros ->; discriminate Hc.
Qed.

Lemma login_decoded u w :
  credentials u w -> decoded (login_body u w) (<[lit "password" := w]> {[lit "username" := u]}).
Proof.
  intros [(Hu & Hpu & _) (Hw & Hpw) _ Hsize].
  assert (Hd : decoded (login_body u w) (set_last (lit "password", w) (set_fields [(lit "username", u)] ∅))).
  { apply decoded_form; [|split; [by apply plain_key|exact Hpw]|exact Hsize].
    constructor; [|constructor]. split; [by apply plain_key|exact Hpu]. }
  assert (Hset : set_fields [(lit "username", u)] ∅ = {[lit "username" := u]}) by done.
  rewrite Hset in Hd. unfold set_last in Hd. cbn [fst snd] in Hd.
  rewrite bool_decide_true in Hd by by rewrite lookup_singleton_ne.
  by rewrite bool_decide_false in Hd.
Qed.

Section login.
Context {DB : Type} `{!MySQL DB} {FS : FileSystem} (srcDir : bytes).
Implicit Types (s : loop_state (DB := DB)) (a : service (env DB)).

(** *** A form at the parser *)

(** The pages of the two forms: registration (0) and login (1). *)
Definition form_path (tag : Z) : bytes := if tag =? 0 then lit "/register" else lit "/login".

Definition form_request (tag : Z) (v : bytes) (hs : list (bytes * bytes)) (u w : bytes) : bytes :=
  print_request (lit "POST") (form_path tag) v hs (login_body u w).

(** The text is a form the server takes for one. *)
Record account_form (tag : Z) (v : bytes) (hs : list (bytes * bytes)) (u w : bytes) : Prop := {
  af_tag : tag = 0 \/ tag = 1;
  af_version : word v;
  af_headers : Forall header_ok hs;
  af_form : is_form (request_of BODY (lit "POST") (form_path tag) v hs);
  af_credentials : credentials u w
}.

Lemma form_word tag : tag = 0 \/ tag = 1 -> word (form_path tag).
Proof. intros [->| ->]; by repeat constructor. Qed.

Lemma form_kept u w : credentials u w -> kept (login_body u w) = login_body u w /\
  take (search_crlf (login_body u w)) (login_body u w) = login_body u w.
Proof.
  intros [_ _ Hline _]. split; [unfold kept; by rewrite decide_True|]. unfold no_crlf in Hline. by rewrite Hline, firstn_all.
Qed.

Lemma form_tag tag v hs : tag = 0 \/ tag = 1 -> DEFAULT_HTML_TAG !! path (request_of BODY (lit "POST") (form_path tag) v hs) = Some tag.
Proof. by intros [->| ->]. Qed.

(** Whether the connection of a form is kept open. *)
Definition form_keep (tag : Z) (v : bytes) (hs : list (bytes * bytes)) : bool :=
  IsKeepAlive (request_of FINISH (lit "POST") (form_path tag) v hs).

(** A form is read to its end, its question is put, and its body is kept. *)
Lemma form_understood tag v hs u w :
  account_form tag v hs u w ->
  exists r, understand (form_request tag v hs u w) = Ok (mkReading true r (Some (mkQuestion (tag =? 1) u w)) (login_body u w)) /\
    IsKeepAlive r = form_keep tag v hs.
Proof.
  intros [Htag Hv Hhs Hform Hcred]. destruct (form_kept u w Hcred) as [Hk Htake]. unfold form_request.
  rewrite understand_printed; [|by repeat constructor|by apply form_word|done|done].
  rewrite decide_False by (by destruct u). rewrite Htake, Hk.
  destruct (form_asks (request_of BODY (lit "POST") (form_path tag) v hs) (login_body u w) _ tag Hform
    (login_decoded u w Hcred) (post_request_of _ _ _ _ _) (form_tag tag v hs Htag)) as (r & -> & Hkeep).
  exists r. rewrite bind_ok. split; [done|]. rewrite Hkeep. by unfold form_keep, IsKeepAlive.
Qed.

(** A text whose reading is known, through the loop: what the accounts say to
    its question decides the page. *)
Lemma text_through_loop (o : os) (n A : Z) s a i held k data sent rd :
  represents o n s a -> clients a !! i = Some (Live held k) -> data <> [] -> srcDir <> [] ->
  understand (held ++ data) = Ok rd -> possible srcDir a (Read i (IoOk data) sent) ->
  page_limit srcDir A -> Z.of_nat (length data) + A <= n ->
  match (match rd_ask rd with
         | Some q => '(ok, e') ← UserVerify (q_name q) (q_password q) (q_login q) (accounts a); Ok (account_page ok, e')
         | None => Ok (path (rd_request rd), accounts a)
         end) with
  | Fault f => loop_step srcDir (Read i (IoOk data) sent) s = Fault f
  | Ok (p, e') =>
      match sheet_of srcDir (keeps_alive rd) (rd_ok rd) p with
      | Fault f => loop_step srcDir (Read i (IoOk data) sent) s = Fault f
      | Ok sh => exists s' out, loop_step srcDir (Read i (IoOk data) sent) s = Ok s' /\ delivered sent (sh_text sh) out /\
          represents (lose (Z.b2z (sh_lost sh)) o) (n - (Z.of_nat (length data) + A)) s'
            (mkService e' (<[i := Live (rd_rest rd) wheel_size]> (clients a))) /\
          forall j, sent_to s' j = sent_to s j ++ (if (i =? j)%nat then out else [])
      end
  end.
Proof.
  intros Hrep Hc Hd Hsrc Hund Hposs Hlim Hn.
  pose proof (message_step srcDir o n s a i data sent held k A Hrep Hc Hd Hsrc Hposs Hlim Hn) as Hstep.
  assert (Hroute : forall p e', routed (accounts a) rd p e' ->
    match rd_ask rd with
    | Some q => '(ok, e') ← UserVerify (q_name q) (q_password q) (q_login q) (accounts a); Ok (account_page ok, e')
    | None => Ok (path (rd_request rd), accounts a)
    end = Ok (p, e')).
  { intros p e' [Hnone|q ok e1 Hq Hd']; [by rewrite Hnone|]. rewrite Hq. cbn [decides own_books] in Hd'. by rewrite Hd'. }
  destruct (loop_step srcDir _ s) as [s'|f].
  - destruct Hstep as (x & rest & e' & out & Hresp & Hout & Hrep' & Hst).
    destruct Hresp as [rd' p e1 sh Hu Hr Hs]. assert (rd' = rd) as -> by congruence.
    rewrite (Hroute _ _ Hr), Hs. by exists s', out.
  - destruct Hstep as [f Hu|rd' q f Hu Hq Hf|rd' p e1 f Hu Hr Hs]; [congruence|..]; assert (rd' = rd) as -> by congruence.
    + rewrite Hq. cbn [fails own_books] in Hf. by rewrite Hf.
    + by rewrite (Hroute _ _ Hr), Hs.
Qed.

(** A form through the loop. *)
Lemma form_through_loop (o : os) (n A : Z) s a i held k data sent tag v hs u w :
  represents o n s a -> clients a !! i = Some (Live held k) -> data <> [] -> srcDir <> [] ->
  held ++ data = form_request tag v hs u w -> account_form tag v hs u w -> possible srcDir a (Read i (IoOk data) sent) ->
  page_limit srcDir A -> Z.of_nat (length data) + A <= n ->
  match UserVerify u w (tag =? 1) (accounts a) with
  | Fault f => loop_step srcDir (Read i (IoOk data) sent) s = Fault f
  | Ok (ok, e') =>
      match sheet_of srcDir (form_keep tag v hs) true (account_page ok) with
      | Fault f => loop_step srcDir (Read i (IoOk data) sent) s = Fault f
      | Ok sh => exists s' out, loop_step srcDir (Read i (IoOk data) sent) s = Ok s' /\ delivered sent (sh_text sh) out /\
          represents (lose (Z.b2z (sh_lost sh)) o) (n - (Z.of_nat (length data) + A)) s'
            (mkService e' (<[i := Live (login_body u w) wheel_size]> (clients a))) /\
          forall j, sent_to s' j = sent_to s j ++ (if (i =? j)%nat then out else [])
      end
  end.
Proof.
  intros Hrep Hc Hd Hsrc Hwhole Hform Hposs Hlim Hn. destruct (form_understood _ _ _ _ _ Hform) as (r & Hund & Hkeep).
  rewrite <-Hwhole in Hund.
  pose proof (text_through_loop o n A s a i held k data sent _ Hrep Hc Hd Hsrc Hund Hposs Hlim Hn) as Hstep.
  cbn [rd_ask rd_ok rd_rest q_name q_password q_login] in Hstep.
  assert (Hk : keeps_alive (mkReading true r (Some (mkQuestion (tag =? 1) u w)) (login_body u w)) = form_keep tag v hs)
    by (rewrite <-Hkeep; done).
  rewrite Hk in Hstep. destruct (UserVerify u w _ _) as [[ok e']|f]; exact Hstep.
Qed.

(** C40: The second login of a connection is not checked.  What the first login left
    in the buffer, its body, becomes part of the next request's method, so a
    form posted again is answered with the page of its path, for any name and
    password, and no account is looked up or added: the pool and the database
    stay as they are. *)
Theorem relogin_not_checked (o : os) (n A : Z) s a (i : nat) (k : nat) (sent : io nat)
    (v : bytes) (hs : list (bytes * bytes)) (u w u' w' : bytes) :
  represents o n s a -> clients a !! i = Some (Live (login_body u w) k) -> srcDir <> [] ->
  word (login_body u w) -> word v -> Forall header_ok hs ->
  let data := print_request (lit "POST") (lit "/login") v hs (login_body u' w') in
  possible srcDir a (Read i (IoOk data) sent) -> page_limit srcDir A -> Z.of_nat (length data) + A <= n ->
  match sheet_of srcDir (IsKeepAlive (request_of FINISH (login_body u w ++ lit "POST") (lit "/login") v hs)) true (lit "/login.html") with
  | Ok sh => exists s' out, loop_step srcDir (Read i (IoOk data) sent) s = Ok s' /\ delivered sent (sh_text sh) out /\
      represents (lose (Z.b2z (sh_lost sh)) o) (n - (Z.of_nat (length data) + A)) s'
        (set_client i (Live (kept (login_body u' w')) wheel_size) a) /\
      forall j, sent_to s' j = sent_to s j ++ (if (i =? j)%nat then out else [])
  | Fault f => loop_step srcDir (Read i (IoOk data) sent) s = Fault f
  end.
Proof.
  intros Hrep Hc Hsrc [Hsp Hcr] Hv Hhs data Hposs Hlim Hn. set (m := login_body u w ++ lit "POST") in *.
  assert (Hm : word m) by (split; apply Forall_app; split; try done; by repeat constructor).
  assert (Hwhole : login_body u w ++ data = print_request m (lit "/login") v hs (login_body u' w'))
    by (unfold data, print_request, m; by rewrite <-!app_assoc).
  assert (Hno : ~ is_form (request_of BODY m (lit "/login") v hs)).
  { intros [Hpost _]. apply (f_equal length) in Hpost.
    change (method_ (request_of BODY m (lit "/login") v hs)) with m in Hpost. unfold m in Hpost.
    rewrite length_app in Hpost. cbn in Hpost. lia. }
  destruct (plain_body (take (search_crlf (login_body u' w')) (login_body u' w')) _ Hno) as (r & Hbody & Hpath & Hkeep).
  assert (Hund : understand (login_body u w ++ data) = Ok (mkReading true r None (kept (login_body u' w')))).
  { rewrite Hwhole, understand_printed; [|done|by repeat constructor|done|done]. rewrite decide_False by done.
    by rewrite Hbody. }
  pose proof (text_through_loop o n A s a i _ k data sent _ Hrep Hc ltac:(done) Hsrc Hund Hposs Hlim Hn) as Hstep.
  cbn [rd_ask rd_request rd_ok rd_rest] in Hstep. unfold keeps_alive in Hstep. cbn [rd_ok rd_request andb] in Hstep.
  rewrite Hkeep in Hstep. change (path r) with (HttpRequest.path_ r) in *. rewrite Hpath in Hstep. exact Hstep.
Qed.

Context `{!UserTable DB}.

(** *** What the accounts say *)

(** The login of a name: the select brings it, with exactly that password. *)
Definition admitted (c : nat) (u w : bytes) (d : DB) : bool :=
  match select_outcome c u d with Rows => bool_decide (users d !! collate u = Some w) | _ => false end.

(** The name is free, as far as the select can tell. *)
Definition vacant (c : nat) (u : bytes) (d : DB) : bool :=
  match select_outcome c u d with Rows => bool_decide (users d !! collate u = None) | _ => false end.

(** The connection goes back to the end of the queue, after a select that did
    not fail twice. *)
Definition given_back (c : nat) (q : list (option nat)) (u : bytes) (e : env DB) : SqlConnPool :=
  match select_outcome c u (db e) with Failed => released_once c q (sqlpool e) | _ => released_twice c q (sqlpool e) end.

(** C5: Only the password opens the welcome page.  A client posts a name and a
    password, as the first form of its connection, to /login: both of
    unescaped form characters, at most a hundred of them in the name and among
    those no quote, backslash or NUL, and the form is whole, in one message or
    with a rest the parser had kept.  The pool has a connection in front.  Then
    the client is sent the welcome page when the select brings the name with
    exactly that password, as the table's collation compares names, and the
    error page when it does not or the query fails; no account changes, nobody
    else is sent anything, the body stays in the buffer, and the connection
    goes back to the pool, twice if the query did not fail.  The server comes
    down when the result of the select is lost or the page cannot be mapped. *)
Theorem login_through_loop (o : os) (n A : Z) s a (i : nat) (held : bytes) (k : nat) (data : bytes) (sent : io nat)
    (v : bytes) (hs : list (bytes * bytes)) (u w : bytes) (c : nat) (q : list (option nat)) :
  represents o n s a -> clients a !! i = Some (Live held k) -> data <> [] -> srcDir <> [] ->
  held ++ data = form_request 1 v hs u w -> account_form 1 v hs u w -> sql_text u ->
  conn_que_ (sqlpool (accounts a)) = Some c :: q -> 0 < sem_id_ (sqlpool (accounts a)) ->
  possible srcDir a (Read i (IoOk data) sent) -> page_limit srcDir A -> Z.of_nat (length data) + A <= n ->
  match select_outcome c u (db (accounts a)), sheet_of srcDir (form_keep 1 v hs) true (account_page (admitted c u w (db (accounts a)))) with
  | Lost, _ => loop_step srcDir (Read i (IoOk data) sent) s = Fault NullDeref
  | _, Fault f => loop_step srcDir (Read i (IoOk data) sent) s = Fault f
  | _, Ok sh => exists s' d out, loop_step srcDir (Read i (IoOk data) sent) s = Ok s' /\ delivered sent (sh_text sh) out /\
      users d = users (db (accounts a)) /\
      represents (lose (Z.b2z (sh_lost sh)) o) (n - (Z.of_nat (length data) + A)) s'
        (mkService (mkEnv (given_back c q u (accounts a)) d) (<[i := Live (login_body u w) wheel_size]> (clients a))) /\
      forall j, sent_to s' j = sent_to s j ++ (if (i =? j)%nat then out else [])
  end.
Proof.
  intros Hrep Hc Hd Hsrc Hwhole Hform Hsql Hq Hsem Hposs Hlim Hn.
  pose proof (form_through_loop o n A s a i held k data sent 1 v hs u w Hrep Hc Hd Hsrc Hwhole Hform Hposs Hlim Hn) as Hstep.
  pose proof Hform as [_ _ _ _ [(Hu & _) (Hw & _) _ _]].
  pose proof (login_correct u w (accounts a) c q Hsql Hu Hw Hq Hsem) as Hlogin. unfold admitted, given_back.
  change (1 =? 1) with true in Hstep.
  destruct (select_outcome c u (db (accounts a))); [| |by rewrite Hlogin in Hstep];
    destruct Hlogin as (d & Hv & Hu'); rewrite Hv in Hstep; (destruct (sheet_of _ _ _ _); [|exact Hstep]);
    destruct Hstep as (s' & out & Hrun & Hout & Hrep' & Hst); by exists s', d, out.
Qed.

(** A registration adds the account or, when the database refuses the row
    without notice, nothing. *)
Definition registered (T : gmap bytes bytes) (u w : bytes) (T' : gmap bytes bytes) : Prop :=
  T' = T \/ T !! collate u = None /\ T' = <[collate u := stored w]> T.

(** C6: A name is registered once.  A client posts a name and a password, as the
    first form of its connection, to /register, under the conditions of a login
    and with a password of the same kind as the name.  It is sent the welcome
    page when the select finds the name free, as the collation compares names,
    and the error page when the name is taken or the query fails; a taken name
    keeps its password, a free one gets this password or, when the insertion
    fails, which nobody is told, none; nobody else is sent anything.  The
    server comes down when the result of the select is lost or the page cannot
    be mapped. *)
Theorem register_through_loop (o : os) (n A : Z) s a (i : nat) (held : bytes) (k : nat) (data : bytes) (sent : io nat)
    (v : bytes) (hs : list (bytes * bytes)) (u w : bytes) (c : nat) (q : list (option nat)) :
  represents o n s a -> clients a !! i = Some (Live held k) -> data <> [] -> srcDir <> [] ->
  held ++ data = form_request 0 v hs u w -> account_form 0 v hs u w -> sql_text u -> sql_text w ->
  conn_que_ (sqlpool (accounts a)) = Some c :: q -> 0 < sem_id_ (sqlpool (accounts a)) ->
  possible srcDir a (Read i (IoOk data) sent) -> page_limit srcDir A -> Z.of_nat (length data) + A <= n ->
  match select_outcome c u (db (accounts a)), sheet_of srcDir (form_keep 0 v hs) true (account_page (vacant c u (db (accounts a)))) with
  | Lost, _ => loop_step srcDir (Read i (IoOk data) sent) s = Fault NullDeref
  | _, Fault f => loop_step srcDir (Read i (IoOk data) sent) s = Fault f
  | _, Ok sh => exists s' d out, loop_step srcDir (Read i (IoOk data) sent) s = Ok s' /\ delivered sent (sh_text sh) out /\
      registered (users (db (accounts a))) u w (users d) /\
      (vacant c u (db (accounts a)) = false -> users d = users (db (accounts a))) /\
      represents (lose (Z.b2z (sh_lost sh)) o) (n - (Z.of_nat (length data) + A)) s'
        (mkService (mkEnv (given_back c q u (accounts a)) d) (<[i := Live (login_body u w) wheel_size]> (clients a))) /\
      forall j, sent_to s' j = sent_to s j ++ (if (i =? j)%nat then out else [])
  end.
Proof.
  intros Hrep Hc Hd Hsrc Hwhole Hform Hsql Hsqlw Hq Hsem Hposs Hlim Hn.
  pose proof (form_through_loop o n A s a i held k data sent 0 v hs u w Hrep Hc Hd Hsrc Hwhole Hform Hposs Hlim Hn) as Hstep.
  pose proof Hform as [_ _ _ _ [(Hu & _) (Hw & _) _ _]].
  pose proof (register_correct u w (accounts a) c q Hsql Hsqlw Hu Hw Hq Hsem) as Hreg. unfold vacant, given_back, registered.
  change (0 =? 1) with false in Hstep.
  destruct (select_outcome c u (db (accounts a))); [| |by rewrite Hreg in Hstep];
    destruct Hreg as (d & Hv & Hu'); rewrite Hv in Hstep; (destruct (sheet_of _ _ _ _); [|exact Hstep]);
    destruct Hstep as (s' & out & Hrun & Hout & Hrep' & Hst); exists s', d, out; split_and!; try done.
  - destruct (users _ !! collate u) eqn:Ha; [by left|]. destruct Hu' as [->| ->]; [by left|by right].
  - intros Hno%bool_decide_eq_false. by destruct (users _ !! collate u).
  - by left.
Qed.

(** ** The accounts *)

(** Every account of [T] is in [T'], with its password. *)
Definition keeps (T T' : gmap bytes bytes) : Prop := forall u w, T !! u = Some w -> T' !! u = Some w.

(** A question whose name, and password if it is to be stored, SQL takes for
    what they are; a blank one is not put to the database. *)
Definition plain_question (q : question) : Prop :=
  q_name q = [] \/ q_password q = [] \/ sql_text (q_name q) /\ (q_login q = false -> sql_text (q_password q)).

(** Nothing but plain questions was asked. *)
Definition asks_plainly (x : output) : Prop := match asked x with Some q => plain_question q | None => True end.

(** A verification that came to an end had a connection. *)
Lemma UserVerify_front name pwd isLogin (e : env DB) ok e1 :
  name <> [] -> pwd <> [] -> UserVerify name pwd isLogin e = Ok (ok, e1) ->
  exists c q, conn_que_ (sqlpool e) = Some c :: q /\ 0 < sem_id_ (sqlpool e).
Proof.
  intros Hn Hp. unfold UserVerify. rewrite !bool_decide_false by done. cbn [orb]. unfold raii_acquire, GetConn.
  destruct (conn_que_ (sqlpool e)) as [|[c|] q]; unfold guard_; intros H.
  - done.
  - exists c, q. split; [done|]. destruct (Z.ltb_spec 0 (sem_id_ (sqlpool e))); done.
  - by destruct (0 <? sem_id_ (sqlpool e)).
Qed.

Lemma UserVerify_grow q (e : env DB) ok e1 :
  plain_question q -> UserVerify (q_name q) (q_password q) (q_login q) e = Ok (ok, e1) ->
  users (db e) ⊆ users (db e1).
Proof.
  intros Hq Hv.
  destruct (decide (q_name q = [])) as [Hn|Hn]; [unfold UserVerify in Hv; rewrite Hn in Hv; by simplify_eq/=|].
  destruct (decide (q_password q = [])) as [Hp|Hp].
  { unfold UserVerify in Hv. rewrite (bool_decide_true (q_password q = [])), orb_true_r in Hv by done. by simplify_eq/=. }
  destruct Hq as [?|[?|[Hsql Hsqlw]]]; [done|done|].
  destruct (UserVerify_front _ _ _ _ _ _ Hn Hp Hv) as (c & r & Hfront & Hsem). destruct (q_login q).
  - pose proof (login_correct _ _ e c r Hsql Hn Hp Hfront Hsem) as Hl.
    destruct (select_outcome _ _ _); [destruct Hl as (d & Hl & Hu)..|congruence]; rewrite Hv in Hl;
      injection Hl as -> ->; cbn [db]; by rewrite Hu.
  - pose proof (register_correct _ _ e c r Hsql (Hsqlw eq_refl) Hn Hp Hfront Hsem) as Hl.
    destruct (select_outcome _ _ _); [destruct Hl as (d & Hl & Hu)..|congruence]; rewrite Hv in Hl;
      injection Hl as -> ->; cbn [db]; [|by rewrite Hu].
    destruct (users (db e) !! collate (q_name q)) eqn:Ha; [by rewrite Hu|].
    destruct Hu as [->| ->]; [done|]. by apply insert_subseteq.
Qed.

Lemma serves_grow a es xs a' :
  serves_all srcDir a es xs a' -> Forall asks_plainly xs -> users (db (accounts a)) ⊆ users (db (accounts a')).
Proof.
  induction 1 as [|a e es x xs a1 a2 Hs _ IH]; [done|]. intros [Hx Hxs]%Forall_cons. etransitivity; [|by apply IH].
  destruct Hs as [|i data sent held k x held' b out Hc Hd Hresp Hout| | | | | | | | |]; try done.
  cbn [accounts]. destruct Hresp as [rd p e1 sh Hu Hr Hsh]. unfold asks_plainly in Hx. cbn [asked] in Hx.
  destruct Hr as [Hn|q ok e1 Hq Hdec]; [done|]. rewrite Hq in Hx. cbn [decides own_books] in Hdec. by eapply UserVerify_grow.
Qed.

(** C10: Accounts are only ever added.  However the events of a loop come, as
    long as every name that is asked for, and every password that is to be
    stored, is text that SQL takes for itself, of at most a hundred characters
    and without quotes, backslashes and NULs, an account that exists keeps its
    password: no login and no registration changes or removes it.  The
    statement is built without escaping, so names with quotes are outside. *)
Theorem accounts_only_grow (o : os) (A : Z) (es : list loop_event) s s' a :
  represents o (total_cost A es) s a -> srcDir <> [] -> page_limit srcDir A ->
  may_happen srcDir es a -> loop_sound srcDir es s -> total_cost A es <= max_size - 2048 ->
  loop_run srcDir es s = Ok s' -> (forall xs a', serves_all srcDir a es xs a' -> Forall asks_plainly xs) ->
  keeps (users (db (w_env (common s)))) (users (db (w_env (common s')))).
Proof.
  intros Hrep Hsrc Hlim Hmay Hsound Htotal Hrun Hplain.
  pose proof (service_run srcDir A es o _ s a Hrep Hsrc Hlim Hmay Hsound ltac:(lia)) as Hall. rewrite Hrun in Hall.
  destruct Hall as (xs & a' & Hserve & Hrep' & _).
  pose proof (rp_accounts _ _ _ _ Hrep) as Ha. pose proof (rp_accounts _ _ _ _ Hrep') as Ha'. cbn [describes own_books_ok] in Ha, Ha'.
  rewrite <-Ha, <-Ha'. intros u w Hu. exact (lookup_weaken _ _ _ _ Hu (serves_grow _ _ _ _ Hserve (Hplain _ _ Hserve))).
Qed.
End login.

(** ** Witnesses *)

Definition form_headers : list (bytes * bytes) := [(lit "Content-Type", lit "application/x-www-form-urlencoded")].

Lemma demo_credentials u w : u = lit "mark" -> w = lit "123" \/ w = lit "124" -> credentials u w.
Proof.
  intros -> [->| ->]; (split; [split; [discriminate|split; [by apply plain_key|by_text]]|
    split; [discriminate|by apply plain_key]|vm_compute; reflexivity|vm_compute; reflexivity]).
Qed.

(** A client that just came. *)
Lemma demo_arrived : exists s1, loop_step (lit "/w") (Accept 0 5) demo_loop = Ok s1 /\
  represents (mkOs 3 0) 100000 s1 (set_client 0 (Live [] wheel_size) demo_service).
Proof.
  destruct (accept_step (lit "/w") (mkOs 3 0) 100000 demo_loop demo_service 0 5) as (s1 & Hrun & Hrep & _);
    [apply demo_represents|split; [lia|apply Z.leb_le; vm_compute; reflexivity]|reflexivity|
     by apply (sound_check_ok demo_loop (Accept 0 5))|].
  by exists s1.
Qed.

Definition page_text (code : Z) (type : string) (page : bytes) : bytes :=
  status_line code ++ header_lines false (lit type) ++ content_length (Z.of_nat (length page)) ++ page.

Lemma demo_form tag u w : tag = 0 \/ tag = 1 -> credentials u w -> account_form tag (lit "1.1") form_headers u w.
Proof.
  intros Htag Hc. split; [exact Htag|by_free|by_free| |exact Hc].
  destruct Htag as [->| ->]; split; vm_compute; reflexivity.
Qed.

(** The pages of the site. *)
Example demo_sheets :
  sheet_of (lit "/w") false true (lit "/welcome.html") = Ok (mkSheet (page_text 200 "text/html" (lit "welcome")) true false) /\
  sheet_of (lit "/w") false true (lit "/error.html") = Ok (mkSheet (page_text 200 "text/html" (lit "wrong")) true false) /\
  sheet_of (lit "/w") false true (lit "/login.html") = Ok (mkSheet (page_text 404 "text/html" (lit "nothing here")) true false).
Proof. vm_compute. by split_and!. Qed.

Definition demo_client : service (env demo_db) := set_client 0 (Live [] wheel_size) demo_service.

(** Any message may come next. *)
Lemma demo_possible i data err held k (a : service (env demo_db)) :
  clients a !! i = Some (Live held k) -> possible (lit "/w") a (Read i (IoOk data) (IoErr err)).
Proof. intros Hc. cbn [possible]. destruct data; [by eexists|]. rewrite Hc. split; [apply proper_own|done]. Qed.

(** A wrong password gets the error page. *)
Theorem login_through_loop_witness :
  exists s1 s' d out n, loop_step (lit "/w") (Accept 0 5) demo_loop = Ok s1 /\
    loop_step (lit "/w") (Read 0 (IoOk (form_request 1 (lit "1.1") form_headers (lit "mark") (lit "124"))) (IoErr EWOULDBLOCK)) s1 = Ok s' /\
    delivered (IoErr EWOULDBLOCK) (page_text 200 "text/html" (lit "wrong")) out /\
    represents (mkOs 3 0) n s' (mkService (mkEnv (mkPool 1 0 0 [Some 1; Some 0; Some 0]%nat 3) d)
      (<[0%nat := Live (login_body (lit "mark") (lit "124")) wheel_size]> (clients demo_client))).
Proof.
  destruct demo_arrived as (s1 & Hrun1 & Hrep1).
  pose proof (login_through_loop (lit "/w") (mkOs 3 0) 100000 5000 s1 demo_client 0 [] wheel_size
    (form_request 1 (lit "1.1") form_headers (lit "mark") (lit "124"))
    (IoErr EWOULDBLOCK) (lit "1.1") form_headers (lit "mark") (lit "124") 0%nat [Some 1%nat] Hrep1 eq_refl
    ltac:(discriminate) ltac:(discriminate) eq_refl
    ltac:(apply demo_form; [by right|apply demo_credentials; [reflexivity|by right]]) ltac:(by_text) eq_refl eq_refl
    ltac:(by eapply demo_possible) demo_limit ltac:(apply Z.leb_le; vm_compute; reflexivity)) as H.
  assert (Hsel : select_outcome 0 (lit "mark") (db (accounts demo_client)) = Rows) by (vm_compute; reflexivity).
  assert (Hpage : account_page (admitted 0 (lit "mark") (lit "124") (db (accounts demo_client))) = lit "/error.html")
    by (vm_compute; reflexivity).
  assert (Hkeep : form_keep 1 (lit "1.1") form_headers = false) by (vm_compute; reflexivity).
  rewrite Hpage, Hkeep, Hsel, (proj1 (proj2 demo_sheets)) in H. destruct H as (s' & d & out & Hrun & Hout & _ & Hrep & _).
  unfold given_back in Hrep. rewrite Hsel in Hrep. cbn [sh_lost Z.b2z] in Hrep. rewrite lose_none in Hrep.
  exists s1, s', d, out. eexists. exact (conj Hrun1 (conj Hrun (conj Hout Hrep))).
Defined.

(** A taken name is refused. *)
Theorem register_through_loop_witness :
  exists s1 s' d out n, loop_step (lit "/w") (Accept 0 5) demo_loop = Ok s1 /\
    loop_step (lit "/w") (Read 0 (IoOk (form_request 0 (lit "1.1") form_headers (lit "mark") (lit "124"))) (IoErr EWOULDBLOCK)) s1 = Ok s' /\
    delivered (IoErr EWOULDBLOCK) (page_text 200 "text/html" (lit "wrong")) out /\
    users d = users (db (accounts demo_client)) /\
    represents (mkOs 3 0) n s' (mkService (mkEnv (mkPool 1 0 0 [Some 1; Some 0; Some 0]%nat 3) d)
      (<[0%nat := Live (login_body (lit "mark") (lit "124")) wheel_size]> (clients demo_client))).
Proof.
  destruct demo_arrived as (s1 & Hrun1 & Hrep1).
  pose proof (register_through_loop (lit "/w") (mkOs 3 0) 100000 5000 s1 demo_client 0 [] wheel_size
    (form_request 0 (lit "1.1") form_headers (lit "mark") (lit "124"))
    (IoErr EWOULDBLOCK) (lit "1.1") form_headers (lit "mark") (lit "124") 0%nat [Some 1%nat] Hrep1 eq_refl
    ltac:(discriminate) ltac:(discriminate) eq_refl
    ltac:(apply demo_form; [by left|apply demo_credentials; [reflexivity|by right]]) ltac:(by_text) ltac:(by_text) eq_refl eq_refl
    ltac:(by eapply demo_possible) demo_limit ltac:(apply Z.leb_le; vm_compute; reflexivity)) as H.
  assert (Hsel : select_outcome 0 (lit "mark") (db (accounts demo_client)) = Rows) by (vm_compute; reflexivity).
  assert (Hfree : vacant 0 (lit "mark") (db (accounts demo_client)) = false) by (vm_compute; reflexivity).
  assert (Hkeep : form_keep 0 (lit "1.1") form_headers = false) by (vm_compute; reflexivity).
  rewrite Hfree, Hkeep, Hsel in H. change (account_page false) with (lit "/error.html") in H. rewrite (proj1 (proj2 demo_sheets)) in H.
  destruct H as (s' & d & out & Hrun & Hout & _ & Hsame & Hrep & _).
  unfold given_back in Hrep. rewrite Hsel in Hrep. cbn [sh_lost Z.b2z] in Hrep. rewrite lose_none in Hrep.
  exists s1, s', d, out. eexists. exact (conj Hrun1 (conj Hrun (conj Hout (conj (Hsame eq_refl) Hrep)))).
Defined.

(** A client that has logged in. *)
Lemma demo_logged_in : exists s2 e2, represents (mkOs 3 0) 50000 s2
  (mkService e2 (<[0%nat := Live (login_body (lit "mark") (lit "123")) wheel_size]> (clients demo_client))).
Proof.
  destruct demo_arrived as (s1 & _ & Hrep1).
  assert (Hcred : credentials (lit "mark") (lit "123")) by (apply demo_credentials; [reflexivity|by left]).
  pose proof (form_through_loop (lit "/w") (mkOs 3 0) 100000 5000 s1 demo_client 0 [] wheel_size
    (form_request 1 (lit "1.1") form_headers (lit "mark") (lit "123"))
    (IoErr EWOULDBLOCK) 1 (lit "1.1") form_headers (lit "mark") (lit "123") Hrep1 eq_refl
    ltac:(discriminate) ltac:(discriminate) eq_refl (demo_form 1 _ _ (or_intror eq_refl) Hcred)
    ltac:(by eapply demo_possible) demo_limit ltac:(apply Z.leb_le; vm_compute; reflexivity)) as H.
  destruct (UserVerify (lit "mark") (lit "123") (1 =? 1) (accounts demo_client)) as [[ok e2]|] eqn:Hv; [|by vm_compute in Hv].
  assert (ok = true) as -> by (vm_compute in Hv; by injection Hv).
  assert (Hkeep : form_keep 1 (lit "1.1") form_headers = false) by (vm_compute; reflexivity).
  rewrite Hkeep in H. change (account_page true) with (lit "/welcome.html") in H. rewrite (proj1 demo_sheets) in H.
  destruct H as (s' & out & _ & _ & Hrep & _). cbn [sh_lost Z.b2z] in Hrep. rewrite lose_none in Hrep.
  exists s', e2. eapply represents_less; [exact Hrep|]. apply Z.leb_le. vm_compute. reflexivity.
Qed.

(** No password is needed the second time. *)
Theorem relogin_not_checked_witness :
  exists s2 s' a' out n, loop_step (lit "/w") (Read 0 (IoOk (print_request (lit "POST") (lit "/login") (lit "1.1") form_headers
      (login_body (lit "mark") (lit "no")))) (IoErr EWOULDBLOCK)) s2 = Ok s' /\
    delivered (IoErr EWOULDBLOCK) (page_text 404 "text/html" (lit "nothing here")) out /\
    represents (mkOs 3 0) n s' a'.
Proof.
  destruct demo_logged_in as (s2 & e2 & Hrep2).
  pose proof (relogin_not_checked (lit "/w") (mkOs 3 0) 50000 5000 s2 _ 0 wheel_size (IoErr EWOULDBLOCK) (lit "1.1") form_headers
    (lit "mark") (lit "123") (lit "mark") (lit "no") Hrep2 eq_refl
    ltac:(discriminate) ltac:(by_free) ltac:(by_free) ltac:(by_free)
    ltac:(by eapply demo_possible) demo_limit ltac:(apply Z.leb_le; vm_compute; reflexivity)) as H.
  assert (Hkeep : IsKeepAlive (request_of FINISH (login_body (lit "mark") (lit "123") ++ lit "POST") (lit "/login") (lit "1.1") form_headers) = false)
    by (vm_compute; reflexivity).
  rewrite Hkeep, (proj2 (proj2 demo_sheets)) in H. destruct H as (s' & out & Hrun & Hout & Hrep & _).
  cbn [sh_lost Z.b2z] in Hrep. rewrite lose_none in Hrep.
  exists s2, s'. eexists. exists out. eexists. exact (conj Hrun (conj Hout Hrep)).
Defined.

(** A client registers, and what is asked is plain. *)
Definition register_visit : list loop_event :=
  [Accept 0 5; Read 0 (IoOk (form_request 0 (lit "1.1") form_headers (lit "ann") (lit "pw"))) (IoErr EWOULDBLOCK)].

Example register_visit_runs :
  run_check (lit "/w") register_visit demo_loop = true /\
  exists s', loop_run (lit "/w") register_visit demo_loop = Ok s'.
Proof. vm_compute. split; [done|by eexists]. Qed.

Lemma register_visit_asks xs a' :
  serves_all (lit "/w") demo_service register_visit xs a' -> Forall asks_plainly xs.
Proof.
  intros Hrun. inversion Hrun as [|a e es x1 xs1 a1 a2 Hs1 Hrun1]; subst. inversion Hs1; subst.
  inversion Hrun1 as [|a e es x2 xs2 a3 a4 Hs2 Hrun2]; subst. inversion Hrun2; subst.
  repeat constructor. inversion Hs2 as [|? ? ? ? ? x held' b out Hc _ Hresp _| | | | | | | | |]; subst; [|done].
  injection Hc as <- <-. destruct Hresp as [rd p b1 sh Hu _ _].
  assert (Hask : rd_ask rd = Some (mkQuestion false (lit "ann") (lit "pw"))) by (vm_compute in Hu; by injection Hu as <-).
  unfold asks_plainly. cbn [asked]. rewrite Hask. right. right. split; [by_text|]. intros _. by_text.
Qed.

Theorem accounts_only_grow_witness :
  exists s', loop_run (lit "/w") register_visit demo_loop = Ok s' /\
    keeps (users (db (w_env (common demo_loop)))) (users (db (w_env (common s')))).
Proof.
  destruct register_visit_runs as [Hcheck [s' Hrun]]. exists s'. split; [exact Hrun|].
  apply (accounts_only_grow (lit "/w") (mkOs 3 0) 5000 register_visit demo_loop s' demo_service);
    [apply demo_represents|discriminate|exact demo_limit| |by apply run_check_ok|apply Z.leb_le; vm_compute; reflexivity|
     exact Hrun|exact register_visit_asks].
  apply may_accept; [reflexivity|]. by eapply may_send.
Defined.
