(* ===== verification/Isolation.v ===== *)
(** * Isolation: what a client is sent does not depend on the others

    The clients of a loop share its buckets, its poller, the accounts and one
    thread.  While no account is added, a client is sent what it would be sent
    if it were alone: the same bytes, in the same order, and it is given up
    after the same seconds.  The accounts are a table here, a second instance
    of [Books]: a database that answers every select and a pool that is not
    empty are described by their table alone, whatever else differs in them. *)

From stdpp Require Import base list numbers strings gmap.
From Stdlib Require Import ZArith Lia Ascii.
From S2P Require Import Prelude Buffer Regex SqlConnPool HttpRequest Forms Parsing Accounts HttpResponse HttpContext Channel TcpConnection ConnectionProofs HttpServer Serving SharedPoller Reactor Service Determined Refinement Login.

Local Open Scope Z_scope.
Local Open Scope result_scope.

(** ** One client of the service *)

(** The events client [i] notices: its own, and the passing of time. *)
Definition noticed (i : nat) (e : loop_event) : Prop := subject e = Some i \/ subject e = None.
#[export] Instance noticed_dec i e : Decision (noticed i e).
Proof. unfold noticed. apply _. Defined.

Definition own_events (i : nat) (es : list loop_event) : list loop_event := filter (noticed i) es.

(** A service with no other client. *)
Definition only {B} (i : nat) (a : service B) : service B := mkService (accounts a) (filter (fun x => x.1 = i) (clients a)).

(** [send] has not found the peer gone. *)
Definition peer_stays (e : loop_event) : Prop := match e with Read _ _ sent => ~ peer_gone sent | _ => True end.

Lemma only_lookup {B} i (a : service B) g : clients a !! i = g -> clients (only i a) !! i = g.
Proof.
  intros Hg. unfold only. cbn [clients]. destruct g as [g|]; [by apply map_lookup_filter_Some_2|].
  apply map_lookup_filter_None_2. by left.
Qed.

Lemma only_set {B} i g (a : service B) : only i (set_client i g a) = set_client i g (only i a).
Proof. unfold only, set_client. cbn [accounts clients]. f_equal. by apply map_filter_insert_True. Qed.

Lemma only_other {B} i j g (a : service B) : i <> j -> only i (set_client j g a) = only i a.
Proof. intros Hne. unfold only, set_client. cbn [accounts clients]. f_equal. by apply map_filter_insert_not; intros. Qed.

Lemma only_delete {B} i (a : service B) :
  only i (mkService (accounts a) (delete i (clients a))) = mkService (accounts (only i a)) (delete i (clients (only i a))).
Proof. unfold only. cbn [accounts clients]. f_equal. by rewrite map_filter_delete. Qed.

Lemma only_turn {B} i (a : service B) :
  only i (mkService (accounts a) (turn <$> clients a)) = mkService (accounts (only i a)) (turn <$> clients (only i a)).
Proof. unfold only. cbn [accounts clients]. f_equal. by rewrite map_filter_fmap. Qed.

(** ** A table of accounts *)

(** The pool has connections, and the semaphore says so. *)
Record pool_ready (p : SqlConnPool) : Prop := {
  pr_some : conn_que_ p <> [];
  pr_conns : Forall is_Some (conn_que_ p);
  pr_sem : 0 < sem_id_ p
}.

Lemma pool_front p : pool_ready p -> exists c q, conn_que_ p = Some c :: q.
Proof.
  intros [Hne Hall _]. destruct (conn_que_ p) as [|[c|] q]; [done|by exists c, q|].
  apply Forall_cons in Hall as [[x Hx] _]. done.
Qed.

(** A verification leaves one connection more than it found. *)
Lemma pool_after p c q : pool_ready p -> conn_que_ p = Some c :: q -> pool_ready (released_twice c q p).
Proof.
  intros [Hne Hall Hs] Hq. split; cbn.
  - by destruct q.
  - rewrite Hq in Hall. apply Forall_cons in Hall as [_ Hall]. apply Forall_app. split; [done|]. repeat constructor; by eexists.
  - lia.
Qed.

(** The database answers every select. *)
Class AnsweringTable (DB : Type) `{UserTable DB} :=
  select_rows : forall c name d, sql_text name -> select_outcome c name d = Rows.

Section table.
Context {DB : Type} `{!MySQL DB} `{!UserTable DB} `{!AnsweringTable DB}.

(** What a table of names and passwords says. *)
Inductive verdict (T : gmap bytes bytes) (q : question) : bool -> gmap bytes bytes -> Prop :=
  | verdict_blank : q_name q = [] \/ q_password q = [] -> verdict T q false T
  | verdict_login :
      q_login q = true -> q_name q <> [] -> q_password q <> [] ->
      verdict T q (bool_decide (T !! collate (q_name q) = Some (q_password q))) T
  | verdict_taken :
      q_login q = false -> q_name q <> [] -> q_password q <> [] -> is_Some (T !! collate (q_name q)) -> verdict T q false T
  | verdict_new T' :
      q_login q = false -> q_name q <> [] -> q_password q <> [] -> T !! collate (q_name q) = None ->
      T' = T \/ T' = <[collate (q_name q) := stored (q_password q)]> T -> verdict T q true T'.

#[local] Instance table_books : Books (gmap bytes bytes) := {
  decides := verdict;
  fails _ _ _ := False;
  askable := plain_question
}.

Lemma table_answer T (e : env DB) q :
  users (db e) = T /\ pool_ready (sqlpool e) -> plain_question q ->
  match UserVerify (q_name q) (q_password q) (q_login q) e with
  | Ok (ok, e1) => exists T', verdict T q ok T' /\ users (db e1) = T' /\ pool_ready (sqlpool e1)
  | Fault f => False
  end.
Proof.
  intros [<- Hpool] Hq. destruct (pool_front _ Hpool) as (c & r & Hfront).
  pose proof (pool_after _ _ _ Hpool Hfront) as Hafter.
  destruct (decide (q_name q = [] \/ q_password q = [])) as [Hb|Hb].
  { assert (UserVerify (q_name q) (q_password q) (q_login q) e = Ok (false, e)) as ->.
    { unfold UserVerify. destruct Hb as [->| ->]; [|rewrite orb_comm]; done. }
    eexists. split; [by apply verdict_blank|done]. }
  assert (Hn : q_name q <> []) by tauto. assert (Hp : q_password q <> []) by tauto.
  destruct Hq as [?|[?|[Hsql Hsqlw]]]; [done|done|]. destruct (q_login q) eqn:Hlog.
  - pose proof (login_correct _ _ e c r Hsql Hn Hp Hfront (pr_sem _ Hpool)) as Hl. rewrite select_rows in Hl by done.
    destruct Hl as (d & -> & Hd). cbn [db sqlpool]. rewrite Hd. eexists. split; [by apply verdict_login|done].
  - pose proof (register_correct _ _ e c r Hsql (Hsqlw eq_refl) Hn Hp Hfront (pr_sem _ Hpool)) as Hl.
    rewrite select_rows in Hl by done. destruct Hl as (d & -> & Hd). cbn [db sqlpool].
    destruct (users (db e) !! collate (q_name q)) as [pw|] eqn:Ha.
    + rewrite bool_decide_false by done. rewrite Hd. eexists. split; [by apply verdict_taken|done].
    + rewrite bool_decide_true by done. exists (users d). split; [|done]. by apply verdict_new.
Qed.

#[local] Instance table_books_ok : BooksOk (gmap bytes bytes) DB.
Proof.
  refine {| describes T e := users (db e) = T /\ pool_ready (sqlpool e) |}. intros T e q He Hq.
  pose proof (table_answer T e q He Hq) as Ha. by destruct (UserVerify _ _ _ e) as [[ok e1]|f].
Defined.

Lemma verdict_fun T q ok1 T1 ok2 T2 : verdict T q ok1 T1 -> verdict T q ok2 T2 -> ok1 = ok2.
Proof. destruct 1 as [[? | ?]| |???[? ?]|], 1 as [[? | ?]| |???[? ?]|]; congruence. Qed.

Lemma verdict_grow T q ok T' : verdict T q ok T' -> T ⊆ T'.
Proof. destruct 1 as [| | |T' _ _ _ Hn [->| ->]]; try done. by apply insert_subseteq. Qed.

(** *** The service with a table *)

Context {FS : FileSystem} (srcDir : bytes).
Implicit Types (s : loop_state (DB := DB)) (a : service (gmap bytes bytes)) (e : loop_event).

Lemma table_grow a es xs a' : serves_all srcDir a es xs a' -> accounts a ⊆ accounts a'.
Proof.
  induction 1 as [|a e es x xs a1 a2 Hs _ IH]; [done|]. etransitivity; [|exact IH].
  destruct Hs as [|i data sent held k x held' T' out Hc Hd [rd p T1 sh _ Hr _] _| | | | | | | | |]; try done.
  cbn [accounts]. destruct Hr as [_|q ok T1 _ Hv]; [done|by eapply verdict_grow].
Qed.

(** Client [i] does not see what happens to another one. *)
Lemma serves_unnoticed i a e x a1 :
  serves srcDir a e x a1 -> ~ noticed i e -> accounts a1 = accounts a -> only i a1 = only i a /\ outs i e x = [].
Proof.
  intros Hs Hn Ha.
  assert (Hne : forall j, subject e = Some j -> i <> j) by (intros j Hj ->; by apply Hn; left).
  split; [|destruct e; try done; cbn [outs]; rewrite (proj2 (Nat.eqb_neq _ _)); [done|by apply not_eq_sym, Hne]].
  destruct Hs; try done; try (exfalso; apply Hn; by right); cbn [subject] in Hne; specialize (Hne _ eq_refl); try (by apply only_other).
  - cbn [accounts] in Ha. subst. by apply (only_other i i0 (Live held' wheel_size) a).
  - unfold only. cbn [accounts clients]. f_equal. apply map_filter_delete_not. by intros g _ [=].
Qed.

(** What client [i] notices, it notices alone. *)
Lemma serves_alone i a e x a1 : serves srcDir a e x a1 -> noticed i e -> serves srcDir (only i a) e x (only i a1).
Proof.
  intros Hs Hn.
  assert (Heq : forall j, subject e = Some j -> j = i) by (intros j Hj; destruct Hn; congruence).
  destruct Hs as [j fd Hc|j data sent held k x held' T' out Hc Hd Hr Ho|j data sent Hc Hd|j g sent Hc Ho|j g Hc Ho
    |j Hc|j Hc| |j er sent [g Hc]|j w [g Hc]|j [g Hc]]; cbn [subject] in Heq;
    try (specialize (Heq j eq_refl); subst j; apply only_lookup in Hc).
  - rewrite only_set. by apply serves_accept.
  - change (mkService T' _) with (set_client i (Live held' wheel_size) (mkService T' (clients a))). rewrite only_set.
    exact (serves_message srcDir (only i a) i data sent held k x held' T' out Hc Hd Hr Ho).
  - by apply serves_ignored.
  - rewrite only_set. by eapply serves_end.
  - rewrite only_set. by eapply serves_hangup.
  - rewrite only_set. by apply serves_remove.
  - rewrite only_delete. by apply serves_release.
  - rewrite only_turn. apply serves_second.
  - apply serves_read_error. by exists g.
  - apply serves_write. by exists g.
  - apply serves_functor. by exists g.
Qed.

(** The events of a run that client [i] notices are a run of a service with
    that client alone, with the same answers. *)
Lemma run_alone i a es xs a' :
  serves_all srcDir a es xs a' -> accounts a' = accounts a ->
  exists xs', serves_all srcDir (only i a) (own_events i es) xs' (only i a') /\
    answers_for i es xs = answers_for i (own_events i es) xs'.
Proof.
  induction 1 as [a|a e es x xs a1 a2 Hs Hall IH]; intros Ha; [exists []; split; [constructor|done]|].
  pose proof (table_grow a [e] [x] a1) as H1. pose proof (table_grow a1 es xs a2 Hall) as H2.
  assert (Ha1 : accounts a1 = accounts a).
  { apply (anti_symm (⊆)); [by rewrite <-Ha|]. apply H1. eapply serves_cons; [exact Hs|constructor]. }
  destruct IH as (xs' & Hrun & Hans); [congruence|]. unfold own_events in *. cbn [answers_for].
  destruct (decide (noticed i e)) as [Hn|Hn].
  - rewrite filter_cons_True by done. exists (x :: xs'). split; [|cbn [answers_for]; by rewrite Hans].
    eapply serves_cons; [by apply serves_alone|exact Hrun].
  - rewrite filter_cons_False by done. destruct (serves_unnoticed i a e x a1 Hs Hn Ha1) as [Ho ->].
    exists xs'. by rewrite <-Ho.
Qed.

(** *** A service has one run *)

Lemma serves_fun a e x1 a1 x2 a2 :
  serves srcDir a e x1 a1 -> serves srcDir a e x2 a2 -> peer_stays e -> accounts a1 = accounts a2 -> x1 = x2 /\ a1 = a2.
Proof.
  intros H1 H2 He Ha.
  inversion H1; subst; inversion H2; subst; try done; try congruence; cbn [peer_stays] in He; simplify_eq.
  - cbn [accounts] in Ha. subst.
    match goal with R1 : @responds _ _ _ _ _ _ _ _ _, R2 : @responds _ _ _ _ _ _ _ _ _ |- _ =>
      pose proof (responds_fun _ _ _ _ _ _ _ _ _ (verdict_fun (accounts a)) R1 R2) as [-> ->] end.
    repeat match goal with D : delivered _ _ _ |- _ => destruct D as [->|[? _]]; [|done] end. done.
Qed.

Lemma run_fun a es t1 a1 : serves_all srcDir a es t1 a1 -> forall t2 a2,
  serves_all srcDir a es t2 a2 -> Forall peer_stays es -> accounts a1 = accounts a -> accounts a2 = accounts a -> t1 = t2 /\ a1 = a2.
Proof.
  induction 1 as [a|a e es x xs a1 a' Hs Hall IH]; intros t2 a2 H2 Hp Ha1 Ha2; inversion H2 as [|? ? ? x2 xs2 b1 ? Hs2 Hall2]; subst;
    [done|].
  apply Forall_cons in Hp as [He Hes].
  assert (Hmid : forall t b ts b', serves srcDir a e t b -> serves_all srcDir b es ts b' -> accounts b' = accounts a -> accounts b = accounts a).
  { intros t b ts b' Hb Hb' Heq. apply (anti_symm (⊆)); [rewrite <-Heq; by eapply table_grow|].
    apply (table_grow a [e] [t] b). eapply serves_cons; [exact Hb|constructor]. }
  pose proof (Hmid _ _ _ _ Hs Hall Ha1) as E1. pose proof (Hmid _ _ _ _ Hs2 Hall2 Ha2) as E2.
  destruct (serves_fun a e x a1 x2 b1 Hs Hs2 He) as [-> <-]; [congruence|].
  destruct (IH xs2 a2 Hall2 Hes) as [-> ->]; [congruence|congruence|done].
Qed.

(** *** The loops *)

(** The accounts of the database. *)
Definition users_of (w : world (DB := DB)) : gmap bytes bytes := users (db (w_env w)).

(** A loop with its service, and a run of it that adds no account. *)
Record quiet_run (o : os) (A : Z) (es : list loop_event) s a s' : Prop := {
  qr_represents : represents o (total_cost A es) s a;
  qr_limit : page_limit srcDir A;
  qr_possible : may_happen srcDir es a;
  qr_sound : loop_sound srcDir es s;
  qr_cost : total_cost A es <= max_size - 2048;
  qr_run : loop_run srcDir es s = Ok s';
  qr_accounts : users_of (common s') = users_of (common s)
}.

Lemma quiet_run_serves o A es s a s' i :
  srcDir <> [] -> quiet_run o A es s a s' -> Release i ∉ es ->
  exists xs a', serves_all srcDir (only i a) (own_events i es) xs a' /\ accounts a' = accounts (only i a) /\
    sent_to s' i = sent_to s i ++ answers_for i (own_events i es) xs.
Proof.
  intros Hsrc [Hrep Hlim Hmay Hsound Hcost Hrun Hacc] Hrel.
  pose proof (service_run srcDir A es o _ s a Hrep Hsrc Hlim Hmay Hsound ltac:(lia)) as Hall. rewrite Hrun in Hall.
  destruct Hall as (xs & a' & Hserve & Hrep' & Hsent & _).
  destruct (rp_accounts _ _ _ _ Hrep) as [Hu _]. destruct (rp_accounts _ _ _ _ Hrep') as [Hu' _].
  unfold users_of in Hacc. rewrite Hu, Hu' in Hacc.
  destruct (run_alone i a es xs a' Hserve Hacc) as (xs' & Halone & Hans).
  exists xs', (only i a'). split; [done|]. split; [done|]. by rewrite (Hsent i Hrel), Hans.
Qed.

(** C7: Clients do not disturb each other.  Take two loops with the same
    accounts, where a client has got equally far, and runs of them that do not
    fail and add no account: if the client does the same in both while the same
    seconds pass, it is sent the same bytes, whoever else is there, whatever
    the others send, and however the loop's buffers, files and pool differ.
    The names and passwords that are put to the database are plain text for
    SQL, the pool has connections and the database answers its selects. *)
Theorem clients_are_isolated (o1 o2 : os) (A1 A2 : Z) (es1 es2 : list loop_event) s1 s2 a1 a2 s1' s2' (i : nat) :
  quiet_run o1 A1 es1 s1 a1 s1' -> quiet_run o2 A2 es2 s2 a2 s2' -> srcDir <> [] ->
  accounts a1 = accounts a2 -> clients a1 !! i = clients a2 !! i ->
  own_events i es1 = own_events i es2 -> Release i ∉ es1 -> Forall peer_stays (own_events i es1) ->
  exists t, sent_to s1' i = sent_to s1 i ++ t /\ sent_to s2' i = sent_to s2 i ++ t.
Proof.
  intros H1 H2 Hsrc Ha Hc Hown Hrel Hstay.
  assert (Hrel2 : Release i ∉ es2).
  { intros Hin. apply Hrel. assert (Ho : Release i ∈ own_events i es2) by (apply list_elem_of_filter; split; [by left|done]).
    rewrite <-Hown in Ho. by apply list_elem_of_filter in Ho as [_ ?]. }
  assert (Honly : only i a2 = only i a1).
  { unfold only. rewrite Ha. f_equal. apply map_eq. intros j. rewrite !map_lookup_filter.
    destruct (decide (j = i)) as [->|Hne]; [by rewrite Hc|].
    destruct (clients a1 !! j), (clients a2 !! j); cbn; repeat case_guard; done. }
  destruct (quiet_run_serves _ _ _ _ _ _ i Hsrc H1 Hrel) as (t1 & b1 & Hr1 & Hb1 & ->).
  destruct (quiet_run_serves _ _ _ _ _ _ i Hsrc H2 Hrel2) as (t2 & b2 & Hr2 & Hb2 & ->).
  rewrite <-Hown, Honly in Hr2. rewrite Honly in Hb2.
  destruct (run_fun _ _ _ _ Hr1 _ _ Hr2 Hstay Hb1 Hb2) as [-> _]. rewrite <-Hown. by eexists.
Qed.
End table.

(** ** Witness *)

#[export] Instance demo_answers : AnsweringTable demo_db.
Proof.
  intros c name d Hsql. unfold select_outcome. change (mysql_query c (select_order name) d) with (demo_query c (select_order name) d).
  by rewrite demo_select.
Defined.

(** A client logs in while another reads the page, and logs in alone. *)
Definition in_company : list loop_event :=
  [Accept 0 5; Accept 1 6; Read 0 (IoOk login_text) (IoErr EWOULDBLOCK); Read 1 (IoOk index_text) (IoErr EWOULDBLOCK); Second].
Definition by_itself : list loop_event := [Accept 0 5; Read 0 (IoOk login_text) (IoErr EWOULDBLOCK); Second].

Definition after (es : list loop_event) : loop_state :=
  match loop_run (lit "/w") es demo_loop with Ok s => s | Fault _ => demo_loop end.

Definition quiet_check (es : list loop_event) : bool :=
  run_check (lit "/w") es demo_loop &&
  match loop_run (lit "/w") es demo_loop with
  | Ok s => bool_decide (users_of (common s) = users_of (common demo_loop))
  | Fault _ => false
  end.

#[local] Existing Instances table_books table_books_ok.

Definition demo_table_service : service (gmap bytes bytes) := mkService (users_of (common demo_loop)) ∅.

Lemma demo_quiet es :
  may_happen (lit "/w") es demo_table_service -> quiet_check es = true -> (total_cost 5000 es <=? max_size - 2048)%Z = true ->
  quiet_run (lit "/w") (mkOs 3 0) 5000 es demo_loop demo_table_service (after es).
Proof.
  intros Hmay [Hr Hs]%andb_true_iff Hcost.
  assert (Hd : users (db (w_env (common demo_loop))) = users_of (common demo_loop) /\ pool_ready (sqlpool (w_env (common demo_loop))))
    by (split; [reflexivity|split; [discriminate|repeat constructor; by eexists|reflexivity]]).
  destruct empty_poller_ok as [Hok Hcalm].
  split; [exact (represents_start _ (new_poller ∅) (common demo_loop) (users_of (common demo_loop)) Hok Hcalm Hd)|exact demo_limit|exact Hmay|
    by apply run_check_ok|by apply Z.leb_le| |]; unfold after;
    destruct (loop_run _ _ _); try discriminate Hs; [reflexivity|exact (proj1 (bool_decide_eq_true _) Hs)].
Qed.

(** The two texts may be sent: the one puts a plain question, the other none. *)
Lemma may_text (i : nat) (es : list loop_event) (a : service (gmap bytes bytes)) text :
  text = login_text \/ text = index_text -> clients a !! i = Some (Live [] wheel_size) ->
  (forall held' (T' : gmap bytes bytes), may_happen (lit "/w") es (mkService T' (<[i := Live held' wheel_size]> (clients a)))) ->
  may_happen (lit "/w") (Read i (IoOk text) (IoErr EWOULDBLOCK) :: es) a.
Proof.
  intros Ht Hc. assert (Hne : text <> []) by by destruct Ht as [->| ->].
  apply may_message with [] wheel_size; [exact Hc|exact Hne|]. cbn [possible]. destruct text as [|x text]; [done|]. rewrite Hc.
  split; [|done]. cbn [app]. clear -Ht. unfold proper. destruct Ht as [->| ->]; [|by vm_compute].
  destruct (understand login_text) as [rd|] eqn:Hu; [|done]. vm_compute in Hu. injection Hu as <-. cbn [rd_ask].
  right. right. split; [|done]. by_text.
Qed.

Lemma company_may : may_happen (lit "/w") in_company demo_table_service.
Proof.
  apply may_accept; [reflexivity|]. apply may_accept; [reflexivity|]. apply may_text; [by left|reflexivity|].
  intros held T. apply may_text; [by right|reflexivity|]. intros held' T'. apply may_second. exact I.
Qed.

Lemma itself_may : may_happen (lit "/w") by_itself demo_table_service.
Proof.
  apply may_accept; [reflexivity|]. apply may_text; [by left|reflexivity|]. intros held T. apply may_second. exact I.
Qed.

Theorem clients_are_isolated_witness :
  exists t, sent_to (after in_company) 0 = sent_to demo_loop 0 ++ t /\ sent_to (after by_itself) 0 = sent_to demo_loop 0 ++ t.
Proof.
  apply (clients_are_isolated (lit "/w") (mkOs 3 0) (mkOs 3 0) 5000 5000 in_company by_itself demo_loop demo_loop
    demo_table_service demo_table_service); [| |discriminate|reflexivity|reflexivity|reflexivity| |].
  - apply demo_quiet; [exact company_may|vm_compute; reflexivity|vm_compute; reflexivity].
  - apply demo_quiet; [exact itself_may|vm_compute; reflexivity|vm_compute; reflexivity].
  - unfold in_company. rewrite !not_elem_of_cons. split_and!; try discriminate. apply not_elem_of_nil.
  - apply Forall_forall. intros e [_ He]%list_elem_of_filter. revert e He. apply Forall_forall. unfold in_company.
    repeat (constructor; [first [exact I|by intros [=]]|]). constructor.
Defined.
