(* ===== verification/Iteration.v ===== *)
(** * Iteration: the loop from the poller to the service (src/event/eventloop.cc, channel.cc, tcpconnection.cc)

    An iteration of [EventLoop::loop] polls, runs the callbacks of the ready
    channels and then the queued functors.  Here the callbacks are those of
    Channel, the events those of Reactor, and an iteration is shown to serve
    as Refinement says, or to break where the service breaks: what the kernel
    reports is always something the service knows.  Whoever else keeps account
    of the connections, as the server does in its table, hears of every event:
    an interface, [Ledger]. *)

From stdpp Require Import base list numbers strings gmap sets.
From Stdlib Require Import ZArith Lia.
From S2P Require Import Prelude Buffer Regex SqlConnPool HttpRequest Forms Parsing Accounts HttpResponse HttpContext Channel TcpConnection ConnectionProofs HttpServer Serving SharedPoller Reactor Service Refinement.

Local Open Scope Z_scope.
Local Open Scope result_scope.

(** ** The loop *)

(** What the system calls of a channel's handlers answer. *)
Record answers : Type := mkAnswers {
  a_read : io bytes;
  a_sent : io nat;
  a_written : io nat;
  a_accepted : option (nat * Z);     (* a connection for this loop: its channel and descriptor *)
  a_expired : bool                   (* the wheel's timer is due *)
}.

Inductive role : Type := Connection | WakeUp | Timer | Listener.

#[export] Instance role_eq_dec : EqDecision role.
Proof. solve_decision. Defined.

(** Only connections install all callbacks. *)
Definition installed (r : role) (k : callback) : bool :=
  match r, k with Connection, _ => true | _, ReadCb => true | _, _ => false end.

(** The functors taken from the queue. *)
Inductive functor : Type :=
  | BuildConnect (i : nat) (fd : Z)       (* a connection the server's loop accepted for this one *)
  | OfConnection (i : nat)                (* one the connection queued *)
  | DestroyConnect (i : nat).             (* the server's loop has erased the connection *)

(** ** Who hears of the events *)

(** What else is done with a connection before the loop's own part. *)
Class Ledger (L : Type) := enter : loop_event -> L -> result L.

(** How many connections come with an event, and with a run. *)
Definition comes (e : loop_event) : nat := match e with Accept _ _ => 1 | _ => 0 end.
Definition arrivals (es : list loop_event) : nat := sum_list_with comes es.

Lemma arrivals_app es es' : arrivals (es ++ es') = (arrivals es + arrivals es')%nat.
Proof. apply sum_list_with_app. Qed.

(** What is promised to the loop: while the ledger agrees with the service, with
    room for [k] more connections, it takes what the service does, and it does
    not stop an event at which the service breaks. *)
Class LedgerOk (B : Type) `{!Books B} {FS : FileSystem} (srcDir : bytes) (L : Type) `{!Ledger L} := {
  agrees : nat -> service B -> L -> Prop;
  enter_ok k (a a1 : service B) e x l :
    serves srcDir a e x a1 -> agrees (comes e + k) a l -> exists l1, enter e l = Ok l1 /\ agrees k a1 l1;
  enter_breaks k (a : service B) e f l :
    breaks srcDir a e f -> agrees k a l -> exists l1, enter e l = Ok l1
}.

(** A loop of the pool has no table. *)
#[export] Instance no_ledger : Ledger unit := fun _ _ => Ok tt.
#[export] Program Instance no_ledger_ok (B : Type) `{!Books B} {FS : FileSystem} (srcDir : bytes) : LedgerOk B srcDir unit := {
  agrees := fun _ _ _ => True
}.
Next Obligation. intros. by exists tt. Qed.
Next Obligation. intros. by exists tt. Qed.

Section loop.
Context {DB : Type} `{!MySQL DB} {FS : FileSystem} (srcDir : bytes) {L : Type} `{!Ledger L}.
(** Whose the channels are, and if the loop is the server's own. *)
Context (role_of : nat -> role) (server_loop : bool).
Implicit Types (s : loop_state (DB := DB)) (y : loop_state (DB := DB) * L) (x : answers).

(** [close_cb_]: in the server's loop [run_in_loop] goes straight to
    [destroy_connect]; another loop will find it in its queue. *)
Definition closing (i : nat) : list loop_event := if server_loop then [Remove i] else [].

(** What a callback does, by the owner of the channel.  The error callback
    only logs; the wake channel reads its eventfd. *)
Definition callback_events (i : nat) x (k : callback) : list loop_event :=
  match role_of i, k with
  | Connection, CloseCb => Hangup i :: closing i
  | Connection, ReadCb => Read i (a_read x) (a_sent x) :: match a_read x with IoOk [] => closing i | _ => [] end
  | Connection, WriteCb => [Write i (a_written x)]
  | Listener, ReadCb => match a_accepted x with Some (j, fd) => [Accept j fd] | None => [] end
  | Timer, ReadCb => if a_expired x then [Second] else []
  | _, _ => []
  end.

(** A connection's channel is tied to the connection. *)
Definition handlers (i : nat) x (ch : Channel) (member : bool) : list loop_event :=
  concat (callback_events i x <$> handle_event (installed (role_of i)) member ch).

(** An event, with the server's part of it first: a connection is in the table
    before it is built, and out of it before it is torn down. *)
Definition full_step (e : loop_event) y : result (loop_state * L) :=
  l ← enter e y.2;
  s ← loop_step srcDir e y.1;
  Ok (s, l).

Fixpoint full_run (es : list loop_event) y : result (loop_state * L) :=
  match es with
  | [] => Ok y
  | e :: es => y1 ← full_step e y; full_run es y1
  end.

(** Once its channel is removed, only queued functors hold a connection. *)
Definition unheld (i : nat) s : bool :=
  match members s !! i, store (epoll s) !! i with
  | Some h, Some ch => bool_decide (Channel.status_ ch = NEW) && bool_decide (pending_ (hc_conn h) = [])
  | _, _ => false
  end.

Definition reap (i : nat) y : result (loop_state * L) := if unheld i y.1 then full_step (Release i) y else Ok y.

(** [Channel::handle_event]: the callbacks, then the tie lets go. *)
Definition dispatch (i : nat) x y : result (loop_state * L) :=
  ch ← of_option NullDeref (store (epoll y.1) !! i);
  y1 ← full_run (handlers i x ch (bool_decide (is_Some (members y.1 !! i)))) y;
  reap i y1.

Fixpoint dispatch_all (act : list (nat * answers)) y : result (loop_state * L) :=
  match act with
  | [] => Ok y
  | (i, x) :: act => y1 ← dispatch i x y; dispatch_all act y1
  end.

Definition run_functor (f : functor) y : result (loop_state * L) :=
  match f with
  | BuildConnect i fd => full_step (Accept i fd) y
  | OfConnection i => y1 ← full_step (Functor i) y; reap i y1
  | DestroyConnect i => y1 ← full_step (Remove i) y; reap i y1
  end.

(** [dopending_func] *)
Fixpoint run_functors (fs : list functor) y : result (loop_state * L) :=
  match fs with
  | [] => Ok y
  | f :: fs => y1 ← run_functor f y; run_functors fs y1
  end.

Definition set_epoll (p : Epoller) s : loop_state := mkLoopState (members s) p (buckets s) (common s).

Definition iteration (evs : option (list (Z * nat))) (xs : nat -> answers) (fs : list functor) y : result (loop_state * L) :=
  '(act, p) ← poll evs (epoll y.1);
  y1 ← dispatch_all ((fun i => (i, xs i)) <$> act) (set_epoll p y.1, y.2);
  run_functors fs y1.
End loop.

(** ** The poller's report *)

(** The poller notes what it reports, and nothing else. *)
Definition noted (p p' : Epoller) : Prop :=
  shared_ok p' /\ forall i, option_Forall2 (fun c c' => exists r, c' = set_revents r c) (store p !! i) (store p' !! i).

Lemma noted_refl p : shared_ok p -> noted p p.
Proof. intros Hp. split; [done|]. intros i. destruct (store p !! i) as [c|]; constructor. exists (revents_ c). by destruct c. Qed.

Lemma noted_trans p p1 p2 : noted p p1 -> noted p1 p2 -> noted p p2.
Proof.
  intros [_ H1] [Hs H2]. split; [done|]. intros i. specialize (H2 i).
  destruct (H1 i) as [c c1 [r1 ->]|]; inversion H2 as [? c2 [r2 ->]|]; subst; constructor. by exists r2.
Qed.

Lemma noted_one p i c r : shared_ok p -> store p !! i = Some c -> noted p (set_chan i (set_revents r c) p).
Proof.
  intros [Hm Hd] Hc. split.
  - split; [by apply set_revents_mirrors|]. by eapply (distinct_insert i c (set_revents r c) p).
  - intros j. cbn [store set_chan]. destruct (decide (j = i)) as [->|Hne].
    + rewrite Hc, lookup_insert_eq. constructor. by exists r.
    + rewrite lookup_insert_ne by done. apply (noted_refl p (conj Hm Hd)).
Qed.

Lemma fill_noted evs : forall p,
  shared_ok p -> (forall r i, (r, i) ∈ evs -> is_Some (store p !! i)) -> NoDup evs.*2 ->
  exists p', fill_active_channels evs p = Ok (evs.*2, p') /\ noted p p' /\
    (forall r i, (r, i) ∈ evs -> exists c, store p !! i = Some c /\ store p' !! i = Some (set_revents r c)) /\
    forall i, i ∉ evs.*2 -> store p' !! i = store p !! i.
Proof.
  induction evs as [|[r i] evs IH]; intros p Hp Hin Hnd; cbn [fill_active_channels].
  - exists p. split; [done|]. split; [by apply noted_refl|]. split; [|done]. by intros r i ?%elem_of_nil.
  - apply NoDup_cons in Hnd as [Hi Hnd]. destruct (Hin r i) as [c Hc]; [by left|]. rewrite Hc. cbn [of_option].
    rewrite bind_ok. pose proof (noted_one p i c r Hp Hc) as Hone.
    destruct (IH (set_chan i (set_revents r c) p) (proj1 Hone)) as (p' & Hfill & Hnote & Hall & Hrest); [|done|].
    { intros r' j Hj. cbn [store set_chan]. destruct (decide (j = i)) as [->|]; [rewrite lookup_insert_eq; by eexists|].
      rewrite lookup_insert_ne by done. apply (Hin r' j). by right. }
    rewrite Hfill, bind_ok. exists p'. split; [done|]. split; [by eapply noted_trans|]. split.
    + intros r' j [[= -> ->]|Hj]%elem_of_cons.
      * exists c. split; [done|]. rewrite (Hrest i Hi). cbn [store set_chan]. apply lookup_insert_eq.
      * assert (j <> i) by (intros ->; apply Hi; apply list_elem_of_fmap; by exists (r', i)).
        destruct (Hall r' j Hj) as (c' & Hc' & Hp'). cbn [store set_chan] in Hc'. rewrite lookup_insert_ne in Hc' by done.
        by exists c'.
    + intros j Hj. apply not_elem_of_cons in Hj as [Hne Hj]. rewrite (Hrest j Hj). cbn [store set_chan].
      by rewrite lookup_insert_ne.
Qed.

Lemma poll_noted evs p :
  shared_ok p -> (forall r i, (r, i) ∈ default [] evs -> is_Some (store p !! i)) -> NoDup (default [] evs).*2 ->
  exists p', poll evs p = Ok ((default [] evs).*2, p') /\ noted p p' /\
    forall r i, (r, i) ∈ default [] evs -> exists c, store p !! i = Some c /\ store p' !! i = Some (set_revents r c).
Proof.
  intros Hp Hin Hnd.
  assert (Hnone : noted p p /\ forall r i, (r, i) ∈ ([] : list (Z * nat)) ->
    exists c, store p !! i = Some c /\ store p !! i = Some (set_revents r c)).
  { split; [by apply noted_refl|]. by intros r i ?%elem_of_nil. }
  destruct evs as [[|e evs]|]; [by exists p| |by exists p].
  destruct (fill_noted (e :: evs) p Hp Hin Hnd) as (p' & Hfill & Hnote & Hall & _).
  exists (grow (Z.of_nat (length (e :: evs))) p'). unfold poll. rewrite Hfill, bind_ok. done.
Qed.

Section noted.
Context {B DB : Type} `{!MySQL DB} `{!Books B} `{!BooksOk B DB} {FS : FileSystem}.
Implicit Types (s : loop_state (DB := DB)) (a : service B) (g : http_conn).

(** The events a channel was ready for do not matter to its connection. *)
Lemma noted_guest n k st g i ch r :
  channel_ (hc_conn g) = i -> poller_ (hc_conn g) = solo i ch -> guest_rep n k st g ->
  guest_rep n k st (set_conn (set_poller (solo i (set_revents r ch)) (hc_conn g)) g).
Proof.
  intros Hi Hp.
  assert (Hget : forall ch', get_channel (hc_conn g) = Ok ch' -> ch' = ch).
  { intros ch' Hch%get_channel_ok. rewrite Hi, Hp in Hch. cbn [solo store] in Hch. rewrite lookup_singleton_eq in Hch. congruence. }
  assert (Hget' : get_channel (set_poller (solo i (set_revents r ch)) (hc_conn g)) = Ok (set_revents r ch)).
  { unfold get_channel. cbn [poller_ channel_ set_poller solo store]. by rewrite Hi, lookup_singleton_eq. }
  assert (Hready : forall c m, c = hc_conn g \/ c = set_status_ CONNECTED (hc_conn g) -> ready c m ->
    ready (set_poller (solo i (set_revents r ch)) c) m).
  { intros c m Hc [Hup (ch' & Hch & Hadd & Hrd) _ Hwf Hroom Hpend].
    assert (Hsame : get_channel c = get_channel (hc_conn g) /\
      get_channel (set_poller (solo i (set_revents r ch)) c) = Ok (set_revents r ch)) by (destruct Hc as [->| ->]; done).
    destruct Hsame as [Hsame Hnew]. rewrite Hsame in Hch. apply Hget in Hch as ->.
    split; try done; [|apply solo_mirrors]. by exists (set_revents r ch). }
  destruct st as [held k'| | |]; cbn [guest_rep].
  - intros (Hk & Hpos & [Hr Hin Hrd Hwr]). split; [done|]. split; [done|]. split; [|exact Hin|exact Hrd|exact Hwr].
    apply (Hready (hc_conn g) n); [by left|exact Hr].
  - intros (Hk & [Hst Hr Hin]). split; [done|]. split; [exact Hst| |exact Hin].
    apply (Hready (set_status_ CONNECTED (hc_conn g)) n); [by right|exact Hr].
  - intros [[Hst (ch' & Hch & Ht & He & Ha) Hpend] Hin]. apply Hget in Hch as ->. split; [|exact Hin].
    split; [done| |done]. by exists (set_revents r ch).
  - intros [[Hst (ch' & Hch & Ht & He & Ha) Hpend] Hin]. apply Hget in Hch as ->. split; [|exact Hin].
    split; [done| |done]. by exists (set_revents r ch).
Qed.

(** A guest before and after the poller has noted something. *)
Lemma noted_guests p s i :
  loop_ok s -> noted (epoll s) p ->
  option_Forall2 (fun g g' => g' = g \/ exists ch r, channel_ (hc_conn g) = i /\ poller_ (hc_conn g) = solo i ch /\
    g' = set_conn (set_poller (solo i (set_revents r ch)) (hc_conn g)) g)
    (guests_of s !! i) (guests_of (set_epoll p s) !! i).
Proof.
  intros Hs [_ Hn]. unfold guests_of. rewrite !lookup_fmap. cbn [set_epoll members epoll].
  destruct (members s !! i) as [h|] eqn:Hh; [|constructor]. cbn [fmap option_fmap option_map]. constructor.
  unfold part. cbn [channel_ poller_ set_poller hc_conn set_conn]. rewrite (lo_channel _ Hs i h Hh).
  specialize (Hn i). unfold own. inversion Hn as [c c' [r ->] Hc Hc'|Hc Hc'].
  - right. exists c, r. by split.
  - by left.
Qed.

Lemma represents_noted o n s a p :
  represents o n s a -> noted (epoll s) p -> represents o n (set_epoll p s) a /\
    forall j, sent_to (set_epoll p s) j = sent_to s j.
Proof.
  intros [Hl Hw Ha Hg Hf] Hn. pose proof (fun i => noted_guests p s i Hl Hn) as Hgs. split; [split; [|done|done| |]|].
  - destruct Hl as [Hsh Hch Hcalm]. split; [apply Hn|exact Hch|]. intros i c' Hc'. destruct Hn as [_ Hn]. specialize (Hn i).
    cbn [set_epoll epoll] in Hc'. rewrite Hc' in Hn. inversion Hn as [c ? [r Hr] Hc|]; subst. symmetry in Hc. exact (Hcalm i c Hc).
  - intros i. specialize (Hg i). specialize (Hgs i).
    inversion Hg as [st g [He Hr] Hst Hgi|Hst Hgi]; rewrite <-Hgi in Hgs; inversion Hgs as [? g' Hor|]; subst; constructor.
    destruct Hor as [->|(ch & r & Hi & Hpo & ->)]; [by split|]. split; [done|]. by apply noted_guest.
  - change (common (set_epoll p s)) with (common s). rewrite Hf. unfold accounted. f_equal. f_equal. f_equal. f_equal. symmetry.
    apply mapped_pointwise. intros i. specialize (Hgs i).
    inversion Hgs as [g g' Hor Hx Hy|Hx Hy]; [|by split; intros (? & ? & _)].
    assert (Hm : is_mapped g' <-> is_mapped g) by (by destruct Hor as [->|(ch & r & _ & _ & ->)]).
    split; intros (g0 & [= <-] & Hm0); eexists; (split; [done|by apply Hm]).
  - intros j. unfold sent_to. specialize (Hgs j). inversion Hgs as [g g' Hor Hx Hy|Hx Hy]; [|done].
    by destruct Hor as [->|(ch & r & _ & _ & ->)].
Qed.
End noted.

(** ** A ready channel *)

(** [destroy_connect] and the destructor follow from the other events. *)
Definition visible (e : loop_event) : Prop := match e with Remove _ | Release _ => False | _ => True end.
#[export] Instance visible_dec e : Decision (visible e).
Proof. destruct e; apply _. Defined.

Section iteration.
Context {DB : Type} `{!MySQL DB} {FS : FileSystem} (srcDir : bytes) {L : Type} `{!Ledger L} `{!LedgerOk (env DB) srcDir L}.
Context (role_of : nat -> role) (server_loop : bool).
Implicit Types (s : loop_state (DB := DB)) (y : loop_state (DB := DB) * L) (a : service (env DB)) (x : answers).

(** [send] takes at most the answer, whatever the accounts are by then. *)
Definition fairly_sent a (i : nat) x : Prop :=
  match a_read x with
  | IoOk [] | IoErr _ => True
  | IoOk data =>
      forall held k, clients a !! i = Some (Live held k) -> forall b out rest b1,
        responds srcDir b (held ++ data) out rest b1 -> sent_sound (a_sent x) (length (said out))
  end.

(** Where the peer has hung up and no input is reported, there is none. *)
Definition hung_up_empty (r : Z) x : Prop :=
  has_bits r POLLHUP && negb (has_bits r POLLIN) = true -> match a_read x with IoOk (_ :: _) => False | _ => True end.

Record ready_channel s (i : nat) (ch : Channel) : Prop := {
  rc_channel : store (epoll s) !! i = Some ch;
  rc_watched : Channel.status_ ch = ADD;
  rc_member : role_of i = Connection -> is_Some (members s !! i)
}.

(** The state of a client shows in its channel. *)
Definition tag_of (st : guest) : POLL_TAG :=
  match st with Live _ _ | Idle => ADD | Gone => DEL | Removed => NEW end.

Lemma member_tag o n s a i ch :
  represents o n s a -> is_Some (members s !! i) -> store (epoll s) !! i = Some ch ->
  exists st, clients a !! i = Some st /\ Channel.status_ ch = tag_of st.
Proof.
  intros Hrep [h Hh] Hch. pose proof (rp_loop _ _ _ _ Hrep) as Hs.
  pose proof (rp_guests _ _ _ _ Hrep i) as Hg. rewrite (guests_lookup s i h Hh) in Hg.
  inversion Hg as [st g [_ Hst] Hc Hg'|]; subst. exists st. split; [done|].
  assert (Hstore : forall ch', get_channel (hc_conn (client (spart (seated_at s h)))) = Ok ch' -> ch' = ch).
  { intros ch' Hch'. apply (guest_channel_store s i h ch' Hs Hh) in Hch'. congruence. }
  destruct st as [held k| | |]; [destruct Hst as (_ & _ & [[_ (c & Hc' & Hadd & _) _ _ _ _] _ _ _])|
    destruct Hst as (_ & [_ [_ (c & Hc' & Hadd & _) _ _ _ _] _])|destruct Hst as [[_ (c & Hc' & Hadd & _) _] _]..];
    by apply Hstore in Hc' as ->.
Qed.

(** The kernel only reports clients that are open. *)
Lemma member_open o n s a i ch :
  represents o n s a -> ready_channel s i ch -> role_of i = Connection ->
  exists st, clients a !! i = Some st /\ is_open st.
Proof.
  intros Hrep [Hch Hadd Hm] Hr. destruct (member_tag o n s a i ch Hrep (Hm Hr) Hch) as (st & Hc & Ht).
  exists st. split; [done|]. rewrite Hadd in Ht. by destruct st.
Qed.

(** *** What a connection's callbacks may do *)

Lemma closing_may i a es :
  clients a !! i = Some Gone ->
  (forall a' st, clients a' !! i = Some st -> ~ is_open st -> may_happen srcDir es a') ->
  may_happen srcDir (closing server_loop i ++ es) a.
Proof.
  intros Hc Hes. unfold closing. destruct server_loop; cbn [app]; [|apply (Hes a Gone Hc); by intros []].
  apply may_remove; [done|]. apply (Hes _ Removed); [cbn [clients set_client]; by rewrite lookup_insert_eq|by intros []].
Qed.

Lemma read_may i a st x es :
  clients a !! i = Some st -> is_open st -> fairly_sent a i x ->
  (forall a', is_Some (clients a' !! i) -> may_happen srcDir es a') ->
  may_happen srcDir ((Read i (a_read x) (a_sent x) :: match a_read x with IoOk [] => closing server_loop i | _ => [] end) ++ es) a.
Proof.
  intros Hc Ho Ha Hes. unfold fairly_sent in Ha. destruct (a_read x) as [er|[|y data]]; cbn [app].
  - apply (may_quiet srcDir i); [by eexists|right; right; by do 2 eexists|]. apply Hes. by eexists.
  - eapply may_close; [done|done|by right|]. apply closing_may; [cbn [clients set_client]; apply lookup_insert_eq|].
    intros a' st' Hc' _. apply Hes. by eexists.
  - destruct st as [held k| | |]; try done.
    + eapply may_message; [done|done| |intros held' T'; apply Hes; cbn [clients]; rewrite lookup_insert_eq; by eexists].
      cbn [possible]. rewrite Hc. split; [apply proper_own|]. intros out rest b1. by apply (Ha held k).
    + apply may_ignored; [done|done|]. apply Hes. by eexists.
Qed.

(** A read after the end: it fails quietly, or closes the connection again,
    which nothing follows. *)
Lemma read_closed_may i a st x es es' :
  clients a !! i = Some st -> ~ is_open st -> match a_read x with IoOk (_ :: _) => False | _ => True end ->
  may_happen srcDir es a ->
  may_happen srcDir ((Read i (a_read x) (a_sent x) :: match a_read x with IoOk [] => es' | _ => [] end) ++ es) a.
Proof.
  intros Hc Ho Hx Hes. destruct (a_read x) as [er|[|y data]]; [|by eapply may_closed|done].
  apply (may_quiet srcDir i); [by eexists|right; right; by do 2 eexists|done].
Qed.

Lemma handlers_may i a st x ch :
  role_of i = Connection -> clients a !! i = Some st -> is_open st -> fairly_sent a i x -> hung_up_empty (revents_ ch) x ->
  may_happen srcDir (handlers role_of server_loop i x ch true) a.
Proof.
  intros Hrole Hc Ho Ha Hh. unfold handlers.
  assert (Hcalled : handle_event (installed (role_of i)) true ch = handle_event_guard_ (installed (role_of i)) ch)
    by (unfold handle_event; by destruct (tied_ ch)).
  rewrite Hcalled, Hrole. unfold handle_event_guard_, hung_up_empty, call_if, installed in *.
  set (b1 := has_bits _ POLLHUP && _) in *. set (b3 := has_bits _ (Z.lor (Z.lor _ _) _)).
  set (b4 := has_bits _ POLLOUT). rewrite !andb_true_r, !fmap_app, !concat_app.
  assert (Hcb : forall k, callback_events role_of server_loop i x k = match k with
    | CloseCb => Hangup i :: closing server_loop i
    | ErrorCb => []
    | ReadCb => Read i (a_read x) (a_sent x) :: match a_read x with IoOk [] => closing server_loop i | _ => [] end
    | WriteCb => [Write i (a_written x)]
    end) by (intros k; unfold callback_events; by rewrite Hrole; destruct k).
  set (wr := concat (callback_events role_of server_loop i x <$> (if b4 then [WriteCb] else []))).
  assert (Hw : forall a', is_Some (clients a' !! i) -> may_happen srcDir wr a').
  { intros a' Hi. unfold wr. destruct b4; [|done]. cbn [fmap list_fmap concat app]. rewrite Hcb. cbn [app]. apply (may_quiet srcDir i); [done|left; by eexists|done]. }
  assert (Herr : forall b : bool, concat (callback_events role_of server_loop i x <$> (if b then [ErrorCb] else [])) = []).
  { intros [|]; [|done]. change (callback_events role_of server_loop i x ErrorCb ++ [] = []). by rewrite Hcb. }
  rewrite Herr. clear Herr. cbn [app]. set (rd := concat (callback_events role_of server_loop i x <$> (if b3 then [ReadCb] else []))).
  assert (Hrd : b3 = true -> rd = Read i (a_read x) (a_sent x) :: match a_read x with IoOk [] => closing server_loop i | _ => [] end).
  { unfold rd. intros ->. transitivity (callback_events role_of server_loop i x ReadCb ++ []); [done|]. by rewrite app_nil_r, Hcb. }
  assert (Hrd' : b3 = false -> rd = []) by (unfold rd; by intros ->). clearbody rd.
  destruct b1; cbn [app].
  - change (may_happen srcDir ((callback_events role_of server_loop i x CloseCb ++ []) ++ rd ++ wr) a). rewrite Hcb, app_nil_r.
    eapply may_close; [done|done|by left|]. apply closing_may; [cbn [clients set_client]; apply lookup_insert_eq|].
    intros a' st' Hc' Ho'. destruct b3; [rewrite Hrd by done|rewrite Hrd' by done; apply Hw; by eexists].
    eapply read_closed_may; [done|done|by apply Hh|]. apply Hw. by eexists.
  - change (may_happen srcDir (rd ++ wr) a). destruct b3; [rewrite Hrd by done; by eapply read_may|].
    rewrite Hrd' by done. apply Hw. by eexists.
Unshelve.
  exact (IoOk 0%nat).
Qed.

(** *** Any channel *)

Lemma handlers_other i x ch m :
  role_of i <> Connection ->
  let es := handlers role_of server_loop i x ch m in es = [] \/ (exists j fd, es = [Accept j fd]) \/ es = [Second].
Proof.
  intros Hr es. unfold es, handlers.
  assert (Hread : handle_event (installed (role_of i)) m ch = [] \/ handle_event (installed (role_of i)) m ch = [ReadCb]).
  { unfold handle_event, handle_event_guard_, call_if, installed.
    destruct (role_of i); [done|..]; rewrite !andb_false_r, !andb_true_r; cbn [app]; rewrite app_nil_r;
      (match goal with |- context [has_bits ?r ?b] => destruct (tied_ ch), m, (has_bits r b); auto end). }
  destruct Hread as [->| ->]; [by left|].
  change (callback_events role_of server_loop i x ReadCb ++ [] = [] \/
    (exists j fd, callback_events role_of server_loop i x ReadCb ++ [] = [Accept j fd]) \/
    callback_events role_of server_loop i x ReadCb ++ [] = [Second]).
  rewrite app_nil_r. unfold callback_events. destruct (role_of i); [done|by left|destruct (a_expired x); auto|].
  destruct (a_accepted x) as [[j fd]|]; [right; left; by exists j, fd|by left].
Qed.

Lemma fresh_client o n s a i fd : represents o n s a -> fresh i fd s -> clients a !! i = None.
Proof.
  intros Hrep (Hfree & _). pose proof (rp_guests _ _ _ _ Hrep i) as Hg.
  inversion Hg as [st g [_ Hr] Hc Hgi|]; [|done]. symmetry in Hgi. apply guests_inv in Hgi as (h & Hh & ->).
  destruct (guest_channel _ _ _ _ Hr) as [ch Hch].
  apply (guest_channel_store s i h ch (rp_loop _ _ _ _ Hrep) Hh) in Hch. congruence.
Qed.

Definition called s (i : nat) x (ch : Channel) : list loop_event :=
  handlers role_of server_loop i x ch (bool_decide (is_Some (members s !! i))).

Lemma called_may o n s a i x ch :
  represents o n s a -> ready_channel s i ch -> (role_of i = Connection -> fairly_sent a i x /\ hung_up_empty (revents_ ch) x) ->
  loop_sound srcDir (called s i x ch) s -> may_happen srcDir (called s i x ch) a.
Proof.
  intros Hrep Hready Ha Hsound. unfold called in *. destruct (decide (role_of i = Connection)) as [Hr|Hr].
  - rewrite bool_decide_true by (by apply (rc_member _ _ _ Hready)).
    destruct (member_open o n s a i ch Hrep Hready Hr) as (st & Hc & Ho).
    eapply handlers_may; [done|done|done|by apply Ha..].
  - revert Hsound. destruct (handlers_other i x ch (bool_decide (is_Some (members s !! i))) Hr) as [->|[(j & fd & ->)| ->]].
    + done.
    + intros [Hf _]. apply may_accept; [by eapply fresh_client|done].
    + intros _. by apply may_second.
Qed.

Lemma called_elsewhere s i x ch j :
  j <> i \/ role_of i <> Connection -> is_Some (store (epoll s) !! j) -> loop_sound srcDir (called s i x ch) s ->
  Forall (fun e => subject e <> Some j) (called s i x ch).
Proof.
  intros Hor Hj Hsound. unfold called in *. destruct (decide (role_of i = Connection)) as [Hr|Hr].
  - assert (Hne : j <> i) by (by destruct Hor). unfold handlers. apply Forall_concat, Forall_fmap, Forall_true. intros k. cbn [compose].
    assert (Hi : Some i <> Some j) by congruence. unfold closing.
    unfold callback_events. rewrite Hr. destruct k; repeat constructor; try done;
      [unfold closing; destruct server_loop; by repeat constructor|].
    destruct (a_read x) as [|[]]; [done| |done]. unfold closing; destruct server_loop; by repeat constructor.
  - revert Hsound. destruct (handlers_other i x ch (bool_decide (is_Some (members s !! i))) Hr) as [->|[(j' & fd & ->)| ->]].
    + done.
    + intros [(Hf & _) _]. constructor; [|done]. cbn [subject]. intros [= ->]. rewrite Hf in Hj. by destruct Hj.
    + intros _. by constructor.
Qed.

(** *** The loop's own channels *)

(** A channel of something else than a connection, and that nothing but the
    poller's notes happens to it. *)
Definition set_apart (j : nat) s : Prop := is_Some (store (epoll s) !! j) /\ members s !! j = None.
Definition undisturbed (j : nat) s s' : Prop :=
  set_apart j s -> set_apart j s' /\ exists r, store (epoll s') !! j = set_revents r <$> store (epoll s) !! j.

Lemma undisturbed_refl j s : undisturbed j s s.
Proof. intros Hj. split; [done|]. destruct Hj as [[c ->] _]. exists (revents_ c). by destruct c. Qed.

Lemma undisturbed_trans j s s1 s2 : undisturbed j s s1 -> undisturbed j s1 s2 -> undisturbed j s s2.
Proof.
  intros H1 H2 Hj. destruct (H1 Hj) as [Hj1 [r1 E1]]. destruct (H2 Hj1) as [Hj2 [r2 E2]]. split; [done|]. exists r2.
  rewrite E2, E1. by destruct (store (epoll s) !! j).
Qed.

Lemma elsewhere_undisturbed j s s' a a' : elsewhere j s s' a a' -> undisturbed j s s'.
Proof.
  intros He [Hst Hm]. destruct (He Hst) as (E & Hmem & _). split.
  - split; [by rewrite E|]. apply eq_None_not_Some. rewrite Hmem, Hm. by intros [].
  - destruct Hst as [c Hc]. exists (revents_ c). rewrite E, Hc. by destruct c.
Qed.

Lemma step_undisturbed o n s a e text s' a' j :
  represents o n s a -> sound_event s e -> serves srcDir a e text a' -> loop_step srcDir e s = Ok s' -> undisturbed j s s'.
Proof.
  intros Hrep Hsound Hserve Hrun Hj. apply (elsewhere_undisturbed j s s' a a'); [|done].
  apply (step_elsewhere srcDir o n s a e text s' a' j Hrep Hsound Hserve Hrun). intros Hsub. destruct Hj as [[c Hc] Hm].
  assert (Hno : clients a !! j = None).
  { pose proof (rp_guests _ _ _ _ Hrep j) as Hg. rewrite (proj2 (guests_none s j) Hm) in Hg. by inversion Hg. }
  destruct Hserve as [i fd _| | | | | | | |i er sent [g Hg]|i w [g Hg]|i [g Hg]]; cbn [subject] in Hsub; simplify_eq; try congruence.
  destruct Hsound as [Hf _]. congruence.
Qed.

Lemma noted_undisturbed p s j : noted (epoll s) p -> undisturbed j s (set_epoll p s).
Proof.
  intros [_ Hn] [[c Hc] Hm]. specialize (Hn j). rewrite Hc in Hn. inversion Hn as [? c' [r ->] H1 H2|]; subst. unfold set_apart.
  cbn [set_epoll epoll members]. rewrite <-H2, Hc. split; [split; [by eexists|done]|]. by exists r.
Qed.

(** *** Letting go of a connection *)

Lemma unheld_removed o n s a i : represents o n s a -> unheld i s = true -> clients a !! i = Some Removed.
Proof.
  intros Hrep. unfold unheld. destruct (members s !! i) as [h|] eqn:Hh; [|done].
  destruct (store (epoll s) !! i) as [ch|] eqn:Hch; [|done]. intros [Hnew%bool_decide_eq_true _]%andb_true_iff.
  destruct (member_tag o n s a i ch Hrep (mk_is_Some _ _ Hh) Hch) as (st & Hc & Ht). rewrite Hnew in Ht. by destruct st.
Qed.

(** The loop and the ledger at [y] stand for the service [a]. *)
Definition stands (o : os) (n : Z) (k : nat) y a : Prop := represents o n y.1 a /\ agrees k a y.2.

Lemma full_step_ok k y a e t a1 s1 :
  loop_step srcDir e y.1 = Ok s1 -> serves srcDir a e t a1 -> agrees (comes e + k) a y.2 ->
  exists l1, full_step srcDir e y = Ok (s1, l1) /\ agrees k a1 l1.
Proof.
  intros Hrun Hserve Hag. destruct (enter_ok k a a1 e t y.2 Hserve Hag) as (l1 & He & Hag1).
  exists l1. unfold full_step. by rewrite He, bind_ok, Hrun, bind_ok.
Qed.

Lemma full_run_serves A es : forall o n k y a,
  stands o n (arrivals es + k) y a -> srcDir <> [] -> page_limit srcDir A -> may_happen srcDir es a -> loop_sound srcDir es y.1 ->
  total_cost A es <= n <= max_size - 2048 ->
  match full_run srcDir es y with
  | Ok y' => exists xs a', serves_all srcDir a es xs a' /\ stands (lose (losses xs) o) (n - total_cost A es) k y' a' /\
      (forall j, Release j ∉ es -> sent_to y'.1 j = sent_to y.1 j ++ answers_for j es xs) /\
      forall j, Forall (fun e => subject e <> Some j) es -> elsewhere j y.1 y'.1 a a'
  | Fault f => exists xs, breaks_in srcDir a es xs f
  end.
Proof.
  induction es as [|e es IH]; intros o n k y a [Hrep Hag] Hsrc Hlim Hmay Hsound Hn; cbn [full_run].
  - exists [], a. cbn [losses foldr total_cost]. rewrite Z.sub_0_r, lose_none. split; [constructor|]. split; [done|]. split.
    + intros j _. by rewrite app_nil_r.
    + intros j _. apply elsewhere_refl.
  - destruct Hmay as [Hposs Hmay]. destruct Hsound as [Hsound1 Hsound]. cbn [total_cost] in *.
    pose proof (cost_nonneg srcDir A e Hlim). pose proof (total_cost_nonneg srcDir A es Hlim).
    pose proof (service_step srcDir o n y.1 a e A Hrep Hsrc Hlim Hposs Hsound1 ltac:(lia) ltac:(lia)) as Hstep.
    change (arrivals (e :: es)) with (comes e + arrivals es)%nat in Hag. rewrite <-Nat.add_assoc in Hag.
    destruct (loop_step srcDir e y.1) as [s1|f] eqn:Hrun.
    + destruct Hstep as (x & a1 & Hserve & Hrep1 & Hst1).
      destruct (full_step_ok _ y a e x a1 s1 Hrun Hserve Hag) as (l1 & -> & Hag1). rewrite bind_ok.
      specialize (IH _ (n - cost A e) k (s1, l1) a1 (conj Hrep1 Hag1) Hsrc Hlim (Hmay _ _ Hserve) Hsound ltac:(lia)).
      destruct (full_run srcDir es (s1, l1)) as [y2|f].
      * destruct IH as (xs & a2 & Hserve2 & Hst2 & Hsent2 & Helse). exists (x :: xs), a2.
        split; [by econstructor|]. cbn [losses foldr]. rewrite Z.sub_add_distr, <-lose_lose. split; [exact Hst2|]. split.
        -- intros j Hj. apply not_elem_of_cons in Hj as [He Hj]. cbn [answers_for].
           rewrite (Hsent2 j Hj). cbn [fst]. rewrite Hst1 by congruence. by rewrite app_assoc.
        -- intros j [Hj Hes]%Forall_cons. eapply elsewhere_trans; [|by apply Helse]. by eapply step_elsewhere.
      * destruct IH as [xs Hbr]. exists (x :: xs). by eapply breaks_later.
    + destruct (enter_breaks _ a e f y.2 Hstep Hag) as (l1 & He). unfold full_step. rewrite He, bind_ok, Hrun.
      exists []. by apply breaks_now.
Qed.

(** *** What a stretch of the loop does *)

(** It serves [es], with the outputs [xs]. *)
Record stretch (o : os) (n : Z) (k : nat) y a y' a' (es : list loop_event) (xs : list output) : Prop := {
  sr_serves : serves_all srcDir a es xs a';
  sr_stands : stands (lose (losses xs) o) n k y' a';
  sr_sent j : Release j ∉ es -> sent_to y'.1 j = sent_to y.1 j ++ answers_for j es xs;
  sr_apart j : undisturbed j y.1 y'.1
}.

(** It serves the events that are called for, or breaks at one of them. *)
Definition does (o : os) (n : Z) (k : nat) y a (run : result (loop_state (DB := DB) * L)) (es0 : list loop_event)
    (Q : loop_state (DB := DB) * L -> service (env DB) -> Prop) : Prop :=
  match run with
  | Ok y' => exists es xs a', stretch o n k y a y' a' es xs /\ filter visible es = filter visible es0 /\ Q y' a'
  | Fault f => exists es xs, breaks_in srcDir a es xs f /\ filter visible es = filter visible es0
  end.

Lemma stretch_app o n m k k' y a y1 a1 y2 a2 es1 xs1 es2 xs2 :
  stretch o n k y a y1 a1 es1 xs1 -> stretch (lose (losses xs1) o) m k' y1 a1 y2 a2 es2 xs2 ->
  stretch o m k' y a y2 a2 (es1 ++ es2) (xs1 ++ xs2).
Proof.
  intros [Hs1 _ Ht1 Hu1] [Hs2 Hr2 Ht2 Hu2]. split.
  - by eapply serves_app.
  - by rewrite losses_app, <-lose_lose.
  - intros j Hj. rewrite elem_of_app in Hj. rewrite Ht2, Ht1, answers_for_app by (tauto || by eapply serves_length).
    by rewrite app_assoc.
  - intros j. by eapply undisturbed_trans.
Qed.

Lemma stretch_refl o n k y a : stands o n k y a -> stretch o n k y a y a [] [].
Proof.
  intros Hr. split; [constructor|by rewrite lose_none|intros j _; by rewrite app_nil_r|intros j; apply undisturbed_refl].
Qed.

Lemma does_nothing o n k y a : stands o n k y a -> does o n k y a (Ok y) [] (fun _ _ => True).
Proof. intros Hr. exists [], [], a. by split; [apply stretch_refl|]. Qed.

(** One thing after another. *)
Lemma does_bind o n m k k' y a run g es1 es2 Q Q' :
  does o n k y a run es1 Q ->
  (forall y1 a1 es xs, run = Ok y1 -> stretch o n k y a y1 a1 es xs -> filter visible es = filter visible es1 -> Q y1 a1 ->
    does (lose (losses xs) o) m k' y1 a1 (g y1) es2 Q') ->
  does o m k' y a (y1 ← run; g y1) (es1 ++ es2) Q'.
Proof.
  unfold does. intros H1 H2. destruct run as [y1|f]; cbn [mbind result_bind].
  - destruct H1 as (es & xs & a1 & Hst & Hvis & HQ). specialize (H2 y1 a1 es xs eq_refl Hst Hvis HQ).
    destruct (g y1) as [y2|f].
    + destruct H2 as (es' & xs' & a2 & Hst2 & Hvis2 & HQ'). exists (es ++ es'), (xs ++ xs'), a2.
      split; [by eapply stretch_app|]. by rewrite !filter_app, Hvis, Hvis2.
    + destruct H2 as (es' & xs' & Hbr & Hvis2). exists (es ++ es'), (xs ++ xs').
      split; [eapply serves_breaks; [apply Hst|exact Hbr]|]. by rewrite !filter_app, Hvis, Hvis2.
  - destruct H1 as (es & xs & Hbr & Hvis). exists (es ++ es2), xs. split; [by apply breaks_more|]. by rewrite !filter_app, Hvis.
Qed.

Lemma reap_serves o n k y a i :
  stands o n k y a ->
  exists es xs y' a', reap srcDir i y = Ok y' /\ stretch o n k y a y' a' es xs /\ filter visible es = [] /\
    forall j, j <> i -> elsewhere j y.1 y'.1 a a'.
Proof.
  intros [Hrep Hag]. unfold reap. destruct (unheld i y.1) eqn:Hu.
  - pose proof (unheld_removed o n y.1 a i Hrep Hu) as Hc.
    destruct (release_step srcDir o n y.1 a i Hrep Hc) as (s' & Hrun & Hrep' & Hst).
    pose proof (serves_release srcDir a i Hc) as Hserve.
    destruct (full_step_ok k y a (Release i) nothing _ s' Hrun Hserve Hag) as (l' & Hfull & Hag').
    exists [Release i], [nothing], (s', l'). eexists. split; [exact Hfull|]. split; [split|split; [done|]].
    + repeat econstructor. exact Hc.
    + split; [by rewrite lose_none|exact Hag'].
    + intros j Hj. cbn [answers_for outs app]. rewrite app_nil_r. apply Hst. intros ->. apply Hj. by left.
    + intros j. exact (step_undisturbed o n y.1 a (Release i) nothing s' _ j Hrep I Hserve Hrun).
    + intros j Hj. refine (step_elsewhere srcDir o n y.1 a (Release i) nothing s' _ j Hrep I Hserve Hrun _). cbn [subject]. congruence.
  - exists [], [], y, a. split; [done|]. split; [by apply stretch_refl|]. split; [done|]. intros j _. apply elsewhere_refl.
Qed.

Lemma dispatch_does o n k y a i x ch A :
  stands o n (arrivals (called y.1 i x ch) + k) y a -> srcDir <> [] -> page_limit srcDir A -> ready_channel y.1 i ch ->
  (role_of i = Connection -> fairly_sent a i x /\ hung_up_empty (revents_ ch) x) -> loop_sound srcDir (called y.1 i x ch) y.1 ->
  total_cost A (called y.1 i x ch) <= n <= max_size - 2048 ->
  does o (n - total_cost A (called y.1 i x ch)) k y a (dispatch srcDir role_of server_loop i x y) (called y.1 i x ch)
    (fun y' a' => forall j, j <> i -> elsewhere j y.1 y'.1 a a').
Proof.
  intros Hst Hsrc Hlim Hready Ha Hsound Hn. pose proof (called_may o n y.1 a i x ch (proj1 Hst) Hready Ha Hsound) as Hmay.
  pose proof (full_run_serves A _ o n k y a Hst Hsrc Hlim Hmay Hsound Hn) as Hfull.
  unfold does, dispatch. rewrite (rc_channel _ _ _ Hready). cbn [of_option]. rewrite bind_ok. cbv zeta.
  change (full_run srcDir (handlers _ _ i x ch _) y) with (full_run srcDir (called y.1 i x ch) y).
  destruct (full_run srcDir (called y.1 i x ch) y) as [y1|f]; rewrite ?bind_ok; [|by destruct Hfull as [xs Hbr]; exists (called y.1 i x ch), xs].
  destruct Hfull as (xs & a1 & Hserve & Hst1 & Hsent & Helse).
  destruct (reap_serves _ _ k y1 a1 i Hst1) as (es2 & xs2 & y2 & a2 & -> & Hst2 & Hvis2 & Helse2).
  exists (called y.1 i x ch ++ es2), (xs ++ xs2), a2. split; [|split].
  - eapply stretch_app; [split; [exact Hserve|exact Hst1|exact Hsent|]|exact Hst2].
    intros j [Hj Hm]. apply (elsewhere_undisturbed j y.1 y1.1 a a1); [|by split]. apply Helse, called_elsewhere; [|done|done].
    destruct (decide (j = i)) as [->|]; [right|by left]. intros Hr. apply (rc_member _ _ _ Hready) in Hr. rewrite Hm in Hr. by destruct Hr.
  - by rewrite filter_app, Hvis2, app_nil_r.
  - intros j Hj Hstore. eapply elsewhere_trans; [|by apply Helse2|done]. apply Helse.
    apply called_elsewhere; [by left|done|done].
Qed.

(** *** All ready channels *)

(** The events the ready channels call for. *)
Definition calls s (act : list (nat * answers)) : list loop_event :=
  concat ((fun z => match store (epoll s) !! z.1 with Some ch => called s z.1 z.2 ch | None => [] end) <$> act).

(** The kernel and the allocator, while the callbacks run. *)
Fixpoint dispatch_sound (act : list (nat * answers)) y : Prop :=
  match act with
  | [] => True
  | (i, x) :: act =>
      loop_sound srcDir (calls y.1 [(i, x)]) y.1 /\
      match dispatch srcDir role_of server_loop i x y with Ok y1 => dispatch_sound act y1 | Fault _ => True end
  end.

Definition all_ready s a (act : list (nat * answers)) : Prop :=
  Forall (fun z => exists ch, ready_channel s z.1 ch /\
    (role_of z.1 = Connection -> fairly_sent a z.1 z.2 /\ hung_up_empty (revents_ ch) z.2)) act.

(** A channel that waits for its turn is not disturbed. *)
Lemma still_ready s s' a a' (i : nat) (act : list (nat * answers)) :
  i ∉ act.*1 -> (forall j, j <> i -> elsewhere j s s' a a') -> all_ready s a act -> all_ready s' a' act /\ calls s' act = calls s act.
Proof.
  intros Hy Helse Hall. induction Hall as [|z act (ch & [Hch Hadd Hm] & Ha) _ IH]; [split; [constructor|done]|].
  apply not_elem_of_cons in Hy as [Hne Hy]. destruct (IH Hy) as [Hall' Hcalls].
  destruct (Helse z.1 (not_eq_sym Hne)) as (Hst & Hmem & Hcl); [by rewrite Hch|]. split.
  - constructor; [|done]. exists ch. split; [split; [by rewrite Hst|done|intros Hr; by apply Hmem, Hm]|].
    intros Hr. destruct (Ha Hr) as [Hf Hh]. split; [|done]. unfold fairly_sent in *. destruct (a_read z.2) as [|[]]; try done.
    intros held k Hc. destruct (Hcl held k Hc) as [k' Hk]. by eapply Hf.
  - unfold calls in *. rewrite !fmap_cons. cbn [concat]. rewrite Hcalls, Hst, Hch. unfold called. f_equal. f_equal.
    by apply bool_decide_ext.
Qed.

Lemma total_cost_app A es es' : total_cost A (es ++ es') = total_cost A es + total_cost A es'.
Proof. induction es as [|e es IH]; cbn [app total_cost]; [done|]. rewrite IH. lia. Qed.

Lemma dispatch_all_does A act : forall o n k y a,
  stands o n (arrivals (calls y.1 act) + k) y a -> srcDir <> [] -> page_limit srcDir A -> NoDup act.*1 -> all_ready y.1 a act ->
  dispatch_sound act y -> total_cost A (calls y.1 act) <= n <= max_size - 2048 ->
  does o (n - total_cost A (calls y.1 act)) k y a (dispatch_all srcDir role_of server_loop act y) (calls y.1 act) (fun _ _ => True).
Proof.
  induction act as [|[i x] act IH]; intros o n k y a Hst Hsrc Hlim Hnd Hall Hsound Hn.
  - rewrite Z.sub_0_r. by apply does_nothing.
  - apply NoDup_cons in Hnd as [Hi Hnd]. apply Forall_cons in Hall as [(ch & Hready & Ha) Hall]. cbn [fst snd] in *.
    destruct Hsound as [Hsound Hrest]. pose proof (rc_channel _ _ _ Hready) as Hch.
    assert (Hcalls : forall act', calls y.1 ((i, x) :: act') = called y.1 i x ch ++ calls y.1 act').
    { intros act'. unfold calls. rewrite fmap_cons. cbn [concat fst snd]. by rewrite Hch. }
    rewrite Hcalls in Hsound, Hn, Hst |- *. change (calls y.1 []) with (@nil loop_event) in Hsound. rewrite app_nil_r in Hsound.
    rewrite arrivals_app, <-Nat.add_assoc in Hst.
    rewrite total_cost_app in *. pose proof (total_cost_nonneg srcDir A (calls y.1 act) Hlim).
    pose proof (total_cost_nonneg srcDir A (called y.1 i x ch) Hlim). cbn [dispatch_all].
    eapply does_bind; [apply (dispatch_does o n _ y a i x ch A Hst Hsrc Hlim Hready Ha Hsound); lia|].
    intros y1 a1 es xs Hrun Hstr Hvis Helse. rewrite Hrun in Hrest.
    destruct (still_ready y.1 y1.1 a a1 i act Hi Helse Hall) as [Hall1 Hcalls1].
    pose proof (sr_stands _ _ _ _ _ _ _ _ _ Hstr) as Hst1. rewrite <-Hcalls1 in Hst1 |- *. rewrite Z.sub_add_distr.
    apply (IH _ _ k y1 a1); [exact Hst1|done..|]. rewrite Hcalls1. lia.
Qed.

(** *** The functors *)

Definition functor_events (f : functor) : list loop_event :=
  match f with BuildConnect i fd => [Accept i fd] | OfConnection i => [Functor i] | DestroyConnect _ => [] end.

(** What the other loops queue: a connection that is new, one that is there,
    one that is closed and not removed. *)
Definition functor_sound (f : functor) s : Prop :=
  match f with
  | BuildConnect i fd => fresh i fd s
  | OfConnection i => is_Some (members s !! i)
  | DestroyConnect i => is_Some (members s !! i) /\ exists ch, store (epoll s) !! i = Some ch /\ Channel.status_ ch = DEL
  end.

Fixpoint functors_sound (fs : list functor) y : Prop :=
  match fs with
  | [] => True
  | f :: fs => functor_sound f y.1 /\
      match run_functor srcDir f y with Ok y1 => functors_sound fs y1 | Fault _ => True end
  end.

Lemma member_client o n s a i : represents o n s a -> is_Some (members s !! i) -> is_Some (clients a !! i).
Proof.
  intros Hrep [h Hh]. pose proof (rp_guests _ _ _ _ Hrep i) as Hg. rewrite (guests_lookup s i h Hh) in Hg.
  inversion Hg as [st g _ Hc Hg'|]. by eexists.
Qed.

Lemma removable o n s a i : represents o n s a -> functor_sound (DestroyConnect i) s -> clients a !! i = Some Gone.
Proof.
  intros Hrep [Hm (ch & Hch & Hdel)]. destruct (member_tag o n s a i ch Hrep Hm Hch) as (st & Hc & Ht).
  rewrite Hdel in Ht. by destruct st.
Qed.

(** One event that sends nothing, and one after which the object may go. *)
Lemma quiet_stretch o n k y a e s1 a1 :
  represents o n y.1 a -> sound_event y.1 e ->
  loop_step srcDir e y.1 = Ok s1 -> serves srcDir a e nothing a1 -> represents o n s1 a1 ->
  (forall j, sent_to s1 j = sent_to y.1 j) -> agrees (comes e + k) a y.2 ->
  exists l1, full_step srcDir e y = Ok (s1, l1) /\ stretch o n k y a (s1, l1) a1 [e] [nothing].
Proof.
  intros Hrep He Hrun Hserve Hrep1 Hst Hag. destruct (full_step_ok k y a e nothing a1 s1 Hrun Hserve Hag) as (l1 & Hfull & Hag1).
  exists l1. split; [done|]. split.
  - repeat econstructor. exact Hserve.
  - split; [by rewrite lose_none|exact Hag1].
  - intros j _. cbn [answers_for]. by rewrite outs_nil, app_nil_r.
  - intros j. by eapply (step_undisturbed o n y.1 a e nothing s1 a1).
Qed.

Lemma reap_does o n k y a e s1 a1 i :
  represents o n y.1 a -> sound_event y.1 e ->
  loop_step srcDir e y.1 = Ok s1 -> serves srcDir a e nothing a1 -> represents o n s1 a1 ->
  (forall j, sent_to s1 j = sent_to y.1 j) -> agrees (comes e + k) a y.2 ->
  does o n k y a (y1 ← full_step srcDir e y; reap srcDir i y1) [e] (fun _ _ => True).
Proof.
  intros Hrep He Hrun Hserve Hrep1 Hst Hag. destruct (quiet_stretch o n k y a e s1 a1) as (l1 & Hfull & Hst1); [done..|].
  destruct (reap_serves _ n k (s1, l1) a1 i (sr_stands _ _ _ _ _ _ _ _ _ Hst1)) as (es2 & xs2 & y2 & a2 & Hreap & Hst2 & Hvis2 & _).
  unfold does. rewrite Hfull, bind_ok, Hreap. exists ([e] ++ es2), ([nothing] ++ xs2), a2.
  split; [by eapply stretch_app|]. by rewrite filter_app, Hvis2, app_nil_r.
Qed.

Lemma functor_does o n k y a f :
  stands o n (arrivals (functor_events f) + k) y a -> 0 <= n <= max_size - 2048 -> functor_sound f y.1 ->
  does o n k y a (run_functor srcDir f y) (functor_events f) (fun _ _ => True).
Proof.
  intros [Hrep Hag] Hn Hf. destruct f as [i fd|i|i]; cbn [run_functor functor_sound functor_events] in *.
  - pose proof (fresh_client o n y.1 a i fd Hrep Hf) as Hc.
    destruct (accept_step srcDir o n y.1 a i fd Hrep Hn Hc Hf) as (s1 & Hrun & Hrep1 & Hst).
    destruct (quiet_stretch o n k y a (Accept i fd) s1 (set_client i (Live [] wheel_size) a)) as (l1 & Hfull & Hst1);
      [done|exact Hf|done|by constructor|done..|].
    unfold does. rewrite Hfull. by eexists [Accept i fd], _, _.
  - pose proof (member_client o n y.1 a i Hrep Hf) as Hc.
    destruct (functor_quiet srcDir o n y.1 a i Hrep Hc) as (s1 & Hrun & Hrep1 & Hst).
    apply (reap_does o n k y a (Functor i) s1 a i Hrep I Hrun); try done. by constructor.
  - pose proof (removable o n y.1 a i Hrep Hf) as Hc.
    destruct (remove_step srcDir o n y.1 a i Hrep Hc) as (s1 & Hrun & Hrep1 & Hst).
    pose proof (reap_does o n k y a (Remove i) s1 (set_client i Removed a) i Hrep I Hrun ltac:(by constructor) Hrep1 Hst Hag) as H.
    exact H.
Qed.

Lemma functors_do n fs : forall o k y a,
  stands o n (arrivals (concat (functor_events <$> fs)) + k) y a -> 0 <= n <= max_size - 2048 -> functors_sound fs y ->
  does o n k y a (run_functors srcDir fs y) (concat (functor_events <$> fs)) (fun _ _ => True).
Proof.
  induction fs as [|f fs IH]; intros o k y a Hst Hn Hsound; [by apply does_nothing|].
  rewrite fmap_cons in *. cbn [concat run_functors] in *. rewrite arrivals_app, <-Nat.add_assoc in Hst.
  destruct Hsound as [Hf Hsound]. eapply does_bind; [by apply functor_does|].
  intros y1 a1 es xs Hrun Hstr _ _. rewrite Hrun in Hsound. apply IH; [apply Hstr|done|done].
Qed.

(** ** An iteration *)

(** What [epoll_wait] reports: watched channels, each once. *)
Record kernel_report (evs : option (list (Z * nat))) s : Prop := {
  kr_once : NoDup (default [] evs).*2;
  kr_watched : forall r i, (r, i) ∈ default [] evs -> exists fd ev, interest (epoll s) !! fd = Some (ev, i);
  kr_member : forall r i, (r, i) ∈ default [] evs -> role_of i = Connection -> is_Some (members s !! i)
}.

(** One turn of the loop: the report, what the handlers' system calls answer,
    and the functors that are queued by then. *)
Record round : Type := mkRound {
  r_events : option (list (Z * nat));
  r_answers : nat -> answers;
  r_functors : list functor
}.

Definition play (r : round) y : result (loop_state (DB := DB) * L) :=
  iteration srcDir role_of server_loop (r_events r) (r_answers r) (r_functors r) y.

Definition ready_list (r : round) : list (nat * answers) := (fun i => (i, r_answers r i)) <$> (default [] (r_events r)).*2.

(** The callbacks and functors of a round. *)
Definition events_of (r : round) s : list loop_event :=
  match poll (r_events r) (epoll s) with
  | Ok (_, p) => calls (set_epoll p s) (ready_list r) ++ concat (functor_events <$> r_functors r)
  | Fault _ => []
  end.

(** The kernel and the allocator keep to what they promise in a round. *)
Record round_fits (r : round) y a : Prop := {
  rf_report : kernel_report (r_events r) y.1;
  rf_clients : forall v i, (v, i) ∈ default [] (r_events r) -> role_of i = Connection ->
    fairly_sent a i (r_answers r i) /\ hung_up_empty v (r_answers r i);
  rf_sound : forall act p, poll (r_events r) (epoll y.1) = Ok (act, p) ->
    dispatch_sound (ready_list r) (set_epoll p y.1, y.2) /\
    forall y1, dispatch_all srcDir role_of server_loop (ready_list r) (set_epoll p y.1, y.2) = Ok y1 ->
      functors_sound (r_functors r) y1
}.

Lemma functor_cost A fs : total_cost A (concat (functor_events <$> fs)) = 0.
Proof. induction fs as [|f fs IH]; [done|]. rewrite fmap_cons. cbn [concat]. rewrite total_cost_app, IH. by destruct f. Qed.

(** The notes of the poller do not show in what a stretch does. *)
Lemma does_noted o n k y a p run es Q :
  noted (epoll y.1) p -> (forall j, sent_to (set_epoll p y.1) j = sent_to y.1 j) ->
  does o n k (set_epoll p y.1, y.2) a run es Q -> does o n k y a run es Q.
Proof.
  intros Hnote Hsent. unfold does. destruct run as [y'|f]; [|done].
  intros (es' & xs & a' & [Hser Hst Ht Hu] & Hvis & HQ). exists es', xs, a'. split; [|done]. cbn [fst] in *. split; [done|done| |].
  - intros j Hj. by rewrite Ht, Hsent.
  - intros j. eapply undisturbed_trans; [by apply (noted_undisturbed p)|apply Hu].
Qed.

Lemma round_does o A n k r y a :
  stands o n (arrivals (events_of r y.1) + k) y a -> srcDir <> [] -> page_limit srcDir A -> round_fits r y a ->
  total_cost A (events_of r y.1) <= n <= max_size - 2048 ->
  does o (n - total_cost A (events_of r y.1)) k y a (play r y) (events_of r y.1) (fun _ _ => True).
Proof.
  intros [Hrep Hag] Hsrc Hlim [[Honce Hwatch Hmem] Hcl Hsound] Hn. pose proof (rp_loop _ _ _ _ Hrep) as Hs.
  assert (Hadd : forall r0 i, (r0, i) ∈ default [] (r_events r) ->
    exists ch, store (epoll y.1) !! i = Some ch /\ Channel.status_ ch = ADD).
  { intros r0 i Hi. destruct (Hwatch r0 i Hi) as (fd & ev & He).
    apply (proj2 (proj1 (lo_shared _ Hs))) in He as (ch & Hch & _ & Hst & _). by exists ch. }
  destruct (poll_noted (r_events r) (epoll y.1) (lo_shared _ Hs)) as (p & Hpoll & Hnote & Hrev);
    [intros r0 i Hi; destruct (Hadd r0 i Hi) as (ch & Hch & _); by exists ch|done|].
  destruct (represents_noted o n y.1 a p Hrep Hnote) as [Hrep1 Hsent]. destruct (Hsound _ _ Hpoll) as [Hdisp Hfun].
  unfold events_of in *. rewrite Hpoll in *. rewrite total_cost_app, functor_cost, Z.add_0_r in *.
  rewrite arrivals_app, <-Nat.add_assoc in Hag.
  assert (Hall : all_ready (set_epoll p y.1) a (ready_list r)).
  { unfold ready_list. apply Forall_fmap, Forall_forall. intros i Hi.
    apply list_elem_of_fmap in Hi as ([r0 i'] & -> & Hi). cbn [snd compose fst] in *.
    destruct (Hrev r0 i' Hi) as (c & Hc & Hp). destruct (Hadd r0 i' Hi) as (c' & Hc' & Hst).
    assert (c' = c) as -> by congruence. exists (set_revents r0 c).
    split; [split; [exact Hp|exact Hst|by apply (Hmem r0)]|]. intros Hr. by apply Hcl. }
  assert (Hnd : NoDup (ready_list r).*1) by (unfold ready_list; rewrite <-list_fmap_compose; cbn [compose]; by rewrite list_fmap_id).
  pose proof (total_cost_nonneg srcDir A (calls (set_epoll p y.1) (ready_list r)) Hlim).
  apply (does_noted _ _ _ _ _ p); [done|done|]. unfold play, iteration. rewrite Hpoll, bind_ok. cbv beta iota.
  change ((fun i => (i, r_answers r i)) <$> _) with (ready_list r).
  eapply does_bind.
  - by apply (dispatch_all_does A (ready_list r) o n _ (set_epoll p y.1, y.2) a (conj Hrep1 Hag)).
  - intros y1 a1 es xs Hrun Hstr _ _. apply functors_do; [apply Hstr|lia|by apply Hfun].
Qed.

(** *** Any number of rounds *)

(** [EventLoop::loop], while nobody has called [quit]. *)
Fixpoint play_all (rs : list round) y : result (loop_state (DB := DB) * L) :=
  match rs with
  | [] => Ok y
  | r :: rs => y1 ← play r y; play_all rs y1
  end.

Fixpoint events_of_all (rs : list round) y : list loop_event :=
  match rs with
  | [] => []
  | r :: rs => events_of r y.1 ++ match play r y with Ok y1 => events_of_all rs y1 | Fault _ => [] end
  end.

Fixpoint rounds_fit (rs : list round) y a : Prop :=
  match rs with
  | [] => True
  | r :: rs => round_fits r y a /\ forall y1, play r y = Ok y1 -> forall es xs a1, serves_all srcDir a es xs a1 ->
      filter visible es = filter visible (events_of r y.1) -> rounds_fit rs y1 a1
  end.

Lemma rounds_do A rs : forall o n k y a,
  stands o n (arrivals (events_of_all rs y) + k) y a -> srcDir <> [] -> page_limit srcDir A -> rounds_fit rs y a ->
  total_cost A (events_of_all rs y) <= n <= max_size - 2048 ->
  does o (n - total_cost A (events_of_all rs y)) k y a (play_all rs y) (events_of_all rs y) (fun _ _ => True).
Proof.
  induction rs as [|r rs IH]; intros o n k y a Hst Hsrc Hlim Hfit Hn.
  - cbn [events_of_all total_cost]. rewrite Z.sub_0_r. by apply does_nothing.
  - destruct Hfit as [Hr Hfit]. cbn [events_of_all play_all] in *. rewrite total_cost_app in *.
    rewrite arrivals_app, <-Nat.add_assoc in Hst.
    pose proof (total_cost_nonneg srcDir A (events_of r y.1) Hlim) as Hpos.
    set (rest := match play r y with Ok y1 => events_of_all rs y1 | Fault _ => [] end) in *.
    pose proof (total_cost_nonneg srcDir A rest Hlim) as Hpos2.
    eapply does_bind; [apply (round_does o A n _ r y a Hst Hsrc Hlim Hr); lia|].
    intros y1 a1 es xs Hrun Hstr Hvis _.
    assert (Hrest : rest = events_of_all rs y1) by (unfold rest; by rewrite Hrun). clearbody rest. subst rest.
    rewrite Z.sub_add_distr. apply IH; [apply Hstr|done|done| |lia].
    exact (Hfit y1 Hrun es xs a1 (sr_serves _ _ _ _ _ _ _ _ _ Hstr) Hvis).
Qed.

(** C2: The loop serves, from the poller on.  Whatever the kernel reports about
    the watched channels and whatever the clients send, [EventLoop::loop]
    polls, runs the callbacks of the ready channels and then the queued
    functors, and what it does is a run of the abstract service whose events
    are those the report and the queue call for: nothing is dropped, nothing
    runs for a connection that is gone, and each client is sent what the
    service says; the server's table, or whatever else is kept of the
    connections, takes every event, and the channels that are no connection's
    keep their place in the poller.  If the loop fails, it is with the fault of
    an event at which the service breaks, after all before it were served: a
    form that cannot be decoded, a question the pool or the database cannot
    answer, a page that cannot be mapped, or the second end of a connection
    whose hang-up is reported with urgent data or a half-close but no input.
    The rounds must keep to what the kernel and the other loops promise: each
    watched channel is reported once, [send] and [write] take at most what they
    are offered, nothing but an end or an error is read where a hang-up comes
    without input, new connections have new descriptors, and queued functors
    are for connections that are there. *)
Theorem loop_serves (o : os) (A : Z) (k : nat) (rs : list round) y a :
  represents o (total_cost A (events_of_all rs y)) y.1 a -> agrees (arrivals (events_of_all rs y) + k) a y.2 ->
  srcDir <> [] -> page_limit srcDir A ->
  rounds_fit rs y a -> total_cost A (events_of_all rs y) <= max_size - 2048 ->
  match play_all rs y with
  | Ok y' => exists es xs a', serves_all srcDir a es xs a' /\
      represents (lose (losses xs) o) 0 y'.1 a' /\ agrees k a' y'.2 /\
      filter visible es = filter visible (events_of_all rs y) /\
      (forall j, Release j ∉ es -> sent_to y'.1 j = sent_to y.1 j ++ answers_for j es xs) /\
      forall j, undisturbed j y.1 y'.1
  | Fault f => exists es xs, breaks_in srcDir a es xs f /\ filter visible es = filter visible (events_of_all rs y)
  end.
Proof.
  intros Hrep Hag Hsrc Hlim Hfit Hcost.
  pose proof (rounds_do A rs o _ k y a (conj Hrep Hag) Hsrc Hlim Hfit ltac:(lia)) as Hdo. unfold does in Hdo.
  destruct (play_all rs y) as [y'|f]; [|exact Hdo].
  destruct Hdo as (es & xs & a' & [Hserve [Hrep' Hag'] Hst Hun] & Hvis & _).
  exists es, xs, a'. rewrite Z.sub_diag in Hrep'. by split_and!.
Qed.
End iteration.

(** ** Witness *)

(** *** The assumptions on the kernel, as a check of a run *)

Section check.
Context {DB : Type} `{!MySQL DB} {FS : FileSystem} (srcDir : bytes) {L : Type} `{!Ledger L}.
Context (role_of : nat -> role) (server_loop : bool).
Implicit Types (s : loop_state (DB := DB)) (y : loop_state (DB := DB) * L) (x : answers).

Definition report_check (evs : option (list (Z * nat))) s : bool :=
  bool_decide (NoDup (default [] evs).*2) &&
  forallb (fun '(r, i) =>
    bool_decide (Exists (fun z => z.2.2 = i) (map_to_list (interest (epoll s)))) &&
    (bool_decide (role_of i <> Connection) || bool_decide (is_Some (members s !! i))))
    (default [] evs).

Fixpoint dispatch_check (act : list (nat * answers)) y : bool :=
  match act with
  | [] => true
  | (i, x) :: act =>
      run_check srcDir (calls role_of server_loop y.1 [(i, x)]) y.1 &&
      match dispatch srcDir role_of server_loop i x y with Ok y1 => dispatch_check act y1 | Fault _ => true end
  end.

Definition functor_check (f : functor) s : bool :=
  match f with
  | BuildConnect i fd => sound_check s (Accept i fd)
  | OfConnection i => bool_decide (is_Some (members s !! i))
  | DestroyConnect i => bool_decide (is_Some (members s !! i)) &&
      match store (epoll s) !! i with Some ch => bool_decide (Channel.status_ ch = DEL) | None => false end
  end.

Fixpoint functors_check (fs : list functor) y : bool :=
  match fs with
  | [] => true
  | f :: fs => functor_check f y.1 && match run_functor srcDir f y with Ok y1 => functors_check fs y1 | Fault _ => true end
  end.

Definition round_check (r : round) y : bool :=
  report_check (r_events r) y.1 &&
  match poll (r_events r) (epoll y.1) with
  | Ok (_, p) =>
      dispatch_check (ready_list r) (set_epoll p y.1, y.2) &&
      match dispatch_all srcDir role_of server_loop (ready_list r) (set_epoll p y.1, y.2) with
      | Ok y1 => functors_check (r_functors r) y1
      | Fault _ => true
      end
  | Fault _ => true
  end.

Lemma report_check_ok evs s : report_check evs s = true -> kernel_report role_of evs s.
Proof.
  unfold report_check. intros [Hnd%bool_decide_eq_true Hall]%andb_true_iff. rewrite forallb_forall in Hall.
  assert (Hin : forall r i, (r, i) ∈ default [] evs -> List.In (r, i) (default [] evs)) by (intros r i; apply list_elem_of_In).
  split; [done|..]; intros r i Hi; specialize (Hall _ (Hin r i Hi)); cbv beta iota in Hall;
    apply andb_true_iff in Hall as [Hw%bool_decide_eq_true Hm].
  - apply Exists_exists in Hw as ([fd [ev j]] & He & Hj). cbn in Hj. subst j. exists fd, ev. by apply elem_of_map_to_list.
  - intros Hr. apply orb_true_iff in Hm as [Hm%bool_decide_eq_true|Hm%bool_decide_eq_true]; done.
Qed.

Lemma dispatch_check_ok act : forall y, dispatch_check act y = true -> dispatch_sound srcDir role_of server_loop act y.
Proof.
  induction act as [|[i x] act IH]; intros y; cbn [dispatch_check dispatch_sound]; [done|].
  intros [Hr Hact]%andb_true_iff. split; [by apply run_check_ok|].
  destruct (dispatch srcDir role_of server_loop i x y); [by apply IH|done].
Qed.

Lemma functors_check_ok fs : forall y, functors_check fs y = true -> functors_sound srcDir fs y.
Proof.
  induction fs as [|f fs IH]; intros y; cbn [functors_check functors_sound]; [done|].
  intros [Hf Hfs]%andb_true_iff. split; [|destruct (run_functor srcDir f y); [by apply IH|done]].
  destruct f as [i fd|i|i]; cbn [functor_check functor_sound] in *.
  - by apply (sound_check_ok y.1 (Accept i fd)).
  - exact (proj1 (bool_decide_eq_true _) Hf).
  - apply andb_true_iff in Hf as [Hm%bool_decide_eq_true Hch]. split; [done|].
    destruct (store (epoll y.1) !! i) as [ch|]; [|done]. exists ch. split; [done|exact (proj1 (bool_decide_eq_true _) Hch)].
Qed.

Lemma round_check_ok r y a :
  round_check r y = true ->
  (forall v i, (v, i) ∈ default [] (r_events r) -> role_of i = Connection ->
    fairly_sent srcDir a i (r_answers r i) /\ hung_up_empty v (r_answers r i)) ->
  round_fits srcDir role_of server_loop r y a.
Proof.
  unfold round_check. intros [Hrep Hs]%andb_true_iff Ha. split; [by apply report_check_ok|done|].
  intros act p Hp. rewrite Hp in Hs. apply andb_true_iff in Hs as [Hd Hf]. split; [by apply dispatch_check_ok|].
  intros y1 Hy1. rewrite Hy1 in Hf. by apply functors_check_ok.
Qed.
End check.

(** *** Four rounds *)

(** A listener (10) and a timer (11) beside the connections. *)
Definition demo_role (i : nat) : role :=
  match i with 10%nat => Listener | 11%nat => Timer | 12%nat => WakeUp | _ => Connection end.

Definition demo_poller : Epoller :=
  match chan_run [OpEnableReading 10; OpEnableReading 11] (new_poller {[ 10%nat := new_channel 3; 11%nat := new_channel 4 ]}) with
  | Ok p => p
  | Fault _ => new_poller ∅
  end.

Lemma demo_poller_ok : shared_ok demo_poller /\ calm demo_poller.
Proof.
  assert (Hstore : store demo_poller = {[ 10%nat := mkChannel 3 3 0 ADD false false true;
    11%nat := mkChannel 4 3 0 ADD false false true ]}) by (vm_compute; reflexivity).
  split; [split|].
  - assert (Hm : mirrors (new_poller {[ 10%nat := new_channel 3; 11%nat := new_channel 4 ]})).
    { apply new_poller_mirrors. by intros i c [[<- <-]|[_ [<- <-]%lookup_singleton_Some]]%lookup_insert_Some. }
    unfold demo_poller. destruct (chan_run _ _) as [p|] eqn:Hp; [|by apply new_poller_mirrors].
    cbn [chan_run] in Hp. inv_bind Hp. inv_bind Hp. simplify_eq. apply (chan_step_mirrors _ _ _ Hm) in Ha.
    by apply (chan_step_mirrors _ _ _ Ha) in Ha0.
  - intros i j ci cj. rewrite Hstore.
    by intros [[<- <-]|[_ [<- <-]%lookup_singleton_Some]]%lookup_insert_Some
      [[<- <-]|[_ [<- <-]%lookup_singleton_Some]]%lookup_insert_Some.
  - intros i c. rewrite Hstore. by intros [[<- <-]|[_ [<- <-]%lookup_singleton_Some]]%lookup_insert_Some.
Qed.

Definition quiet_answers : answers := mkAnswers (IoErr EWOULDBLOCK) (IoErr EWOULDBLOCK) (IoErr EWOULDBLOCK) None false.

(** What nobody takes is fairly sent. *)
Lemma fairly_refused {DB} `{!MySQL DB} (a : service (env DB)) i x err : a_sent x = IoErr err -> fairly_sent (lit "/w") a i x.
Proof. intros He. unfold fairly_sent. rewrite He. destruct (a_read x) as [|[]]; done. Qed.

(** A client connects, logs in as a second passes, takes its answer and goes. *)
Definition demo_rounds : list round :=
  [mkRound (Some [(1, 10%nat)]) (fun _ => mkAnswers (IoOk []) (IoOk 0%nat) (IoOk 0%nat) (Some (0%nat, 5)) false) [];
   mkRound (Some [(1, 11%nat); (1, 0%nat)]) (fun _ => mkAnswers (IoOk login_text) (IoErr EWOULDBLOCK) (IoErr EWOULDBLOCK) None true) [];
   mkRound (Some [(4, 0%nat)]) (fun _ => mkAnswers (IoErr EWOULDBLOCK) (IoErr EWOULDBLOCK) (IoOk 40%nat) None false) [OfConnection 0];
   mkRound None (fun _ => quiet_answers) [];
   mkRound (Some [(20, 0%nat)]) (fun _ => quiet_answers) []].

Definition demo_begin : loop_state * unit := (first_loop demo_poller (mkWorld (demo_env [Some 0%nat; Some 1%nat]) (mkOs 3 0)), tt).

Definition demo_after (k : nat) : loop_state * unit :=
  match play_all (lit "/w") demo_role true (take k demo_rounds) demo_begin with Ok s => s | Fault _ => demo_begin end.

Lemma demo_plays k r s :
  demo_rounds !! k = Some r -> play (lit "/w") demo_role true r (demo_after k) = Ok s ->
  (k < 5)%nat -> s = demo_after (S k).
Proof.
  intros Hr Hp Hk.
  assert (Hrun : match play (lit "/w") demo_role true r (demo_after k) with
    | Ok s => s = demo_after (S k) | Fault _ => True end); [|by rewrite Hp in Hrun].
  destruct k as [|[|[|[|[|k]]]]]; [injection Hr as <-; vm_compute; reflexivity..|lia].
Qed.

Lemma demo_checks : forallb (fun k => match demo_rounds !! k with
  | Some r => round_check (lit "/w") demo_role true r (demo_after k) | None => true end) (seq 0 5) = true.
Proof. vm_compute. reflexivity. Qed.

Definition demo_books : service (env demo_db) := mkService (w_env (common demo_begin.1)) ∅.

Lemma demo_fit : rounds_fit (lit "/w") demo_role true demo_rounds demo_begin demo_books.
Proof.
  pose proof demo_checks as Hc. rewrite forallb_forall in Hc.
  assert (Hcheck : forall k r, (k < 5)%nat -> demo_rounds !! k = Some r ->
    round_check (lit "/w") demo_role true r (demo_after k) = true).
  { intros k r Hk Hr. specialize (Hc k). rewrite Hr in Hc. apply Hc, in_seq. lia. }
  change demo_begin with (demo_after 0). split.
  { apply round_check_ok; [apply (Hcheck 0%nat); [lia|done]|]. cbn. by intros v i [= -> ->]%list_elem_of_singleton. }
  intros s1 Hp1 es xs a1 _ _. apply (demo_plays 0) in Hp1 as ->; [|done|lia].
  split.
  { apply round_check_ok; [apply (Hcheck 1%nat); [lia|done]|]. cbn [r_events r_answers default].
    intros v i Hi _. split; [by eapply fairly_refused|]. change ((v, i) ∈ [(1, 11%nat); (1, 0%nat)]) in Hi.
    rewrite !elem_of_cons, elem_of_nil in Hi.
    destruct Hi as [[= -> _]|[[= -> _]|[]]]; intros H; by vm_compute in H. }
  intros s2 Hp2 es2 t2 a2 _ _. apply (demo_plays 1) in Hp2 as ->; [|done|lia].
  split; [apply round_check_ok; [apply (Hcheck 2%nat); [lia|done]|done]|].
  intros s3 Hp3 es3 t3 a3 _ _. apply (demo_plays 2) in Hp3 as ->; [|done|lia].
  split; [apply round_check_ok; [apply (Hcheck 3%nat); [lia|done]|done]|].
  intros s4 Hp4 es4 t4 a4 _ _. apply (demo_plays 3) in Hp4 as ->; [|done|lia].
  split; [apply round_check_ok; [apply (Hcheck 4%nat); [lia|done]|done]|done].
Qed.

Lemma demo_begin_represents n : represents (mkOs 3 0) n demo_begin.1 demo_books.
Proof.
  destruct demo_poller_ok as [Hs Hc].
  exact (represents_start n demo_poller (mkWorld (demo_env [Some 0%nat; Some 1%nat]) (mkOs 3 0)) _ Hs Hc eq_refl).
Qed.

Lemma demo_rounds_cost : total_cost 5000 (events_of_all (lit "/w") demo_role true demo_rounds demo_begin) <= max_size - 2048.
Proof. apply Z.leb_le. vm_compute. reflexivity. Qed.

Example demo_rounds_events :
  events_of_all (lit "/w") demo_role true demo_rounds demo_begin =
    [Accept 0 5; Second; Read 0 (IoOk login_text) (IoErr EWOULDBLOCK); Write 0 (IoOk 40%nat); Functor 0;
     Hangup 0; Remove 0; Write 0 (IoErr EWOULDBLOCK)].
Proof. vm_compute. reflexivity. Qed.

(** A client connects; then the kernel reports urgent data with its hang-up, and
    no input: the handlers go on after the close callback, and the read
    callback closes again. *)
Definition urgent_round : round :=
  mkRound (Some [(18, 0%nat)]) (fun _ => mkAnswers (IoOk []) (IoErr EWOULDBLOCK) (IoErr EWOULDBLOCK) None false) [].
Definition urgent_rounds : list round := take 1 demo_rounds ++ [urgent_round].

Example urgent_checks : round_check (lit "/w") demo_role true urgent_round (demo_after 1) = true.
Proof. vm_compute. reflexivity. Qed.

Lemma urgent_fit : rounds_fit (lit "/w") demo_role true urgent_rounds demo_begin demo_books.
Proof.
  destruct demo_fit as [Hfirst _]. split; [exact Hfirst|]. intros s1 Hp1 es xs a1 _ _.
  apply (demo_plays 0) in Hp1 as ->; [|done|lia]. split; [|done].
  apply round_check_ok; [exact urgent_checks|]. intros v i _ _. split; [done|]. by intros _.
Qed.

Example urgent_hangup_asserts : play_all (lit "/w") demo_role true urgent_rounds demo_begin = Fault AssertFailed.
Proof. vm_compute. reflexivity. Qed.

Example demo_rounds_play : match play_all (lit "/w") demo_role true demo_rounds demo_begin with Ok _ => True | Fault _ => False end.
Proof. vm_compute. exact I. Qed.

Theorem loop_serves_witness :
  (exists es xs y' a', play_all (lit "/w") demo_role true demo_rounds demo_begin = Ok y' /\
    serves_all (lit "/w") demo_books es xs a' /\
    filter visible es = filter visible (events_of_all (lit "/w") demo_role true demo_rounds demo_begin)) /\
  (exists es xs, breaks_in (lit "/w") demo_books es xs AssertFailed /\
    filter visible es = [Accept 0 5; Hangup 0; Read 0 (IoOk []) (IoErr EWOULDBLOCK)]).
Proof.
  split.
  - pose proof (loop_serves (lit "/w") demo_role true (mkOs 3 0) 5000 0 demo_rounds demo_begin demo_books
      (demo_begin_represents _) I ltac:(discriminate) demo_limit demo_fit demo_rounds_cost) as H.
    pose proof demo_rounds_play as Hok. destruct (play_all _ _ _ demo_rounds demo_begin) as [y'|f]; [|destruct Hok].
    destruct H as (es & xs & a' & Hserve & _ & _ & Hvis & _). exists es, xs, y', a'. exact (conj eq_refl (conj Hserve Hvis)).
  - pose proof (loop_serves (lit "/w") demo_role true (mkOs 3 0) 5000 0 urgent_rounds demo_begin demo_books
      (demo_begin_represents _) I ltac:(discriminate) demo_limit urgent_fit ltac:(apply Z.leb_le; vm_compute; reflexivity)) as H.
    rewrite urgent_hangup_asserts in H. destruct H as (es & xs & Hbr & Hvis). exists es, xs. split; [exact Hbr|].
    rewrite Hvis. vm_compute. reflexivity.
Defined.
