(* ===== verification/Log.v ===== *)
(** * Log: the double-buffered log (src/base/log.h, log.cc)

    Any thread appends lines to the current buffer under a mutex; when it is
    full it goes to the list of full buffers.  The log's own thread takes the
    full buffers and the current one, leaves fresh ones behind, and writes what
    it took to the file outside the mutex.  Buffers are handed around as unique
    pointers, which are null after a move: options here.  The operations below
    are the stretches of code that hold the mutex, and the writing thread's
    stretches between them, so a list of operations is an interleaving. *)

From stdpp Require Import base list numbers strings.
From Stdlib Require Import ZArith Lia Ascii.
From S2P Require Import Prelude Buffer Regex.

Local Open Scope Z_scope.
Local Open Scope result_scope.

(** ** State *)

Definition SIZE : Z := 4000.

Abbreviation buf_ptr := (option Buffer) (only parsing).

(** Where the writing thread is, with the local variables of [thread_func]. *)
Inductive phase : Type :=
  | Spinning                                         (* while (!running_) *)
  | AtLoop                                           (* while (running_) *)
  | Entering                                         (* about to take the mutex *)
  | Waiting                                          (* in cond_.wait *)
  | Writing (buffer_write : list (option Buffer))    (* outside the mutex *)
  | Finished.

Record Log : Type := mkLog {
  curr_buffer_ : option Buffer;
  next_buffer_ : option Buffer;
  buffer_ : list (option Buffer);
  running_ : bool;
  date_stamp_ : bool;
  time_stamp_ : bool;
  fp_ : bool;                  (* open *)
  file : bytes;                (* what was put into the file *)
  phase_ : phase;
  newBuffer1 : option Buffer;
  newBuffer2 : option Buffer
}.

Definition fresh_buffer : option Buffer := Some (new_buffer initial_size_default).

(** The constructor; the static object starts with zeroed members. *)
Definition new_log : Log :=
  mkLog fresh_buffer fresh_buffer [] false true true false [] Spinning None None.

Definition set_front (curr next : option Buffer) (full : list (option Buffer)) (l : Log) : Log :=
  mkLog curr next full (running_ l) (date_stamp_ l) (time_stamp_ l) (fp_ l) (file l) (phase_ l)
    (newBuffer1 l) (newBuffer2 l).
Definition set_running (b : bool) (l : Log) : Log :=
  mkLog (curr_buffer_ l) (next_buffer_ l) (buffer_ l) b (date_stamp_ l) (time_stamp_ l) (fp_ l) (file l)
    (phase_ l) (newBuffer1 l) (newBuffer2 l).
Definition set_writer (p : phase) (b1 b2 : option Buffer) (l : Log) : Log :=
  mkLog (curr_buffer_ l) (next_buffer_ l) (buffer_ l) (running_ l) (date_stamp_ l) (time_stamp_ l) (fp_ l)
    (file l) p b1 b2.
Definition set_file (open : bool) (text : bytes) (l : Log) : Log :=
  mkLog (curr_buffer_ l) (next_buffer_ l) (buffer_ l) (running_ l) (date_stamp_ l) (time_stamp_ l) open text
    (phase_ l) (newBuffer1 l) (newBuffer2 l).
Definition set_stamps (date time : bool) (l : Log) : Log :=
  mkLog (curr_buffer_ l) (next_buffer_ l) (buffer_ l) (running_ l) date time (fp_ l) (file l) (phase_ l)
    (newBuffer1 l) (newBuffer2 l).

Definition deref {A} (p : option A) : result A := of_option NullDeref p.

(** ** The callers' side *)

Definition refresh_ (logline : bytes) (l : Log) : result Log :=
  let full := buffer_ l ++ [curr_buffer_ l] in
  let '(curr, next) := match next_buffer_ l with
                       | Some b => (Some b, None)
                       | None => (fresh_buffer, None)
                       end in
  if 0 <? Z.of_nat (length logline) then
    b ← deref curr;
    b1 ← Buffer.append logline b;
    Ok (set_front (Some b1) next full l)
  else Ok (set_front curr next full l).

Definition append (logline : bytes) (l : Log) : result Log :=
  curr ← deref (curr_buffer_ l);
  if u64 (read_able_bytes curr + Z.of_nat (length logline)) <? SIZE then
    b1 ← Buffer.append logline curr;
    Ok (set_front (Some b1) (next_buffer_ l) (buffer_ l) l)
  else refresh_ logline l.

(** The message with the stamps that are switched on. *)
Definition stamped (l : Log) (date time str : bytes) : bytes :=
  (if date_stamp_ l then lit "[" ++ date ++ lit "] " else []) ++
  (if time_stamp_ l then lit "[" ++ time ++ lit "] " else []) ++ str.

Definition write (date time str : bytes) (l : Log) : result Log :=
  append (stamped l date time str) l.

Definition loading (l : Log) : result Log := refresh_ [] l.

(** Drop everything that waits, and open the file; [opened] is the answer of
    the two calls of [fopen]. *)
Definition switch_log (opened : bool * bool) (l : Log) : result Log :=
  curr ← deref (curr_buffer_ l);
  let l1 := set_front (Some (retrieve_all curr)) (retrieve_all <$> next_buffer_ l) [] l in
  let open := opened.1 || opened.2 in
  assert! open;
  Ok (set_file open (file l1) l1).

Definition init (date time : bool) (opened : bool * bool) (l : Log) : result Log :=
  l1 ← switch_log opened (set_stamps date time l);
  Ok (set_running true l1).

(** [stop], up to the join. *)
Definition stop (l : Log) : Log := set_running false l.

(** The destructor, up to the join: it closes the file first. *)
Definition destroy (l : Log) : Log :=
  let l1 := set_file false (file l) l in
  if running_ l1 then stop l1 else l1.

(** ** The writing thread *)

(** The critical section, once the wait is over. *)
Definition collect (l : Log) : Log :=
  let write := buffer_ l ++ [curr_buffer_ l] in
  let '(next, b2) := match next_buffer_ l with
                     | None => (newBuffer2 l, None)
                     | Some b => (Some b, newBuffer2 l)
                     end in
  set_writer (Writing write) None b2 (set_front (newBuffer1 l) next [] l).

(** [fputs] of every buffer, up to its first NUL. *)
Fixpoint fputs_all (open : bool) (bufs : list (option Buffer)) (text : bytes) :
    result (list (option Buffer) * bytes) :=
  match bufs with
  | [] => Ok ([], text)
  | p :: bufs =>
      b ← deref p;
      '(res, b1) ← retrieve_all_string b;
      guard_ NullDeref open ≫= fun _ =>
      '(bs, text1) ← fputs_all open bufs (text ++ c_str res);
      Ok (Some b1 :: bs, text1)
  end.

(** Take a buffer back if there is none. *)
Definition take_back (p : option Buffer) (write : list (option Buffer)) :
    result (option Buffer * list (option Buffer)) :=
  match p with
  | Some b => Ok (Some b, write)
  | None =>
      back ← of_option AssertFailed (last write);
      b ← deref back;
      Ok (Some (retrieve_all b), take (length write - 1) write)
  end.

Definition write_out (write : list (option Buffer)) (l : Log) : result Log :=
  assert! (negb (bool_decide (write = [])));
  '(bufs, text) ← fputs_all (fp_ l) write (file l);
  let bufs1 := take 2 bufs in
  '(b1, bufs2) ← take_back (newBuffer1 l) bufs1;
  '(b2, _) ← take_back (newBuffer2 l) bufs2;
  Ok (set_writer AtLoop b1 b2 (set_file (fp_ l) text l)).

(** [thread_func], from where it is to the next point where another thread can
    see it. A wait that is over without a reason is a step like any other. *)
Definition writer_step (l : Log) : result Log :=
  match phase_ l with
  | Spinning => if running_ l then Ok (set_writer AtLoop fresh_buffer fresh_buffer l) else Ok l
  | AtLoop => if running_ l then Ok (set_writer Entering (newBuffer1 l) (newBuffer2 l) l)
              else Ok (set_writer Finished (newBuffer1 l) (newBuffer2 l) l)
  | Entering => if bool_decide (buffer_ l = [])
                then Ok (set_writer Waiting (newBuffer1 l) (newBuffer2 l) l) else Ok (collect l)
  | Waiting => Ok (collect l)
  | Writing write => write_out write l
  | Finished => Ok l
  end.

(** ** Interleavings *)

Inductive log_op : Type :=
  | LWrite (date time str : bytes)
  | LLoading
  | LStop
  | LWriter.

Definition log_step (op : log_op) (l : Log) : result Log :=
  match op with
  | LWrite date time str => write date time str l
  | LLoading => loading l
  | LStop => Ok (stop l)
  | LWriter => writer_step l
  end.

Fixpoint log_run (ops : list log_op) (l : Log) : result Log :=
  match ops with
  | [] => Ok l
  | op :: ops => l1 ← log_step op l; log_run ops l1
  end.

(** ** What the log holds *)

Definition text_of (p : option Buffer) : bytes := match p with Some b => contents b | None => [] end.
Definition texts (l : list (option Buffer)) : bytes := concat (text_of <$> l).
Arguments texts : simpl never.
Definition taken (p : phase) : list (option Buffer) := match p with Writing w => w | _ => [] end.

(** Written, being written, full, and current. *)
Definition logged (l : Log) : bytes :=
  file l ++ texts (taken (phase_ l)) ++ texts (buffer_ l) ++ text_of (curr_buffer_ l).

(** A usable buffer of at most [cap] bytes whose text has no NUL, and an empty
    one. *)
Definition good (cap : Z) (p : option Buffer) : Prop :=
  exists b, p = Some b /\ wf b /\ vsize b <= cap /\ nul ∉ contents b.
Definition blank (cap : Z) (p : option Buffer) : Prop :=
  exists b, p = Some b /\ wf b /\ vsize b <= cap /\ contents b = [].

(** The writing thread's own buffers: both there between rounds; after
    [collect] the first is gone, and the second only if two buffers were
    taken. *)
Definition writer_inv (cap : Z) (l : Log) : Prop :=
  match phase_ l with
  | AtLoop | Entering | Waiting => blank cap (newBuffer1 l) /\ blank cap (newBuffer2 l)
  | Writing w => Forall (good cap) w /\ newBuffer1 l = None /\
      ((blank cap (newBuffer2 l) /\ w <> []) \/ (newBuffer2 l = None /\ (2 <= length w)%nat))
  | Spinning | Finished => True
  end.

Record log_inv (cap : Z) (l : Log) : Prop := {
  inv_curr : good cap (curr_buffer_ l);
  inv_next : blank cap (next_buffer_ l) \/ (next_buffer_ l = None /\ buffer_ l <> []);
  inv_full : Forall (good cap) (buffer_ l);
  inv_writer : writer_inv cap l;
  inv_open : fp_ l = true
}.

Lemma texts_app a b : texts (a ++ b) = texts a ++ texts b.
Proof. unfold texts. by rewrite fmap_app, concat_app. Qed.

Lemma texts_cons p a : texts (p :: a) = text_of p ++ texts a.
Proof. done. Qed.

Lemma blank_good cap p : blank cap p -> good cap p.
Proof. intros (b & -> & Hwf & Hv & Hc). exists b. rewrite Hc. split_and!; try done. by apply not_elem_of_nil. Qed.

Lemma blank_text cap p : blank cap p -> text_of p = [].
Proof. by intros (b & -> & _ & _ & Hc). Qed.

Lemma good_mono cap cap' p : cap <= cap' -> good cap p -> good cap' p.
Proof. intros ? (b & -> & ? & ? & ?). exists b. split_and!; (done || lia). Qed.

Lemma blank_mono cap cap' p : cap <= cap' -> blank cap p -> blank cap' p.
Proof. intros ? (b & -> & ? & ? & ?). exists b. split_and!; (done || lia). Qed.

Lemma goods_mono cap cap' w : cap <= cap' -> Forall (good cap) w -> Forall (good cap') w.
Proof. intros ? Hw. eapply Forall_impl; [done|]. intros. by eapply good_mono. Qed.

Lemma fresh_blank cap : 1032 <= cap -> blank cap fresh_buffer.
Proof.
  intros. destruct (new_buffer_wf initial_size_default) as [Hwf Hc];
    [unfold initial_size_default, max_size; lia|].
  eexists. split; [done|]. split; [done|]. split; [|done].
  transitivity 1032; [|done]. unfold vsize, new_buffer, initial_size_default, cheap_prepend.
  cbn [Buffer.buffer_]. rewrite length_replicate, u64_small by lia. lia.
Qed.

Lemma writer_mono cap cap' l : cap <= cap' -> writer_inv cap l -> writer_inv cap' l.
Proof.
  intros Hc. unfold writer_inv. destruct (phase_ l); try done.
  1-3: intros [? ?]; split; by eapply blank_mono.
  intros (Hw & Hn1 & Hn2). split; [by eapply goods_mono|]. split; [done|].
  destruct Hn2 as [[? ?]|?]; [left; split; [by eapply blank_mono|done]|by right].
Qed.

Lemma inv_mono cap cap' l : cap <= cap' -> log_inv cap l -> log_inv cap' l.
Proof.
  intros Hc [H1 H2 H3 H4 H5]. split; try done.
  - by eapply good_mono.
  - destruct H2 as [?|?]; [left; by eapply blank_mono|by right].
  - by eapply goods_mono.
  - by eapply writer_mono.
Qed.

(** *** The operations *)

Lemma append_good cap d p :
  good cap p -> nul ∉ d -> cap + Z.of_nat (length d) <= max_size ->
  exists b b1, p = Some b /\ Buffer.append d b = Ok b1 /\
    good (cap + Z.of_nat (length d)) (Some b1) /\ contents b1 = contents b ++ d.
Proof.
  intros (b & -> & Hwf & Hv & Hn) Hd Hroom.
  destruct (append_spec d b Hwf) as (b1 & Ha & Hwf1 & Hc1 & Hv1).
  { destruct Hwf as (_ & Hw & _). lia. }
  exists b, b1. split_and!; try done. exists b1. split_and!; [done|done|lia|].
  rewrite Hc1. by intros [?|?]%elem_of_app.
Qed.

Lemma refresh_ok cap d l :
  log_inv cap l -> nul ∉ d -> 1032 <= cap -> cap + Z.of_nat (length d) <= max_size ->
  exists l', refresh_ d l = Ok l' /\ log_inv (cap + Z.of_nat (length d)) l' /\
    logged l' = logged l ++ d /\ running_ l' = running_ l /\ phase_ l' = phase_ l /\
    date_stamp_ l' = date_stamp_ l /\ time_stamp_ l' = time_stamp_ l /\ buffer_ l' <> [].
Proof.
  intros [H1 H2 H3 H4 H5] Hd Hcap Hroom. set (cap' := cap + Z.of_nat (length d)).
  assert (Hle : cap <= cap') by (unfold cap'; lia).
  unfold refresh_. set (curr := match next_buffer_ l with Some b => Some b | None => fresh_buffer end).
  assert (Hb : blank cap curr).
  { unfold curr. destruct (next_buffer_ l) as [b|]; [|by apply fresh_blank].
    destruct H2 as [?|[? _]]; done. }
  replace (match next_buffer_ l with Some b => (Some b, None) | None => (fresh_buffer, None) end)
    with (curr, @None Buffer) by (unfold curr; by destruct (next_buffer_ l)).
  assert (Hcond : forall c, good cap' c -> text_of c = d ->
    let l' := set_front c None (buffer_ l ++ [curr_buffer_ l]) l in
    log_inv cap' l' /\ logged l' = logged l ++ d /\ running_ l' = running_ l /\ phase_ l' = phase_ l /\
    date_stamp_ l' = date_stamp_ l /\ time_stamp_ l' = time_stamp_ l /\ buffer_ l' <> []).
  { intros c Hc Hct l'. assert (Hne : buffer_ l ++ [curr_buffer_ l] <> []) by (by destruct (buffer_ l)).
    split; [split|split_and!]; try done.
    - by right.
    - apply Forall_app. split; [by eapply goods_mono|]. repeat constructor. by eapply good_mono.
    - by eapply writer_mono.
    - unfold logged, l'. cbn. rewrite Hct, texts_app, texts_cons. change (texts []) with (@nil Ascii.ascii).
      by rewrite app_nil_r, <-!app_assoc. }
  destruct (Z.ltb_spec 0 (Z.of_nat (length d))) as [Hlen|Hlen].
  - destruct (append_good cap d curr) as (b & b1 & -> & Ha & Hg & Hc); [by apply blank_good|done|done|].
    cbn [deref of_option]. rewrite bind_ok, Ha, bind_ok. eexists. split; [done|]. apply Hcond; [done|].
    apply blank_text in Hb. simpl in *. by rewrite Hc, Hb.
  - destruct d; [|simpl in Hlen; lia]. eexists. split; [done|]. apply Hcond; [|by eapply blank_text].
    eapply good_mono; [done|by apply blank_good].
Qed.

Lemma append_ok cap d l :
  log_inv cap l -> nul ∉ d -> 1032 <= cap -> cap + Z.of_nat (length d) <= max_size ->
  exists l', append d l = Ok l' /\ log_inv (cap + Z.of_nat (length d)) l' /\
    logged l' = logged l ++ d /\ date_stamp_ l' = date_stamp_ l /\ time_stamp_ l' = time_stamp_ l.
Proof.
  intros Hinv Hd Hcap Hroom. destruct (inv_curr _ _ Hinv) as (b & Hb & _).
  unfold append. rewrite Hb. cbn [deref of_option]. rewrite bind_ok.
  destruct (_ <? SIZE).
  - destruct Hinv as [H1 H2 H3 H4 H5].
    destruct (append_good cap d (curr_buffer_ l)) as (b' & b1 & Hb' & Ha & Hg & Hc); [done..|].
    rewrite Hb in Hb'. injection Hb' as <-. rewrite Ha, bind_ok. eexists. split; [done|].
    split; [split|split_and!]; try done.
    + destruct H2; [left; eapply blank_mono; [|done]; lia|by right].
    + eapply goods_mono; [|done]. lia.
    + eapply writer_mono; [|done]. lia.
    + unfold logged. cbn. rewrite Hb, Hc. cbn. by rewrite <-!app_assoc.
  - destruct (refresh_ok cap d l) as (l' & Hr & Hi & Hl & _ & _ & Hds & Hts & _); [done..|].
    by exists l'.
Qed.

Lemma collect_ok cap l :
  log_inv cap l -> taken (phase_ l) = [] -> blank cap (newBuffer1 l) -> blank cap (newBuffer2 l) ->
  log_inv cap (collect l) /\ logged (collect l) = logged l.
Proof.
  intros [H1 H2 H3 H4 H5] Ht Hb1 Hb2. unfold collect.
  assert (Hw : Forall (good cap) (buffer_ l ++ [curr_buffer_ l])).
  { apply Forall_app. split; [done|]. by repeat constructor. }
  assert (Hne : buffer_ l ++ [curr_buffer_ l] <> []) by (by destruct (buffer_ l)).
  split.
  - destruct H2 as [(b & Hb & ?)|[Hn Hfull]]; rewrite ?Hb, ?Hn; split; cbn; try done.
    + by apply blank_good.
    + left. by exists b.
    + split_and!; [done|done|]. left. by split.
    + by apply blank_good.
    + by left.
    + split_and!; [done|done|]. right. split; [done|]. rewrite length_app. simpl.
      destruct (buffer_ l); [done|simpl; lia].
  - unfold logged. rewrite Ht.
    destruct (match next_buffer_ l with Some b => _ | None => _ end) as [next b2]. cbn.
    rewrite texts_app, texts_cons, (blank_text cap (newBuffer1 l)) by done. change (texts []) with (@nil Ascii.ascii).
    by rewrite !app_nil_r.
Qed.

Lemma no_nul_free s : nul ∉ s -> free_of nul s.
Proof. intros Hn. apply Forall_forall. intros c Hc. apply not_char_true. by intros ->. Qed.

Lemma fputs_ok cap w : forall text,
  Forall (good cap) w ->
  exists w', fputs_all true w text = Ok (w', text ++ texts w) /\ Forall (blank cap) w' /\ length w' = length w.
Proof.
  induction w as [|p w IH]; intros text Hw.
  - exists []. rewrite app_nil_r. done.
  - apply Forall_cons in Hw as [(b & -> & Hwf & Hv & Hn) Hw]. cbn [fputs_all deref of_option].
    rewrite bind_ok. destruct (retrieve_all_string_spec b Hwf) as (b1 & -> & Hwf1 & Hc1 & Hb1).
    rewrite bind_ok. cbn [guard_]. rewrite bind_ok, c_str_free by by apply no_nul_free.
    destruct (IH (text ++ contents b) Hw) as (w' & -> & Hbl & Hlen). rewrite bind_ok.
    exists (Some b1 :: w'). rewrite texts_cons, <-app_assoc. split; [done|]. split; [|simpl; lia].
    constructor; [|done]. exists b1. unfold vsize in *. by rewrite Hb1.
Qed.

Lemma take_back_ok cap p w :
  Forall (blank cap) w -> blank cap p \/ (p = None /\ w <> []) ->
  exists q, take_back p w = Ok (q, if p is Some _ then w else take (length w - 1) w) /\ blank cap q.
Proof.
  intros Hw [(b & -> & Hb)|[-> Hne]]; [exists (Some b); split; [done|by exists b]|].
  destruct w as [|x w _] using rev_ind; [done|]. apply Forall_app in Hw as [_ Hx].
  apply Forall_singleton in Hx as (b & -> & Hwf & Hv & Hc). cbn [take_back].
  rewrite last_snoc. cbn [of_option deref]. rewrite bind_ok.
  exists (Some (retrieve_all b)). split; [done|].
  destruct (retrieve_all_wf b Hwf). by exists (retrieve_all b).
Qed.

Lemma write_out_ok cap l w :
  log_inv cap l -> phase_ l = Writing w ->
  exists l', write_out w l = Ok l' /\ log_inv cap l' /\ logged l' = logged l /\
    phase_ l' = AtLoop /\ file l' = file l ++ texts w.
Proof.
  intros [H1 H2 H3 H4 H5] Hp. unfold writer_inv in H4. rewrite Hp in H4. destruct H4 as (Hw & Hn1 & Hn2).
  unfold write_out. assert (Hne : w <> []) by (destruct w; [destruct Hn2 as [[_ ?]|[_ ?]]; [done|simpl in *; lia]|done]).
  rewrite bool_decide_false by done. cbn [negb assert_]. rewrite bind_ok, H5.
  destruct (fputs_ok cap w (file l) Hw) as (w' & -> & Hbl & Hlen). rewrite bind_ok. cbv beta iota zeta.
  assert (Hbl2 : Forall (blank cap) (take 2 w')) by (by apply Forall_take).
  destruct (take_back_ok cap (newBuffer1 l) (take 2 w')) as (q1 & -> & Hq1); [done| |].
  { right. split; [done|]. destruct w', w; done. }
  rewrite bind_ok, Hn1. cbv beta iota.
  destruct (take_back_ok cap (newBuffer2 l) (take (length (take 2 w') - 1) (take 2 w'))) as (q2 & -> & Hq2).
  { by apply Forall_take. }
  { destruct Hn2 as [[? _]|[-> Hl]]; [by left|right]. split; [done|].
    destruct w' as [|x [|y w']]; simpl in *; (done || lia). }
  rewrite bind_ok. eexists. split; [done|]. split; [|split; [|done]].
  - by split; cbn.
  - unfold logged. rewrite Hp. cbn. change (texts []) with (@nil Ascii.ascii). by rewrite <-!app_assoc.
Qed.

Lemma writer_step_ok cap l :
  log_inv cap l -> 1032 <= cap ->
  exists l', writer_step l = Ok l' /\ log_inv cap l' /\ logged l' = logged l /\
    date_stamp_ l' = date_stamp_ l /\ time_stamp_ l' = time_stamp_ l.
Proof.
  intros Hinv Hcap. pose proof Hinv as [H1 H2 H3 H4 H5]. unfold writer_step, writer_inv in *.
  assert (Hset : forall p b1 b2, taken p = taken (phase_ l) ->
    match p with AtLoop | Entering | Waiting => blank cap b1 /\ blank cap b2
               | Writing _ => False | Spinning | Finished => True end ->
    log_inv cap (set_writer p b1 b2 l) /\ logged (set_writer p b1 b2 l) = logged l).
  { intros p b1 b2 Ht Hp. split; [split; try done; unfold writer_inv; cbn; by destruct p|].
    unfold logged. cbn. by rewrite Ht. }
  destruct (phase_ l) as [| | | |w|] eqn:Hp.
  - destruct (running_ l); [|by exists l].
    eexists. split; [done|]. edestruct Hset as [Hi Hl]; [..|split; [exact Hi|split; [exact Hl|done]]]; [done|].
    split; by apply fresh_blank.
  - destruct (running_ l); (eexists; split; [done|];
      edestruct Hset as [Hi Hl]; [..|split; [exact Hi|split; [exact Hl|done]]]; done).
  - case_bool_decide; (eexists; split; [done|]).
    + edestruct Hset as [Hi Hl]; [..|split; [exact Hi|split; [exact Hl|done]]]; done.
    + destruct (collect_ok cap l) as [Hi Hl]; [done|by rewrite Hp|apply H4..|].
      split; [done|]. split; [done|]. unfold collect. by destruct (next_buffer_ l).
  - eexists. split; [done|]. destruct (collect_ok cap l) as [Hi Hl]; [done|by rewrite Hp|apply H4..|].
    split; [done|]. split; [done|]. unfold collect. by destruct (next_buffer_ l).
  - destruct (write_out_ok cap l w Hinv Hp) as (l' & He & Hi & Hl & _). exists l'.
    split; [done|]. split; [done|]. split; [done|].
    clear -He. unfold write_out in He. inv_bind He. inv_bind He. destruct a as [? ?]. cbv beta iota zeta in He.
    inv_bind He. destruct a as [? ?]. inv_bind He. destruct a as [? ?]. by simplify_eq.
  - by exists l.
Qed.

(** ** The theorems *)

(** The line an operation logs. *)
Definition line_of (date_on time_on : bool) (op : log_op) : bytes :=
  match op with
  | LWrite date time str =>
      (if date_on then lit "[" ++ date ++ lit "] " else []) ++
      (if time_on then lit "[" ++ time ++ lit "] " else []) ++ str
  | _ => []
  end.

Definition lines_of (date_on time_on : bool) (ops : list log_op) : bytes :=
  concat (line_of date_on time_on <$> ops).

Lemma log_run_ok ops : forall cap l,
  let lines := lines_of (date_stamp_ l) (time_stamp_ l) ops in
  log_inv cap l -> 1032 <= cap -> nul ∉ lines -> cap + Z.of_nat (length lines) <= max_size ->
  exists l', log_run ops l = Ok l' /\ log_inv (cap + Z.of_nat (length lines)) l' /\
    logged l' = logged l ++ lines.
Proof.
  induction ops as [|op ops IH]; intros cap l lines Hinv Hcap Hn Hroom.
  { exists l. unfold lines, lines_of. simpl. rewrite app_nil_r, Z.add_0_r. done. }
  set (line := line_of (date_stamp_ l) (time_stamp_ l) op) in *.
  change lines with (line ++ lines_of (date_stamp_ l) (time_stamp_ l) ops) in *.
  rewrite elem_of_app in Hn. rewrite length_app, Nat2Z.inj_add in Hroom |- *.
  assert (Hstep : exists l1, log_step op l = Ok l1 /\ log_inv (cap + Z.of_nat (length line)) l1 /\
            logged l1 = logged l ++ line /\ date_stamp_ l1 = date_stamp_ l /\ time_stamp_ l1 = time_stamp_ l).
  { destruct op as [date time str| | |]; cbn [log_step].
    - unfold write. change (stamped l date time str) with line. apply append_ok; [done|naive_solver|done|lia].
    - unfold loading. destruct (refresh_ok cap [] l) as (l1 & ? & ? & ? & ? & ? & ? & ? & _); [done| |done|simpl; lia|by exists l1].
      by apply not_elem_of_nil.
    - exists (stop l). unfold line. simpl. rewrite app_nil_r, Z.add_0_r. split_and!; try done.
      destruct Hinv as [? ? ? ? ?]. by split.
    - destruct (writer_step_ok cap l) as (l1 & ? & ? & Hl & ?); [done..|]. exists l1.
      unfold line. simpl. rewrite app_nil_r, Z.add_0_r. done. }
  destruct Hstep as (l1 & Hs & Hi & Hl & Hd & Ht). cbn [log_run]. rewrite Hs, bind_ok.
  rewrite <-Hd, <-Ht. rewrite <-Hd, <-Ht in Hroom, Hn.
  destruct (IH (cap + Z.of_nat (length line)) l1) as (l' & Hr & Hi' & Hl'); [done|lia|naive_solver|lia|].
  exists l'. split; [done|]. rewrite Hl', Hl, <-app_assoc, Z.add_assoc. done.
Qed.

(** A log that was started: [init] before anything was logged. *)
Definition started (date_on time_on : bool) : Log :=
  mkLog fresh_buffer fresh_buffer [] true date_on time_on true [] Spinning None None.

Lemma started_init date_on time_on : init date_on time_on (true, false) new_log = Ok (started date_on time_on).
Proof. done. Qed.

Lemma started_inv date_on time_on : log_inv 1032 (started date_on time_on).
Proof.
  split; try done.
  - by apply blank_good, fresh_blank.
  - left. by apply fresh_blank.
Qed.

(** C13: No interleaving of threads that log, of the periodic [loading], of [stop]
    and of the writing thread loses, repeats or reorders a byte, fails one of
    the thread's assertions or uses a moved pointer: what is in the file,
    followed by what is being written and what waits, is everything logged, in
    order. *)
Theorem log_in_order (date_on time_on : bool) (ops : list log_op) :
  let lines := lines_of date_on time_on ops in
  nul ∉ lines -> Z.of_nat (length lines) <= max_size - 1032 ->
  exists l, log_run ops (started date_on time_on) = Ok l /\
    file l ++ texts (taken (phase_ l)) ++ texts (buffer_ l) ++ text_of (curr_buffer_ l) = lines.
Proof.
  intros lines Hn Hroom.
  destruct (log_run_ok ops 1032 (started date_on time_on)) as (l & Hr & _ & Hl);
    [apply started_inv|done|exact Hn|change (1032 + Z.of_nat (length lines) <= max_size); lia|].
  exists l. split; [exact Hr|exact Hl].
Qed.

Lemma loading_writes cap l :
  log_inv cap l -> 1032 <= cap <= max_size -> phase_ l = Waiting \/ phase_ l = Entering ->
  exists l', log_run [LLoading; LWriter; LWriter] l = Ok l' /\ file l' = logged l.
Proof.
  intros Hinv Hcap Hp.
  destruct (refresh_ok cap [] l) as (l1 & Hr & Hi1 & Hl1 & _ & Hp1 & _ & _ & Hne);
    [done|by apply not_elem_of_nil|lia|simpl; lia|].
  rewrite Z.add_0_r in Hi1. rewrite app_nil_r in Hl1.
  assert (Hw : writer_step l1 = Ok (collect l1)).
  { unfold writer_step. rewrite Hp1. destruct Hp as [->| ->]; [done|]. by rewrite bool_decide_false. }
  pose proof (inv_writer _ _ Hi1) as Hwi. unfold writer_inv in Hwi. rewrite Hp1 in Hwi.
  destruct (collect_ok cap l1) as [Hi2 Hl2]; [done|rewrite Hp1; by destruct Hp as [->| ->]
    |destruct Hp as [Hp|Hp]; rewrite Hp in Hwi; apply Hwi..|].
  assert (Hp2 : phase_ (collect l1) = Writing (buffer_ l1 ++ [curr_buffer_ l1]))
    by (unfold collect; by destruct (next_buffer_ l1)).
  destruct (write_out_ok cap (collect l1) _ Hi2 Hp2) as (l3 & Hr3 & Hi3 & Hl3 & Hp3 & Hf3).
  exists l3. cbn [log_run log_step]. unfold loading. rewrite Hr, bind_ok, Hw, bind_ok.
  unfold writer_step. rewrite Hp2, Hr3. split; [done|]. rewrite Hf3, <-Hl1, <-Hl2.
  unfold logged. rewrite Hp2. cbn [taken].
  assert (Hb : buffer_ (collect l1) = [] /\ text_of (curr_buffer_ (collect l1)) = []).
  { unfold collect. assert (Hb1 : blank cap (newBuffer1 l1)) by (destruct Hp as [Hp|Hp]; rewrite Hp in Hwi; apply Hwi).
    apply blank_text in Hb1. by destruct (next_buffer_ l1). }
  destruct Hb as [-> ->]. change (texts []) with (@nil Ascii.ascii). by rewrite !app_nil_r.
Qed.

(** [loading] empties the buffers: after it, two steps of a writing thread that
    is between two rounds put everything logged so far into the file, in
    whatever way the log got where it is. *)
Theorem loading_flushes (date_on time_on : bool) (ops : list log_op) (l : Log) :
  let lines := lines_of date_on time_on ops in
  nul ∉ lines -> Z.of_nat (length lines) <= max_size - 1032 ->
  log_run ops (started date_on time_on) = Ok l -> phase_ l = Waiting \/ phase_ l = Entering ->
  exists l', log_run [LLoading; LWriter; LWriter] l = Ok l' /\ file l' = lines.
Proof.
  intros lines Hn Hroom Hrun Hp.
  destruct (log_run_ok ops 1032 (started date_on time_on)) as (l1 & Hr & Hi & Hl);
    [apply started_inv|done|exact Hn|change (1032 + Z.of_nat (length lines) <= max_size); lia|].
  rewrite Hrun in Hr. injection Hr as <-.
  destruct (loading_writes _ l Hi) as (l' & Hr' & Hf); [|done|].
  - change (1032 <= 1032 + Z.of_nat (length lines) <= max_size). lia.
  - exists l'. split; [done|]. by rewrite Hf, Hl.
Qed.

(** A log that filled a buffer before [init]: the thread wakes up, by the
    notification of [init] or without a reason, finds no full buffer, gives its
    spare buffer away and has none to take back; the assertion fails. *)
Theorem early_log_asserts (cap : Z) (date_on time_on : bool) (l l1 : Log) :
  good cap (curr_buffer_ l) -> next_buffer_ l = None -> phase_ l = Spinning ->
  init date_on time_on (true, false) l = Ok l1 ->
  log_run [LWriter; LWriter; LWriter; LWriter; LWriter] l1 = Fault AssertFailed.
Proof.
  intros (b & Hb & Hwf & _) Hn Hp Hinit. destruct l. cbn in Hb, Hn, Hp. subst.
  injection Hinit as <-. destruct (retrieve_all_wf b Hwf) as [Hwf1 _].
  destruct (retrieve_all_string_spec _ Hwf1) as (b1 & Hr & _).
  cbn -[retrieve_all retrieve_all_string]. by rewrite Hr.
Qed.

(** The destructor closes the file before it stops the thread: a waiting thread
    then writes to a closed file. *)
Theorem destructor_writes_closed_file (cap : Z) (l : Log) :
  log_inv cap l -> phase_ l = Waiting ->
  log_run [LWriter; LWriter] (destroy l) = Fault NullDeref.
Proof.
  intros Hinv Hp. unfold destroy. set (l1 := if running_ _ then stop _ else _).
  assert (Hl : phase_ l1 = Waiting /\ buffer_ l1 = buffer_ l /\ curr_buffer_ l1 = curr_buffer_ l /\ fp_ l1 = false)
    by (unfold l1; cbn; by destruct (running_ l)).
  destruct Hl as (Hp1 & Hb & Hc & Hf). cbn [log_run log_step].
  assert (H1 : writer_step l1 = Ok (collect l1)) by (unfold writer_step; by rewrite Hp1). rewrite H1, bind_ok.
  assert (H2 : phase_ (collect l1) = Writing (buffer_ l ++ [curr_buffer_ l]) /\ fp_ (collect l1) = false).
  { unfold collect. rewrite Hb, Hc. by destruct (next_buffer_ l1). }
  destruct H2 as [Hp2 Hf2]. unfold writer_step. rewrite Hp2. unfold write_out. rewrite Hf2.
  destruct Hinv as [(b & Hcb & Hwf & _) _ Hfull _ _]. rewrite Hcb.
  rewrite bool_decide_false by (by destruct (buffer_ l)). cbn [negb assert_]. rewrite bind_ok.
  destruct (buffer_ l) as [|p full].
  - cbn [app fputs_all deref of_option]. rewrite bind_ok.
    by destruct (retrieve_all_string_spec b Hwf) as (b1 & -> & _).
  - apply Forall_cons in Hfull as [(b0 & -> & Hwf0 & _) _]. cbn [app fputs_all deref of_option].
    rewrite bind_ok. by destruct (retrieve_all_string_spec b0 Hwf0) as (b1 & -> & _).
Qed.

(** ** Witnesses *)

Definition demo_log_ops : list log_op :=
  [LWriter; LWrite [] (lit "12:00:00") (lit "one;"); LWriter; LWriter; LWrite [] (lit "12:00:01") (lit "two;")].

Theorem log_in_order_witness :
  exists l, log_run demo_log_ops (started false true) = Ok l /\
    file l ++ texts (taken (phase_ l)) ++ texts (buffer_ l) ++ text_of (curr_buffer_ l) =
      lit "[12:00:00] one;[12:00:01] two;".
Proof.
  destruct (log_in_order false true demo_log_ops) as (l & Hr & Hl).
  - apply (bool_decide_unpack _). vm_compute. exact I.
  - vm_compute. discriminate.
  - exists l. split; [exact Hr|]. rewrite Hl. vm_compute. reflexivity.
Defined.

Theorem loading_flushes_witness :
  exists l l', log_run demo_log_ops (started false true) = Ok l /\
    log_run [LLoading; LWriter; LWriter] l = Ok l' /\ file l' = lit "[12:00:00] one;[12:00:01] two;".
Proof.
  destruct (log_run demo_log_ops (started false true)) as [l|] eqn:Hr; [|vm_compute in Hr; discriminate].
  assert (Hp : phase_ l = Waiting) by (vm_compute in Hr; injection Hr as <-; reflexivity).
  destruct (loading_flushes false true demo_log_ops l) as (l' & Hr' & Hf).
  - apply (bool_decide_unpack _). vm_compute. exact I.
  - vm_compute. discriminate.
  - exact Hr.
  - left. exact Hp.
  - exists l, l'. split; [reflexivity|]. split; [exact Hr'|]. rewrite Hf. vm_compute. reflexivity.
Defined.

(** One line of 4000 bytes before [init]. *)
Definition full_log : Log :=
  match write [] [] (replicate 4000 CR) (set_stamps false false new_log) with Ok l => l | Fault _ => new_log end.

Theorem early_log_asserts_witness :
  exists l1, init true true (true, false) full_log = Ok l1 /\
    log_run [LWriter; LWriter; LWriter; LWriter; LWriter] l1 = Fault AssertFailed.
Proof.
  assert (Hg : match curr_buffer_ full_log with
               | Some b => bool_decide (wf b /\ vsize b <= 10000) && bool_decide (nul ∉ contents b) | None => false
               end = true) by (vm_compute; reflexivity).
  assert (Hn : next_buffer_ full_log = None /\ phase_ full_log = Spinning) by (split; vm_compute; reflexivity).
  assert (Hok : match init true true (true, false) full_log with Ok _ => true | Fault _ => false end = true)
    by (vm_compute; reflexivity).
  destruct (curr_buffer_ full_log) as [b|] eqn:Hb; [|discriminate].
  apply andb_true_iff in Hg as [Hwf Hnul]. apply bool_decide_eq_true in Hwf, Hnul.
  destruct (init true true (true, false) full_log) as [l1|] eqn:Hi; [|discriminate].
  exists l1. split; [reflexivity|].
  apply (early_log_asserts 10000 true true full_log l1); [|apply Hn|apply Hn|exact Hi].
  exists b. split; [exact Hb|]. split; [apply Hwf|]. split; [apply Hwf|exact Hnul].
Defined.

Theorem destructor_writes_closed_file_witness :
  exists l, log_run [LWriter; LWriter; LWriter] (started true true) = Ok l /\
    log_run [LWriter; LWriter] (destroy l) = Fault NullDeref.
Proof.
  eexists. split; [reflexivity|].
  apply (destructor_writes_closed_file 1032); [|reflexivity].
  split; [apply blank_good, fresh_blank; lia|left; apply fresh_blank; lia|constructor|
    split; apply fresh_blank; lia|reflexivity].
Defined.
