(* ===== verification/ThreadPool.v ===== *)
(** * ThreadPool: workers and a queue of tasks (src/threadpool.h)

    Workers wait on a condition variable for a task or for the end of the pool,
    take tasks out under the mutex and run them without it.  A step of the
    relation is a stretch of code under the mutex or a notification; a waiting
    worker may also wake up without a reason, as the C++ standard allows. *)

From stdpp Require Import base list numbers relations.
From Stdlib Require Import Lia Wf_nat.
From S2P Require Import Prelude.

(** ** State *)

Abbreviation task := nat (only parsing).

Inductive worker : Type :=
  | Ready                 (* about to evaluate the predicate of the wait *)
  | Sleeping              (* in condition.wait *)
  | Running (t : task)    (* outside the mutex *)
  | Exited.

#[export] Instance worker_eq_dec : EqDecision worker.
Proof. solve_decision. Defined.

Record ThreadPool : Type := mkThreads {
  workers : list worker;
  tasks : list task;
  stop : bool;
  owed : nat;              (* notify_one calls still to come *)
  owed_all : bool;         (* the notify_all of the destructor still to come *)
  enqueued : list task;    (* every task accepted, in order *)
  started : list task      (* every task taken by a worker, in order *)
}.

Definition new_threads (n : nat) : ThreadPool := mkThreads (replicate n Ready) [] false 0 false [] [].

Definition set_worker (i : nat) (w : worker) (p : ThreadPool) : ThreadPool :=
  mkThreads (<[i := w]> (workers p)) (tasks p) (stop p) (owed p) (owed_all p) (enqueued p) (started p).

(** [enqueue] up to the notification; [None] is the exception. *)
Definition enqueue (t : task) (p : ThreadPool) : option ThreadPool :=
  if stop p then None
  else Some (mkThreads (workers p) (tasks p ++ [t]) (stop p) (S (owed p)) (owed_all p)
               (enqueued p ++ [t]) (started p)).

(** The first lines of the destructor. *)
Definition set_stop (p : ThreadPool) : ThreadPool :=
  mkThreads (workers p) (tasks p) true (owed p) true (enqueued p) (started p).

(** [notify_one] wakes worker [i], or nobody. *)
Definition notify_one (i : option nat) (p : ThreadPool) : ThreadPool :=
  mkThreads (match i with Some i => <[i := Ready]> (workers p) | None => workers p end)
    (tasks p) (stop p) (pred (owed p)) (owed_all p) (enqueued p) (started p).

Definition wake (w : worker) : worker := match w with Sleeping => Ready | _ => w end.

Definition notify_all (p : ThreadPool) : ThreadPool :=
  mkThreads (wake <$> workers p) (tasks p) (stop p) (owed p) false (enqueued p) (started p).

(** The critical section of worker [i]: sleep, leave, or take a task. *)
Definition take_task (i : nat) (p : ThreadPool) : ThreadPool :=
  match tasks p with
  | [] => if stop p then set_worker i Exited p else set_worker i Sleeping p
  | t :: ts =>
      mkThreads (<[i := Running t]> (workers p)) ts (stop p) (owed p) (owed_all p) (enqueued p)
        (started p ++ [t])
  end.

Inductive step : ThreadPool -> ThreadPool -> Prop :=
  | step_enqueue p t p' : enqueue t p = Some p' -> step p p'
  | step_notify p i : 0 < owed p -> workers p !! i = Some Sleeping -> step p (notify_one (Some i) p)
  | step_notify_none p : 0 < owed p -> Sleeping ∉ workers p -> step p (notify_one None p)
  | step_take p i : workers p !! i = Some Ready -> step p (take_task i p)
  | step_done p i t : workers p !! i = Some (Running t) -> step p (set_worker i Ready p)
  | step_spurious p i : workers p !! i = Some Sleeping -> step p (set_worker i Ready p)
  | step_stop p : stop p = false -> step p (set_stop p)
  | step_notify_all p : owed_all p = true -> step p (notify_all p).

(** ** Invariants *)

Definition active (w : worker) : Prop := w = Ready \/ exists t, w = Running t.

Record pool_inv (p : ThreadPool) : Prop := {
  inv_order : started p ++ tasks p = enqueued p;
  inv_exited : Exited ∈ workers p -> stop p = true /\ tasks p = [];
  inv_awake : tasks p <> [] -> workers p <> [] ->
    0 < owed p \/ owed_all p = true \/ exists w, w ∈ workers p /\ active w;
  inv_stop : stop p = true -> owed_all p = true \/ Sleeping ∉ workers p
}.

Lemma elem_of_insert (l : list worker) i w x : x ∈ <[i := w]> l -> x = w \/ x ∈ l.
Proof.
  intros (j & Hj)%list_elem_of_lookup. destruct (decide (i = j)) as [->|Hne].
  - apply list_lookup_insert_Some in Hj as [(_ & -> & _)|[? _]]; [by left|done].
  - rewrite list_lookup_insert_ne in Hj by done. right. by eapply list_elem_of_lookup_2.
Qed.

Lemma elem_of_inserted (l : list worker) i w x : l !! i = Some x -> w ∈ <[i := w]> l.
Proof.
  intros Hi. eapply (list_elem_of_lookup_2 _ i), list_lookup_insert_eq. by eapply lookup_lt_Some.
Qed.

Lemma insert_not_nil (l : list worker) i w : l <> [] -> <[i := w]> l <> [].
Proof. destruct l, i; done. Qed.

Lemma exited_wake (l : list worker) : Exited ∈ wake <$> l -> Exited ∈ l.
Proof. intros ([] & ? & ?)%list_elem_of_fmap; done. Qed.

Lemma sleeping_wake (l : list worker) : Sleeping ∉ wake <$> l.
Proof. intros ([] & ? & ?)%list_elem_of_fmap; done. Qed.

Lemma pool_inv_new n : pool_inv (new_threads n).
Proof.
  split; try done. simpl. intros Hx. apply elem_of_replicate_inv in Hx. done.
Qed.

(** A worker that starts to run or goes on keeps the pool awake. *)
Lemma inv_activate p i w x :
  pool_inv p -> workers p !! i = Some x -> active w -> w <> Exited ->
  pool_inv (set_worker i w p).
Proof.
  intros [Ho He Ha Hs] Hi Hw Hne. split; simpl; [done| | |].
  - intros [Hx|?]%elem_of_insert; [destruct Hw as [?|[? ?]]; congruence|by apply He].
  - intros _ _. right. right. exists w. split; [by eapply elem_of_inserted|done].
  - intros Hst. destruct (Hs Hst) as [?|Hno]; [by left|right].
    intros [Hx|?]%elem_of_insert; [destruct Hw as [?|[? ?]]; congruence|done].
Qed.

Lemma inv_take p i : pool_inv p -> workers p !! i = Some Ready -> pool_inv (take_task i p).
Proof.
  intros Hinv Hi. pose proof Hinv as [Ho He Ha Hs]. unfold take_task.
  destruct (tasks p) as [|t ts] eqn:Ht.
  - destruct (stop p) eqn:Hst; split; simpl; rewrite ?Ht, ?Hst; try done.
    + intros _. destruct (Hs eq_refl) as [?|Hno]; [by left|right]. by intros [?|?]%elem_of_insert.
    + intros [?|Hx]%elem_of_insert; [done|]. by destruct (He Hx).
  - destruct (inv_activate p i (Running t) Ready Hinv Hi) as [_ He' Ha' Hs']; [right; by exists t|done|].
    split; simpl in *; [|intros Hx; by destruct (He' Hx) as [_ Hnil]; rewrite Ht in Hnil| |done].
    + by rewrite <-app_assoc.
    + intros _ Hw. rewrite Ht in Ha'. by apply Ha'.
Qed.

Lemma inv_enqueue p t p' : pool_inv p -> enqueue t p = Some p' -> pool_inv p'.
Proof.
  intros [Ho He Ha Hs] H. unfold enqueue in H. destruct (stop p) eqn:Hst; [done|]. injection H as <-.
  split; simpl; [by rewrite app_assoc, Ho| |intros _ _; left; lia|congruence].
  intros Hx. by destruct (He Hx).
Qed.

Lemma inv_notify_none p :
  pool_inv p -> Sleeping ∉ workers p -> pool_inv (notify_one None p).
Proof.
  intros [Ho He Ha Hs] Hno. split; simpl; [done|done| |by right].
  intros Ht Hw. right. right. destruct (workers p) as [|w ws]; [done|]. exists w.
  split; [by left|]. destruct w; [by left|destruct Hno; by left|right; by eexists|].
  destruct He as [_ Hnil]; [by left|done].
Qed.

Lemma inv_notify p i :
  pool_inv p -> workers p !! i = Some Sleeping -> pool_inv (notify_one (Some i) p).
Proof.
  intros Hinv Hi. destruct (inv_activate p i Ready Sleeping Hinv Hi) as [Ho He Ha Hs]; [by left|done|].
  split; simpl in *; try done. intros _ _. right. right. exists Ready.
  split; [by eapply elem_of_inserted|by left].
Qed.

Lemma inv_notify_all p : pool_inv p -> pool_inv (notify_all p).
Proof.
  intros [Ho He Ha Hs]. split; simpl; [done| | |].
  - intros Hx%exited_wake. by apply He.
  - intros Ht Hw. right. right. destruct (workers p) as [|w ws]; [done|]. exists (wake w). simpl.
    split; [by left|]. destruct w; [by left|by left|right; by eexists|].
    destruct He as [_ Hnil]; [by left|done].
  - intros _. right. apply sleeping_wake.
Qed.

Lemma pool_inv_step p p' : pool_inv p -> step p p' -> pool_inv p'.
Proof.
  intros Hinv Hstep. destruct Hstep as [p t p' He|p i Ho Hi|p Ho Hn|p i Hi|p i t Hi|p i Hi|p Hs|p Ho].
  - by eapply inv_enqueue.
  - by apply inv_notify.
  - by apply inv_notify_none.
  - by apply inv_take.
  - eapply inv_activate; [done|done|by left|done].
  - eapply inv_activate; [done|done|by left|done].
  - destruct Hinv as [Ho He Ha _]. split; simpl; [done|naive_solver|by right; left|by left].
  - by apply inv_notify_all.
Qed.

Lemma pool_inv_reachable n p : rtc step (new_threads n) p -> pool_inv p.
Proof.
  intros Hr. remember (new_threads n) as p0 eqn:H0. assert (Hi : pool_inv p0) by (rewrite H0; apply pool_inv_new).
  clear H0. induction Hr as [|p1 p2 p3 H12 _ IH]; [done|]. apply IH. by eapply pool_inv_step.
Qed.

Lemma length_step p p' : step p p' -> length (workers p') = length (workers p).
Proof.
  intros Hstep. destruct Hstep as [p t p' He|p i Ho Hi|p Ho Hn|p i Hi|p i t Hi|p i Hi|p Hs|p Ho];
    simpl; rewrite ?length_insert, ?length_fmap; try done.
  - unfold enqueue in He. destruct (stop p); [done|]. by injection He as <-.
  - unfold take_task. destruct (tasks p); [destruct (stop p)|]; simpl; by rewrite length_insert.
Qed.

Lemma length_rtc p p' : rtc step p p' -> length (workers p') = length (workers p).
Proof. induction 1 as [|p1 p2 p3 H12 _ IH]; [done|]. by rewrite IH, (length_step _ _ H12). Qed.

(** *** The end of the pool *)

Definition weight (w : worker) : nat := match w with Running _ => 2 | Ready => 1 | _ => 0 end.
Definition weights (ws : list worker) : nat := sum_list_with weight ws.

(** What is left to do once the pool is stopped. *)
Definition work_left (p : ThreadPool) : nat := 3 * length (tasks p) + weights (workers p) + owed p.

Definition draining (p : ThreadPool) : Prop :=
  stop p = true /\ owed_all p = false /\ Sleeping ∉ workers p.

Lemma weights_insert ws i x w :
  ws !! i = Some x -> weights (<[i := w]> ws) + weight x = weights ws + weight w.
Proof.
  unfold weights. revert i. induction ws as [|y ws IH]; intros [|i] Hi; simplify_eq/=; [lia|].
  specialize (IH i Hi). lia.
Qed.

Lemma not_sleeping_insert (ws : list worker) i w : w <> Sleeping -> Sleeping ∉ ws -> Sleeping ∉ <[i := w]> ws.
Proof. intros Hw Hno [?|?]%elem_of_insert; [congruence|done]. Qed.

Lemma drain_step p p' : draining p -> step p p' -> draining p' /\ work_left p' < work_left p.
Proof.
  unfold draining, work_left. intros (Hs & Ha & Hno) Hstep.
  destruct Hstep as [p t p' He|p i Ho Hi|p Ho Hn|p i Hi|p i t Hi|p i Hi|p Hst|p Ho].
  - unfold enqueue in He. by rewrite Hs in He.
  - destruct Hno. by eapply list_elem_of_lookup_2.
  - simpl. split; [done|lia].
  - unfold take_task. destruct (tasks p) as [|t ts] eqn:Ht; simpl; rewrite ?Hs; simpl; rewrite ?Ht.
    + pose proof (weights_insert _ _ _ Exited Hi). simpl in *.
      split; [split_and!; try done; by apply not_sleeping_insert|lia].
    + pose proof (weights_insert _ _ _ (Running t) Hi). simpl in *.
      split; [split_and!; try done; by apply not_sleeping_insert|lia].
  - pose proof (weights_insert _ _ _ Ready Hi). simpl in *.
    split; [split_and!; try done; by apply not_sleeping_insert|lia].
  - destruct Hno. by eapply list_elem_of_lookup_2.
  - congruence.
  - congruence.
Qed.

Lemma drain_rtc p p' : draining p -> rtc step p p' -> draining p'.
Proof. intros Hd. induction 1 as [|p1 p2 p3 H12 _ IH]; [done|]. apply IH. by eapply drain_step. Qed.

Lemma drain_acc k : forall p, draining p -> work_left p < k -> Acc (flip step) p.
Proof.
  induction k as [|k IH]; intros p Hd Hk; [lia|]. constructor. intros p' Hstep.
  destruct (drain_step p p' Hd Hstep) as [Hd' Hlt]. apply IH; [done|lia].
Qed.

(** ** The theorems *)

(** Tasks start in the order they were enqueued, whichever worker takes them,
    and each at most once; what was enqueued and has not started is in the
    queue. *)
Theorem tasks_start_in_order (n : nat) (p : ThreadPool) :
  rtc step (new_threads n) p -> started p ++ tasks p = enqueued p.
Proof. intros Hr. by apply (pool_inv_reachable n p Hr). Qed.

(** A waiting task is not forgotten: a worker is on its way to the queue, or a
    notification is still to come. *)
Theorem no_task_forgotten (n : nat) (p : ThreadPool) :
  0 < n -> rtc step (new_threads n) p -> tasks p <> [] ->
  0 < owed p \/ owed_all p = true \/ exists w, w ∈ workers p /\ active w.
Proof.
  intros Hn Hr Ht. apply (inv_awake p (pool_inv_reachable n p Hr) Ht).
  intros Hw. apply length_rtc in Hr. rewrite Hw in Hr. simpl in Hr. rewrite length_replicate in Hr. lia.
Qed.

(** C23: The destructor's joins return: once it has notified, the pool can only take
    finitely many more steps, and where it can take none every worker has left
    and every task that was accepted has been run. *)
Theorem destructor_joins (n : nat) (p : ThreadPool) :
  rtc step (new_threads n) p -> stop p = true -> owed_all p = false ->
  Acc (flip step) p /\
  forall p', rtc step p p' -> (forall p'', ~ step p' p'') ->
    Forall (fun w => w = Exited) (workers p') /\ (0 < n -> started p' = enqueued p').
Proof.
  intros Hr Hs Ha. pose proof (pool_inv_reachable n p Hr) as Hinv.
  assert (Hd : draining p) by (destruct (inv_stop p Hinv Hs); [congruence|done]).
  split; [by apply (drain_acc (S (work_left p))); [|lia]|].
  intros p' Hrun Hstuck. assert (Hr' : rtc step (new_threads n) p') by (by etrans).
  pose proof (pool_inv_reachable n p' Hr') as Hinv'. destruct (drain_rtc p p' Hd Hrun) as (Hs' & _ & Hno).
  assert (Hall : Forall (fun w => w = Exited) (workers p')).
  { apply Forall_forall. intros w Hw. pose proof Hw as (i & Hi)%list_elem_of_lookup.
    destruct w; [|done| |done]; exfalso; eapply Hstuck; [by eapply step_take|by eapply step_done]. }
  split; [done|]. intros Hn. apply length_rtc in Hr'. simpl in Hr'. rewrite length_replicate in Hr'.
  destruct (inv_exited p' Hinv') as [_ Ht].
  { destruct (workers p') as [|w ws]; [simpl in Hr'; lia|]. apply Forall_cons in Hall as [-> _]. by left. }
  rewrite <-(inv_order p' Hinv'), Ht. by rewrite app_nil_r.
Qed.

(** ** Witnesses *)

(** Two workers, one task taken, one waiting while nobody sleeps. *)
Definition busy : ThreadPool := mkThreads [Running 5; Ready] [6] false 2 false [5; 6] [5].

Lemma busy_reachable : rtc step (new_threads 2) busy.
Proof.
  eapply rtc_l; [by apply (step_enqueue _ 5)|]. eapply rtc_l; [by apply (step_enqueue _ 6)|].
  eapply rtc_l; [by apply (step_take _ 0)|]. apply rtc_refl.
Qed.

Theorem tasks_start_in_order_witness : started busy ++ tasks busy = [5; 6].
Proof. exact (tasks_start_in_order 2 busy busy_reachable). Defined.

Theorem no_task_forgotten_witness :
  0 < owed busy \/ owed_all busy = true \/ exists w, w ∈ workers busy /\ active w.
Proof. apply (no_task_forgotten 2 busy); [lia|exact busy_reachable|discriminate]. Defined.

Definition stopped : ThreadPool := notify_all (set_stop busy).

Theorem destructor_joins_witness :
  Acc (flip step) stopped.
Proof.
  apply (destructor_joins 2 stopped); [|reflexivity|reflexivity].
  eapply rtc_r; [eapply rtc_r; [exact busy_reachable|]|].
  - by apply step_stop.
  - by apply step_notify_all.
Defined.
