(* ===== verification/TcpServer.v ===== *)
(** * TcpServer: loops and connections (src/server/tcpserver, eventloopthreadpool)

    The server's own loop accepts connections, gives each to one of the loops
    of the pool in turn and keeps a table of the connections by name.  A
    connection lives in its own loop; closing it goes back to the server's
    loop, which erases it from the table, and to the connection's loop again,
    which removes its channel.  Work for another loop is queued there. *)

From stdpp Require Import base list numbers gmap strings pretty.
From Stdlib Require Import ZArith Lia Ascii.
From S2P Require Import Prelude Buffer Channel TcpConnection ConnectionProofs.

Local Open Scope Z_scope.
Local Open Scope result_scope.

(** ** The pool of loops *)

(** Loops are known by number. *)
Abbreviation loop := nat (only parsing).

Record EventLoopThreadPool : Type := mkLoops {
  num_threads_ : nat;
  started_ : bool;
  next_ : nat;
  base_loop_ : loop;
  loops_ : list loop
}.

Definition new_pool (base : loop) : EventLoopThreadPool := mkLoops 0 false 0 base [].

Definition set_thread_num (n : nat) (p : EventLoopThreadPool) : EventLoopThreadPool :=
  mkLoops n (started_ p) (next_ p) (base_loop_ p) (loops_ p).

(** [start]: every thread's loop is told to the callback, or the base loop if
    there is no thread; [fresh i] is the loop thread [i] runs. *)
Definition start (fresh : nat -> loop) (p : EventLoopThreadPool) : result (list loop * EventLoopThreadPool) :=
  assert! (negb (started_ p));
  let ls := fresh <$> seq 0 (num_threads_ p) in
  Ok (if (num_threads_ p =? 0)%nat then [base_loop_ p] else ls,
      mkLoops (num_threads_ p) true (next_ p) (base_loop_ p) (loops_ p ++ ls)).

Definition get_loop (p : EventLoopThreadPool) : result (loop * EventLoopThreadPool) :=
  assert! (started_ p);
  match loops_ p with
  | [] => Ok (base_loop_ p, p)
  | _ :: _ =>
      l ← of_option OutOfRange (loops_ p !! next_ p);
      let n := S (next_ p) in
      Ok (l, mkLoops (num_threads_ p) true (if (length (loops_ p) <=? n)%nat then 0%nat else n)
               (base_loop_ p) (loops_ p))
  end.

Fixpoint get_loops (k : nat) (p : EventLoopThreadPool) : result (list loop * EventLoopThreadPool) :=
  match k with
  | O => Ok ([], p)
  | S k => '(l, p1) ← get_loop p; '(ls, p2) ← get_loops k p1; Ok (l :: ls, p2)
  end.

(** The loop of the [i]-th call. *)
Definition turn (p : EventLoopThreadPool) (i : nat) : loop :=
  match loops_ p with
  | [] => base_loop_ p
  | l :: _ => default l (loops_ p !! (i mod length (loops_ p))%nat)
  end.

(** [i] calls have been made. *)
Definition at_turn (i : nat) (p : EventLoopThreadPool) : Prop :=
  started_ p = true /\ (loops_ p <> [] -> next_ p = (i mod length (loops_ p))%nat).

Lemma turn_next i n :
  (0 < n)%nat -> (if (n <=? S (i mod n))%nat then 0%nat else S (i mod n)) = (S i mod n)%nat.
Proof.
  intros Hn. assert (Hlt : (i mod n < n)%nat) by (apply Nat.mod_upper_bound; lia).
  assert (Hdiv := Nat.div_mod_eq i n). destruct (Nat.leb_spec n (S (i mod n))).
  - apply (Nat.mod_unique _ _ (S (i / n))); nia.
  - apply (Nat.mod_unique _ _ (i / n)); nia.
Qed.

Lemma get_loop_turn i p :
  at_turn i p -> exists p', get_loop p = Ok (turn p i, p') /\ at_turn (S i) p' /\
    loops_ p' = loops_ p /\ base_loop_ p' = base_loop_ p.
Proof.
  intros [Hs Hn]. unfold get_loop, turn. rewrite Hs. cbn [assert_]. rewrite bind_ok.
  destruct (loops_ p) as [|l ls] eqn:Hl; [exists p; split; [done|]; split; [|by rewrite Hl]; split; [done|by rewrite Hl]|].
  rewrite (Hn ltac:(done)). set (n := length (l :: ls)).
  assert (Hlt : (i mod n < n)%nat) by (apply Nat.mod_upper_bound; unfold n; simpl; lia).
  destruct (lookup_lt_is_Some_2 (l :: ls) (i mod n) Hlt) as [x Hx].
  rewrite Hx. cbn [of_option default]. rewrite bind_ok. eexists. split; [done|]. split; [|done].
  split; [done|]. intros _. apply turn_next. unfold n. simpl. lia.
Qed.

(** ** Connections, as the server sees them *)

(** The status, the state of the channel and whether it wants no event. *)
Record connection : Type := mkConnection {
  cs_name : bytes;
  cs_loop : loop;
  cs_status : Status;
  cs_channel : POLL_TAG;
  cs_none : bool
}.

Definition with_state (s : Status) (t : POLL_TAG) (none : bool) (c : connection) : connection :=
  mkConnection (cs_name c) (cs_loop c) s t none.

(** [enable_reading] and [disable_all] of the connection's channel. *)
Definition enable_reading_ (s : Status) (c : connection) : result connection :=
  match cs_channel c with
  | NEW | ADD => Ok (with_state s ADD false c)
  | DEL => Fault AssertFailed
  end.
Definition disable_all_ (s : Status) (c : connection) : result connection :=
  match cs_channel c with
  | NEW => Ok (with_state s ADD true c)
  | ADD => Ok (with_state s DEL true c)
  | DEL => Fault AssertFailed
  end.
Definition remove_ (c : connection) : result connection :=
  if cs_none c && negb (bool_decide (cs_channel c = NEW))
  then Ok (with_state (cs_status c) NEW (cs_none c) c) else Fault AssertFailed.

Definition build (c : connection) : result connection :=
  assert! (bool_decide (cs_status c = CONNECTING)); enable_reading_ CONNECTED c.

Definition close (c : connection) : result connection :=
  assert! (bool_decide (cs_status c = CONNECTED) || bool_decide (cs_status c = DISCONNECTING));
  disable_all_ DISCONNECTED c.

Definition leave (c : connection) : result connection :=
  c1 ← (if bool_decide (cs_status c = CONNECTED) then disable_all_ DISCONNECTING c else Ok c);
  remove_ c1.

(** *** They are what the connection itself does *)

Definition view (name : bytes) (l : loop) (c : TcpConnection) : connection :=
  match store (poller_ c) !! channel_ c with
  | Some ch => mkConnection name l (status_ c) (Channel.status_ ch) (is_none_event ch)
  | None => mkConnection name l (status_ c) NEW true
  end.

Section view.
Context (name : bytes) (l : loop).

(** A connection whose channel's descriptor is its own in a sound poller. *)
Definition sound (c : TcpConnection) (ch : Channel) : Prop :=
  mirrors (poller_ c) /\ store (poller_ c) !! channel_ c = Some ch /\
  (Channel.status_ ch = NEW -> channels_ (poller_ c) !! fd_ ch = None).

Lemma view_is c ch :
  store (poller_ c) !! channel_ c = Some ch ->
  view name l c = mkConnection name l (status_ c) (Channel.status_ ch) (is_none_event ch).
Proof. intros Hch. unfold view. by rewrite Hch. Qed.

Lemma view_events f c ch s :
  sound c ch -> status_ c = s ->
  view name l <$> on_channel (with_events f) c =
    match Channel.status_ ch with
    | NEW => Ok (mkConnection name l s ADD (is_none_event (changed f ch)))
    | ADD => Ok (mkConnection name l s (if is_none_event (changed f ch) then DEL else ADD)
                   (is_none_event (changed f ch)))
    | DEL => Fault AssertFailed
    end.
Proof.
  intros (Hm & Hch & Hfree) <-. unfold on_channel. rewrite (with_events_cases f _ _ ch) by done. cbv zeta.
  destruct (Channel.status_ ch) eqn:Hst.
  - rewrite decide_True by auto. cbn. unfold view. cbn [poller_ set_poller store channel_].
    by rewrite lookup_insert_eq.
  - destruct (is_none_event (changed f ch)) eqn:Hn; cbn; unfold view; cbn [poller_ set_poller store channel_];
      rewrite lookup_insert_eq; cbn; [|by rewrite Hst, Hn].
    by rewrite <-Hn.
  - done.
Qed.

Lemma read_not_none x : is_none_event (changed (fun e => Z.lor e kReadEvent) x) = false.
Proof.
  unfold is_none_event, changed. simpl. apply Z.eqb_neq. intros [_ Hk]%Z.lor_eq_0_iff. done.
Qed.

Lemma build_view c ch :
  sound c ch -> view name l <$> build_connect c = build (view name l c).
Proof.
  intros Hs. pose proof Hs as (Hm & Hch & Hfree). rewrite (view_is c ch Hch). unfold build_connect, build. cbn [cs_status].
  case_bool_decide; [|done]. cbn [assert_]. rewrite !bind_ok. unfold get_channel. cbn [poller_ set_status_ channel_].
  rewrite Hch. cbn [of_option]. rewrite bind_ok.
  set (c1 := set_poller _ _).
  assert (Hs1 : sound c1 (tie ch)).
  { split; [by apply tie_mirrors|]. split; [apply lookup_insert_eq|done]. }
  pose proof (view_events (fun e => Z.lor e kReadEvent) c1 (tie ch) CONNECTED Hs1 eq_refl) as Hv.
  rewrite read_not_none in Hv. unfold enable_reading. cbn [enable_reading_ cs_channel].
  change (Channel.status_ (tie ch)) with (Channel.status_ ch) in Hv.
  unfold enable_reading_. cbn [cs_channel].
  destruct (on_channel _ c1) as [c2|]; destruct (Channel.status_ ch); simpl in *; try congruence;
    injection Hv as Hv; unfold with_state; simpl; by rewrite <-Hv.
Qed.

Lemma disable_view c ch s :
  sound c ch -> status_ c = s ->
  view name l <$> on_channel disable_all c = disable_all_ s (view name l c).
Proof.
  intros Hs Hst. pose proof Hs as (_ & Hch & _). rewrite (view_is c ch Hch).
  unfold disable_all. rewrite (view_events (fun _ => kNoneEvent) c ch s Hs Hst). unfold disable_all_. simpl.
  by destruct (Channel.status_ ch).
Qed.

Lemma emit_view e c : view name l (emit e c) = view name l c.
Proof. done. Qed.

Lemma close_view c ch :
  sound c ch -> view name l <$> handle_close_ c = close (view name l c).
Proof.
  intros Hs. pose proof Hs as (_ & Hch & _). unfold handle_close_, close.
  replace (cs_status (view name l c)) with (status_ c) by (by rewrite (view_is c ch Hch)).
  destruct (_ || _); [|done]. cbn [assert_]. rewrite !bind_ok.
  pose proof (disable_view (set_status_ DISCONNECTED c) ch DISCONNECTED Hs eq_refl) as Hv.
  assert (Hd : disable_all_ DISCONNECTED (view name l (set_status_ DISCONNECTED c)) =
               disable_all_ DISCONNECTED (view name l c)).
  { rewrite (view_is c ch Hch). by rewrite (view_is (set_status_ DISCONNECTED c) ch Hch). }
  rewrite <-Hd, <-Hv. by destruct (on_channel _ _).
Qed.

Lemma remove_view c ch :
  sound c ch -> view name l <$> on_channel remove c = remove_ (view name l c).
Proof.
  intros (Hm & Hch & _). rewrite (view_is c ch Hch). unfold on_channel, remove_. cbn [cs_none cs_channel].
  rewrite (remove_cases _ _ ch Hm Hch). destruct (is_none_event ch) eqn:Hn; [|done]. cbn [andb].
  destruct (negb _); [|done]. cbn. unfold view. cbn [poller_ set_poller store channel_].
  rewrite lookup_insert_eq. cbn. by rewrite <-Hn.
Qed.

Lemma disable_sound c ch c' :
  sound c ch -> on_channel disable_all c = Ok c' ->
  exists ch', sound c' ch'.
Proof.
  intros (Hm & Hch & Hfree) Hd. unfold on_channel, disable_all in Hd. inv_bind Hd. injection Hd as <-.
  pose proof (with_events_mirrors _ _ _ _ Hm Ha) as Hm'.
  rewrite (with_events_cases _ _ _ ch Hm Hch) in Ha. cbv zeta in Ha. unfold sound. cbn [poller_ set_poller channel_].
  change (is_none_event (changed (fun _ => kNoneEvent) ch)) with true in Ha.
  destruct (Channel.status_ ch) eqn:Hst; [case_decide| |]; simplify_eq; cbn [store];
    (eexists; split; [exact Hm'|]; cbn [store]; rewrite lookup_insert_eq; by split).
Qed.

Lemma leave_view c ch :
  sound c ch -> view name l <$> destroy_connect c = leave (view name l c).
Proof.
  intros Hs. pose proof Hs as (_ & Hch & _). unfold destroy_connect, leave.
  replace (cs_status (view name l c)) with (status_ c) by (by rewrite (view_is c ch Hch)).
  case_bool_decide as Hup; [|rewrite !bind_ok; by eapply remove_view].
  pose proof (disable_view (set_status_ DISCONNECTING c) ch DISCONNECTING Hs eq_refl) as Hv.
  assert (Hd : disable_all_ DISCONNECTING (view name l (set_status_ DISCONNECTING c)) =
               disable_all_ DISCONNECTING (view name l c)).
  { rewrite (view_is c ch Hch). by rewrite (view_is (set_status_ DISCONNECTING c) ch Hch). }
  rewrite <-Hd, <-Hv. destruct (on_channel disable_all _) as [c2|] eqn:Hc2; [|done]. rewrite !bind_ok. cbn [fmap result_fmap].
  destruct (disable_sound (set_status_ DISCONNECTING c) ch c2 Hs Hc2) as (ch2 & Hs2). rewrite bind_ok.
  by apply (remove_view (emit (EvConnection (is_connected c2)) c2) ch2).
Qed.

(** C25: What the server assumes of its connections is what they do: setting up,
    closing and tearing down a connection change the status and the channel as
    the three functions above say, and fail the same assertions. *)
Theorem lifecycle_refines (c : TcpConnection) (ch : Channel) :
  sound c ch ->
  view name l <$> build_connect c = build (view name l c) /\
  view name l <$> handle_close_ c = close (view name l c) /\
  view name l <$> destroy_connect c = leave (view name l c).
Proof. intros Hs. split_and!; [by eapply build_view|by eapply close_view|by eapply leave_view]. Qed.
End view.

(** ** The server *)

Inductive task : Type := Build (i : nat) | Remove (i : nat) | Destroy (i : nat).

Record TcpServer : Type := mkServer {
  name_ : bytes;
  ip_port_ : bytes;
  thread_pool_ : EventLoopThreadPool;
  next_id : Z;
  connection_ : gmap bytes nat
}.

(** The connections ever made, by number, and the tasks queued in the loops,
    oldest first. *)
Record system : Type := mkSystem {
  server : TcpServer;
  conns : list connection;
  queue : list (loop * task)
}.

Definition new_server (name ip_port : bytes) (p : EventLoopThreadPool) : system :=
  mkSystem (mkServer name ip_port p 1 ∅) [] [].

Definition base (s : system) : loop := base_loop_ (thread_pool_ (server s)).
Definition table (s : system) : gmap bytes nat := connection_ (server s).

Definition set_table (m : gmap bytes nat) (s : system) : system :=
  let sv := server s in
  mkSystem (mkServer (name_ sv) (ip_port_ sv) (thread_pool_ sv) (next_id sv) m) (conns s) (queue s).
Definition set_conns (cs : list connection) (s : system) : system := mkSystem (server s) cs (queue s).
Definition set_queue (q : list (loop * task)) (s : system) : system := mkSystem (server s) (conns s) q.

Definition on_conn (i : nat) (f : connection -> result connection) (s : system) : result system :=
  c ← of_option NullDeref (conns s !! i);
  c1 ← f c;
  Ok (set_conns (<[i := c1]> (conns s)) s).

(** [EventLoop::run_in_loop] of loop [target], called in loop [cur]. *)
Definition run_in (cur target : loop) (t : task) (now : system -> result system) (s : system) : result system :=
  if (cur =? target)%nat then now s else Ok (set_queue (queue s ++ [(target, t)]) s).

Definition conn_name (sv : TcpServer) (id : Z) : bytes :=
  name_ sv ++ lit "-" ++ ip_port_ sv ++ lit "#" ++ to_string id.

(** The server's part of a new connection, whose object is [i]: its loop, its
    name, and its row in the table. *)
Definition enrol (i : nat) (sv : TcpServer) : result (loop * bytes * TcpServer) :=
  '(l, p) ← get_loop (thread_pool_ sv);
  let nm := conn_name sv (next_id sv) in
  Ok (l, nm, mkServer (name_ sv) (ip_port_ sv) p (s32 (next_id sv + 1)) (<[nm := i]> (connection_ sv))).

(** The server's part of a connection's end: [erase], which must find it. *)
Definition strike (nm : bytes) (sv : TcpServer) : result TcpServer :=
  assert! (bool_decide (is_Some (connection_ sv !! nm)));
  Ok (mkServer (name_ sv) (ip_port_ sv) (thread_pool_ sv) (next_id sv) (delete nm (connection_ sv))).

Definition new_connection (s : system) : result system :=
  let i := length (conns s) in
  '(l, nm, sv) ← enrol i (server s);
  let s1 := mkSystem sv (conns s ++ [mkConnection nm l CONNECTING NEW true]) (queue s) in
  run_in (base s) l (Build i) (on_conn i build) s1.

Definition remove_connection_in_loop (i : nat) (s : system) : result system :=
  c ← of_option NullDeref (conns s !! i);
  sv ← strike (cs_name c) (server s);
  run_in (base s) (cs_loop c) (Destroy i) (on_conn i leave) (mkSystem sv (conns s) (queue s)).

(** [remove_connection], called in loop [cur]. *)
Definition remove_connection (cur : loop) (i : nat) (s : system) : result system :=
  run_in cur (base s) (Remove i) (remove_connection_in_loop i) s.

(** The peer of connection [i] is gone: [handle_close_] and the server's
    callback, in the connection's loop. *)
Definition hangup (i : nat) (s : system) : result system :=
  c ← of_option NullDeref (conns s !! i);
  s1 ← on_conn i close s;
  remove_connection (cs_loop c) i s1.

Definition shutdown_ (c : connection) : result connection :=
  Ok (if bool_decide (cs_status c = CONNECTED) then with_state DISCONNECTING (cs_channel c) (cs_none c) c else c).

Definition run_task (t : task) (s : system) : result system :=
  match t with
  | Build i => on_conn i build s
  | Remove i => remove_connection_in_loop i s
  | Destroy i => on_conn i leave s
  end.

(** The oldest task of a loop, and the other tasks. *)
Fixpoint take_first (l : loop) (q : list (loop * task)) : option (task * list (loop * task)) :=
  match q with
  | [] => None
  | (l', t) :: q =>
      if (l' =? l)%nat then Some (t, q)
      else match take_first l q with Some (t', q') => Some (t', (l', t) :: q') | None => None end
  end.

Inductive server_op : Type :=
  | Accept             (* the acceptor has a new connection *)
  | Hangup (i : nat)   (* the poller reports that a connection is closed *)
  | Shutdown (i : nat)
  | RunQueued (l : loop).

(** The poller only reports on channels it watches. *)
Definition watched_conn (i : nat) (s : system) : bool :=
  match conns s !! i with Some c => bool_decide (cs_channel c = ADD) | None => false end.

Definition server_step (op : server_op) (s : system) : result system :=
  match op with
  | Accept => new_connection s
  | Hangup i => if watched_conn i s then hangup i s else Ok s
  | Shutdown i => if watched_conn i s then on_conn i shutdown_ s else Ok s
  | RunQueued l =>
      match take_first l (queue s) with
      | Some (t, q) => run_task t (set_queue q s)
      | None => Ok s
      end
  end.

Fixpoint server_run (ops : list server_op) (s : system) : result system :=
  match ops with
  | [] => Ok s
  | op :: ops => s1 ← server_step op s; server_run ops s1
  end.

(** *** Names *)

Lemma lit_inj a b : lit a = lit b -> a = b.
Proof.
  unfold lit. intros H. rewrite <-(String.string_of_list_ascii_of_string a), <-(String.string_of_list_ascii_of_string b).
  by rewrite H.
Qed.

Lemma conn_name_inj sv a b : conn_name sv a = conn_name sv b -> a = b.
Proof.
  unfold conn_name. intros H. do 4 apply app_inv_head in H. by apply lit_inj, (inj pretty) in H.
Qed.

(** *** What is queued *)

Definition in_table (m : gmap bytes nat) (i : nat) (c : connection) : bool :=
  bool_decide (m !! cs_name c = Some i).

(** The task connection [i] waits for. *)
Definition waiting (m : gmap bytes nat) (b : loop) (i : nat) (c : connection) : list (loop * task) :=
  match cs_status c with
  | CONNECTING => [(cs_loop c, Build i)]
  | CONNECTED | DISCONNECTING => []
  | DISCONNECTED =>
      if bool_decide (cs_channel c = DEL)
      then if in_table m i c then [(b, Remove i)] else [(cs_loop c, Destroy i)]
      else []
  end.

Fixpoint awaited (m : gmap bytes nat) (b : loop) (k : nat) (cs : list connection) : list (loop * task) :=
  match cs with
  | [] => []
  | c :: cs => waiting m b k c ++ awaited m b (S k) cs
  end.

Definition stage_ok (m : gmap bytes nat) (i : nat) (c : connection) : Prop :=
  match cs_status c with
  | CONNECTING => cs_channel c = NEW /\ in_table m i c = true
  | CONNECTED | DISCONNECTING => cs_channel c = ADD /\ in_table m i c = true
  | DISCONNECTED =>
      (cs_channel c = DEL /\ cs_none c = true) \/ (cs_channel c = NEW /\ in_table m i c = false)
  end.

Lemma awaited_snoc m b cs c : forall k,
  awaited m b k (cs ++ [c]) = awaited m b k cs ++ waiting m b (k + length cs) c.
Proof.
  induction cs as [|d cs IH]; intros k; simpl; [by rewrite app_nil_r, Nat.add_0_r|].
  by rewrite IH, <-app_assoc, Nat.add_succ_r.
Qed.

Lemma awaited_elem m b cs x : forall k,
  x ∈ awaited m b k cs -> exists i c, cs !! i = Some c /\ x ∈ waiting m b (k + i) c.
Proof.
  induction cs as [|d cs IH]; intros k; cbn [awaited]; [by intros ?%elem_of_nil|].
  intros [Hx|Hx]%elem_of_app; [exists 0%nat, d; by rewrite Nat.add_0_r|].
  destruct (IH (S k) Hx) as (i & c & Hi & Hc). exists (S i), c. by rewrite Nat.add_succ_r.
Qed.

Lemma awaited_same m m' b cs : forall k,
  (forall j d, cs !! j = Some d -> waiting m' b (k + j) d = waiting m b (k + j) d) ->
  awaited m' b k cs = awaited m b k cs.
Proof.
  induction cs as [|d cs IH]; intros k Hsame; [done|]. cbn [awaited]. f_equal.
  - specialize (Hsame 0%nat d eq_refl). by rewrite Nat.add_0_r in Hsame.
  - apply IH. intros j e Hj. specialize (Hsame (S j) e Hj). by rewrite Nat.add_succ_r in Hsame.
Qed.

Lemma awaited_insert m b cs i c : forall k,
  cs !! i = Some c ->
  exists rest, awaited m b k cs ≡ₚ waiting m b (k + i) c ++ rest /\
    forall m' c', (forall j d, j <> i -> cs !! j = Some d -> waiting m' b (k + j) d = waiting m b (k + j) d) ->
      awaited m' b k (<[i := c']> cs) ≡ₚ waiting m' b (k + i) c' ++ rest.
Proof.
  revert i. induction cs as [|d cs IH]; intros [|i] k Hi; simplify_eq/=.
  - exists (awaited m b (S k) cs). rewrite Nat.add_0_r. split; [done|]. intros m' c' Hsame.
    rewrite (awaited_same m m' b cs (S k)); [done|].
    intros j e Hj. specialize (Hsame (S j) e ltac:(done) Hj). by rewrite Nat.add_succ_r in Hsame.
  - destruct (IH i (S k) Hi) as (rest & Hr & Hall). exists (waiting m b k d ++ rest).
    rewrite Nat.add_succ_r. split; [rewrite Hr; solve_Permutation|]. intros m' c' Hsame.
    rewrite (Hall m' c').
    + assert (Hd := Hsame 0%nat d ltac:(done) eq_refl). rewrite Nat.add_0_r in Hd. rewrite Hd. solve_Permutation.
    + intros j e Hne Hj. specialize (Hsame (S j) e ltac:(congruence) Hj). by rewrite Nat.add_succ_r in Hsame.
Qed.

Lemma take_first_perm l q t q' : take_first l q = Some (t, q') -> q ≡ₚ (l, t) :: q'.
Proof.
  revert t q'. induction q as [|[l0 t0] q IH]; intros t q' Ht; simpl in Ht; [done|].
  destruct (Nat.eqb_spec l0 l) as [->|]; [by injection Ht as -> ->|].
  destruct (take_first l q) as [[t1 q1]|]; [|done]. injection Ht as -> <-.
  rewrite (IH t q1 eq_refl). solve_Permutation.
Qed.

(** *** The invariant *)

(** [p] is the pool the server was made with. *)
Record server_inv (p : EventLoopThreadPool) (s : system) : Prop := {
  inv_queue : queue s ≡ₚ awaited (table s) (base s) 0 (conns s);
  inv_conn i c : conns s !! i = Some c ->
    cs_name c = conn_name (server s) (Z.of_nat i + 1) /\ cs_loop c = turn p i /\ stage_ok (table s) i c;
  inv_table nm i : table s !! nm = Some i -> exists c, conns s !! i = Some c /\ cs_name c = nm;
  inv_next : next_id (server s) = Z.of_nat (length (conns s)) + 1;
  inv_turn : at_turn (length (conns s)) (thread_pool_ (server s));
  inv_pool : loops_ (thread_pool_ (server s)) = loops_ p /\ base s = base_loop_ p
}.

Lemma inv_distinct p s i j c d :
  server_inv p s -> conns s !! i = Some c -> conns s !! j = Some d -> cs_name c = cs_name d -> i = j.
Proof.
  intros Hinv Hi Hj Hn. destruct (inv_conn p s Hinv i c Hi) as [Hc _].
  destruct (inv_conn p s Hinv j d Hj) as [Hd _]. rewrite Hc, Hd in Hn. apply conn_name_inj in Hn. lia.
Qed.

(** Connection [i] goes from [c] to [c'], and may leave the table. *)
Lemma inv_change p s i c c' m q :
  server_inv p s -> conns s !! i = Some c -> cs_name c' = cs_name c -> cs_loop c' = cs_loop c ->
  m = table s \/ m = delete (cs_name c) (table s) -> stage_ok m i c' ->
  (forall rest, queue s ≡ₚ waiting (table s) (base s) i c ++ rest -> q ≡ₚ waiting m (base s) i c' ++ rest) ->
  server_inv p (set_queue q (set_conns (<[i := c']> (conns s)) (set_table m s))).
Proof.
  intros Hinv Hi Hname Hloop Hm Hst Hq.
  assert (Hothers : forall j d, j <> i -> conns s !! j = Some d -> in_table m j d = in_table (table s) j d).
  { intros j d Hne Hj. destruct Hm as [->| ->]; [done|]. unfold in_table. apply bool_decide_ext.
    rewrite lookup_delete_ne; [done|]. intros Hn. by destruct Hne; eapply inv_distinct. }
  assert (Hwait : forall j d, j <> i -> conns s !! j = Some d ->
    waiting m (base s) (0 + j) d = waiting (table s) (base s) (0 + j) d).
  { intros j d Hne Hj. simpl. unfold waiting. by rewrite (Hothers j d). }
  destruct (awaited_insert (table s) (base s) (conns s) i c 0 Hi) as (rest & Hr & Hall).
  split; cbn [queue set_queue conns set_conns server set_table table base connection_ next_id thread_pool_].
  - change (base (set_queue _ _)) with (base s). rewrite (Hall m c' Hwait). apply Hq.
    by rewrite (inv_queue p s Hinv), Hr.
  - intros j d [(<- & <- & _)|[Hne Hj]]%list_lookup_insert_Some.
    + destruct (inv_conn p s Hinv i c Hi) as (Hn & Hl & _). by rewrite Hname, Hloop.
    + destruct (inv_conn p s Hinv j d Hj) as (Hn & Hl & Hstj). split; [done|]. split; [done|].
      unfold stage_ok in *. cbn. by rewrite (Hothers j d).
  - intros nm j Hj. assert (Ht : table s !! nm = Some j).
    { destruct Hm as [->| ->]; [done|]. by apply lookup_delete_Some in Hj as [_ ?]. }
    destruct (inv_table p s Hinv nm j Ht) as (d & Hd & <-). destruct (decide (j = i)) as [->|].
    + exists c'. rewrite list_lookup_insert_eq by (by eapply lookup_lt_Some). naive_solver.
    + exists d. by rewrite list_lookup_insert_ne by done.
  - rewrite length_insert. apply (inv_next p s Hinv).
  - rewrite length_insert. apply (inv_turn p s Hinv).
  - apply (inv_pool p s Hinv).
Qed.

Lemma server_inv_new nm ip p : at_turn 0 p -> server_inv p (new_server nm ip p).
Proof. intros Ht. split; simpl; try done; by intros i c ?%lookup_nil_Some || intros ? ? ?%lookup_empty_Some. Qed.

Lemma in_table_other m nm k i c : cs_name c <> nm -> in_table (<[nm := k]> m) i c = in_table m i c.
Proof. intros Hn. unfold in_table. apply bool_decide_ext. by rewrite lookup_insert_ne. Qed.

Lemma turn_pool p p' i : loops_ p = loops_ p' -> base_loop_ p = base_loop_ p' -> turn p i = turn p' i.
Proof. unfold turn. by intros -> ->. Qed.

(** The new connection before its first task. *)
Lemma inv_accept p s l pl :
  server_inv p s -> get_loop (thread_pool_ (server s)) = Ok (l, pl) ->
  next_id (server s) < 2 ^ 31 - 1 ->
  let sv := server s in
  let nm := conn_name sv (next_id sv) in
  let i := length (conns s) in
  let c := mkConnection nm l CONNECTING NEW true in
  let s1 := mkSystem (mkServer (name_ sv) (ip_port_ sv) pl (s32 (next_id sv + 1)) (<[nm := i]> (connection_ sv)))
              (conns s ++ [c]) (queue s ++ [(l, Build i)]) in
  server_inv p s1 /\ conns s1 !! i = Some c.
Proof.
  intros Hinv Hget Hnext sv nm i c s1. pose proof (inv_next p s Hinv) as Hid.
  destruct (get_loop_turn _ _ (inv_turn p s Hinv)) as (pl' & Hget' & Hturn & Hloops & Hbase).
  rewrite Hget in Hget'. injection Hget' as -> <-.
  destruct (inv_pool p s Hinv) as [Hpl Hpb].
  assert (Hnew : forall j d, conns s !! j = Some d -> cs_name d <> nm).
  { intros j d Hj Hn. destruct (inv_conn p s Hinv j d Hj) as [Hd _].
    rewrite Hd in Hn. apply conn_name_inj in Hn. unfold sv in Hn. apply lookup_lt_Some in Hj. lia. }
  assert (Hstages : forall j d, conns s !! j = Some d -> in_table (table s1) j d = in_table (table s) j d).
  { intros j d Hj. apply in_table_other. by eapply Hnew. }
  assert (Hold : forall j d, (conns s ++ [c]) !! j = Some d -> conns s !! j = Some d \/ (j = i /\ d = c)).
  { intros j d [Hj|[Hle Hj]]%lookup_app_Some; [by left|right].
    apply list_lookup_singleton_Some in Hj as [Hj <-]. split; [unfold i; lia|done]. }
  assert (Hbs : base s1 = base s) by done.
  split; [|by apply list_lookup_middle]. split.
  - rewrite Hbs. cbn [queue s1 conns]. rewrite awaited_snoc. simpl.
    rewrite (awaited_same (table s) (table s1)); [by rewrite (inv_queue p s Hinv)|].
    intros j d Hj. simpl. unfold waiting. by rewrite (Hstages j d).
  - intros j d [Hj|[-> ->]]%Hold.
    + destruct (inv_conn p s Hinv j d Hj) as (Hn & Hl & Hst). split; [done|]. split; [done|].
      unfold stage_ok in *. by rewrite (Hstages j d).
    + split; [cbn; unfold nm, conn_name, sv; by rewrite Hid|]. split; [cbn; by apply turn_pool|].
      split; [done|]. unfold in_table. apply bool_decide_eq_true. apply lookup_insert_eq.
  - cbn. intros nm' j [[<- <-]|[Hne Hj]]%lookup_insert_Some.
    + exists c. split; [by apply list_lookup_middle|done].
    + destruct (inv_table p s Hinv nm' j Hj) as (d & Hd & <-). exists d. split; [|done].
      rewrite lookup_app_l; [done|by eapply lookup_lt_Some].
  - cbn [next_id server conns s1]. unfold sv. rewrite s32_small by lia. rewrite length_app. simpl. lia.
  - cbn. rewrite length_app. simpl. by rewrite Nat.add_1_r.
  - cbn. unfold base. cbn. by rewrite Hloops, Hbase.
Qed.

(** *** The operations *)

Lemma build_ok c :
  cs_status c = CONNECTING -> cs_channel c = NEW -> build c = Ok (with_state CONNECTED ADD false c).
Proof. intros Hs Hc. unfold build, enable_reading_. by rewrite Hs, Hc. Qed.

Lemma close_ok c :
  cs_status c = CONNECTED \/ cs_status c = DISCONNECTING -> cs_channel c = ADD ->
  close c = Ok (with_state DISCONNECTED DEL true c).
Proof. intros Hs Hc. unfold close, disable_all_. rewrite Hc. by destruct Hs as [->| ->]. Qed.

Lemma leave_ok c :
  cs_status c = DISCONNECTED -> cs_channel c = DEL -> cs_none c = true ->
  leave c = Ok (with_state DISCONNECTED NEW true c).
Proof.
  intros Hs Hc Hn. unfold leave, remove_. rewrite bool_decide_false by congruence.
  rewrite bind_ok, Hn, Hc, Hs. done.
Qed.

Lemma on_conn_ok i f s c c' :
  conns s !! i = Some c -> f c = Ok c' -> on_conn i f s = Ok (set_conns (<[i := c']> (conns s)) s).
Proof. intros Hi Hf. unfold on_conn. rewrite Hi. cbn [of_option]. by rewrite bind_ok, Hf. Qed.

Lemma set_same s : set_table (table s) s = s.
Proof. by destruct s as [[] ? ?]. Qed.

Lemma set_queue_same s : set_queue (queue s) s = s.
Proof. by destruct s. Qed.

Lemma in_table_state m i st t n c : in_table m i (with_state st t n c) = in_table m i c.
Proof. done. Qed.

Lemma in_table_deleted m i c : in_table (delete (cs_name c) m) i c = false.
Proof. unfold in_table. apply bool_decide_eq_false. by rewrite lookup_delete_eq. Qed.

(** [inv_change] where the table stays. *)
Lemma inv_advance p s i c c' q :
  server_inv p s -> conns s !! i = Some c -> cs_name c' = cs_name c -> cs_loop c' = cs_loop c ->
  stage_ok (table s) i c' ->
  (forall rest, queue s ≡ₚ waiting (table s) (base s) i c ++ rest ->
     q ≡ₚ waiting (table s) (base s) i c' ++ rest) ->
  server_inv p (set_queue q (set_conns (<[i := c']> (conns s)) s)).
Proof.
  intros Hinv Hi Hn Hl Hst Hq. rewrite <-(set_same s) at 2.
  apply (inv_change p s i c c' (table s) q); auto.
Qed.

(** The server's loop erases a closed connection; [q] is the queue without the
    task. *)
Lemma remove_ok p s i c q :
  server_inv p s -> conns s !! i = Some c -> cs_status c = DISCONNECTED -> cs_channel c = DEL ->
  cs_none c = true -> in_table (table s) i c = true -> queue s ≡ₚ (base s, Remove i) :: q ->
  exists s', remove_connection_in_loop i (set_queue q s) = Ok s' /\ server_inv p s' /\
    length (conns s') = length (conns s).
Proof.
  intros Hinv Hi Hs Hc Hn Ht Hq. unfold remove_connection_in_loop. cbn [conns set_queue]. rewrite Hi.
  cbn [of_option]. rewrite bind_ok. unfold strike. change (connection_ (server (set_queue q s))) with (table s).
  pose proof Ht as Hin. unfold in_table in Hin. rewrite bool_decide_eq_true in Hin.
  rewrite bool_decide_true by (by rewrite Hin). cbn [assert_]. rewrite !bind_ok.
  assert (Hw : waiting (table s) (base s) i c = [(base s, Remove i)]).
  { unfold waiting. by rewrite Hs, Hc, Ht. }
  set (m := delete (cs_name c) (table s)).
  assert (Hrest : forall rest, queue s ≡ₚ waiting (table s) (base s) i c ++ rest -> q ≡ₚ rest).
  { intros rest Hr. rewrite Hw, Hq in Hr. by apply Permutation_cons_inv in Hr. }
  unfold run_in. destruct (_ =? _)%nat.
  - rewrite (on_conn_ok i leave _ c (with_state DISCONNECTED NEW true c)); [|done|by apply leave_ok].
    eexists. split; [done|]. split; [|simpl; by rewrite length_insert].
    apply (inv_change p s i c (with_state DISCONNECTED NEW true c) m q); auto.
    right. split; [done|]. rewrite in_table_state. apply in_table_deleted.
  - eexists. split; [done|]. split; [|done].
    assert (Hsame : <[i := c]> (conns s) = conns s) by (by apply list_insert_id).
    pose proof (inv_change p s i c c m (q ++ [(cs_loop c, Destroy i)]) Hinv Hi eq_refl eq_refl) as Hch.
    rewrite Hsame in Hch. apply Hch; [by right|unfold stage_ok; rewrite Hs; by left|].
    intros rest Hr. unfold waiting. rewrite Hs, Hc. cbn [bool_decide]. rewrite bool_decide_true by done.
    unfold m. rewrite in_table_deleted, (Hrest rest Hr). solve_Permutation.
Qed.

Lemma stage_inv p s i c : server_inv p s -> conns s !! i = Some c -> stage_ok (table s) i c.
Proof. intros Hinv Hi. by apply (inv_conn p s Hinv i c Hi). Qed.

Lemma run_task_ok p s l t q :
  server_inv p s -> queue s ≡ₚ (l, t) :: q ->
  exists s', run_task t (set_queue q s) = Ok s' /\ server_inv p s' /\ length (conns s') = length (conns s).
Proof.
  intros Hinv Hq. assert (Hin : (l, t) ∈ awaited (table s) (base s) 0 (conns s)).
  { rewrite <-(inv_queue p s Hinv), Hq. by left. }
  destruct (awaited_elem _ _ _ _ 0 Hin) as (i & c & Hi & Hw). simpl in Hw.
  pose proof (stage_inv p s i c Hinv Hi) as Hst. unfold stage_ok in Hst. pose proof Hw as Hw'. unfold waiting in Hw'.
  destruct (cs_status c) eqn:Hs; [case_bool_decide as Hc; [destruct (in_table (table s) i c) eqn:Ht|]| | |].
  - apply list_elem_of_singleton in Hw' as [= -> ->]. destruct Hst as [[_ Hn]|[_ ?]]; [|done].
    by apply (remove_ok p s i c q).
  - apply list_elem_of_singleton in Hw' as [= -> ->]. cbn [run_task].
    assert (Hn : cs_none c = true) by (destruct Hst as [[_ Hn]|[? _]]; [done|congruence]).
    rewrite (on_conn_ok i leave _ c (with_state DISCONNECTED NEW true c)); [|done|by apply leave_ok].
    eexists. split; [done|]. split; [|simpl; by rewrite length_insert].
    apply (inv_advance p s i c (with_state DISCONNECTED NEW true c) q Hinv Hi eq_refl eq_refl); [by right|].
    intros rest Hr. unfold waiting in Hr. rewrite Hs, Hc, Ht, Hq in Hr. by apply Permutation_cons_inv in Hr.
  - by apply elem_of_nil in Hw'.
  - apply list_elem_of_singleton in Hw' as [= -> ->]. destruct Hst as [Hc Ht]. cbn [run_task].
    rewrite (on_conn_ok i build _ c (with_state CONNECTED ADD false c)); [|done|by apply build_ok].
    eexists. split; [done|]. split; [|simpl; by rewrite length_insert].
    apply (inv_advance p s i c (with_state CONNECTED ADD false c) q Hinv Hi eq_refl eq_refl); [by split|].
    intros rest Hr. unfold waiting in Hr. rewrite Hs, Hq in Hr. by apply Permutation_cons_inv in Hr.
  - by apply elem_of_nil in Hw'.
  - by apply elem_of_nil in Hw'.
Qed.

Lemma watched_up p s i :
  server_inv p s -> watched_conn i s = true ->
  exists c, conns s !! i = Some c /\ (cs_status c = CONNECTED \/ cs_status c = DISCONNECTING) /\
    cs_channel c = ADD /\ in_table (table s) i c = true /\ waiting (table s) (base s) i c = [].
Proof.
  intros Hinv Hw. unfold watched_conn in Hw. destruct (conns s !! i) as [c|] eqn:Hi; [|done].
  apply bool_decide_eq_true in Hw. exists c. split; [done|].
  pose proof (stage_inv p s i c Hinv Hi) as Hst. unfold stage_ok, waiting in *.
  destruct (cs_status c); destruct Hst as [[? ?]|[? ?]] || destruct Hst as [? ?];
    try congruence; split_and!; auto.
Qed.

Lemma hangup_ok p s i :
  server_inv p s -> watched_conn i s = true ->
  exists s', hangup i s = Ok s' /\ server_inv p s' /\ length (conns s') = length (conns s).
Proof.
  intros Hinv Hw. destruct (watched_up p s i Hinv Hw) as (c & Hi & Hup & Hc & Ht & Hwait).
  set (c' := with_state DISCONNECTED DEL true c). set (s1 := set_conns (<[i := c']> (conns s)) s).
  assert (Hi1 : conns s1 !! i = Some c') by (by apply list_lookup_insert_eq; eapply lookup_lt_Some).
  assert (Hinv1 : server_inv p (set_queue (queue s ++ [(base s, Remove i)]) s1)).
  { apply (inv_advance p s i c c' _ Hinv Hi eq_refl eq_refl); [by left|].
    intros rest Hr. unfold waiting at 1. cbn [cs_status cs_channel c' with_state].
    rewrite bool_decide_true by done. unfold c'. rewrite in_table_state, Ht, Hr, Hwait. solve_Permutation. }
  unfold hangup. rewrite Hi. cbn [of_option]. rewrite bind_ok.
  rewrite (on_conn_ok i close s c c') by (done || by apply close_ok). rewrite bind_ok.
  fold s1. unfold remove_connection, run_in. change (base s1) with (base s). destruct (_ =? _)%nat.
  - destruct (remove_ok p _ i c' (queue s) Hinv1 Hi1) as (s' & Hr & Hinv' & Hlen); try done.
    { change (queue (set_queue (queue s ++ [(base s, Remove i)]) s1)) with (queue s ++ [(base s, Remove i)]).
      change (base (set_queue _ _)) with (base s). solve_Permutation. }
    exists s'. split; [exact Hr|]. split; [done|]. rewrite Hlen. simpl. by rewrite length_insert.
  - eexists. split; [done|]. split; [exact Hinv1|]. simpl. by rewrite length_insert.
Qed.

Lemma shutdown_ok p s i :
  server_inv p s -> watched_conn i s = true ->
  exists s', on_conn i shutdown_ s = Ok s' /\ server_inv p s' /\ length (conns s') = length (conns s).
Proof.
  intros Hinv Hw. destruct (watched_up p s i Hinv Hw) as (c & Hi & Hup & Hc & Ht & Hwait).
  unfold on_conn. rewrite Hi. cbn [of_option]. rewrite bind_ok. unfold shutdown_. rewrite bind_ok.
  eexists. split; [done|]. split; [|simpl; by rewrite length_insert].
  rewrite <-(set_queue_same (set_conns _ s)).
  apply (inv_advance p s i c _ _ Hinv Hi); [by case_bool_decide..| |].
  - unfold stage_ok. case_bool_decide; cbn; [by split|]. by destruct Hup as [->| ->].
  - intros rest Hr. rewrite Hwait in Hr. change (queue (set_conns _ s)) with (queue s). rewrite Hr.
    unfold waiting. case_bool_decide; cbn; [done|]. by destruct Hup as [->| ->].
Qed.

Lemma accept_ok p s :
  server_inv p s -> Z.of_nat (length (conns s)) < 2 ^ 31 - 2 ->
  exists s', new_connection s = Ok s' /\ server_inv p s' /\ length (conns s') = S (length (conns s)).
Proof.
  intros Hinv Hroom. destruct (get_loop_turn _ _ (inv_turn p s Hinv)) as (pl & Hget & _).
  assert (Hnext : next_id (server s) < 2 ^ 31 - 1) by (rewrite (inv_next p s Hinv); lia).
  destruct (inv_accept p s _ pl Hinv Hget Hnext) as [Hinv1 Hi1]. cbv zeta in Hinv1, Hi1.
  set (s1 := mkSystem _ (conns s ++ _) _) in Hinv1, Hi1. set (l := turn _ _) in *.
  set (c := mkConnection _ l _ _ _) in *.
  unfold new_connection, enrol. rewrite Hget, !bind_ok. cbv zeta beta iota. fold l. fold c. unfold run_in.
  assert (Hlen : length (conns s1) = S (length (conns s))) by (simpl; rewrite length_app; simpl; lia).
  destruct (_ =? _)%nat.
  - destruct (run_task_ok p s1 l (Build (length (conns s))) (queue s) Hinv1) as (s' & Hr & Hinv' & Hl').
    { simpl. solve_Permutation. }
    exists s'. split; [exact Hr|]. split; [done|]. by rewrite Hl'.
  - exists s1. done.
Qed.

Definition accepts (op : server_op) : nat := match op with Accept => 1 | _ => 0 end.
Definition accepted (ops : list server_op) : nat := sum_list_with accepts ops.

Lemma server_step_ok p s op :
  server_inv p s -> Z.of_nat (length (conns s) + accepts op) <= 2 ^ 31 - 2 ->
  exists s', server_step op s = Ok s' /\ server_inv p s' /\
    length (conns s') = (length (conns s) + accepts op)%nat.
Proof.
  intros Hinv Hroom. destruct op as [|i|i|l]; cbn [server_step accepts] in *; rewrite ?Nat.add_0_r.
  - rewrite Nat.add_1_r. apply accept_ok; [done|lia].
  - destruct (watched_conn i s) eqn:Hw; [by apply hangup_ok|by exists s].
  - destruct (watched_conn i s) eqn:Hw; [by apply shutdown_ok|by exists s].
  - destruct (take_first l (queue s)) as [[t q]|] eqn:Ht; [|by exists s].
    apply (run_task_ok p s l t q Hinv). by apply take_first_perm.
Qed.

Lemma server_run_ok p ops : forall s,
  server_inv p s -> Z.of_nat (length (conns s) + accepted ops) <= 2 ^ 31 - 2 ->
  exists s', server_run ops s = Ok s' /\ server_inv p s' /\
    length (conns s') = (length (conns s) + accepted ops)%nat.
Proof.
  induction ops as [|op ops IH]; intros s Hinv Hroom; cbn [server_run].
  - exists s. split; [done|]. split; [done|]. unfold accepted. simpl. lia.
  - change (accepted (op :: ops)) with (accepts op + accepted ops)%nat in *.
    destruct (server_step_ok p s op Hinv) as (s1 & -> & Hinv1 & Hl1); [lia|]. rewrite bind_ok.
    destruct (IH s1 Hinv1) as (s' & Hr & Hinv' & Hl'); [lia|]. exists s'. split; [done|].
    split; [done|]. lia.
Qed.

(** *** The theorems *)

Lemma start_turn fresh n b :
  exists p, start fresh (set_thread_num n (new_pool b)) =
      Ok (if (n =? 0)%nat then [b] else fresh <$> seq 0 n, p) /\
    at_turn 0 p /\ loops_ p = fresh <$> seq 0 n /\ base_loop_ p = b.
Proof. eexists. split; [done|]. split; [|done]. split; [done|]. intros _. simpl. by rewrite Nat.Div0.mod_0_l. Qed.

(** The loops are given out in turn: of a started pool of [n] threads, call [i]
    gives loop [i] modulo [n]; without threads every call gives the base loop. *)
Theorem round_robin (fresh : nat -> nat) (n b k : nat) (told : list nat) (p : EventLoopThreadPool) :
  start fresh (set_thread_num n (new_pool b)) = Ok (told, p) ->
  exists p', get_loops k p =
    Ok ((fun i => if (n =? 0)%nat then b else fresh (i mod n)%nat) <$> seq 0 k, p').
Proof.
  destruct (start_turn fresh n b) as (p0 & -> & Hturn & Hl & Hb). intros [= _ <-].
  assert (Hgen : forall k i p, at_turn i p -> exists p', get_loops k p = Ok (turn p <$> seq i k, p')).
  { clear. induction k as [|k IH]; intros i p Ht; cbn [get_loops]; [by eexists|].
    destruct (get_loop_turn i p Ht) as (p1 & -> & Ht1 & Hl1 & Hb1). rewrite bind_ok.
    destruct (IH (S i) p1 Ht1) as (p2 & ->). rewrite bind_ok. eexists. cbn. do 3 f_equal.
    apply list_fmap_ext. intros _ x _. by apply turn_pool. }
  destruct (Hgen k 0%nat p0 Hturn) as (p' & ->). exists p'. do 2 f_equal.
  apply list_fmap_ext. intros _ i _. unfold turn. rewrite Hl, Hb.
  destruct n as [|n]; [done|]. cbn [Nat.eqb]. destruct (fresh <$> seq 0 (S n)) eqn:Hs; [by destruct n|].
  rewrite <-Hs, length_fmap, length_seq, list_lookup_fmap, lookup_seq_lt; [done|].
  apply Nat.mod_upper_bound. lia.
Qed.

(** C12: Whatever the order of accepted connections, closed connections and queued
    work: no assertion fails, in particular the one that a closed connection
    was in the table; connection [i] lives in loop [i] modulo the number of
    loops and has a name of its own; while it is not closed the table has it;
    and once nothing is queued, every closed connection has left the table and
    its channel has left the poller. *)
Theorem server_never_asserts (nm ip : bytes) (fresh : nat -> nat) (n b : nat) (told : list nat)
    (p : EventLoopThreadPool) (ops : list server_op) :
  start fresh (set_thread_num n (new_pool b)) = Ok (told, p) ->
  Z.of_nat (accepted ops) <= 2 ^ 31 - 2 ->
  exists s, server_run ops (new_server nm ip p) = Ok s /\ length (conns s) = accepted ops /\
    forall i c, conns s !! i = Some c ->
      cs_loop c = (if (n =? 0)%nat then b else fresh (i mod n)%nat) /\
      (forall j d, conns s !! j = Some d -> cs_name c = cs_name d -> i = j) /\
      (cs_status c <> DISCONNECTED -> table s !! cs_name c = Some i) /\
      (queue s = [] -> cs_status c = DISCONNECTED -> table s !! cs_name c = None /\ cs_channel c = NEW).
Proof.
  destruct (start_turn fresh n b) as (p0 & -> & Hturn & Hl & Hb). intros [= _ <-] Hroom.
  destruct (server_run_ok p0 ops (new_server nm ip p0)) as (s & Hr & Hinv & Hlen); [by apply server_inv_new|done|].
  exists s. split; [done|]. split; [done|]. intros i c Hi.
  destruct (inv_conn p0 s Hinv i c Hi) as (Hn & Hloop & Hst). split; [|split; [|split]].
  - rewrite Hloop. unfold turn. rewrite Hl, Hb. destruct n as [|n]; [done|]. cbn [Nat.eqb].
    destruct (fresh <$> seq 0 (S n)) eqn:Hs; [by destruct n|].
    rewrite <-Hs, length_fmap, length_seq, list_lookup_fmap, lookup_seq_lt; [done|].
    apply Nat.mod_upper_bound. lia.
  - intros j d Hj Hnames. by eapply inv_distinct.
  - intros Hup. unfold stage_ok in Hst. destruct (cs_status c); [done|..];
      destruct Hst as [_ Ht]; by apply bool_decide_eq_true in Ht.
  - intros Hq Hdown. destruct (awaited_insert (table s) (base s) (conns s) i c 0 Hi) as (rest & Hperm & _).
    rewrite <-(inv_queue p0 s Hinv), Hq in Hperm. apply Permutation_nil_l in Hperm.
    symmetry in Hperm. apply app_nil in Hperm as [Hw _]. simpl in Hw. unfold waiting in Hw. unfold stage_ok in Hst.
    rewrite Hdown in Hw, Hst. destruct Hst as [[Hc _]|[Hc Ht]].
    + rewrite bool_decide_true in Hw by done. by destruct (in_table _ _ _).
    + split; [|done]. destruct (table s !! cs_name c) as [j|] eqn:Hj; [exfalso|done].
      destruct (inv_table p0 s Hinv _ _ Hj) as (d & Hd & Hnd).
      assert (i = j) as -> by (eapply inv_distinct; eauto).
      apply bool_decide_eq_false in Ht. congruence.
Qed.

(** *** Witnesses *)

Definition demo_fresh (i : nat) : nat := S i.

(** Two threads; two connections come, the first is closed by its peer. *)
Definition demo_server_ops : list server_op :=
  [Accept; Accept; RunQueued 1; Hangup 0; RunQueued 0; RunQueued 2; RunQueued 1].

Definition demo_pool : EventLoopThreadPool := mkLoops 2 true 0 0 [1; 2]%nat.

Theorem round_robin_witness :
  exists p', get_loops 5 demo_pool = Ok ([1; 2; 1; 2; 1]%nat, p').
Proof. exact (round_robin demo_fresh 2 0 5 [1; 2]%nat demo_pool eq_refl). Defined.

Theorem server_never_asserts_witness :
  exists s, server_run demo_server_ops (new_server (lit "srv") (lit "0.0.0.0:80") demo_pool) = Ok s /\
    length (conns s) = 2%nat /\
    forall i c, conns s !! i = Some c ->
      cs_loop c = demo_fresh (i mod 2) /\
      (cs_status c <> DISCONNECTED -> table s !! cs_name c = Some i).
Proof.
  destruct (server_never_asserts (lit "srv") (lit "0.0.0.0:80") demo_fresh 2 0 [1; 2]%nat demo_pool
              demo_server_ops eq_refl) as (s & Hr & Hl & Hall); [vm_compute; discriminate|].
  exists s. split; [exact Hr|]. split; [exact Hl|]. intros i c Hi.
  destruct (Hall i c Hi) as (H1 & _ & H2 & _). split; [exact H1|exact H2].
Defined.

Theorem lifecycle_refines_witness :
  view [] 0 <$> build_connect demo_start = build (view [] 0 demo_start).
Proof.
  refine (proj1 (lifecycle_refines [] 0 demo_start (new_channel 5) _)).
  split; [exact demo_start_mirrors|]. split; [reflexivity|]. intros _. reflexivity.
Defined.
