(* ===== verification/Table.v ===== *)
(** * Table: the server's table and the loop's connections (src/server/tcpserver.cc)

    The table of TcpServer is a ledger of the server's loop: a connection is
    entered under its name before it is built, and struck out before it is
    torn down, when [erase] must find exactly one row.  Here the table is
    shown to keep up with whatever the service does: each client that has not
    been removed has its row, under its own name, and there is no other row. *)

From stdpp Require Import base list numbers strings gmap.
From Stdlib Require Import ZArith Lia.
From S2P Require Import Prelude Buffer Channel TcpConnection TcpServer HttpResponse HttpContext HttpServer Reactor Service Refinement Iteration.

Local Open Scope Z_scope.
Local Open Scope result_scope.

(** ** State and operations *)

(** The server's part, and [name_] of each connection object. *)
Record directory : Type := mkDirectory {
  dir_server : TcpServer;
  dir_names : gmap nat bytes
}.

(** [new_connection] and [remove_connection_in_loop], up to the loop's own part.
    A pool with threads would give the connection to another loop, whose events
    are not this one's. *)
#[export] Instance server_ledger : Ledger directory := fun e d =>
  match e with
  | Accept i _ =>
      '(l, nm, sv) ← enrol i (dir_server d);
      guard_ OutOfRange (bool_decide (l = base_loop_ (thread_pool_ sv))) ≫= fun _ =>
      Ok (mkDirectory sv (<[i := nm]> (dir_names d)))
  | Remove i =>
      nm ← of_option NullDeref (dir_names d !! i);
      sv ← strike nm (dir_server d);
      Ok (mkDirectory sv (dir_names d))
  | Release i => Ok (mkDirectory (dir_server d) (delete i (dir_names d)))
  | _ => Ok d
  end.

(** ** The table is in step *)

(** The clients there are, and whether they have been removed. *)
Definition leaving (g : guest) : bool := match g with Removed => true | _ => false end.
Definition roster {B} (a : service B) : gmap nat bool := leaving <$> clients a.

(** The table lists the clients of [r] that are not leaving; [last] is the
    number the connection after the last one would get, with [k] to come. *)
Record in_step (last : Z) (k : nat) (r : gmap nat bool) (d : directory) : Prop := {
  is_pool : started_ (thread_pool_ (dir_server d)) = true /\ loops_ (thread_pool_ (dir_server d)) = [];
  is_next : 1 <= next_id (dir_server d) /\ next_id (dir_server d) + Z.of_nat k = last /\ last < 2 ^ 31;
  is_named i : is_Some (dir_names d !! i) <-> is_Some (r !! i);
  is_made i nm : dir_names d !! i = Some nm ->
    exists id, nm = conn_name (dir_server d) id /\ 1 <= id < next_id (dir_server d);
  is_own i j nm : dir_names d !! i = Some nm -> dir_names d !! j = Some nm -> i = j;
  is_listed nm i : connection_ (dir_server d) !! nm = Some i <-> dir_names d !! i = Some nm /\ r !! i = Some false
}.

(** A new name is nobody's. *)
Lemma name_new last k r d i nm :
  in_step last k r d -> dir_names d !! i = Some nm -> nm <> conn_name (dir_server d) (next_id (dir_server d)).
Proof.
  intros Hs Hi ->. destruct (is_made _ _ _ _ Hs i _ Hi) as (id & Hid & Hlt). apply conn_name_inj in Hid. lia.
Qed.

Lemma in_step_accept last k r d i fd :
  in_step last (S k) r d -> r !! i = None ->
  exists d1, enter (Accept i fd) d = Ok d1 /\ in_step last k (<[i := false]> r) d1.
Proof.
  intros Hs Hi. pose proof Hs as [[Hst Hl] (Hpos & Hnext & Hlast) Hnamed Hmade Hown Hlisted].
  unfold enter, server_ledger, enrol, get_loop. rewrite Hst, Hl. cbn [assert_]. rewrite !bind_ok. cbv zeta beta iota.
  cbn [thread_pool_]. rewrite bool_decide_true by done. unfold guard_. rewrite bind_ok.
  set (sv := dir_server d) in *. set (nm := conn_name sv (next_id sv)).
  assert (Hnone : dir_names d !! i = None).
  { apply eq_None_not_Some. intros Hd%Hnamed. rewrite Hi in Hd. by destruct Hd. }
  assert (Hfresh : connection_ sv !! nm = None).
  { apply eq_None_not_Some. intros [j Hj]. apply Hlisted in Hj as [Hj _]. by eapply name_new in Hj. }
  eexists. split; [reflexivity|].
  split; cbn [dir_server dir_names thread_pool_ next_id connection_ started_ loops_]; [done| | | | |].
  - rewrite s32_small by lia. lia.
  - intros j. destruct (decide (j = i)) as [->|Hne]; [rewrite !lookup_insert_eq; by split; eexists|].
    by rewrite !lookup_insert_ne by done.
  - rewrite s32_small by lia. intros j nm' [[<- <-]|[_ Hj]]%lookup_insert_Some; [exists (next_id sv); split; [done|lia]|].
    destruct (Hmade j nm' Hj) as (id & -> & ?). exists id. split; [done|lia].
  - intros j j' nm' [[<- <-]|[Hne Hj]]%lookup_insert_Some [[<- Heq]|[Hne' Hj']]%lookup_insert_Some; [done|..].
    + by eapply name_new in Hj'.
    + subst nm'. by eapply name_new in Hj.
    + by eapply Hown.
  - intros nm' j. destruct (decide (nm' = nm)) as [->|Hne].
    + rewrite lookup_insert_eq. split; [intros [= <-]; by rewrite !lookup_insert_eq|].
      intros [[[<- _]|[_ Hj]]%lookup_insert_Some _]; [done|]. by eapply name_new in Hj.
    + rewrite lookup_insert_ne by done. rewrite Hlisted. destruct (decide (j = i)) as [->|Hji].
      * rewrite !lookup_insert_eq. split; [intros [Hj _]; congruence|]. by intros [[= ->] _].
      * by rewrite !lookup_insert_ne by done.
Qed.

Lemma in_step_remove last k r d i :
  in_step last k r d -> r !! i = Some false ->
  exists d1, enter (Remove i) d = Ok d1 /\ in_step last k (<[i := true]> r) d1.
Proof.
  intros [Hpool Hnext Hnamed Hmade Hown Hlisted] Hi.
  destruct (proj2 (Hnamed i) (mk_is_Some _ _ Hi)) as [nm Hnm].
  assert (Hrow : connection_ (dir_server d) !! nm = Some i) by by apply Hlisted.
  unfold enter, server_ledger, strike. rewrite Hnm. cbn [of_option]. rewrite bind_ok, bool_decide_true by by rewrite Hrow.
  cbn [assert_]. rewrite !bind_ok. eexists. split; [reflexivity|].
  split; cbn [dir_server dir_names thread_pool_ next_id connection_]; [done|done| |exact Hmade|done|].
  - intros j. rewrite Hnamed. destruct (decide (j = i)) as [->|]; [rewrite lookup_insert_eq, Hi; by split; eexists|].
    by rewrite lookup_insert_ne.
  - intros nm' j. rewrite lookup_delete_Some, Hlisted. destruct (decide (j = i)) as [->|Hne].
    + rewrite lookup_insert_eq. split; [|by intros [_ ?]]. intros (Hne & Hj & _). congruence.
    + rewrite lookup_insert_ne by done. split; [by intros (_ & ?)|]. intros [Hj Hr]. split; [|done].
      intros <-. apply Hne. by apply (Hown j i nm).
Qed.

Lemma in_step_release last k r d i :
  in_step last k r d -> r !! i = Some true ->
  exists d1, enter (Release i) d = Ok d1 /\ in_step last k (delete i r) d1.
Proof.
  intros [Hpool Hnext Hnamed Hmade Hown Hlisted] Hi. eexists. split; [reflexivity|].
  split; cbn [dir_server dir_names]; [done|done|..].
  - intros j. destruct (decide (j = i)) as [->|]; [rewrite !lookup_delete_eq|by rewrite !lookup_delete_ne].
    split; intros [? [=]].
  - intros j nm [_ Hj]%lookup_delete_Some. exact (Hmade _ _ Hj).
  - intros j j' nm [_ Hj]%lookup_delete_Some [_ Hj']%lookup_delete_Some. by eapply Hown.
  - intros nm j. rewrite Hlisted, !lookup_delete_Some. split; [|naive_solver]. intros [Hj Hr].
    assert (i <> j) by (intros <-; congruence). done.
Qed.

(** *** The service's steps *)

Lemma roster_set {B} i g (a : service B) : roster (set_client i g a) = <[i := leaving g]> (roster a).
Proof. unfold roster. cbn [clients set_client]. apply fmap_insert. Qed.

Lemma roster_lookup {B} i (a : service B) g : clients a !! i = Some g -> roster a !! i = Some (leaving g).
Proof. unfold roster. rewrite lookup_fmap. by intros ->. Qed.

(** A client that stays, in whatever state. *)
Lemma roster_stays {B} i g g' (a : service B) : clients a !! i = Some g -> leaving g' = leaving g -> roster (set_client i g' a) = roster a.
Proof. intros Hg Hl. rewrite roster_set. apply insert_id. by rewrite (roster_lookup i a g), Hl. Qed.

Lemma roster_turn {B} (a : service B) : roster (mkService (accounts a) (turn <$> clients a)) = roster a.
Proof.
  unfold roster. cbn [clients]. rewrite <-map_fmap_compose. apply map_fmap_ext. intros i g _. unfold compose, turn.
  destruct g as [held k| | |]; try done. by destruct (k <=? 1)%nat.
Qed.

Lemma open_stays g : is_open g -> leaving g = false.
Proof. by destruct g. Qed.

(** The table's promise to the loop. *)
#[export] Program Instance server_ledger_ok (B : Type) `{!Books B} {FS : FileSystem} (srcDir : bytes) (last : Z) : LedgerOk B srcDir directory := {
  agrees := fun k a d => in_step last k (roster a) d
}.
Next Obligation.
  intros B ? FS srcDir last k a a1 e x d Hserve Hs.
  assert (Hsame : comes e = 0%nat -> enter e d = Ok d -> roster a1 = roster a ->
    exists d1, enter e d = Ok d1 /\ in_step last k (roster a1) d1).
  { intros He Henter Hr. rewrite He in Hs. exists d. by rewrite Hr. }
  destruct Hserve as [i fd Hi|i data sent held n x held' b out Hi _ _ _|i data sent _ _|i g sent Hi Ho|i g Hi Ho|i Hi|i Hi| |i er sent _|i w _|i _];
    try (by apply Hsame).
  - rewrite roster_set. apply in_step_accept; [exact Hs|]. unfold roster. by rewrite lookup_fmap, Hi.
  - apply Hsame; [done..|]. by apply (roster_stays i (Live held n)).
  - apply Hsame; [done..|]. apply (roster_stays i g); [done|]. by rewrite (open_stays g Ho).
  - apply Hsame; [done..|]. apply (roster_stays i g); [done|]. by rewrite (open_stays g Ho).
  - rewrite roster_set. apply in_step_remove; [exact Hs|]. by apply (roster_lookup i a Gone).
  - unfold roster. cbn [clients]. rewrite fmap_delete. apply in_step_release; [exact Hs|]. by apply (roster_lookup i a Removed).
  - apply Hsame; [done..|]. apply roster_turn.
Qed.
Next Obligation. intros B ? FS srcDir last k a e f d Hb _. exists d. by destruct Hb. Qed.

(** A server that has just been started. *)
Lemma in_step_start k name ip pl :
  started_ pl = true -> loops_ pl = [] -> Z.of_nat k < 2 ^ 31 - 1 ->
  in_step (1 + Z.of_nat k) k ∅ (mkDirectory (server (new_server name ip pl)) ∅).
Proof.
  intros Hst Hl Hk. split; cbn [dir_server dir_names new_server server thread_pool_ next_id connection_]; [done|lia|..].
  - intros i. by rewrite !lookup_empty.
  - intros i nm. by rewrite lookup_empty.
  - intros i j nm. by rewrite lookup_empty.
  - intros nm i. rewrite !lookup_empty. split; [done|by intros []].
Qed.
