(* ===== verification/ServerDown.v ===== *)
(** * ServerDown: the end of a server (src/server/tcpserver.cc, tcpconnection.cc, entry.h)

    The destructor of the server takes every connection out of its table and
    has it torn down in its own loop; the connection's object goes with the
    last pointer to it, and asserts then that it was closed. *)

From stdpp Require Import base list numbers gmap strings.
From Stdlib Require Import ZArith Lia.
From S2P Require Import Prelude Channel TcpConnection TcpServer.

Local Open Scope Z_scope.
Local Open Scope result_scope.

(** ** Pointers to connections *)

(** The connection a queued task holds. *)
Definition holds (t : task) : nat := match t with Build i | Remove i | Destroy i => i end.

(** Some pointer to connection [i] is left: in the table or in a queued task. *)
Definition referenced (i : nat) (s : system) : bool :=
  bool_decide (Exists (fun x => holds x.2 = i) (queue s)) ||
  match conns s !! i with Some c => in_table (table s) i c | None => false end.

(** [TcpConnection::~TcpConnection]. *)
Definition destroy_connection (c : connection) : result unit :=
  assert_ (bool_decide (cs_status c = DISCONNECTED)).

(** A pointer to connection [i] is gone. *)
Definition release (i : nat) (s : system) : result system :=
  if referenced i s then Ok s
  else c ← of_option NullDeref (conns s !! i); _ ← destroy_connection c; Ok s.

(** ** The destructor *)

(** One turn of its loop: the pointer of the table is reset, the connection is
    torn down at once or queued, and the local pointer goes. *)
Definition destroy_one (i : nat) (s : system) : result system :=
  c ← of_option NullDeref (conns s !! i);
  s1 ← run_in (base s) (cs_loop c) (Destroy i) (on_conn i leave) (set_table (delete (cs_name c) (table s)) s);
  release i s1.

(** [TcpServer::~TcpServer] over the entries of the table, in its order. *)
Fixpoint destroy_server (entries : list nat) (s : system) : result system :=
  match entries with
  | [] => Ok s
  | i :: entries => s1 ← destroy_one i s; destroy_server entries s1
  end.

(** The loops run what was queued for them; a task takes its pointer with it. *)
Fixpoint run_rest (n : nat) (s : system) : result system :=
  match n with
  | O => Ok s
  | S n =>
      match queue s with
      | [] => Ok s
      | (_, t) :: q => s1 ← run_task t (set_queue q s); s2 ← release (holds t) s1; run_rest n s2
      end
  end.

(** [HttpServer]: the buckets of its wheel are destroyed before the server, and
    every entry in them shuts its connection down. *)
Fixpoint drop_entries (live : list nat) (s : system) : result system :=
  match live with
  | [] => Ok s
  | i :: live => s1 ← on_conn i shutdown_ s; drop_entries live s1
  end.

Definition destroy_http_server (live entries : list nat) (s : system) : result system :=
  s1 ← drop_entries live s; destroy_server entries s1.

(** ** Connections that are not closed *)

Definition is_up (c : connection) : bool :=
  match cs_status c with CONNECTED | DISCONNECTING => true | _ => false end.

(** Connection [i] is up, under its own name. *)
Definition up_at (s : system) (i : nat) : Prop :=
  exists c, conns s !! i = Some c /\ is_up c = true.

Lemma leave_up c c' : is_up c = true -> leave c = Ok c' -> is_up c' = true.
Proof.
  unfold leave, is_up. intros Hup. destruct (cs_status c) eqn:Hs; try done.
  - rewrite bool_decide_true by done. unfold disable_all_. destruct (cs_channel c); try done;
      rewrite bind_ok; unfold remove_; cbn [cs_none cs_channel cs_status with_state];
      by destruct (_ && _); intros [= <-].
  - rewrite bool_decide_false by done. rewrite bind_ok. unfold remove_. destruct (_ && _); [|done].
    intros [= <-]. cbn. by rewrite Hs.
Qed.

Lemma leave_fails c f : leave c = Fault f -> f = AssertFailed.
Proof.
  unfold leave, disable_all_, remove_. destruct (bool_decide _); [destruct (cs_channel c)|];
    rewrite ?bind_ok; cbn; try (by intros [= <-]); destruct (_ && _); congruence.
Qed.

Lemma leave_name c c' : leave c = Ok c' -> cs_name c' = cs_name c.
Proof.
  unfold leave, disable_all_, remove_. destruct (bool_decide _); [destruct (cs_channel c)|];
    rewrite ?bind_ok; cbn; try done; try (by intros [= <-]); destruct (_ && _); intros; by simplify_eq.
Qed.

(** Tearing down an open connection that nothing else holds fails, one way or
    the other. *)
Lemma leave_release i s c :
  conns s !! i = Some c -> is_up c = true ->
  Forall (fun x => holds x.2 <> i) (queue s) -> in_table (table s) i c = false ->
  (s1 ← on_conn i leave s; release i s1) = Fault AssertFailed.
Proof.
  intros Hc Hup Hq Ht. unfold on_conn. rewrite Hc. cbn [of_option]. rewrite bind_ok.
  destruct (leave c) as [c'|f] eqn:Hl; [|by rewrite (leave_fails c f Hl)]. rewrite !bind_ok.
  assert (Hi : <[i:=c']> (conns s) !! i = Some c') by (apply list_lookup_insert_eq; by eapply lookup_lt_Some).
  assert (Href : referenced i (set_conns (<[i:=c']> (conns s)) s) = false).
  { unfold referenced. cbn [conns set_conns queue]. rewrite Hi. apply orb_false_iff. split.
    - apply bool_decide_eq_false. by apply Forall_Exists_neg.
    - rewrite <-Ht. unfold in_table. by rewrite (leave_name c c' Hl). }
  unfold release. rewrite Href. cbn [conns set_conns]. rewrite Hi. cbn [of_option]. rewrite bind_ok.
  unfold destroy_connection. rewrite bool_decide_false; [done|]. intros Hd.
  pose proof (leave_up c c' Hup Hl) as Hu. unfold is_up in Hu. by rewrite Hd in Hu.
Qed.

(** Connection [i] is up, has left the table and waits to be torn down. *)
Definition doomed (s : system) (x : nat * task) : Prop :=
  exists c, conns s !! holds x.2 = Some c /\ is_up c = true /\ x.2 = Destroy (holds x.2) /\
    in_table (table s) (holds x.2) c = false.

(** Every connection of the table, [entries], and of the queue is up. *)
Record going_down (entries : list nat) (s : system) : Prop := {
  gd_entries : Forall (fun i => exists c, conns s !! i = Some c /\ is_up c = true) entries;
  gd_queue : Forall (doomed s) (queue s);
  gd_once : NoDup (entries ++ ((fun x => holds x.2) <$> queue s))
}.

Lemma bind_fails {A B} (m : result A) (f : A -> result B) {C} (g : B -> result C) e :
  (a ← m; f a) = Fault e -> (a ← m; b ← f a; g b) = Fault e.
Proof. destruct m as [a|]; cbn; [|by intros [= ->]]. by intros ->. Qed.

Lemma run_rest_fails n s :
  going_down [] s -> queue s <> [] -> run_rest (S n) s = Fault AssertFailed.
Proof.
  intros [_ Hq Hn] Hne. cbn [run_rest]. destruct (queue s) as [|[l t] q]; [done|].
  apply Forall_cons in Hq as [(c & Hc & Hup & Ht & Hin) _]. cbn in Hc, Ht, Hin, Hn.
  apply NoDup_cons in Hn as [Hn _]. rewrite Ht at 1. cbn [run_task].
  apply bind_fails, (leave_release _ (set_queue q s) c Hc Hup); [|done].
  apply Forall_forall. intros x Hx Heq. apply Hn. apply list_elem_of_fmap. by exists x.
Qed.

Lemma destroy_server_fails entries : forall s,
  going_down entries s -> (entries <> [] \/ queue s <> []) ->
  exists n, (s1 ← destroy_server entries s; run_rest (S n) s1) = Fault AssertFailed.
Proof.
  induction entries as [|i entries IH]; intros s Hd Hne; cbn [destroy_server].
  { exists 0%nat. rewrite bind_ok. apply run_rest_fails; [done|]. by destruct Hne. }
  pose proof Hd as [He Hq Hn]. apply Forall_cons in He as [(c & Hc & Hup) He].
  apply NoDup_cons in Hn as [Hi Hn]. apply not_elem_of_app in Hi as [Hie Hiq].
  set (s0 := set_table (delete (cs_name c) (table s)) s).
  assert (Hgone : in_table (table s0) i c = false) by apply in_table_deleted.
  assert (Hothers : Forall (fun x => holds x.2 <> i) (queue s0)).
  { apply Forall_forall. intros x Hx Heq. apply Hiq, list_elem_of_fmap. by exists x. }
  unfold destroy_one at 1. rewrite Hc. cbn [of_option]. rewrite bind_ok. fold s0. unfold run_in.
  destruct (_ =? _)%nat.
  - exists 0%nat. rewrite (leave_release i s0 c Hc Hup Hothers Hgone). done.
  - rewrite bind_ok. unfold release at 1. unfold referenced at 1. cbn [queue set_queue].
    rewrite bool_decide_true by (apply Exists_app; right; by constructor). cbn [orb]. rewrite bind_ok.
    apply IH; [|right; by destruct (queue s0)]. split; cbn [queue set_queue conns]; [done| |].
    + apply Forall_app. split; [|repeat constructor; by exists c].
      eapply Forall_impl; [exact Hq|]. intros [l t] (d & Hd' & Hupd & Ht & Hin). exists d.
      split; [done|]. split; [done|]. split; [done|]. cbn in *. unfold in_table in *.
      rewrite bool_decide_eq_false in Hin |- *. intros Hl. by apply lookup_delete_Some in Hl as [_ ?].
    + rewrite fmap_app. cbn. rewrite app_assoc. apply NoDup_app. split; [done|].
      split; [|apply NoDup_singleton]. intros x Hx ->%list_elem_of_singleton.
      apply elem_of_app in Hx as [?|?]; done.
Qed.

(** ** Reachable servers *)

Lemma values_up s p :
  server_inv p s -> queue s = [] -> forall nm i, table s !! nm = Some i ->
  exists c, conns s !! i = Some c /\ is_up c = true /\ cs_name c = nm.
Proof.
  intros Hinv Hq nm i Hi. destruct (inv_table p s Hinv nm i Hi) as (c & Hc & Hn).
  exists c. split; [done|]. split; [|done]. pose proof (stage_inv p s i c Hinv Hc) as Hst.
  assert (Hw : waiting (table s) (base s) i c = []).
  { destruct (awaited_insert (table s) (base s) (conns s) i c 0 Hc) as (rest & Hr & _).
    rewrite <-(inv_queue p s Hinv), Hq in Hr. apply Permutation_nil_l in Hr. symmetry in Hr.
    by apply app_nil in Hr as [? _]. }
  assert (Hin : in_table (table s) i c = true) by (apply bool_decide_eq_true; by rewrite Hn).
  unfold waiting, stage_ok, is_up in *. rewrite Hin in *.
  destruct (cs_status c); try done. destruct Hst as [[Hd _]|[_ ?]]; [|done].
  by rewrite bool_decide_true in Hw.
Qed.

(** Shutting connections down leaves the invariant, the table and the queue. *)
Lemma drop_entries_inv p live : forall s,
  server_inv p s -> Forall (fun i => (i < length (conns s))%nat) live ->
  exists s', drop_entries live s = Ok s' /\ server_inv p s' /\ table s' = table s /\ queue s' = queue s.
Proof.
  induction live as [|i live IH]; intros s Hinv Hl; cbn [drop_entries]; [by exists s|].
  apply Forall_cons in Hl as [Hi Hl]. destruct (lookup_lt_is_Some_2 _ _ Hi) as [c Hc].
  pose proof (stage_inv p s i c Hinv Hc) as Hst.
  assert (Hone : exists s1, on_conn i shutdown_ s = Ok s1 /\ server_inv p s1 /\
            length (conns s1) = length (conns s) /\ table s1 = table s /\ queue s1 = queue s).
  { destruct (decide (cs_status c = CONNECTED)) as [Hup|Hup].
    - destruct (shutdown_ok p s i Hinv) as (s1 & Hs1 & Hinv1 & Hlen).
      { unfold watched_conn. rewrite Hc. apply bool_decide_eq_true. unfold stage_ok in Hst.
        rewrite Hup in Hst. by destruct Hst. }
      exists s1. split; [done|]. split; [done|]. split; [done|].
      unfold on_conn in Hs1. rewrite Hc in Hs1. cbn in Hs1. by injection Hs1 as <-.
    - rewrite (on_conn_ok i shutdown_ s c c) by (done || by (unfold shutdown_; rewrite bool_decide_false)).
      rewrite list_insert_id by done. exists s. split; [by destruct s|done]. }
  destruct Hone as (s1 & -> & Hinv1 & Hlen & Ht & Hq). rewrite bind_ok.
  destruct (IH s1 Hinv1) as (s' & Hs' & Hinv' & Ht' & Hq').
  { eapply Forall_impl; [exact Hl|]. intros j Hj. by rewrite Hlen. }
  exists s'. split; [done|]. split; [done|]. split; congruence.
Qed.

Lemma entries_once p s entries :
  server_inv p s -> entries ≡ₚ (map_to_list (table s)).*2 -> NoDup entries.
Proof.
  intros Hinv ->. apply NoDup_fmap_2_strong; [|apply NoDup_map_to_list].
  intros [n1 i1] [n2 i2] H1%elem_of_map_to_list H2%elem_of_map_to_list Heq. cbn in Heq. subst i2.
  destruct (inv_table p s Hinv _ _ H1) as (c1 & Hc1 & <-).
  destruct (inv_table p s Hinv _ _ H2) as (c2 & Hc2 & <-). by simplify_eq.
Qed.

Lemma entries_go_down p s entries :
  server_inv p s -> queue s = [] -> entries ≡ₚ (map_to_list (table s)).*2 -> going_down entries s.
Proof.
  intros Hinv Hq He. split.
  - apply Forall_forall. intros i Hi. rewrite He in Hi.
    apply list_elem_of_fmap in Hi as ([nm j] & -> & Hj%elem_of_map_to_list).
    destruct (values_up s p Hinv Hq nm j Hj) as (c & Hc & Hup & _). by exists c.
  - rewrite Hq. constructor.
  - rewrite Hq, app_nil_r. by eapply entries_once.
Qed.

(** ** The theorem *)

(** C32: A server can only be destroyed when all its connections are closed.  When
    nothing is queued any more, the destructor succeeds if the table is empty;
    if a connection is left, then an assertion fails, in whatever order the
    table has its entries, whichever loops they live in and whatever entries
    the wheel of the HTTP server shuts down before: at once if the connection
    lives in the server's loop, otherwise when its loop runs the queued work. *)
Theorem server_destructor (nm ip : bytes) (fresh : nat -> nat) (n b : nat) (told : list nat)
    (p : EventLoopThreadPool) (ops : list server_op) (s : system) (live entries : list nat) :
  start fresh (set_thread_num n (new_pool b)) = Ok (told, p) ->
  Z.of_nat (accepted ops) <= 2 ^ 31 - 2 ->
  server_run ops (new_server nm ip p) = Ok s -> queue s = [] ->
  Forall (fun i => (i < length (conns s))%nat) live -> entries ≡ₚ (map_to_list (table s)).*2 ->
  exists k, match entries with
    | [] => exists s', destroy_http_server live entries s = Ok s'
    | _ :: _ => (s1 ← destroy_http_server live entries s; run_rest k s1) = Fault AssertFailed
    end.
Proof.
  destruct (start_turn fresh n b) as (p0 & -> & Hturn & _). intros [= _ <-] Hroom Hr Hq Hlive He.
  destruct (server_run_ok p0 ops (new_server nm ip p0)) as (s' & Hr' & Hinv & _);
    [by apply server_inv_new|done|].
  rewrite Hr in Hr'. injection Hr' as <-.
  destruct (drop_entries_inv p0 live s Hinv Hlive) as (s1 & Hs1 & Hinv1 & Ht1 & Hq1).
  rewrite <-Ht1 in He. rewrite Hq in Hq1. unfold destroy_http_server. rewrite Hs1, bind_ok.
  pose proof (entries_go_down p0 s1 entries Hinv1 Hq1 He) as Hd. destruct entries as [|i entries].
  - exists 0%nat. by eexists.
  - destruct (destroy_server_fails (i :: entries) s1 Hd) as (k & Hk); [by left|]. by exists (S k).
Qed.

(** ** Witness *)

(** One connection is left of the two of the demo, in a thread's loop. *)
Definition demo_down : system :=
  match server_run demo_server_ops (new_server (lit "srv") (lit "0.0.0.0:80") demo_pool) with
  | Ok s => s
  | Fault _ => new_server [] [] demo_pool
  end.

Theorem server_destructor_witness :
  exists k, (s1 ← destroy_http_server [1%nat] [1%nat] demo_down; run_rest k s1) = Fault AssertFailed.
Proof.
  refine (server_destructor (lit "srv") (lit "0.0.0.0:80") demo_fresh 2 0 [1; 2]%nat demo_pool demo_server_ops
            demo_down [1%nat] [1%nat] eq_refl _ _ _ _ _).
  - vm_compute. discriminate.
  - vm_compute. reflexivity.
  - vm_compute. reflexivity.
  - repeat constructor.
  - assert (Hm : (map_to_list (table demo_down)).*2 = [1%nat]) by (vm_compute; reflexivity). by rewrite Hm.
Defined.
