(* ===== verification/LoopLife.v ===== *)
(** * LoopLife: a loop from its constructor to its destructor (src/event/eventloop, src/base/timerqueue)

    A loop owns an epoll set, an eventfd with its channel and, inside its
    timer queue, a timerfd with its channel.  This file has the two
    constructors and the two destructors with the order in which the members
    come and go, the checks of [update_channel] and [remvoe_channel], and what
    the thread and the process see of it: the pointer to the thread's loop and
    the open descriptors.  What the loop does in between is in EventLoop,
    Channel and TimerQueue. *)

From stdpp Require Import base list numbers gmap.
From Stdlib Require Import ZArith Lia.
From S2P Require Import Prelude Buffer TimerQueue Channel.

Local Open Scope Z_scope.
Local Open Scope result_scope.

(** ** State *)

(** What a loop changes outside itself: [LoopInThisThread] and the open
    descriptors. *)
Record outside : Type := mkOutside {
  LoopInThisThread : option nat;
  open_fds : gset Z
}.

Record loop_object : Type := mkObject {
  this : nat;
  poller_ : Epoller;
  epollfd_ : Z;
  timer_queue_ : TimerQueue;
  timerfd_ : Z;
  timer_channel_ : nat;
  wakefd_ : Z;
  wake_channel_ : nat;
  looping_ : bool;
  owner : gmap nat nat               (* the loop each channel was made with *)
}.

Definition set_poller (p : Epoller) (l : loop_object) : loop_object :=
  mkObject (this l) p (epollfd_ l) (timer_queue_ l) (timerfd_ l) (timer_channel_ l)
    (wakefd_ l) (wake_channel_ l) (looping_ l) (owner l).
Definition set_owner (o : gmap nat nat) (l : loop_object) : loop_object :=
  mkObject (this l) (poller_ l) (epollfd_ l) (timer_queue_ l) (timerfd_ l) (timer_channel_ l)
    (wakefd_ l) (wake_channel_ l) (looping_ l) o.

(** ** Constructors *)

(** [eventfd] failed: [abort()]. *)
Definition createEventfd (answer : io Z) : result Z :=
  match answer with IoOk fd => Ok fd | IoErr _ => Fault Aborted end.

(** The part of [TimerQueue::TimerQueue] that concerns its loop's poller. *)
Definition watch_timerfd (ch : nat) (fd : Z) (p : Epoller) : result Epoller :=
  enable_reading ch (set_chan ch (new_channel fd) p).

(** [EventLoop::EventLoop], the members in the order of their declaration;
    [limit] and [index] are what the timer queue leaves uninitialised, [tch]
    and [wch] the two channels. *)
Definition new_event_loop (self tch wch : nat) (epollfd timerfd : Z) (evtfd : io Z) (limit index : Z)
    (w : outside) : result (loop_object * outside) :=
  p1 ← watch_timerfd tch timerfd (new_poller ∅);
  wakefd ← createEventfd evtfd;
  let cur := match LoopInThisThread w with Some other => Some other | None => Some self end in
  p2 ← enable_reading wch (set_chan wch (new_channel wakefd) p1);
  Ok (mkObject self p2 epollfd (new_queue limit index) timerfd tch wakefd wch false
        {[ tch := self; wch := self ]},
      mkOutside cur ({[ epollfd; timerfd; wakefd ]} ∪ open_fds w)).

Definition get_curthread (w : outside) : option nat := LoopInThisThread w.

(** ** Destructors *)

Definition close_fd (fd : Z) (w : outside) : outside := mkOutside (LoopInThisThread w) (open_fds w ∖ {[ fd ]}).

(** [disable_all] and [remove], as both destructors do it. *)
Definition forget (ch : nat) (p : Epoller) : result Epoller :=
  p1 ← disable_all ch p; remove ch p1.

(** The destructor of a channel the loop owns: the object is gone. *)
Definition drop_channel (ch : nat) (p : Epoller) : result unit :=
  c ← of_option NullDeref (store p !! ch); destroy_channel c.

(** [TimerQueue::~TimerQueue]. *)
Definition destroy_timer_queue (l : loop_object) (w : outside) : result (TimerQueue * Epoller * outside) :=
  let q := clear_ (timer_queue_ l) in
  p ← forget (timer_channel_ l) (poller_ l);
  let w1 := close_fd (timerfd_ l) w in
  _ ← drop_channel (timer_channel_ l) p;
  Ok (q, p, w1).

(** [EventLoop::~EventLoop], then its members, the last declared first. *)
Definition destroy_event_loop (l : loop_object) (w : outside) : result (Epoller * outside) :=
  assert! (negb (looping_ l));
  p1 ← forget (wake_channel_ l) (poller_ l);
  let w1 := close_fd (wakefd_ l) w in
  let w2 := mkOutside None (open_fds w1) in
  _ ← drop_channel (wake_channel_ l) p1;
  '(_, p2, w3) ← destroy_timer_queue (set_poller p1 l) w2;
  Ok (p2, close_fd (epollfd_ l) w3).

(** ** Other channels *)

(** The channel an operation is about. *)
Definition subject (op : chan_op) : option nat :=
  match op with
  | OpEnableReading i | OpDisableReading i | OpEnableWriting i | OpDisableWriting i
  | OpDisableAll i | OpRemove i => Some i
  | OpPoll _ => None
  end.

(** [update_channel] and [remvoe_channel] check that the channel is the
    loop's. *)
Definition owned (op : chan_op) (l : loop_object) : bool :=
  match subject op with Some i => bool_decide (owner l !! i = Some (this l)) | None => true end.

(** A new object has a number nothing else has. *)
Inductive channel_op : Type :=
  | NewChannel (i : nat) (fd : Z) (loop : nat)   (* a channel of a connection or an acceptor is made *)
  | OnChannel (op : chan_op).

Definition channel_call (op : channel_op) (l : loop_object) : result loop_object :=
  match op with
  | NewChannel i fd loop =>
      guard_ OutOfRange (bool_decide (store (poller_ l) !! i = None)) ≫= fun _ =>
      Ok (set_owner (<[i := loop]> (owner l)) (set_poller (set_chan i (new_channel fd) (poller_ l)) l))
  | OnChannel op =>
      assert! (owned op l);
      p ← chan_step op (poller_ l);
      Ok (set_poller p l)
  end.

Fixpoint channel_calls (ops : list channel_op) (l : loop_object) : result loop_object :=
  match ops with
  | [] => Ok l
  | op :: ops => l1 ← channel_call op l; channel_calls ops l1
  end.

(** ** The loop's own channels *)

(** The loop's channel [ch] is in the poller for reading. *)
Definition held (ch : nat) (fd : Z) (p : Epoller) : Prop :=
  exists c, store p !! ch = Some c /\ fd_ c = fd /\ status_ c = ADD /\ events_ c = kReadEvent /\
    event_handing_ c = false.

Lemma held_other ch fd i c p p' :
  i <> ch -> store p' = <[i := c]> (store p) -> held ch fd p -> held ch fd p'.
Proof. intros Hne Hs (d & Hd & ?). exists d. by rewrite Hs, lookup_insert_ne. Qed.

Lemma with_events_store f i p p' :
  mirrors p -> with_events f i p = Ok p' -> exists c, store p' = <[i := c]> (store p).
Proof.
  intros Hm Hw. destruct (store p !! i) as [c|] eqn:Hc; [|unfold with_events in Hw; by rewrite Hc in Hw].
  rewrite (with_events_cases f p i c Hm Hc) in Hw. cbv zeta in Hw.
  destruct (status_ c); [case_decide| |]; try done; [|destruct (is_none_event _)]; injection Hw as <-; by eexists.
Qed.

Lemma remove_store i p p' :
  mirrors p -> remove i p = Ok p' -> exists c, store p' = <[i := c]> (store p).
Proof.
  intros Hm Hw. destruct (store p !! i) as [c|] eqn:Hc; [|unfold remove in Hw; by rewrite Hc in Hw].
  rewrite (remove_cases p i c Hm Hc) in Hw. destruct (_ && _); [|done]. injection Hw as <-. by eexists.
Qed.

Lemma fill_held ch fd evs : forall p act p',
  fill_active_channels evs p = Ok (act, p') -> held ch fd p -> held ch fd p'.
Proof.
  induction evs as [|[r i] evs IH]; intros p act p' Hf Hh; cbn [fill_active_channels] in Hf; [by simplify_eq|].
  destruct (store p !! i) as [c|] eqn:Hc; [|done]. cbn [of_option] in Hf. rewrite bind_ok in Hf.
  inv_bind Hf. destruct a as [act1 p1]. injection Hf as <- <-. apply (IH _ _ _ Ha).
  destruct Hh as (d & Hd & Hrest). destruct (decide (i = ch)) as [->|Hne].
  - rewrite Hc in Hd. injection Hd as ->. exists (set_revents r d). split; [apply lookup_insert_eq|done].
  - exists d. cbn [store set_chan]. by rewrite lookup_insert_ne.
Qed.

Lemma held_step ch fd op p p' :
  mirrors p -> subject op <> Some ch -> chan_step op p = Ok p' -> held ch fd p -> held ch fd p'.
Proof.
  intros Hm Hne Hs Hh. destruct op as [i|i|i|i|i|i|evs]; cbn [chan_step subject] in *;
    try (assert (Hi : i <> ch) by congruence).
  1-5: destruct (with_events_store _ _ _ _ Hm Hs) as [c Hc]; by apply (held_other ch fd i c p).
  - destruct (remove_store _ _ _ Hm Hs) as [c Hc]. by apply (held_other ch fd i c p).
  - unfold poll in Hs. destruct evs as [[|e evs]|]; [by injection Hs as <-| |by injection Hs as <-].
    destruct (fill_active_channels (e :: evs) p) as [[act p1]|] eqn:Hf; [|done].
    injection Hs as <-. pose proof (fill_held ch fd _ _ _ _ Hf Hh) as (c & ?). by exists c.
Qed.

(** A new channel is put under watch. *)
Lemma enable_new ch fd p :
  mirrors p -> store p !! ch = None -> channels_ p !! fd = None ->
  exists p', enable_reading ch (set_chan ch (new_channel fd) p) = Ok p' /\ mirrors p' /\ held ch fd p' /\
    channels_ p' = <[fd := ch]> (channels_ p) /\
    store p' = <[ch := set_status ADD (changed (fun e => Z.lor e kReadEvent) (new_channel fd))]> (store p).
Proof.
  intros Hm Hn Hf. set (p1 := set_chan ch (new_channel fd) p).
  assert (Hm1 : mirrors p1) by (by apply fresh_mirrors).
  assert (Hc1 : store p1 !! ch = Some (new_channel fd)) by apply lookup_insert_eq.
  pose proof (with_events_cases (fun e => Z.lor e kReadEvent) p1 ch (new_channel fd) Hm1 Hc1) as Hw.
  cbv zeta in Hw. cbn [status_ new_channel fd_] in Hw. rewrite decide_True in Hw by done.
  unfold enable_reading. rewrite Hw. eexists. split; [done|].
  split; [by apply (with_events_mirrors _ ch p1 _ Hm1 Hw)|]. split; [|split; [done|apply insert_insert_eq]].
  eexists. split; [apply lookup_insert_eq|done].
Qed.

(** Both destructors' way out of the poller. *)
Lemma forget_held ch fd p :
  mirrors p -> held ch fd p ->
  exists p', forget ch p = Ok p' /\ mirrors p' /\ drop_channel ch p' = Ok tt /\
    channels_ p' = delete fd (channels_ p) /\
    forall ch' fd', ch' <> ch -> held ch' fd' p -> held ch' fd' p'.
Proof.
  intros Hm (c & Hc & Hfd & Hst & He & Hh). unfold forget, disable_all.
  pose proof (with_events_cases (fun _ => kNoneEvent) p ch c Hm Hc) as Hw. cbv zeta in Hw.
  rewrite Hst in Hw. change (is_none_event (changed _ c)) with true in Hw. cbv iota in Hw.
  pose proof (with_events_mirrors _ _ _ _ Hm Hw) as Hm1. rewrite Hw, bind_ok.
  set (c1 := set_status DEL _) in *. set (p1 := mkEpoller _ _ _ _) in *.
  assert (Hc1 : store p1 !! ch = Some c1) by apply lookup_insert_eq.
  pose proof (remove_cases p1 ch c1 Hm1 Hc1) as Hr. change (is_none_event c1) with true in Hr.
  change (status_ c1) with DEL in Hr. rewrite bool_decide_false in Hr by done. cbn [negb andb] in Hr.
  rewrite Hr. eexists. split; [done|]. split; [by apply (remove_mirrors ch p1 _ Hm1)|].
  split; [|split; [by subst|]].
  - unfold drop_channel. cbn [store]. rewrite lookup_insert_eq. cbn [of_option]. rewrite bind_ok.
    unfold destroy_channel. cbn. by rewrite Hh.
  - intros ch' fd' Hne (d & Hd & ?). exists d. cbn [store p1]. by rewrite !lookup_insert_ne.
Qed.

(** *** What stays true while the loop lives *)

Record lasting (l : loop_object) : Prop := {
  al_mirrors : mirrors (poller_ l);
  al_wake : held (wake_channel_ l) (wakefd_ l) (poller_ l);
  al_timer : held (timer_channel_ l) (timerfd_ l) (poller_ l);
  al_two : wake_channel_ l <> timer_channel_ l
}.

(** Nobody else touches the loop's own channels. *)
Definition foreign (l : loop_object) (op : channel_op) : Prop :=
  match op with
  | NewChannel _ _ _ => True
  | OnChannel op => subject op <> Some (wake_channel_ l) /\ subject op <> Some (timer_channel_ l)
  end.

(** The descriptors and channels of [l] and what the loop does not change. *)
Definition same_object (l l' : loop_object) : Prop :=
  this l' = this l /\ epollfd_ l' = epollfd_ l /\ timer_queue_ l' = timer_queue_ l /\ timerfd_ l' = timerfd_ l /\
  timer_channel_ l' = timer_channel_ l /\ wakefd_ l' = wakefd_ l /\ wake_channel_ l' = wake_channel_ l /\
  looping_ l' = looping_ l.

Lemma lasting_step op l l' :
  lasting l -> foreign l op -> channel_call op l = Ok l' -> lasting l' /\ same_object l l'.
Proof.
  intros [Hm Hw Ht Hne] Hfor Hs. destruct op as [i fd lp|op]; cbn [channel_call] in Hs.
  - unfold guard_ in Hs. case_bool_decide as Hn; [|done]. rewrite bind_ok in Hs. injection Hs as <-.
    split; [|by split_and!]. split; cbn; [by apply fresh_mirrors| | |done].
    + apply (held_other _ _ i (new_channel fd) (poller_ l)); [|done..].
      intros ->. destruct Hw as (c & Hc & _). congruence.
    + apply (held_other _ _ i (new_channel fd) (poller_ l)); [|done..].
      intros ->. destruct Ht as (c & Hc & _). congruence.
  - destruct (owned op l); [|done]. cbn [assert_] in Hs. rewrite bind_ok in Hs. inv_bind Hs.
    injection Hs as <-. split; [|by split_and!]. destruct Hfor as [Hfw Hft].
    split; cbn; [by eapply chan_step_mirrors|by eapply held_step|by eapply held_step|done].
Qed.

Lemma lasting_run ops : forall l l',
  lasting l -> Forall (foreign l) ops -> channel_calls ops l = Ok l' -> lasting l' /\ same_object l l'.
Proof.
  induction ops as [|op ops IH]; intros l l' Hl Hfor Hr; cbn [channel_calls] in Hr.
  - injection Hr as <-. split; [done|by split_and!].
  - inv_bind Hr. apply Forall_cons in Hfor as [Hop Hfor].
    destruct (lasting_step op l a Hl Hop Ha) as [Ha1 (E1 & E2 & E3 & E4 & E5 & E6 & E7 & E8)].
    destruct (IH a l' Ha1) as [Hl' (F1 & F2 & F3 & F4 & F5 & F6 & F7 & F8)]; [|done|].
    + eapply Forall_impl; [exact Hfor|]. intros [|op']; [done|]. unfold foreign. by rewrite E5, E7.
    + split; [done|]. split_and!; congruence.
Qed.

Lemma new_loop_lasting self tch wch epollfd timerfd wakefd limit index w :
  tch <> wch -> timerfd <> wakefd ->
  exists l, new_event_loop self tch wch epollfd timerfd (IoOk wakefd) limit index w =
      Ok (l, mkOutside (match LoopInThisThread w with Some o => Some o | None => Some self end)
               ({[ epollfd; timerfd; wakefd ]} ∪ open_fds w)) /\
    lasting l /\ looping_ l = false /\ epollfd_ l = epollfd /\ timerfd_ l = timerfd /\ wakefd_ l = wakefd /\
    timer_channel_ l = tch /\ wake_channel_ l = wch.
Proof.
  intros Hch Hfd. unfold new_event_loop, watch_timerfd.
  destruct (enable_new tch timerfd (new_poller ∅)) as (p1 & -> & Hm1 & Ht & Hc1 & Hs1); [|done..|].
  { by apply new_poller_mirrors. }
  rewrite bind_ok. cbn [createEventfd]. rewrite bind_ok.
  destruct (enable_new wch wakefd p1) as (p2 & -> & Hm2 & Hw & Hc2 & Hs2); [done| | |].
  - rewrite Hs1, lookup_insert_ne by done. apply lookup_empty.
  - rewrite Hc1, lookup_insert_ne by done. apply lookup_empty.
  - rewrite bind_ok. eexists. split; [done|]. split; [|done].
    split; cbn; [done|done| |done]. by apply (held_other tch timerfd wch _ p1 p2 ltac:(congruence) Hs2).
Qed.

Lemma destroy_lasting l w :
  lasting l ->
  if looping_ l then destroy_event_loop l w = Fault AssertFailed
  else exists p, destroy_event_loop l w =
      Ok (p, mkOutside None (open_fds w ∖ {[ wakefd_ l ]} ∖ {[ timerfd_ l ]} ∖ {[ epollfd_ l ]})) /\
    mirrors p /\ channels_ p = delete (timerfd_ l) (delete (wakefd_ l) (channels_ (poller_ l))).
Proof.
  intros [Hm Hw Ht Hne]. unfold destroy_event_loop. destruct (looping_ l); [done|]. cbn [negb assert_].
  rewrite bind_ok.
  destruct (forget_held _ _ _ Hm Hw) as (p1 & -> & Hm1 & Hd1 & Hc1 & Hk1). rewrite bind_ok, Hd1, bind_ok.
  unfold destroy_timer_queue. cbn [timer_channel_ poller_ set_poller timerfd_ timer_queue_].
  destruct (forget_held (timer_channel_ l) (timerfd_ l) p1) as (p2 & -> & Hm2 & Hd2 & Hc2 & _);
    [done|by apply Hk1|].
  rewrite bind_ok, Hd2, !bind_ok. exists p2. split; [done|]. split; [done|]. by rewrite Hc2, Hc1.
Qed.

(** ** The theorem *)

(** C30: A loop can always be made, and destroyed whenever it does not run, whatever
    was done with other channels in between: no assertion of the loop, a
    channel or the poller fails, the epoll set is rid of both descriptors, the
    other channels keep their place in it, and all three descriptors are
    closed.  In both cases the thread's pointer is null afterwards, even if it
    was another loop's. *)
Theorem loop_lifecycle (self tch wch : nat) (epollfd timerfd wakefd limit index : Z) (w : outside)
    (ops : list channel_op) :
  tch <> wch -> NoDup [epollfd; timerfd; wakefd] -> {[ epollfd; timerfd; wakefd ]} ## open_fds w ->
  exists l w1, new_event_loop self tch wch epollfd timerfd (IoOk wakefd) limit index w = Ok (l, w1) /\
    forall l2, Forall (foreign l) ops -> channel_calls ops l = Ok l2 ->
      exists p w2, destroy_event_loop l2 w1 = Ok (p, w2) /\
        open_fds w2 = open_fds w /\ get_curthread w2 = None /\ mirrors p /\
        interest p !! wakefd = None /\ interest p !! timerfd = None /\
        forall fd, fd <> wakefd -> fd <> timerfd -> channels_ p !! fd = channels_ (poller_ l2) !! fd.
Proof.
  intros Hch Hnd Hfree.
  assert (Hfd : timerfd <> wakefd) by (intros ->; apply NoDup_cons in Hnd as [_ [Hb _]%NoDup_cons]; set_solver).
  destruct (new_loop_lasting self tch wch epollfd timerfd wakefd limit index w Hch Hfd)
    as (l & Hnew & Hl & Hoff & He & Ht & Hw & _).
  do 2 eexists. split; [exact Hnew|]. intros l2 Hfor Hr.
  destruct (lasting_run ops l l2 Hl Hfor Hr) as [Hl2 (_ & E2 & _ & E4 & _ & E6 & _ & E8)].
  match goal with |- context [destroy_event_loop l2 ?w1] => pose proof (destroy_lasting l2 w1 Hl2) as Hd end.
  rewrite E8, Hoff in Hd. destruct Hd as (p & Hd & Hmp & Hc). exists p. eexists. split; [exact Hd|].
  cbn [open_fds LoopInThisThread]. rewrite E2, E4, E6, He, Ht, Hw in *.
  split; [set_solver|]. split; [done|]. split; [done|].
  split; [|split]; [apply interest_none; [done|]; rewrite Hc..|].
  - by rewrite lookup_delete_ne, lookup_delete_eq.
  - by rewrite lookup_delete_eq.
  - intros fd H1 H2. by rewrite Hc, !lookup_delete_ne.
Qed.

(** ** Witness *)

(** A connection comes and is gone again, in a thread that has a loop already. *)
Definition demo_life : list channel_op :=
  [NewChannel 9 12 1; OnChannel (OpEnableReading 9); OnChannel (OpPoll (Some [(POLLIN, 9%nat); (POLLIN, 3%nat)]));
   OnChannel (OpEnableWriting 9); OnChannel (OpDisableAll 9); OnChannel (OpRemove 9)].

Theorem loop_lifecycle_witness :
  exists l w1 l2 p w2, new_event_loop 1 2 3 5 6 (IoOk 7) 0 0 (mkOutside (Some 0%nat) {[ 0; 1 ]}) = Ok (l, w1) /\
    get_curthread w1 = Some 0%nat /\ channel_calls demo_life l = Ok l2 /\ destroy_event_loop l2 w1 = Ok (p, w2) /\
    open_fds w2 = {[ 0; 1 ]} /\ get_curthread w2 = None.
Proof.
  destruct (loop_lifecycle 1 2 3 5 6 7 0 0 (mkOutside (Some 0%nat) {[ 0; 1 ]}) demo_life) as (l & w1 & Hnew & Hall).
  - done.
  - repeat constructor; set_solver.
  - apply (bool_decide_unpack _). by vm_compute.
  - pose proof Hnew as Hl. vm_compute in Hl. injection Hl as <- <-.
    destruct (channel_calls demo_life _) as [l2|] eqn:Hr in Hall; [|exfalso; vm_compute in Hr; discriminate].
    destruct (Hall l2) as (p & w2 & Hd & Ho & Hn & _); [|reflexivity|].
    + repeat constructor; discriminate.
    + do 2 eexists. exists l2, p, w2. split; [exact Hnew|]. split; [reflexivity|]. split; [exact Hr|].
      split; [exact Hd|]. split; [exact Ho|exact Hn].
Defined.
