(* ===== verification/Sockets.v ===== *)
(** * Sockets: addresses, sockets and the acceptor (src/server/inetaddress, socketserver, src/event/acceptor)

    Addresses are kept in network byte order, and are read from and printed in
    dotted form.  A socket has the options the kernel keeps for it; the calls
    that set them up ignore or only log failures.  The acceptor watches the
    listening socket; when the process has no descriptor left it means to give
    up a spare one to get rid of the waiting peer. *)

From stdpp Require Import base list numbers gmap strings.
From Stdlib Require Import ZArith Lia Ascii.
From S2P Require Import Prelude Buffer Channel LoopLife.

Local Open Scope Z_scope.
Local Open Scope result_scope.

(** ** Addresses *)

(** The two integers of a [sockaddr_in], as a little-endian machine reads
    them. *)
Record InetAddress : Type := mkAddress { s_addr : Z; sin_port : Z }.

Definition byte_at (x : Z) (k : Z) : Z := Z.land (Z.shiftr x (8 * k)) 255.

Definition htons (x : Z) : Z := Z.lor (Z.shiftl (byte_at x 0) 8) (byte_at x 1).
Definition ntohs : Z -> Z := htons.
Definition htonl (x : Z) : Z :=
  Z.lor (Z.lor (Z.shiftl (byte_at x 0) 24) (Z.shiftl (byte_at x 1) 16))
        (Z.lor (Z.shiftl (byte_at x 2) 8) (byte_at x 3)).

Definition INADDR_LOOPBACK : Z := 0x7f000001.
Definition INADDR_ANY : Z := 0.

Definition new_address (port : Z) (loopback : bool) : InetAddress :=
  mkAddress (htonl (if loopback then INADDR_LOOPBACK else INADDR_ANY)) (htons port).

(** [inet_ntop] of the C library for an IPv4 address: its bytes in memory order,
    in decimal. *)
Definition dotted (a : Z) : bytes :=
  to_string (byte_at a 0) ++ lit "." ++ to_string (byte_at a 1) ++ lit "." ++
  to_string (byte_at a 2) ++ lit "." ++ to_string (byte_at a 3).

Definition to_ip_port (a : InetAddress) : bytes :=
  dotted (s_addr a) ++ lit ":" ++ to_string (ntohs (sin_port a)).

Lemma byte_at_spec x k n :
  0 <= k -> 0 <= n -> Z.testbit (byte_at x k) n = (n <? 8) && Z.testbit x (n + 8 * k).
Proof.
  intros Hk Hn. unfold byte_at. rewrite Z.land_spec, Z.shiftr_spec by done.
  change 255 with (Z.ones 8). rewrite Z.testbit_ones_nonneg by lia. apply andb_comm.
Qed.

Lemma htons_spec x n :
  0 <= n -> Z.testbit (htons x) n =
    if n <? 8 then Z.testbit x (n + 8) else (n <? 16) && Z.testbit x (n - 8).
Proof.
  intros Hn. unfold htons. rewrite Z.lor_spec, Z.shiftl_spec, (byte_at_spec x 1) by lia.
  destruct (Z.ltb_spec n 8).
  - rewrite Z.testbit_neg_r by lia. done.
  - rewrite byte_at_spec by lia. rewrite andb_false_l, orb_false_r. f_equal; [|f_equal; lia].
    destruct (Z.ltb_spec (n - 8) 8), (Z.ltb_spec n 16); lia || done.
Qed.

Lemma ntohs_htons x : 0 <= x < 2 ^ 16 -> ntohs (htons x) = x.
Proof.
  intros Hx. apply Z.bits_inj'. intros n Hn. unfold ntohs. rewrite htons_spec by done.
  destruct (Z.ltb_spec n 8).
  - rewrite htons_spec by lia. rewrite (proj2 (Z.ltb_ge (n + 8) 8)), (proj2 (Z.ltb_lt (n + 8) 16)) by lia.
    cbn [andb]. f_equal. lia.
  - destruct (Z.ltb_spec n 16); cbn [andb].
    + rewrite htons_spec by lia. rewrite (proj2 (Z.ltb_lt (n - 8) 8)) by lia. f_equal. lia.
    + symmetry. destruct (decide (x = 0)) as [->|]; [apply Z.bits_0|].
      apply Z.bits_above_log2; [lia|]. assert (Z.log2 x < 16) by (apply Z.log2_lt_pow2; lia). lia.
Qed.

(** The address the server listens on is printed as it was given. *)
Theorem listen_address_printed (port : Z) (loopback : bool) :
  0 <= port < 2 ^ 16 ->
  to_ip_port (new_address port loopback) =
    lit (if loopback then "127.0.0.1" else "0.0.0.0") ++ lit ":" ++ to_string port.
Proof.
  intros Hp. unfold to_ip_port, new_address. cbn [s_addr sin_port]. rewrite ntohs_htons by done.
  by destruct loopback.
Qed.

(** *** Reading an address *)

(** [inet_pton] of the C library, as it is documented: four decimal bytes without
    leading zeros, with dots between them, and nothing else. *)
Definition is_digit (c : ascii) : bool := (48 <=? N_of_ascii c)%N && (N_of_ascii c <=? 57)%N.
Definition digits_value (ds : bytes) : Z := foldl (fun z c => 10 * z + (Z.of_N (N_of_ascii c) - 48)) 0 ds.

Definition parse_octet (s : bytes) : option Z :=
  match s with
  | [] => None
  | c :: rest =>
      if forallb is_digit s && (digits_value s <? 256) && (negb (Ascii.eqb c "0") || (length rest =? 0)%nat)
      then Some (digits_value s) else None
  end.

(** The text up to the first dot and, if there is one, the text after it. *)
Fixpoint cut_dot (s : bytes) : bytes * option bytes :=
  match s with
  | [] => ([], None)
  | c :: s => if Ascii.eqb c "." then ([], Some s) else let '(a, r) := cut_dot s in (c :: a, r)
  end.

(** The bytes of an IPv4 address: [n] more bytes with dots between them, the
    first at bit [k]. *)
Fixpoint inet_pton (n : nat) (k : Z) (s : bytes) : option Z :=
  let '(a, r) := cut_dot s in
  match parse_octet a, n, r with
  | Some x, O, None => Some (Z.shiftl x k)
  | Some x, S n, Some s => match inet_pton n (k + 8) s with Some y => Some (Z.lor (Z.shiftl x k) y) | None => None end
  | _, _, _ => None
  end.

(** The constructor from a string: without a valid address the zeros stay. *)
Definition address_of (ip : bytes) (port : Z) : InetAddress :=
  mkAddress (default 0 (inet_pton 3 0 ip)) (htons port).

(** [get_sock]: the local address of a descriptor, or zeros. *)
Definition get_sock (answer : io InetAddress) : InetAddress :=
  match answer with IoOk addr => addr | IoErr _ => mkAddress 0 0 end.

(** What [to_string] prints for a byte. *)
Definition octet_ok (b : Z) : bool :=
  bool_decide (parse_octet (to_string b) = Some b) && forallb (fun c => negb (Ascii.eqb c ".")) (to_string b).

Lemma octet_printed b :
  0 <= b < 256 -> parse_octet (to_string b) = Some b /\ forallb (fun c => negb (Ascii.eqb c ".")) (to_string b) = true.
Proof.
  intros Hb. assert (Hall : forallb octet_ok (seqZ 0 256) = true) by (vm_compute; reflexivity).
  rewrite forallb_forall in Hall. specialize (Hall b). unfold octet_ok in Hall.
  apply andb_true_iff in Hall as [H1%bool_decide_eq_true H2]; [done|]. apply list_elem_of_In, elem_of_seqZ. lia.
Qed.

Lemma cut_dot_app a s :
  forallb (fun c => negb (Ascii.eqb c ".")) a = true -> cut_dot (a ++ lit "." ++ s) = (a, Some s).
Proof.
  induction a as [|c a IH]; intros Ha; [done|]. cbn in Ha. apply andb_true_iff in Ha as [Hc Ha].
  cbn. rewrite (proj1 (negb_true_iff _) Hc). cbn in IH. by rewrite IH.
Qed.

Lemma cut_dot_end a : forallb (fun c => negb (Ascii.eqb c ".")) a = true -> cut_dot a = (a, None).
Proof.
  induction a as [|c a IH]; intros Ha; [done|]. cbn in Ha. apply andb_true_iff in Ha as [Hc Ha].
  cbn. rewrite (proj1 (negb_true_iff _) Hc). by rewrite IH.
Qed.

Lemma byte_at_range x k : 0 <= byte_at x k < 256.
Proof.
  unfold byte_at. change 255 with (Z.ones 8). rewrite Z.land_ones by done. by apply Z.mod_pos_bound.
Qed.

(** The address is the bytes it is printed as. *)
Lemma bytes_of_address a :
  0 <= a < 2 ^ 32 ->
  Z.lor (Z.shiftl (byte_at a 0) 0) (Z.lor (Z.shiftl (byte_at a 1) 8)
    (Z.lor (Z.shiftl (byte_at a 2) 16) (Z.shiftl (byte_at a 3) 24))) = a.
Proof.
  intros Ha. apply Z.bits_inj'. intros n Hn. rewrite !Z.lor_spec, !Z.shiftl_spec by done.
  assert (Hbit : forall k, 0 <= k ->
    Z.testbit (byte_at a k) (n - 8 * k) = (8 * k <=? n) && (n <? 8 * k + 8) && Z.testbit a n).
  { intros k Hk. destruct (Z.leb_spec (8 * k) n); cbn [andb]; [|by rewrite Z.testbit_neg_r by lia].
    rewrite byte_at_spec by lia. f_equal; [|f_equal; lia].
    destruct (Z.ltb_spec (n - 8 * k) 8), (Z.ltb_spec n (8 * k + 8)); lia || done. }
  change 8 with (8 * 1) at 1. change 16 with (8 * 2). change 24 with (8 * 3). change (n - 0) with (n - 8 * 0).
  rewrite !Hbit by done. destruct (Z.ltb_spec n 32) as [Hlt|Hge].
  - repeat match goal with |- context [?x <=? n] => destruct (Z.leb_spec x n) end;
    repeat match goal with |- context [n <? ?x] => destruct (Z.ltb_spec n x) end; try lia;
      cbn; by rewrite ?orb_false_r, ?orb_false_l, ?orb_diag.
  - assert (Hz : Z.testbit a n = false).
    { destruct (decide (a = 0)) as [->|]; [apply Z.bits_0|]. apply Z.bits_above_log2; [lia|].
      assert (Z.log2 a < 32) by (apply Z.log2_lt_pow2; lia). lia. }
    by rewrite Hz, !andb_false_r.
Qed.

(** C37: Every address is read back from its dotted form, and with any port prints
    as that form, a colon and the port. *)
Theorem address_roundtrip (a port : Z) :
  0 <= a < 2 ^ 32 -> 0 <= port < 2 ^ 16 ->
  s_addr (address_of (dotted a) port) = a /\
  to_ip_port (address_of (dotted a) port) = dotted a ++ lit ":" ++ to_string port.
Proof.
  intros Ha Hp. assert (Hs : s_addr (address_of (dotted a) port) = a).
  { unfold address_of, dotted. cbn [s_addr].
    destruct (octet_printed (byte_at a 0) (byte_at_range a 0)) as [P0 D0].
    destruct (octet_printed (byte_at a 1) (byte_at_range a 1)) as [P1 D1].
    destruct (octet_printed (byte_at a 2) (byte_at_range a 2)) as [P2 D2].
    destruct (octet_printed (byte_at a 3) (byte_at_range a 3)) as [P3 D3].
    cbn [inet_pton]. rewrite (cut_dot_app _ _ D0), P0, (cut_dot_app _ _ D1), P1, (cut_dot_app _ _ D2), P2.
    rewrite (cut_dot_end _ D3), P3. cbn [default]. by apply bytes_of_address. }
  split; [exact Hs|]. unfold to_ip_port. rewrite Hs. unfold address_of. cbn [sin_port]. by rewrite ntohs_htons.
Qed.

(** ** Sockets *)

(** The descriptor, and what the kernel keeps for it. *)
Record SocketServer : Type := mkSocket {
  sockfd_ : Z;
  so_reuseaddr : bool;
  so_reuseport : bool;
  so_keepalive : bool;
  so_linger : option Z;            (* seconds *)
  local : option InetAddress;
  backlog : option Z;
  write_open : bool
}.

Definition new_socket (fd : Z) : SocketServer := mkSocket fd false false false None None None true.

(** A system call on a descriptor that is not one changes nothing. *)
Definition on_socket (f : SocketServer -> SocketServer) (s : SocketServer) : SocketServer :=
  if 0 <=? sockfd_ s then f s else s.

Definition set_reuse_addr (on : bool) : SocketServer -> SocketServer :=
  on_socket (fun s => mkSocket (sockfd_ s) on (so_reuseport s) (so_keepalive s) (so_linger s)
    (local s) (backlog s) (write_open s)).

(** [set_reuse_port] names the other option. *)
Definition set_reuse_port (on : bool) : SocketServer -> SocketServer :=
  on_socket (fun s => mkSocket (sockfd_ s) on (so_reuseport s) (so_keepalive s) (so_linger s)
    (local s) (backlog s) (write_open s)).
Definition set_keep_alive (on : bool) : SocketServer -> SocketServer :=
  on_socket (fun s => mkSocket (sockfd_ s) (so_reuseaddr s) (so_reuseport s) on (so_linger s)
    (local s) (backlog s) (write_open s)).
Definition set_linger_close (on : bool) : SocketServer -> SocketServer :=
  on_socket (fun s => mkSocket (sockfd_ s) (so_reuseaddr s) (so_reuseport s) (so_keepalive s)
    (if on then Some 1 else None) (local s) (backlog s) (write_open s)).

(** [ok]: the kernel accepts the call; a failure is only logged. *)
Definition bind (ok : bool) (addr : InetAddress) (s : SocketServer) : SocketServer :=
  if ok then on_socket (fun s => mkSocket (sockfd_ s) (so_reuseaddr s) (so_reuseport s) (so_keepalive s) (so_linger s)
    (Some addr) (backlog s) (write_open s)) s else s.

Definition MAXBACKLOG : Z := 5.
Definition listen_socket (ok : bool) (s : SocketServer) : SocketServer :=
  if ok then on_socket (fun s => mkSocket (sockfd_ s) (so_reuseaddr s) (so_reuseport s) (so_keepalive s) (so_linger s)
    (local s) (Some MAXBACKLOG) (write_open s)) s else s.
Definition shutdown_write (ok : bool) (s : SocketServer) : SocketServer :=
  if ok then on_socket (fun s => mkSocket (sockfd_ s) (so_reuseaddr s) (so_reuseport s) (so_keepalive s) (so_linger s)
    (local s) (backlog s) false) s else s.

(** [getsockopt] of [SO_ERROR]: its value, or why it failed. *)
Definition get_socket_error (answer : io Z) : Z :=
  match answer with IoOk opt => opt | IoErr errno => errno end.

(** A failing [socket] is only logged. *)
Definition create_listenfd (answer : io Z) : Z :=
  match answer with IoOk fd => fd | IoErr _ => -1 end.

(** ** Accepting *)

Definition EBADF : Z := 9.
Definition EMFILE : Z := 24.

(** What the acceptor does with descriptors. *)
Inductive fd_event : Type :=
  | NewConnection (fd : Z)    (* the callback *)
  | CloseFd (fd : Z)
  | OpenIdle (fd : Z).

Record Acceptor : Type := mkAcceptor {
  listening_ : bool;
  idle_fd_ : Z;
  new_conn_callback_ : bool;
  accept_channel_ : nat;
  accept_socket_ : SocketServer;
  poller_ : Epoller
}.

(** The constructor; [idle] is the descriptor of [/dev/null], [bound] whether the
    kernel accepts the [bind]. *)
Definition new_acceptor (sock : io Z) (ch : nat) (idle : Z) (bound : bool) (listen_addr : InetAddress)
    (reuseport linger_close : bool) (p : Epoller) : result Acceptor :=
  let fd := create_listenfd sock in
  let p1 := set_chan ch (new_channel fd) p in
  assert! (0 <=? idle);
  let s := set_linger_close linger_close (set_reuse_port reuseport (set_reuse_addr true (new_socket fd))) in
  Ok (mkAcceptor false idle false ch (bind bound listen_addr s) p1).

Definition set_new_conn_callback (a : Acceptor) : Acceptor :=
  mkAcceptor (listening_ a) (idle_fd_ a) true (accept_channel_ a) (accept_socket_ a) (poller_ a).

Section accept.
(** What [errno] is after a line was logged. *)
Context (logs : Z -> Z).

(** [fcntl] fails on a descriptor that is not one. *)
Definition setnonblocking (fd errno : Z) : Z := if fd <? 0 then EBADF else errno.

(** The switch on the saved error: [errno] after it. *)
Definition report (saved errno : Z) : Z :=
  if bool_decide (saved ∈ [11; 103; 4; 71; 1; EMFILE])   (* EAGAIN ECONNABORTED EINTR EPROTO EPERM EMFILE *)
  then saved else logs errno.

(** [SocketServer::accept]: the descriptor and [errno]. *)
Definition accept (answer : io Z) (errno : Z) : Z * Z :=
  let '(connfd, e0) := match answer with IoOk fd => (fd, errno) | IoErr e => (-1, e) end in
  let e1 := setnonblocking connfd e0 in
  if connfd <? 0 then (connfd, report e1 (logs e1)) else (connfd, e1).

(** [Acceptor::handle_read_]; [again] is the second [accept], [opened] the new
    spare descriptor. *)
Definition handle_read_ (answer again : io Z) (opened errno : Z) (a : Acceptor) : list fd_event * Acceptor :=
  let '(connfd, e) := accept answer errno in
  if 0 <=? connfd then
    ([if new_conn_callback_ a then NewConnection connfd else CloseFd connfd], a)
  else if logs e =? EMFILE then
    let fd := match again with IoOk fd => fd | IoErr _ => -1 end in
    ([CloseFd (idle_fd_ a); CloseFd fd; OpenIdle opened],
     mkAcceptor (listening_ a) opened (new_conn_callback_ a) (accept_channel_ a) (accept_socket_ a) (poller_ a))
  else ([], a).

(** Every accepted connection is handed on once. But the spare descriptor is
    never given up: by the time the error is looked at, [setnonblocking] of
    the invalid descriptor has replaced it by EBADF. *)
Theorem spare_descriptor_unused (answer again : io Z) (opened errno : Z) (a : Acceptor) :
  (forall e, e <> EMFILE -> logs e <> EMFILE) ->
  match answer with IoOk fd => 0 <= fd | IoErr _ => True end ->
  handle_read_ answer again opened errno a =
    (match answer with
     | IoOk fd => [if new_conn_callback_ a then NewConnection fd else CloseFd fd]
     | IoErr _ => []
     end, a).
Proof.
  intros Hlogs Hfd. unfold handle_read_, accept, setnonblocking. destruct answer as [e|fd]; cbv beta iota zeta.
  - assert (Hne : logs (report EBADF (logs EBADF)) <> EMFILE).
    { apply Hlogs. unfold report. rewrite bool_decide_false; [by apply Hlogs, Hlogs|].
      rewrite !not_elem_of_cons. unfold EBADF, EMFILE. split_and!; (lia || by apply not_elem_of_nil). }
    apply Z.eqb_neq in Hne. change (-1 <? 0) with true. cbv beta iota zeta.
    change (0 <=? -1) with false. cbv beta iota zeta. by rewrite Hne.
  - destruct (Z.ltb_spec fd 0); [lia|]. by destruct (Z.leb_spec 0 fd); [|lia].
Qed.
End accept.

(** [listen]. *)
Definition listen (ok : bool) (a : Acceptor) : result Acceptor :=
  p ← enable_reading (accept_channel_ a) (poller_ a);
  Ok (mkAcceptor true (idle_fd_ a) (new_conn_callback_ a) (accept_channel_ a)
        (listen_socket ok (accept_socket_ a)) p).

(** The destructor, with its members': the channel, then the socket. *)
Definition destroy (a : Acceptor) : result (list fd_event * Epoller) :=
  p ← forget (accept_channel_ a) (poller_ a);
  _ ← drop_channel (accept_channel_ a) p;
  Ok ([CloseFd (idle_fd_ a); CloseFd (sockfd_ (accept_socket_ a))], p).

(** What an acceptor has set up when it listens.  Asked not to share the port it
    ends without the option that lets a restarted server bind at once, and
    asked to share it, it never sets that option: [set_reuse_port] sets the
    other one.  It listens and is watched even if the kernel refused to bind
    or to listen. *)
Theorem acceptor_set_up (fd idle : Z) (ch : nat) (bound listens reuseport linger_close : bool)
    (addr : InetAddress) (p : Epoller) :
  0 <= fd -> 0 <= idle -> mirrors p -> store p !! ch = None -> channels_ p !! fd = None ->
  exists a, (a0 ← new_acceptor (IoOk fd) ch idle bound addr reuseport linger_close p;
             listen listens (set_new_conn_callback a0)) = Ok a /\
    listening_ a = true /\ interest (poller_ a) !! fd = Some (kReadEvent, ch) /\ mirrors (poller_ a) /\
    accept_socket_ a = mkSocket fd reuseport false false (if linger_close then Some 1 else None)
      (if bound then Some addr else None) (if listens then Some MAXBACKLOG else None) true.
Proof.
  intros Hfd Hidle Hm Hch Hfree. unfold new_acceptor. cbn [create_listenfd].
  rewrite (proj2 (Z.leb_le 0 idle) Hidle). cbn [assert_]. rewrite !bind_ok.
  unfold listen, set_new_conn_callback. cbn [accept_channel_ poller_ accept_socket_].
  destruct (enable_new ch fd p Hm Hch Hfree) as (p1 & -> & Hm1 & (c & Hc & Hcfd & Hst & He & _) & _).
  rewrite bind_ok. eexists. split; [done|]. split; [done|]. split; [|split; [done|]].
  - cbn [poller_]. rewrite <-Hcfd, <-He. by apply interest_some.
  - cbn [accept_socket_]. unfold listen_socket, bind, set_linger_close, set_reuse_port, set_reuse_addr, on_socket.
    assert (Hb : (0 <=? fd) = true) by lia.
    by destruct bound, listens; cbn [new_socket sockfd_]; rewrite Hb; repeat (cbn; rewrite ?Hb).
Qed.

(** A channel that is new or added leaves the poller and can be destroyed. *)
Lemma forget_channel i p c :
  mirrors p -> store p !! i = Some c -> event_handing_ c = false ->
  (Channel.status_ c = NEW /\ channels_ p !! fd_ c = None) \/ Channel.status_ c = ADD ->
  exists p', forget i p = Ok p' /\ drop_channel i p' = Ok tt /\
    mirrors p' /\ channels_ p' !! fd_ c = None /\ interest p' !! fd_ c = None.
Proof.
  intros Hmp Hc Hh Hst. unfold forget, disable_all.
  assert (Hw : exists p1 c1, with_events (fun _ => kNoneEvent) i p = Ok p1 /\
    store p1 !! i = Some c1 /\ fd_ c1 = fd_ c /\ is_none_event c1 = true /\
    event_handing_ c1 = false /\ Channel.status_ c1 <> NEW).
  { rewrite (with_events_cases _ _ _ c Hmp Hc). destruct Hst as [[-> Hf]| ->].
    - rewrite decide_True by done. do 2 eexists. split; [done|]. split; [apply lookup_insert_eq|]. done.
    - do 2 eexists. split; [done|]. split; [apply lookup_insert_eq|]. done. }
  destruct Hw as (p1 & c1 & Hw & Hc1 & Hfd1 & Hn1 & Hh1 & Hs1). rewrite Hw, bind_ok.
  pose proof (with_events_mirrors _ _ _ _ Hmp Hw) as Hm1.
  pose proof (remove_cases p1 _ c1 Hm1 Hc1) as Hr. rewrite Hn1, bool_decide_false in Hr by done.
  cbn [negb andb] in Hr. rewrite Hr. eexists. split; [done|]. split.
  - unfold drop_channel. cbn [store]. rewrite lookup_insert_eq. cbn [of_option]. rewrite bind_ok.
    unfold destroy_channel. cbn [event_handing_ added_to_loop_ set_status set_added]. by rewrite Hh1.
  - split; [by eapply remove_mirrors|]. cbn. rewrite Hfd1. split; apply lookup_delete_eq.
Qed.

(** An acceptor can be destroyed whether it listened or not: no assertion of
    the channel or the poller fails, and the poller is rid of its channel. *)
Theorem acceptor_destroyed (a : Acceptor) (ch : Channel) (listened ok : bool) :
  mirrors (poller_ a) -> store (poller_ a) !! accept_channel_ a = Some ch ->
  Channel.status_ ch = NEW -> event_handing_ ch = false -> channels_ (poller_ a) !! fd_ ch = None ->
  exists a1 p, (if listened then listen ok a else Ok a) = Ok a1 /\
    destroy a1 = Ok ([CloseFd (idle_fd_ a); CloseFd (sockfd_ (accept_socket_ a))], p) /\
    mirrors p /\ channels_ p !! fd_ ch = None /\ interest p !! fd_ ch = None.
Proof.
  intros Hm Hch Hnew Hev Hfree.
  unfold destroy. destruct listened.
  - unfold listen, enable_reading. pose proof (with_events_cases (fun e => Z.lor e kReadEvent) _ _ ch Hm Hch) as Hw.
    cbv zeta in Hw. rewrite Hnew, decide_True in Hw by done.
    pose proof (with_events_mirrors _ _ _ _ Hm Hw) as Hm1. rewrite Hw, bind_ok.
    edestruct forget_channel as (p & Hp & Hdr & Hrest); [exact Hm1|apply lookup_insert_eq|exact Hev|by right|].
    eexists. exists p. split; [done|]. cbn [accept_channel_ poller_ idle_fd_ accept_socket_].
    rewrite Hp, bind_ok, Hdr, bind_ok. split; [|exact Hrest]. unfold listen_socket, on_socket.
    by destruct ok, (0 <=? sockfd_ (accept_socket_ a)).
  - destruct (forget_channel _ (poller_ a) ch Hm Hch Hev) as (p & Hp & Hdr & Hrest); [by left|].
    exists a, p. split; [done|]. by rewrite Hp, bind_ok, Hdr, bind_ok.
Qed.

(** ** Witnesses *)

Theorem listen_address_printed_witness : to_ip_port (new_address 8080 true) = lit "127.0.0.1:8080".
Proof. rewrite (listen_address_printed 8080 true); [reflexivity|lia]. Defined.

Theorem address_roundtrip_witness :
  to_ip_port (address_of (dotted 0x0100a8c0) 8080) = lit "192.168.0.1:8080".
Proof. refine (proj2 (address_roundtrip 0x0100a8c0 8080 _ _)); lia. Defined.

Theorem acceptor_set_up_witness :
  exists a, (a0 ← new_acceptor (IoOk 5) 0 7 false (new_address 80 false) false false (new_poller ∅);
             listen false (set_new_conn_callback a0)) = Ok a /\
    listening_ a = true /\ so_reuseaddr (accept_socket_ a) = false /\ local (accept_socket_ a) = None.
Proof.
  destruct (acceptor_set_up 5 7 0 false false false false (new_address 80 false) (new_poller ∅))
    as (a & Ha & Hl & _ & _ & Hs); [lia|lia| |reflexivity|reflexivity|].
  - apply new_poller_mirrors. intros i c Hc. discriminate Hc.
  - exists a. split; [exact Ha|]. split; [exact Hl|]. rewrite Hs. split; reflexivity.
Defined.

Definition demo_acceptor : Acceptor :=
  mkAcceptor false 7 true 0 (new_socket 5) (new_poller {[ 0%nat := new_channel 5 ]}).

Theorem spare_descriptor_unused_witness :
  handle_read_ (fun e => e) (IoErr EMFILE) (IoOk 9) 7 0 demo_acceptor = ([], demo_acceptor).
Proof. exact (spare_descriptor_unused (fun e => e) (IoErr EMFILE) (IoOk 9) 7 0 demo_acceptor (fun e H => H) I). Defined.

Theorem acceptor_destroyed_witness :
  exists a1 p, listen true demo_acceptor = Ok a1 /\ destroy a1 = Ok ([CloseFd 7; CloseFd 5], p) /\
    channels_ p !! 5 = None.
Proof.
  destruct (acceptor_destroyed demo_acceptor (new_channel 5) true true) as (a1 & p & H1 & H2 & _ & H3 & _);
    [|reflexivity|reflexivity|reflexivity|reflexivity|].
  - apply new_poller_mirrors. intros i c Hc. apply lookup_singleton_Some in Hc as [_ <-]. reflexivity.
  - exists a1, p. split; [exact H1|]. split; [exact H2|exact H3].
Defined.
