(* ===== verification/Startup.v ===== *)
(** * Startup: a web server from its constructor to its first connections (src/httpserver.h, src/server/tcpserver.cc)

    The constructors and [start] of [HttpServer] and [TcpServer], called in the
    thread of the loop, put the acceptor, the pool of loops, the wheel and the
    timers together; from then on the acceptor hands every descriptor to the
    server. *)

From stdpp Require Import base list numbers gmap sets strings.
From Stdlib Require Import ZArith Lia SpecFloat.
From S2P Require Import Prelude Buffer Regex TimerNode FourHeap TimerQueue ServerTimers Channel TcpConnection ConnectionProofs HttpServer TcpServer LoopLife Sockets.

Local Open Scope Z_scope.
Local Open Scope result_scope.

(** ** State *)

(** [HttpServer] with what it owns or shares: the TCP server and its acceptor,
    the wheel, the timer queue of the loop, and the directory of the files. *)
Record HttpServer : Type := mkHttpServer {
  tcpserver_ : system;
  acceptor_ : Acceptor;
  connection_list_ : list Bucket;
  timer_queue_ : TimerQueue;
  srcDir : option bytes
}.

Definition set_tcpserver (s : system) (h : HttpServer) : HttpServer :=
  mkHttpServer s (acceptor_ h) (connection_list_ h) (timer_queue_ h) (srcDir h).
Definition set_acceptor (a : Acceptor) (h : HttpServer) : HttpServer :=
  mkHttpServer (tcpserver_ h) a (connection_list_ h) (timer_queue_ h) (srcDir h).
Definition set_timer_queue (q : TimerQueue) (h : HttpServer) : HttpServer :=
  mkHttpServer (tcpserver_ h) (acceptor_ h) (connection_list_ h) q (srcDir h).

Section startup.
Context (clock : nat -> TimerStamp).

(** ** Constructors *)

(** [TcpServer::TcpServer]: the acceptor gets [option] for [reuseport]. *)
Definition new_tcp_server (sock : io Z) (ch : nat) (idle : Z) (bound : bool) (base : nat)
    (listen_address : InetAddress) (name : bytes) (option : bool) (p : Epoller) : result (system * Acceptor) :=
  a ← new_acceptor sock ch idle bound listen_address option false p;
  Ok (new_server name (to_ip_port listen_address) (new_pool base), set_new_conn_callback a).

(** [HttpServer::HttpServer]. *)
Definition new_http_server (sock : io Z) (ch : nat) (idle : Z) (bound : bool) (base : nat)
    (listen_address : InetAddress) (name : bytes) (option : bool) (p : Epoller) (q : TimerQueue) : result HttpServer :=
  '(s, a) ← new_tcp_server sock ch idle bound base listen_address name option p;
  q1 ← construct_timer clock q;
  Ok (mkHttpServer s a new_wheel q1 None).

(** [set_dir]: [getcwd] with a buffer of 256 bytes answers null when the
    directory's name does not fit, and a string cannot be made from that. *)
Definition set_dir (pwd dir : bytes) (h : HttpServer) : result HttpServer :=
  guard_ NullDeref (Z.of_nat (length pwd) <? 256) ≫= fun _ =>
  Ok (mkHttpServer (tcpserver_ h) (acceptor_ h) (connection_list_ h) (timer_queue_ h) (Some (c_str pwd ++ dir))).

(** [set_thread_num] of both servers and of the pool. *)
Definition set_threads (n : Z) (h : HttpServer) : result HttpServer :=
  assert! (0 <=? n);
  let s := tcpserver_ h in
  let sv := server s in
  Ok (set_tcpserver (mkSystem (mkServer (name_ sv) (ip_port_ sv) (set_thread_num (Z.to_nat n) (thread_pool_ sv))
        (next_id sv) (connection_ sv)) (conns s) (queue s)) h).

(** ** Starting *)

(** [TcpServer::start]: the pool, then the acceptor; the loops [thread_init_cb_]
    is called with are part of the answer. *)
Definition start_tcp (fresh : nat -> nat) (listens : bool) (h : HttpServer) : result (list nat * HttpServer) :=
  let s := tcpserver_ h in
  let sv := server s in
  '(told, pl) ← start fresh (thread_pool_ sv);
  assert! (negb (listening_ (acceptor_ h)));
  a ← listen listens (acceptor_ h);
  Ok (told, set_acceptor a (set_tcpserver (mkSystem (mkServer (name_ sv) (ip_port_ sv) pl (next_id sv) (connection_ sv))
              (conns s) (queue s)) h)).

(** [HttpServer::start]. *)
Definition start_http (fresh : nat -> nat) (listens : bool) (h : HttpServer) : result (list nat * HttpServer) :=
  '(told, h1) ← start_tcp fresh listens h;
  q ← start_timer clock (timer_queue_ h1);
  Ok (told, set_timer_queue q h1).

(** ** Accepting *)

(** The listening socket is readable: a new descriptor goes to
    [TcpServer::new_connection]. *)
Definition on_accept (logs : Z -> Z) (answer again : io Z) (opened errno : Z) (h : HttpServer) : result HttpServer :=
  let '(evs, a) := Sockets.handle_read_ logs answer again opened errno (acceptor_ h) in
  let h1 := set_acceptor a h in
  match evs with
  | [NewConnection fd] => s ← new_connection (tcpserver_ h1); Ok (set_tcpserver s h1)
  | _ => Ok h1
  end.

Fixpoint accept_all (logs : Z -> Z) (answers : list (io Z)) (h : HttpServer) : result HttpServer :=
  match answers with
  | [] => Ok h
  | x :: xs => h1 ← on_accept logs x (IoErr 0) 0 0 h; accept_all logs xs h1
  end.

(** ** Proofs *)

Lemma on_accept_ok logs fd h :
  0 <= fd -> new_conn_callback_ (acceptor_ h) = true ->
  on_accept logs (IoOk fd) (IoErr 0) 0 0 h =
    (s ← new_connection (tcpserver_ h); Ok (set_tcpserver s h)).
Proof.
  intros Hfd Hcb. unfold on_accept, Sockets.handle_read_, accept. cbv zeta.
  destruct (Z.ltb_spec fd 0); [lia|]. cbv iota. destruct (Z.leb_spec 0 fd); [|lia].
  rewrite Hcb. cbn [tcpserver_ set_acceptor]. by destruct h.
Qed.

(** Accepting is what TcpServer's [Accept] steps are. *)
Lemma accept_all_run logs fds : forall h,
  Forall (fun fd => 0 <= fd) fds -> new_conn_callback_ (acceptor_ h) = true ->
  accept_all logs (IoOk <$> fds) h =
    (s ← server_run (replicate (length fds) Accept) (tcpserver_ h); Ok (set_tcpserver s h)).
Proof.
  induction fds as [|fd fds IH]; intros h Hfds Hcb; [by destruct h|].
  apply Forall_cons in Hfds as [Hfd Hfds]. cbn [accept_all fmap list_fmap length replicate server_run server_step].
  rewrite on_accept_ok by done. destruct (new_connection (tcpserver_ h)) as [s|f]; [|done].
  rewrite !bind_ok. by rewrite IH.
Qed.

Lemma accepted_replicate k : accepted (replicate k Accept) = k.
Proof. induction k as [|k IH]; [done|]. unfold accepted in *. cbn. by rewrite IH. Qed.

(** The loop of the [i]-th connection, with [n] threads. *)
Definition loop_of (n : Z) (base : nat) (fresh : nat -> nat) (i : nat) : nat :=
  if n =? 0 then base else fresh (i mod Z.to_nat n)%nat.

Lemma turn_loop_of n base fresh pl i :
  0 <= n -> loops_ pl = fresh <$> seq 0 (Z.to_nat n) -> base_loop_ pl = base -> turn pl i = loop_of n base fresh i.
Proof.
  intros Hn Hl Hb. unfold turn, loop_of. rewrite Hl, Hb. destruct (Z.eqb_spec n 0) as [->|Hne]; [done|].
  destruct (fresh <$> seq 0 (Z.to_nat n)) as [|l0 ls] eqn:Hls.
  { apply (f_equal length) in Hls. rewrite length_fmap, length_seq in Hls. cbn in Hls. lia. }
  rewrite <-Hls, length_fmap, length_seq, list_lookup_fmap, lookup_seq_lt; [done|].
  apply Nat.mod_upper_bound. lia.
Qed.

(** The connections of a server that has just been started. *)
Lemma accepts_served n base fresh name ip pl h logs fds :
  0 <= n -> tcpserver_ h = new_server name ip pl -> new_conn_callback_ (acceptor_ h) = true ->
  at_turn 0 pl -> loops_ pl = fresh <$> seq 0 (Z.to_nat n) -> base_loop_ pl = base ->
  Forall (fun x => 0 <= x) fds -> Z.of_nat (length fds) <= 2 ^ 31 - 2 ->
  exists h', accept_all logs (IoOk <$> fds) h = Ok h' /\ length (conns (tcpserver_ h')) = length fds /\
    forall i c, conns (tcpserver_ h') !! i = Some c -> cs_loop c = loop_of n base fresh i.
Proof.
  intros Hn Hs Hcb Hturn Hl Hb Hfds Hlen. rewrite accept_all_run by done. rewrite Hs.
  destruct (server_run_ok pl (replicate (length fds) Accept) (new_server name ip pl)) as (s & -> & Hinv & Hlens).
  - by apply server_inv_new.
  - cbn [conns new_server length]. by rewrite accepted_replicate.
  - rewrite bind_ok. eexists. split; [reflexivity|]. cbn [tcpserver_ set_tcpserver].
    rewrite Hlens, accepted_replicate. split; [reflexivity|]. intros i d Hi.
    destruct (inv_conn pl s Hinv i d Hi) as (_ & -> & _). by apply turn_loop_of.
Qed.

(** The acceptor of a constructed server. *)
Lemma constructed fd idle ch base bound addr name option p q q1 :
  0 <= idle -> construct_timer clock q = Ok q1 ->
  exists a, new_http_server (IoOk fd) ch idle bound base addr name option p q =
      Ok (mkHttpServer (new_server name (to_ip_port addr) (new_pool base)) a new_wheel q1 None) /\
    listening_ a = false /\ accept_channel_ a = ch /\ new_conn_callback_ a = true /\
    poller_ a = set_chan ch (new_channel fd) p.
Proof.
  intros Hidle Hq. unfold new_http_server, new_tcp_server, new_acceptor. cbn [create_listenfd].
  rewrite (proj2 (Z.leb_le 0 idle) Hidle). cbn [assert_]. rewrite !bind_ok. cbv beta iota. rewrite Hq, bind_ok.
  eexists. split; [reflexivity|]. by cbn.
Qed.

(** [start] of a server whose acceptor's channel is new. *)
Lemma started n ch fd base fresh listens name ip a w q q' d p :
  0 <= n -> listening_ a = false -> accept_channel_ a = ch -> poller_ a = set_chan ch (new_channel fd) p ->
  mirrors p -> store p !! ch = None -> channels_ p !! fd = None -> start_timer clock q = Ok q' ->
  exists told a' pl, (h1 ← set_threads n (mkHttpServer (new_server name ip (new_pool base)) a w q d);
                  start_http fresh listens h1) =
      Ok (told, mkHttpServer (new_server name ip pl) a' w q' d) /\
    told = (if (n =? 0) then [base] else fresh <$> seq 0 (Z.to_nat n)) /\
    listening_ a' = true /\ new_conn_callback_ a' = new_conn_callback_ a /\
    interest (poller_ a') !! fd = Some (kReadEvent, ch) /\
    (at_turn 0 pl /\ loops_ pl = fresh <$> seq 0 (Z.to_nat n) /\ base_loop_ pl = base) /\
    mirrors (poller_ a') /\
    store (poller_ a') = <[ch := set_status ADD (changed (fun e => Z.lor e kReadEvent) (new_channel fd))]> (store p).
Proof.
  intros Hn Hla Hcha Hpa Hm Hch Hfree Hq. unfold set_threads. rewrite (proj2 (Z.leb_le 0 n) Hn).
  cbn [assert_]. rewrite !bind_ok. unfold start_http, start_tcp.
  cbn [tcpserver_ set_tcpserver server new_server thread_pool_ acceptor_]. rewrite Hla.
  destruct (start_turn fresh (Z.to_nat n) base) as (pl & -> & Hturn & Hl & Hb). rewrite bind_ok.
  cbn [negb assert_]. rewrite bind_ok. unfold listen. rewrite Hcha, Hpa.
  destruct (enable_new ch fd p Hm Hch Hfree) as (p1 & -> & Hm1 & (c & Hcs & Hcfd & Hcst & Hce & _) & _ & Hstore).
  rewrite !bind_ok. cbn [timer_queue_ set_acceptor set_tcpserver]. rewrite Hq, bind_ok.
  eexists _, _, pl. split; [reflexivity|]. split; [|split; [reflexivity|split; [reflexivity|split; [|split; [by split|by split]]]]].
  - destruct (Z.eqb_spec n 0) as [->|Hne]; [reflexivity|].
    assert ((Z.to_nat n =? 0)%nat = false) as ->; [|reflexivity]. apply Nat.eqb_neq. lia.
  - cbn [poller_]. rewrite <-Hcfd, <-Hce. by apply interest_some.
Qed.

(** C29: A server that was constructed and started in its loop's thread listens, its
    pool runs the loops that were asked for, the wheel has three empty buckets
    and both timers are set; whatever the kernel said to [bind] and [listen].
    Starting it again fails an assertion.  The descriptors accepted from then
    on become connections of the server, the [i]-th one in loop [i] modulo the
    number of loops. *)
Theorem server_starts (fd idle g idx n : Z) (ch base : nat) (bound listens option : bool) (addr : InetAddress)
    (name : bytes) (p : Epoller) (fresh : nat -> nat) :
  0 <= fd -> 0 <= idle -> mirrors p -> store p !! ch = None -> channels_ p !! fd = None ->
  0 <= g -> g + 2 + Z.of_nat LIMIT < 2 ^ 31 -> (forall k, 0 <= clock k < 2 ^ 62) -> 0 <= n ->
  exists told h, (h0 ← new_http_server (IoOk fd) ch idle bound base addr name option p (new_queue g idx);
                  h1 ← set_threads n h0; start_http fresh listens h1) = Ok (told, h) /\
    told = (if (n =? 0) then [base] else fresh <$> seq 0 (Z.to_nat n)) /\
    listening_ (acceptor_ h) = true /\ interest (poller_ (acceptor_ h)) !! fd = Some (kReadEvent, ch) /\
    connection_list_ h = [∅; ∅; ∅] /\
    (exists r, two_timers (g + 1) (g + 2) (clock 0 + 1 * ns_per_s) (clock r + 5 * ns_per_s) (timer_queue_ h)) /\
    start_http fresh listens h = Fault AssertFailed /\
    forall logs fds, Forall (fun x => 0 <= x) fds -> Z.of_nat (length fds) <= 2 ^ 31 - 2 ->
      exists h', accept_all logs (IoOk <$> fds) h = Ok h' /\
        length (conns (tcpserver_ h')) = length fds /\
        forall i c, conns (tcpserver_ h') !! i = Some c ->
          cs_loop c = loop_of n base fresh i.
Proof.
  intros Hfd Hidle Hm Hch Hfree Hg Hlim Hc Hn.
  destruct (server_timers_spec clock g idx Hg Hlim Hc) as (q1 & q & r & Hq1 & Hq & _ & Htwo).
  destruct (constructed fd idle ch base bound addr name option p _ q1 Hidle Hq1) as (a & -> & Hl & Hcha & Hcb & Hpa).
  rewrite bind_ok.
  destruct (started n ch fd base fresh listens name (to_ip_port addr) a new_wheel q1 q None p)
    as (told & a' & pl & -> & Htold & Hl' & Hcb' & Hint & (Hturn & Hloops & Hbase) & _); [assumption..|].
  do 2 eexists. split; [reflexivity|]. split; [exact Htold|]. split; [exact Hl'|]. split; [exact Hint|].
  split; [reflexivity|]. split; [exists r; exact Htwo|]. split.
  - unfold start_http, start_tcp, start. cbn [tcpserver_ server new_server thread_pool_].
    destruct Hturn as [-> _]. reflexivity.
  - intros logs fds Hfds Hlen. apply (accepts_served n base fresh name (to_ip_port addr) pl); try assumption.
    + reflexivity.
    + cbn [acceptor_]. by rewrite Hcb'.
Qed.
End startup.

(** ** Witness *)

Theorem server_starts_witness :
  exists told h, (h0 ← new_http_server (fixed_clock 7) (IoOk 5) 0 6 true 0 (new_address 80 false) (lit "web") true
                         (new_poller ∅) (new_queue 0 0);
                  h1 ← set_threads 2 h0; start_http (fixed_clock 7) demo_fresh true h1) = Ok (told, h) /\
    told = [1; 2]%nat /\ start_http (fixed_clock 7) demo_fresh true h = Fault AssertFailed /\
    exists h', accept_all (fun e => e) (IoOk <$> [9; 10; 11]) h = Ok h' /\ length (conns (tcpserver_ h')) = 3%nat.
Proof.
  destruct (server_starts (fixed_clock 7) 5 6 0 0 2 0 0 true true true (new_address 80 false) (lit "web")
              (new_poller ∅) demo_fresh) as (told & h & Hr & Ht & _ & _ & _ & _ & Hagain & Hall);
    [lia|lia| |reflexivity|reflexivity|lia|reflexivity|unfold fixed_clock; lia|lia|].
  - apply new_poller_mirrors. intros i c Hc. discriminate Hc.
  - exists told, h. split; [exact Hr|]. split; [exact Ht|]. split; [exact Hagain|].
    destruct (Hall (fun e => e) [9; 10; 11]) as (h' & Hh' & Hlen & _);
      [repeat constructor; lia|vm_compute; discriminate|].
    exists h'. split; [exact Hh'|exact Hlen].
Defined.
