(* ===== verification/Program.v ===== *)
(** * Program: the web server as one program (src/httpserver.h, src/event, src/server, src/base)

    A loop, a web server in its thread, and [loop.loop()]: the program of
    unit_test/web_test.  The constructors put the wake-up channel, the timer and
    the listening socket into one poller; a round of the loop then takes what
    the kernel reports, lets the timer queue decide if the wheel turns and the
    acceptor if there is a new connection, and does the rest as Iteration says,
    with the server's table as its ledger.  [launch] takes the number of
    threads; the rounds are those of a server without threads of its own, where
    all connections are the first loop's (web_test asks for six). *)

From stdpp Require Import base list numbers strings gmap sets.
From Stdlib Require Import ZArith Lia SpecFloat.
From S2P Require Import Prelude TimerNode FourHeap Expired TimerQueue ServerTimers Buffer Regex SqlConnPool HttpRequest Accounts LoopLife Sockets Startup TcpServer HttpResponse HttpContext Channel TcpConnection ConnectionProofs HttpServer Serving SharedPoller Reactor Service Refinement Iteration Table.

Local Open Scope Z_scope.
Local Open Scope result_scope.

(** ** State *)

(** The acceptor's callback and spare descriptor are in [p_acceptor]; its poller
    is the one of the loop. *)
Record program {DB : Type} `{!MySQL DB} : Type := mkProgram {
  p_loop : loop_state (DB := DB);
  p_table : directory;
  p_timers : TimerQueue;
  p_acceptor : Acceptor
}.
Arguments mkProgram {DB _}.

Section program.
Context {DB : Type} `{!MySQL DB} {FS : FileSystem} {PQ : PriorityQueue}.
Context (clock : nat -> TimerStamp) (logs : Z -> Z).
Implicit Types (P : program (DB := DB)) (wd : world (DB := DB)) (a : service (env DB)).

(** The channels of the timer queue, the eventfd and the acceptor. *)
Context (tch wch lch : nat).

Definition role_of (i : nat) : role :=
  if decide (i = lch) then Listener else if decide (i = tch) then Timer else if decide (i = wch) then WakeUp else Connection.

(** ** Construction *)

(** What the kernel and the caller give the constructors. *)
Record setting : Type := mkSetting {
  st_loop : nat;                    (* the loop's number *)
  st_epollfd : Z; st_timerfd : Z; st_wakefd : Z; st_listenfd : Z; st_idle : Z;
  st_garbage : Z * Z;               (* what the timer queue leaves uninitialised *)
  st_bound : bool; st_listens : bool;
  st_address : InetAddress; st_name : bytes; st_option : bool;
  st_pwd : bytes; st_dir : bytes
}.

(** [EventLoop loop; HttpServer server(&loop, ...); server.set_dir(...);
    server.set_thread_num(threads); server.start();]: the program, and the
    directory of its files; [fresh] numbers the loops of the threads. *)
Definition launch (threads : Z) (fresh : nat -> nat) (x : setting) (w : outside) wd : result (bytes * program) :=
  '(l, _) ← new_event_loop (st_loop x) tch wch (st_epollfd x) (st_timerfd x) (IoOk (st_wakefd x))
              (st_garbage x).1 (st_garbage x).2 w;
  h0 ← new_http_server clock (IoOk (st_listenfd x)) lch (st_idle x) (st_bound x) (st_loop x) (st_address x) (st_name x)
         (st_option x) (LoopLife.poller_ l) (LoopLife.timer_queue_ l);
  h1 ← set_dir (st_pwd x) (st_dir x) h0;
  h2 ← set_threads threads h1;
  '(_, h) ← start_http clock fresh (st_listens x) h2;
  dir ← of_option NullDeref (Startup.srcDir h);
  Ok (dir, mkProgram (mkLoopState ∅ (Sockets.poller_ (acceptor_ h)) (connection_list_ h) wd)
             (mkDirectory (server (tcpserver_ h)) ∅) (Startup.timer_queue_ h) (acceptor_ h)).

(** ** Rounds *)

(** What [accept] answers, and the calls after it. *)
Record accepting : Type := mkAccepting { ac_answer : io Z; ac_again : io Z; ac_opened : Z; ac_errno : Z }.

(** What the kernel does in a round, the number of the channel that is made if
    a connection comes, and the connections whose queued functors run. *)
Record kernel : Type := mkKernel {
  k_events : option (list (Z * nat));
  k_read : nat -> io bytes; k_sent : nat -> io nat; k_written : nat -> io nat;
  k_accept : accepting;
  k_object : nat;
  k_queue : list nat
}.

(** The read callback of a channel that is not a connection's is called. *)
Definition read_report (i : nat) (e : Z * nat) : bool :=
  (e.2 =? i)%nat && has_bits e.1 (Z.lor (Z.lor POLLIN POLLPRI) POLLRDHUP).
Definition reads (i : nat) (k : kernel) : bool := existsb (read_report i) (default [] (k_events k)).

(** The timer queue's part of a round: if the wheel's timer ran, and the queue.
    The loop over the expired timers is given [fuel]. *)
Definition timer_part (fuel : nat) (k : kernel) (q : TimerQueue) : result (bool * TimerQueue) :=
  if reads tch k then
    q1 ← TimerQueue.handle_read_ clock server_callback fuel q;
    Ok (bool_decide (fired_ q1 = fired_ q ++ [ontime_cb]), q1)
  else Ok (false, q).

(** The acceptor's part: the new connection, if any. *)
Definition accept_part (k : kernel) (acc : Acceptor) : option (nat * Z) * Acceptor :=
  if reads lch k then
    let '(evs, acc1) := Sockets.handle_read_ logs (ac_answer (k_accept k)) (ac_again (k_accept k)) (ac_opened (k_accept k))
                          (ac_errno (k_accept k)) acc in
    (match evs with [NewConnection fd] => Some (k_object k, fd) | _ => None end, acc1)
  else (None, acc).

Definition round_of (k : kernel) (due : bool) (conn : option (nat * Z)) : round :=
  mkRound (k_events k) (fun i => mkAnswers (k_read k i) (k_sent k i) (k_written k i) conn due) (OfConnection <$> k_queue k).

(** A round of the program.  The timer queue and the acceptor share nothing with
    the connections, so their parts may come first. *)
Definition program_round (fuel : nat) (dir : bytes) (k : kernel) P : result program :=
  '(due, q) ← timer_part fuel k (p_timers P);
  let '(conn, acc) := accept_part k (p_acceptor P) in
  '(s, d) ← play dir role_of true (round_of k due conn) (p_loop P, p_table P);
  Ok (mkProgram s d q acc).

Fixpoint program_rounds (fuel : nat) (dir : bytes) (ks : list kernel) P : result program :=
  match ks with
  | [] => Ok P
  | k :: ks => P1 ← program_round fuel dir k P; program_rounds fuel dir ks P1
  end.

(** ** Launching *)

Definition files_of (x : setting) : bytes := c_str (st_pwd x) ++ st_dir x.

(** A channel the loop reads. *)
Definition reading (fd : Z) : Channel := set_status ADD (changed (fun e => Z.lor e kReadEvent) (new_channel fd)).

(** Three descriptors, three channels, a directory [getcwd] has room for, and
    garbage that leaves room for ids. *)
Record sane (x : setting) : Prop := {
  sn_channels : NoDup [tch; wch; lch];
  sn_descriptors : NoDup [st_timerfd x; st_wakefd x; st_listenfd x];
  sn_open : 0 <= st_listenfd x /\ 0 <= st_idle x;
  sn_pwd : Z.of_nat (length (st_pwd x)) < 256;
  sn_garbage : 0 <= (st_garbage x).1 /\ (st_garbage x).1 + 2 + Z.of_nat LIMIT < 2 ^ 31
}.

Definition own_channels (x : setting) : gmap nat Channel :=
  {[ lch := reading (st_listenfd x); wch := reading (st_wakefd x); tch := reading (st_timerfd x) ]}.

Lemma own_channels_ok (x : setting) (p : Epoller) :
  sane x -> mirrors p -> store p = own_channels x -> shared_ok p /\ calm p.
Proof.
  intros [_ Hfd _ _ _] Hm Hst. apply NoDup_cons in Hfd as [H1 [H2 _]%NoDup_cons].
  rewrite !not_elem_of_cons in H1. rewrite !not_elem_of_cons in H2. destruct H1 as (H1 & H1' & _), H2 as (H2 & _).
  split; [split; [done|]|].
  - intros i j ci cj. rewrite Hst. unfold own_channels.
    intros [[<- <-]|[_ [[<- <-]|[_ [<- <-]%lookup_singleton_Some]]%lookup_insert_Some]]%lookup_insert_Some
      [[<- <-]|[_ [[<- <-]|[_ [<- <-]%lookup_singleton_Some]]%lookup_insert_Some]]%lookup_insert_Some; cbn; congruence.
  - intros i c. rewrite Hst. unfold own_channels.
    by intros [[<- <-]|[_ [[<- <-]|[_ [<- <-]%lookup_singleton_Some]]%lookup_insert_Some]]%lookup_insert_Some.
Qed.

(** The only timer and the only listener among the channels. *)
Definition one_of_each : Prop :=
  (role_of tch = Timer /\ forall i, i <> tch -> role_of i <> Timer) /\
  role_of lch = Listener /\ forall i, i <> lch -> role_of i <> Listener.

(** Each of the three has its role, and its place. *)
Lemma own_roles x :
  sane x -> one_of_each /\
    own_channels x !! tch = Some (reading (st_timerfd x)) /\ own_channels x !! wch = Some (reading (st_wakefd x)) /\
    own_channels x !! lch = Some (reading (st_listenfd x)).
Proof.
  intros [Hch _ _ _ _]. apply NoDup_cons in Hch as [C1 [C2 _]%NoDup_cons].
  rewrite !not_elem_of_cons in C1. rewrite !not_elem_of_cons in C2. unfold one_of_each, role_of, own_channels. split.
  { split; (split; [|intros i Hi; by repeat case_decide]); [by rewrite decide_False, decide_True by naive_solver|by rewrite decide_True]. }
  split.
  { rewrite !lookup_insert_ne by naive_solver. apply lookup_singleton_eq. }
  split; [|apply lookup_insert_eq]. rewrite lookup_insert_ne by naive_solver. apply lookup_insert_eq.
Qed.

(** The constructors' loop. *)
Lemma loop_made x w :
  sane x ->
  exists l w1, new_event_loop (st_loop x) tch wch (st_epollfd x) (st_timerfd x) (IoOk (st_wakefd x))
      (st_garbage x).1 (st_garbage x).2 w = Ok (l, w1) /\
    mirrors (LoopLife.poller_ l) /\ LoopLife.timer_queue_ l = new_queue (st_garbage x).1 (st_garbage x).2 /\
    store (LoopLife.poller_ l) = {[ wch := reading (st_wakefd x); tch := reading (st_timerfd x) ]} /\
    channels_ (LoopLife.poller_ l) = {[ st_wakefd x := wch; st_timerfd x := tch ]}.
Proof.
  intros [Hch Hfd _ _ _]. apply NoDup_cons in Hch as [Hch _]. apply NoDup_cons in Hfd as [Hfd _].
  rewrite !not_elem_of_cons in Hch. rewrite !not_elem_of_cons in Hfd.
  unfold new_event_loop, watch_timerfd.
  destruct (enable_new tch (st_timerfd x) (new_poller ∅)) as (p1 & -> & Hm1 & _ & Hc1 & Hs1); [by apply new_poller_mirrors|done|done|].
  rewrite bind_ok. cbn [createEventfd]. rewrite bind_ok.
  destruct (enable_new wch (st_wakefd x) p1) as (p2 & -> & Hm2 & _ & Hc2 & Hs2); [done| | |].
  - rewrite Hs1. cbn. rewrite insert_empty, lookup_singleton_ne by naive_solver. done.
  - rewrite Hc1. cbn. rewrite insert_empty, lookup_singleton_ne by naive_solver. done.
  - rewrite bind_ok. do 2 eexists. split; [reflexivity|]. cbn [LoopLife.poller_ LoopLife.timer_queue_].
    split; [done|]. split; [done|]. rewrite Hs2, Hs1, Hc2, Hc1. cbn. by rewrite !insert_empty.
Qed.

(** The clock counts nanoseconds and does not go back. *)
Definition clock_sound : Prop := forall n, 0 <= clock n <= clock (S n) /\ clock n < 2 ^ 62.

(** What a program stands for that has just been launched. *)
Lemma launched fresh x w wd (n : Z) (k : nat) :
  sane x -> clock_sound -> Z.of_nat k < 2 ^ 31 - 1 ->
  exists P, launch 0 fresh x w wd = Ok (files_of x, P) /\
    represents (w_os wd) n (p_loop P) (mkService (w_env wd) ∅) /\
    in_step (1 + Z.of_nat k) k ∅ (p_table P) /\ next_id (dir_server (p_table P)) = 1 /\
    (exists t l, two_timers ((st_garbage x).1 + 1) ((st_garbage x).1 + 2) t l (p_timers P)) /\
    members (p_loop P) = ∅ /\ store (epoll (p_loop P)) = own_channels x.
Proof.
  intros Hx Hclock Hk. pose proof Hx as [Hch Hfd [Hfd0 Hidle] Hpwd [Hg Hlim]]. unfold launch.
  destruct (loop_made x w Hx) as (l & w1 & -> & Hm & Hq & Hst & Hc). rewrite bind_ok. cbv beta iota.
  destruct (server_timers_spec clock (st_garbage x).1 (st_garbage x).2 Hg Hlim) as (q1 & q & r & Hq1 & Hq2 & Hr & Htwo).
  { intros m. pose proof (Hclock m). lia. }
  rewrite <-Hq in Hq1.
  destruct (constructed clock (st_listenfd x) (st_idle x) lch (st_loop x) (st_bound x) (st_address x) (st_name x) (st_option x)
    (LoopLife.poller_ l) (LoopLife.timer_queue_ l) q1 Hidle Hq1) as (acc & -> & Hl & Hacc & Hcb & Hpa).
  rewrite bind_ok. unfold set_dir. rewrite (proj2 (Z.ltb_lt _ _) Hpwd). unfold guard_. rewrite !bind_ok.
  cbn [tcpserver_ acceptor_ connection_list_ Startup.timer_queue_]. fold (files_of x).
  apply NoDup_cons in Hch as [C1 [C2 _]%NoDup_cons]. apply NoDup_cons in Hfd as [D1 [D2 _]%NoDup_cons].
  rewrite !not_elem_of_cons in C1. rewrite !not_elem_of_cons in C2. rewrite !not_elem_of_cons in D1. rewrite !not_elem_of_cons in D2.
  destruct (started clock 0 lch (st_listenfd x) (st_loop x) fresh (st_listens x) (st_name x)
    (to_ip_port (st_address x)) acc new_wheel q1 q (Some (files_of x)) (LoopLife.poller_ l))
    as (told & a' & pl & Hstart & _ & _ & _ & _ & ([Hsp _] & Hloops & _) & Hm' & Hst'); [done|done|done|done|done| | |done|].
  { by rewrite Hst, lookup_insert_ne, lookup_singleton_ne by naive_solver. }
  { by rewrite Hc, lookup_insert_ne, lookup_singleton_ne by naive_solver. }
  destruct (set_threads 0 _) as [h1|]; [|discriminate Hstart]. rewrite bind_ok in Hstart. rewrite bind_ok.
  rewrite Hstart, bind_ok. cbn [Startup.srcDir of_option]. rewrite bind_ok. eexists. split; [reflexivity|].
  cbn [p_loop p_table p_timers acceptor_ connection_list_ tcpserver_ Startup.timer_queue_ members epoll].
  assert (Hown : store (Sockets.poller_ a') = own_channels x) by (by rewrite Hst', Hst).
  destruct (own_channels_ok x _ Hx Hm' Hown) as [Hs Hcalm].
  split; [exact (represents_start n _ wd (w_env wd) Hs Hcalm eq_refl)|]. split; [by apply in_step_start|]. split; [done|].
  by split; [eexists _, _|].
Qed.

(** ** The timers of a run *)

(** How often the wheel was turned. *)
Definition ticked (q : TimerQueue) : nat := length (filter (fun cb => cb = ontime_cb) (fired_ q)).

(** A wake-up that finds all timers expired. *)
Definition all_due (q : TimerQueue) : bool :=
  forallb (fun nd => timer_ nd <=? clock (readings_ q)) (heap_ (timer_list_ q)).

(** The rounds of Iteration that the program's rounds are. *)
Fixpoint rounds_of (fuel : nat) (ks : list kernel) (q : TimerQueue) (acc : Acceptor) : list round :=
  match ks with
  | [] => []
  | k :: ks =>
      match timer_part fuel k q with
      | Ok (due, q1) => let '(conn, acc1) := accept_part k acc in round_of k due conn :: rounds_of fuel ks q1 acc1
      | Fault _ => []
      end
  end.

(** The program comes to a round whose wake-up finds all timers expired: the loop
    over them does not end (ServerTimers). *)
Definition hangs (fuel : nat) (dir : bytes) (ks : list kernel) P : Prop :=
  exists ks1 k ks2 P1, ks = ks1 ++ k :: ks2 /\ program_rounds fuel dir ks1 P = Ok P1 /\
    reads tch k = true /\ all_due (p_timers P1) = true.

Lemma all_due_two i j t l q :
  two_timers i j t l q -> all_due q = (t <=? clock (readings_ q)) && (l <=? clock (readings_ q)).
Proof.
  intros Hq. destruct (two_root i j t l q Hq) as (n1 & n2 & Hh & _ & Hor). unfold all_due. rewrite Hh. cbn [forallb].
  destruct Hor as [[-> ->]|[-> ->]]; cbn [timer_ tick_node load_node]; [by rewrite andb_true_r|].
  rewrite andb_true_r. apply andb_comm.
Qed.

Lemma timer_part_ok i j t l m k q :
  two_timers i j t l q -> clock_sound -> (reads tch k = true -> all_due q = false) ->
  exists due q1 t' l', timer_part (S (S m)) k q = Ok (due, q1) /\ two_timers i j t' l' q1 /\
    ticked q1 = (ticked q + if due then 1 else 0)%nat /\ (due = true -> reads tch k = true).
Proof.
  intros Hq Hclock Hdue. unfold timer_part. destruct (reads tch k).
  - specialize (Hdue eq_refl). rewrite (all_due_two i j t l q Hq) in Hdue.
    pose proof (Hclock (readings_ q)) as [Hc _]. pose proof (Hclock (S (readings_ q))) as [_ Hc'].
    destruct (wakeup_returns clock i j t l q m Hq Hc Hc' Hdue) as (q1 & now & -> & Hf & Hq1 & _). rewrite bind_ok.
    do 2 eexists. do 2 eexists. split; [reflexivity|]. split; [exact Hq1|]. split; [|done].
    unfold ticked. rewrite Hf, filter_app, length_app.
    destruct (t <=? _); [by rewrite bool_decide_true|]. rewrite bool_decide_false; [by destruct (l <=? _)|].
    intros Heq%app_inv_head. by destruct (l <=? _).
  - exists false, q, t, l. rewrite Nat.add_0_r. by split_and!.
Qed.

(** The rounds of the program are those of its loop, with the timers and the
    acceptor beside it. *)
Fixpoint dues (rs : list round) : nat :=
  match rs with [] => 0 | r :: rs => (if a_expired (r_answers r tch) then 1 else 0) + dues rs end.

Lemma timer_part_hangs i j t l fuel k q :
  two_timers i j t l q -> reads tch k = true -> all_due q = true -> timer_part fuel k q = Fault OutOfFuel.
Proof.
  intros Hq Hr Hdue. rewrite (all_due_two i j t l q Hq) in Hdue. unfold timer_part. rewrite Hr.
  by rewrite (wakeup_hangs clock i j t l q fuel Hq Hdue).
Qed.

Lemma rounds_program (m : nat) (dir : bytes) ks : forall P i j t l,
  two_timers i j t l (p_timers P) -> clock_sound ->
  match play_all dir role_of true (rounds_of (S (S m)) ks (p_timers P) (p_acceptor P)) (p_loop P, p_table P) with
  | Ok y =>
      (exists P', program_rounds (S (S m)) dir ks P = Ok P' /\ (p_loop P', p_table P') = y /\
        (exists t' l', two_timers i j t' l' (p_timers P')) /\
        ticked (p_timers P') = (ticked (p_timers P) + dues (rounds_of (S (S m)) ks (p_timers P) (p_acceptor P)))%nat) \/
      program_rounds (S (S m)) dir ks P = Fault OutOfFuel /\ hangs (S (S m)) dir ks P
  | Fault f => program_rounds (S (S m)) dir ks P = Fault f
  end.
Proof.
  induction ks as [|k ks IH]; intros P i j t l Hq Hclock; cbn [rounds_of program_rounds].
  - left. exists P. split; [done|]. split; [done|]. split; [by exists t, l|]. cbn. lia.
  - destruct (reads tch k && all_due (p_timers P)) eqn:Hhang.
    { apply andb_true_iff in Hhang as [Hr Hdue]. unfold program_round.
      rewrite (timer_part_hangs i j t l _ k _ Hq Hr Hdue). cbn [play_all mbind result_bind]. right. split; [done|].
      by exists [], k, ks, P. }
    assert (Hdue : reads tch k = true -> all_due (p_timers P) = false) by (intros Hr; by rewrite Hr in Hhang).
    destruct (timer_part_ok i j t l m k _ Hq Hclock Hdue) as (due & q1 & t1 & l1 & Hk & Hq1 & Ht & _).
    rewrite Hk. unfold program_round at 1. rewrite Hk, bind_ok. destruct (accept_part k (p_acceptor P)) as [conn acc1] eqn:Hacc.
    cbn [play_all]. destruct (play dir role_of true (round_of k due conn) (p_loop P, p_table P)) as [[s1 d1]|f] eqn:Hplay;
      rewrite ?bind_ok.
    2: { cbn [mbind result_bind]. unfold program_round. by rewrite Hk, bind_ok, Hacc, Hplay. }
    set (P1 := mkProgram s1 d1 q1 acc1).
    assert (Hround : program_round (S (S m)) dir k P = Ok P1) by (unfold program_round; by rewrite Hk, bind_ok, Hacc, Hplay, bind_ok).
    specialize (IH P1 i j t1 l1 Hq1 Hclock). cbn [p_timers p_acceptor p_loop p_table P1] in IH.
    destruct (play_all dir role_of true (rounds_of (S (S m)) ks q1 acc1) (s1, d1)) as [y|f]; rewrite Hround, bind_ok; [|exact IH].
    destruct IH as [(P' & Hrun & Hy & Htw & Htick)|[Hrun (ks1 & k' & ks2 & P2 & -> & Hpre & Hh)]].
    + left. exists P'. split; [done|]. split; [done|]. split; [done|]. rewrite Htick. cbn [dues r_answers round_of a_expired].
      rewrite Ht. lia.
    + right. split; [done|]. exists (k :: ks1), k', ks2, P2. split; [done|]. cbn [program_rounds]. by rewrite Hround, bind_ok.
Qed.

(** ** The seconds of a run *)

Definition ticks (e : loop_event) : nat := match e with Second => 1 | _ => 0 end.
Definition seconds (es : list loop_event) : nat := sum_list_with ticks es.

Lemma seconds_app es es' : seconds (es ++ es') = (seconds es + seconds es')%nat.
Proof. apply sum_list_with_app. Qed.

(** What is not visible brings no second and no connection. *)
Lemma visible_sum (f : loop_event -> nat) es :
  (forall e, ~ visible e -> f e = 0%nat) -> sum_list_with f (filter visible es) = sum_list_with f es.
Proof.
  intros Hf. induction es as [|e es IH]; [done|]. destruct (decide (visible e)) as [Hv|Hv].
  - rewrite filter_cons_True by done. simpl. by rewrite IH.
  - rewrite filter_cons_False by done. simpl. by rewrite IH, Hf.
Qed.

Lemma visible_counts es es' :
  filter visible es = filter visible es' -> seconds es = seconds es' /\ arrivals es = arrivals es'.
Proof.
  intros Heq. split.
  - unfold seconds. rewrite <-(visible_sum ticks es), <-(visible_sum ticks es'), Heq; [done|by intros []..].
  - unfold arrivals. rewrite <-(visible_sum comes es), <-(visible_sum comes es'), Heq; [done|by intros []..].
Qed.

(** Whose callback brings an event, where it is not a connection's. *)
Definition raiser (e : loop_event) : option role :=
  match e with Second => Some Timer | Accept _ _ => Some Listener | _ => None end.

(** [f] counts nothing but what channels of role [R] bring. *)
Definition counts_only (R : role) (f : loop_event -> nat) : Prop := forall e, raiser e <> Some R -> f e = 0%nat.

Lemma ticks_only : counts_only Timer ticks.
Proof. by intros []. Qed.
Lemma comes_only : counts_only Listener comes.
Proof. by intros []. Qed.

Lemma counts_zero R f es : counts_only R f -> Forall (fun e => raiser e <> Some R) es -> sum_list_with f es = 0%nat.
Proof. intros Hf. induction 1 as [|e es He _ IH]; [done|]. simpl. by rewrite IH, Hf. Qed.

Lemma callbacks_raise i x cbs :
  Forall (fun e => raiser e = None \/ raiser e = Some (role_of i)) (concat (callback_events role_of true i x <$> cbs)).
Proof.
  apply Forall_concat, Forall_fmap, Forall_true. intros cb. cbn [compose]. unfold callback_events, closing.
  destruct (role_of i), cb; try (by repeat (constructor; [by auto|])).
  - destruct (a_read x) as [|[]]; repeat (constructor; [by auto|]); constructor.
  - destruct (a_expired x); repeat (constructor; [by auto|]); constructor.
  - destruct (a_accepted x) as [[]|]; repeat (constructor; [by auto|]); constructor.
Qed.

Lemma callbacks_zero R f i x cbs :
  counts_only R f -> role_of i <> R -> sum_list_with f (concat (callback_events role_of true i x <$> cbs)) = 0%nat.
Proof.
  intros Hf Hi. apply (counts_zero R f _ Hf). eapply Forall_impl; [apply (callbacks_raise i x cbs)|]. intros e [->| ->]; congruence.
Qed.

(** The one callback of a channel that is no connection's. *)
Definition on_read (i : nat) x : list loop_event := callback_events role_of true i x ReadCb.

Lemma own_handlers i x ch m :
  role_of i <> Connection -> tied_ ch = false ->
  handlers role_of true i x ch m =
    if has_bits (revents_ ch) (Z.lor (Z.lor POLLIN POLLPRI) POLLRDHUP) then on_read i x else [].
Proof.
  intros Hr Ht. unfold handlers, handle_event, handle_event_guard_, call_if. rewrite Ht.
  assert (Hin : forall k, installed (role_of i) k = bool_decide (k = ReadCb)) by (intros []; by destruct (role_of i)).
  rewrite !Hin, !andb_false_r, andb_true_r. cbn [app]. rewrite app_nil_r. destruct (has_bits _ _); [|done].
  cbn [fmap list_fmap concat]. by rewrite app_nil_r.
Qed.

(** What the only channel of its role brings, it brings when it is read. *)
Lemma calls_count R f j evs (s : loop_state (DB := DB)) (xs : nat -> answers) :
  counts_only R f -> R <> Connection -> role_of j = R -> (forall i, i <> j -> role_of i <> R) -> NoDup evs.*2 ->
  (forall r, (r, j) ∈ evs -> exists c, store (epoll s) !! j = Some (set_revents r c) /\ tied_ c = false) ->
  sum_list_with f (calls role_of true s ((fun i => (i, xs i)) <$> evs.*2)) =
    if existsb (read_report j) evs then sum_list_with f (on_read j (xs j)) else 0%nat.
Proof.
  intros Hf HR Hr Hother. induction evs as [|[r i] evs IH]; intros Hnd Hst; [done|].
  cbn [fmap list_fmap snd] in *. apply NoDup_cons in Hnd as [Hi Hnd]. unfold calls. rewrite fmap_cons. cbn [concat fst snd].
  rewrite sum_list_with_app. fold (calls role_of true s ((fun i => (i, xs i)) <$> evs.*2)).
  rewrite IH; [|done|intros r' Hr'; apply Hst; by right].
  cbn [existsb]. unfold read_report at 2. cbn [fst snd]. destruct (Nat.eqb_spec i j) as [->|Hne]; cbn [andb orb].
  - destruct (Hst r) as (c & Hc & Ht); [by left|]. rewrite Hc. unfold called. rewrite own_handlers by (done || congruence).
    assert (Hno : existsb (read_report j) evs = false).
    { apply not_true_is_false. intros ([r' i] & Hin & [Hj%Nat.eqb_eq _]%andb_true_iff)%existsb_exists. cbn [snd] in Hj. subst i.
      apply Hi. apply list_elem_of_fmap. exists (r', j). split; [done|]. by apply list_elem_of_In. }
    rewrite Hno, orb_false_r. cbn [revents_ set_revents]. destruct (has_bits _ _); simpl; lia.
  - destruct (store (epoll s) !! i) as [ch|]; [|done]. unfold called, handlers. by rewrite (callbacks_zero R f) by (done || by apply Hother).
Qed.

(** A channel of the loop's own, as the constructors left it but for what the
    poller notes. *)
Definition own_channel (i : nat) (fd : Z) (s : loop_state (DB := DB)) : Prop :=
  members s !! i = None /\ exists r, store (epoll s) !! i = Some (set_revents r (reading fd)).

Lemma own_channel_kept i fd (s s' : loop_state (DB := DB)) : own_channel i fd s -> undisturbed i s s' -> own_channel i fd s'.
Proof.
  intros [Hm [r Hr]] Hu. destruct Hu as [[_ Hm'] [r' Hr']]; [split; [by rewrite Hr|done]|]. split; [done|].
  exists r'. by rewrite Hr', Hr.
Qed.

Lemma own_channel_watched i fd (s : loop_state (DB := DB)) :
  mirrors (epoll s) -> own_channel i fd s -> interest (epoll s) !! fd = Some (kReadEvent, i).
Proof. intros Hm [_ [r Hr]]. exact (interest_some (epoll s) i (set_revents r (reading fd)) Hm Hr eq_refl). Qed.

Lemma round_count R f j k due conn fd (s : loop_state (DB := DB)) :
  counts_only R f -> R <> Connection -> role_of j = R -> (forall i, i <> j -> role_of i <> R) ->
  kernel_report role_of (k_events k) s -> shared_ok (epoll s) -> own_channel j fd s ->
  sum_list_with f (events_of role_of true (round_of k due conn) s) =
    if reads j k then sum_list_with f (on_read j (r_answers (round_of k due conn) j)) else 0%nat.
Proof.
  intros Hf HR Hr Hother [Hnd Hw _] Hs [_ [r0 Hc]]. unfold events_of. cbn [r_events r_functors round_of].
  destruct (poll_noted (k_events k) (epoll s) Hs) as (p & -> & _ & Hrev).
  { intros r i Hi. destruct (Hw r i Hi) as (fd' & ev & He). apply (proj2 (proj1 Hs)) in He as (ch & Hch & _). by exists ch. }
  { done. }
  assert (Hfun : sum_list_with f (concat (functor_events <$> (OfConnection <$> k_queue k))) = 0%nat).
  { apply (counts_zero R f _ Hf), Forall_concat, Forall_fmap, Forall_fmap, Forall_true. intros i. by repeat constructor. }
  rewrite sum_list_with_app, Hfun, Nat.add_0_r. unfold ready_list.
  apply (calls_count R f j (default [] (k_events k)) (set_epoll p s)); try done.
  intros r Hin. destruct (Hrev r j Hin) as (c & Hc' & Hp). exists c. split; [exact Hp|].
  rewrite Hc in Hc'. by injection Hc' as <-.
Qed.

Definition someone (conn : option (nat * Z)) : nat := match conn with Some _ => 1 | None => 0 end.

(** A second passes in a round if the wheel's timer runs, and a connection comes
    if the acceptor has one. *)
Lemma round_counts k due conn tfd lfd (s : loop_state (DB := DB)) :
  one_of_each -> kernel_report role_of (k_events k) s -> shared_ok (epoll s) -> own_channel tch tfd s -> own_channel lch lfd s ->
  (due = true -> reads tch k = true) -> (is_Some conn -> reads lch k = true) ->
  seconds (events_of role_of true (round_of k due conn) s) = (if due then 1 else 0)%nat /\
  arrivals (events_of role_of true (round_of k due conn) s) = someone conn.
Proof.
  intros [[Ht Ht'] [Hl Hl']] Hrep Hs Hot Hol Hdue Hconn. split.
  - unfold seconds. rewrite (round_count Timer ticks tch k due conn tfd s ticks_only) by done.
    unfold on_read, callback_events. rewrite Ht. cbn [r_answers round_of a_expired].
    destruct due; [by rewrite Hdue|by destruct (reads tch k)].
  - unfold arrivals. rewrite (round_count Listener comes lch k due conn lfd s comes_only) by done.
    unfold on_read, callback_events. rewrite Hl. cbn [r_answers round_of a_accepted].
    destruct conn as [[j fd]|]; [by rewrite Hconn by by eexists|by destruct (reads lch k)].
Qed.

(** The descriptors the acceptor hands on in a run. *)
Fixpoint taken (rs : list round) : nat :=
  match rs with [] => 0 | r :: rs => someone (a_accepted (r_answers r lch)) + taken rs end.

Lemma accept_part_reads k acc conn acc1 : accept_part k acc = (conn, acc1) -> is_Some conn -> reads lch k = true.
Proof. unfold accept_part. destruct (reads lch k); [done|]. by intros [= <- <-] []. Qed.

Lemma rounds_counts (dir : bytes) {L : Type} `{!Ledger L} `{!LedgerOk (env DB) dir L} A tfd lfd m ks :
  forall q acc o n c (y y' : loop_state (DB := DB) * L) a i j t l,
  one_of_each -> dir <> [] -> page_limit dir A -> two_timers i j t l q -> clock_sound ->
  own_channel tch tfd y.1 -> own_channel lch lfd y.1 ->
  let rs := rounds_of (S (S m)) ks q acc in
  play_all dir role_of true rs y = Ok y' ->
  stands dir o n (arrivals (events_of_all dir role_of true rs y) + c) y a -> rounds_fit dir role_of true rs y a ->
  total_cost A (events_of_all dir role_of true rs y) <= n <= max_size - 2048 ->
  seconds (events_of_all dir role_of true rs y) = dues rs /\ arrivals (events_of_all dir role_of true rs y) = taken rs.
Proof.
  induction ks as [|k ks IH]; intros q acc o n c y y' a i j t l Hone Hdir Hlim Hq Hclock Hot Hol rs; [done|].
  unfold rs. cbn [rounds_of]. destruct (reads tch k && all_due q) eqn:Hhang.
  { apply andb_true_iff in Hhang as [Hr Hdue]. by rewrite (timer_part_hangs i j t l _ k _ Hq Hr Hdue). }
  assert (Hdue : reads tch k = true -> all_due q = false) by (intros Hr; by rewrite Hr in Hhang).
  destruct (timer_part_ok i j t l m k q Hq Hclock Hdue) as (due & q1 & t1 & l1 & -> & Hq1 & _ & Hreads).
  destruct (accept_part k acc) as [conn acc1] eqn:Hacc. set (r := round_of k due conn).
  cbn [events_of_all dues taken rounds_fit play_all]. intros Hplay Hst [Hfit Hrest] Hn. rewrite total_cost_app in Hn.
  destruct (round_counts k due conn tfd lfd y.1 Hone (rf_report _ _ _ _ _ _ Hfit) (lo_shared _ (rp_loop _ _ _ _ (proj1 Hst)))
    Hot Hol Hreads (accept_part_reads k acc conn acc1 Hacc)) as [Hsec Harr]. fold r in Hsec, Harr.
  rewrite arrivals_app, <-Nat.add_assoc in Hst. inv_bind Hplay. rename a0 into y1.
  pose proof (total_cost_nonneg dir A (events_of role_of true r y.1) Hlim).
  pose proof (total_cost_nonneg dir A (match play dir role_of true r y with
    | Ok y1 => events_of_all dir role_of true (rounds_of (S (S m)) ks q1 acc1) y1 | Fault _ => [] end) Hlim).
  pose proof (round_does dir role_of true o A n _ r y a Hst Hdir Hlim Hfit ltac:(lia)) as Hdo.
  unfold does in Hdo. rewrite Ha in *. destruct Hdo as (es & xs & a1 & Hstr & Hvis & _).
  rewrite seconds_app, arrivals_app. destruct Hstr as [Hserve Hst1 _ Hun].
  destruct (IH q1 acc1 _ _ c y1 y' a1 i j t1 l1 Hone Hdir Hlim Hq1 Hclock (own_channel_kept _ _ _ _ Hot (Hun tch))
    (own_channel_kept _ _ _ _ Hol (Hun lch)) Hplay Hst1) as [Hsec1 Harr1]; [by apply (Hrest y1 eq_refl es xs a1)|lia|].
  by rewrite Hsec, Harr, Hsec1, Harr1.
Qed.

(** ** The program *)

(** C1: The program serves from its constructor on. The constructors of the
    loop and the server and [start], without threads of the server's own, put
    three channels into one poller and nothing fails. From then on the kernel
    reports what it may, round after round, and the clients send what they
    like, with a database pool that is set up or not. If every round comes to
    its end, the program has done what the abstract service may do, and only
    that: each client is sent what the service says, a second passes for the
    clients exactly when the wheel's timer runs, the table has exactly the
    connections that are there, each under a name of its own and one for each
    descriptor that was accepted, and the timer, the eventfd and the listening
    socket stay watched. Otherwise the program broke where the service breaks,
    at one of the events that were called for and after all before it were
    served, or it came to a wake-up that finds both of its timers expired and
    never returns, whatever fuel the loop over them is given. The setting must
    be sane: the descriptors were made and are different, the working directory
    is shorter than 256 characters, and the counter of timer ids, which the
    constructor leaves uninitialised, is neither negative nor at the end of its
    range (else [add_timer] asserts, [add_timer_garbage_limit]). The clock must
    not go back, the rounds must keep to what the kernel promises
    ([rounds_fit]), all that comes in and goes out must fit the buffers, and
    fewer than 2^31 - 1 connections come. *)
Theorem program_serves (fresh : nat -> nat) (x : setting) (w : outside) wd (A : Z) :
  let dir := files_of x in
  let a0 := mkService (w_env wd) ∅ in
  sane x -> clock_sound -> dir <> [] -> page_limit dir A ->
  exists P0, launch 0 fresh x w wd = Ok (dir, P0) /\ forall m ks,
    let fuel := S (S m) in
    let rs := rounds_of fuel ks (p_timers P0) (p_acceptor P0) in
    let calls := events_of_all dir role_of true rs (p_loop P0, p_table P0) in
    rounds_fit dir role_of true rs (p_loop P0, p_table P0) a0 ->
    total_cost A calls <= max_size - 2048 -> Z.of_nat (arrivals calls) < 2 ^ 31 - 1 ->
    match program_rounds fuel dir ks P0 with
    | Ok P => exists es xs a, serves_all dir a0 es xs a /\ filter visible es = filter visible calls /\
        (forall j, Release j ∉ es -> sent_to (p_loop P) j = answers_for j es xs) /\
        represents (lose (losses xs) (w_os wd)) 0 (p_loop P) a /\
        in_step (1 + Z.of_nat (taken rs)) 0 (roster a) (p_table P) /\
        ticked (p_timers P) = (ticked (p_timers P0) + seconds es)%nat /\
        (exists t l, two_timers ((st_garbage x).1 + 1) ((st_garbage x).1 + 2) t l (p_timers P)) /\
        interest (epoll (p_loop P)) !! st_timerfd x = Some (kReadEvent, tch) /\
        interest (epoll (p_loop P)) !! st_wakefd x = Some (kReadEvent, wch) /\
        interest (epoll (p_loop P)) !! st_listenfd x = Some (kReadEvent, lch)
    | Fault f =>
        (exists es xs, breaks_in dir a0 es xs f /\ filter visible es = filter visible calls) \/
        f = OutOfFuel /\ hangs fuel dir ks P0
    end.
Proof.
  intros dir a0 Hx Hclock Hdir Hlim.
  destruct (launched fresh x w wd 0 0 Hx Hclock) as (P0 & Hlaunch & _ & _ & _ & Htwo & Hmem & Hstore); [done|].
  exists P0. split; [exact Hlaunch|]. intros m ks fuel rs calls Hfit Hcost Hroom.
  destruct (launched fresh x w wd (total_cost A calls) (arrivals calls) Hx Hclock Hroom) as (P1 & Hlaunch1 & Hrep & Hstep & _).
  assert (P1 = P0) as -> by congruence. clear Hlaunch1. destruct Htwo as (t & l & Htwo).
  set (y0 := (p_loop P0, p_table P0)) in *. destruct (own_roles x Hx) as (Hone & Ht & Hw & Hl).
  assert (Hown : forall i fd, own_channels x !! i = Some (reading fd) -> own_channel i fd y0.1).
  { intros i fd Hi. unfold y0; cbn [fst]. split; [by rewrite Hmem|]. exists 0. by rewrite Hstore, Hi. }
  pose (table := server_ledger_ok (env DB) dir (1 + Z.of_nat (arrivals calls))).
  assert (Hstands : stands dir (w_os wd) (total_cost A calls) (arrivals calls + 0) y0 a0).
  { split; [exact Hrep|]. rewrite Nat.add_0_r. exact Hstep. }
  assert (Hn : total_cost A calls <= total_cost A calls <= max_size - 2048) by (split; [apply Z.le_refl|exact Hcost]).
  pose proof (rounds_do dir role_of true A rs _ _ 0 y0 a0 Hstands Hdir Hlim Hfit Hn) as Hdo. unfold does in Hdo.
  pose proof (rounds_program m dir ks P0 _ _ t l Htwo Hclock) as Hprog. fold fuel in Hprog. fold rs y0 in Hprog.
  destruct (play_all dir role_of true rs y0) as [y|f] eqn:Hplay; [|rewrite Hprog; by left].
  destruct Hprog as [(P & -> & <- & Htwo' & Htick)|[-> Hhang]]; [|by right].
  destruct (rounds_counts dir A (st_timerfd x) (st_listenfd x) m ks _ _ _ (total_cost A calls) 0 y0 _ a0 _ _ t l
    Hone Hdir Hlim Htwo Hclock (Hown _ _ Ht) (Hown _ _ Hl) Hplay Hstands Hfit Hn) as [Hdues Hcame].
  destruct Hdo as (es & xs & a & [Hserve [Hrep' Hag] Hsent Hun] & Hvis & _).
  destruct (visible_counts _ _ Hvis) as [Hsec _]. rewrite Z.sub_diag in Hrep'.
  assert (Hm : mirrors (epoll (p_loop P))) by apply (lo_shared _ (rp_loop _ _ _ _ Hrep')).
  assert (Hwatch : forall i fd, own_channels x !! i = Some (reading fd) -> interest (epoll (p_loop P)) !! fd = Some (kReadEvent, i)).
  { intros i fd Hi. apply (own_channel_watched i fd _ Hm). exact (own_channel_kept i fd _ _ (Hown i fd Hi) (Hun i)). }
  exists es, xs, a. split; [exact Hserve|]. split; [exact Hvis|]. split.
  { intros j Hj. etransitivity; [exact (Hsent j Hj)|]. unfold y0, sent_to, guests_of. cbn [fst]. by rewrite Hmem, lookup_fmap, lookup_empty. }
  split; [exact Hrep'|]. split; [change (arrivals calls = taken rs) in Hcame; rewrite <-Hcame; exact Hag|]. split; [rewrite Htick, Hsec; f_equal; exact (eq_sym Hdues)|].
  split; [exact Htwo'|]. split; [by apply Hwatch|]. split; by apply Hwatch.
Qed.
End program.

(** ** Witness *)

(** Readings of the clock are six tenths of a second apart. *)
Definition demo_clock (n : nat) : TimerStamp := Z.min (Z.of_nat n * 600000000) (2 ^ 61).

Lemma demo_clock_sound : clock_sound demo_clock.
Proof. intros n. unfold demo_clock. lia. Qed.

Definition demo_setting : setting :=
  mkSetting 0 3 4 6 7 8 (0, 0) true true (new_address 80 false) (lit "web") true (lit "/") (lit "w").

(** A pool of two connections, and the pool of web_test, which is never set up. *)
Definition demo_world : world := mkWorld (demo_env [Some 0%nat; Some 1%nat]) (mkOs 3 0).
Definition poolless_world : world := mkWorld (mkEnv SqlConnPool.new_pool (db (demo_env []))) (mkOs 3 0).

Lemma demo_sane : sane 11 12 10 demo_setting.
Proof. split; cbn; try lia; (apply (bool_decide_unpack _); vm_compute; exact I) || (split; reflexivity || lia). Qed.

(** The kernel's part of three rounds: a client comes; it logs in as a second
    passes; it is gone. *)
Definition demo_kernel (evs : option (list (Z * nat))) (data : io bytes) : kernel :=
  mkKernel evs (fun _ => data) (fun _ => IoErr EWOULDBLOCK) (fun _ => IoErr EWOULDBLOCK)
    (mkAccepting (IoOk 5) (IoErr 0) 0 0) 0 [].

Definition demo_history : list kernel :=
  [demo_kernel (Some [(1, 10%nat)]) (IoErr EWOULDBLOCK);
   demo_kernel (Some [(1, 11%nat); (1, 0%nat)]) (IoOk login_text);
   demo_kernel (Some [(20, 0%nat)]) (IoErr EWOULDBLOCK)].

Definition demo_launch (wd : world) : result (bytes * program) :=
  launch demo_clock 11 12 10 0 (fun _ => 0%nat) demo_setting (mkOutside None ∅) wd.

Definition demo_program (wd : world) : program :=
  match demo_launch wd with
  | Ok (_, P) => P
  | Fault _ => mkProgram demo_loop (mkDirectory (server (new_server [] [] (new_pool 0))) ∅) (new_queue 0 0)
                 (mkAcceptor false 0 false 0 (new_socket 0) (new_poller ∅))
  end.

Example demo_run :
  match program_rounds demo_clock (fun e => e) 11 12 10 2 (lit "/w") demo_history (demo_program demo_world) with
  | Ok P' => ticked (p_timers P') = 1%nat /\ next_id (dir_server (p_table P')) = 2 /\ connection_ (dir_server (p_table P')) = ∅
  | Fault _ => False
  end.
Proof. vm_compute. by split_and!. Qed.

(** Without a pool the login brings the server down. *)
Example poolless_run :
  program_rounds demo_clock (fun e => e) 11 12 10 2 (lit "/w") demo_history (demo_program poolless_world) = Fault AssertFailed.
Proof. vm_compute. reflexivity. Qed.

(** Six seconds pass while the server starts: the first wake-up does not end. *)
Example hanging_run :
  match launch busy_clock 11 12 10 0 (fun _ => 0%nat) demo_setting (mkOutside None ∅) demo_world with
  | Ok (_, P) => program_rounds busy_clock (fun e => e) 11 12 10 40 (lit "/w") [demo_kernel (Some [(1, 11%nat)]) (IoErr EWOULDBLOCK)] P =
      Fault OutOfFuel
  | Fault _ => False
  end.
Proof. vm_compute. reflexivity. Qed.

Abbreviation demo_owner := (role_of 11 12 10).
Definition demo_rounds_of (wd : world) : list round :=
  rounds_of demo_clock (fun e => e) 11 10 2 demo_history (p_timers (demo_program wd)) (p_acceptor (demo_program wd)).

Definition demo_stage (wd : world) (k : nat) : result (loop_state * directory) :=
  play_all (lit "/w") demo_owner true (take k (demo_rounds_of wd)) (p_loop (demo_program wd), p_table (demo_program wd)).

(** The rounds keep to what the kernel promises: checked, as far as they come. *)
Definition stage_check (wd : world) (k : nat) : bool :=
  match demo_rounds_of wd !! k, demo_stage wd k with
  | Some r, Ok y => round_check (lit "/w") demo_owner true r y
  | _, _ => true
  end.

Lemma demo_stage_checks wd : wd = demo_world \/ wd = poolless_world -> forallb (stage_check wd) (seq 0 3) = true.
Proof. intros [->| ->]; vm_compute; reflexivity. Qed.

Lemma play_all_snoc {DB} `{!MySQL DB} {FS : FileSystem} {L} `{!Ledger L} (dir : bytes) own b rs r (y : loop_state (DB := DB) * L) :
  play_all dir own b (rs ++ [r]) y = (y1 ← play_all dir own b rs y; play dir own b r y1).
Proof.
  revert y. induction rs as [|r' rs IH]; intros y; cbn [app play_all].
  - rewrite bind_ok. by destruct (play dir own b r y).
  - destruct (play dir own b r' y) as [y1|]; [|done]. by rewrite !bind_ok.
Qed.

(** Every round from [k] on fits, where nothing is ever taken by a socket and
    nothing comes with a hang-up. *)
Lemma demo_fits_from wd n : forall k y a,
  (forall k, (k < 3)%nat -> stage_check wd k = true) ->
  Forall (fun r => forall i, a_sent (r_answers r i) = IoErr EWOULDBLOCK /\
    forall v, (v, i) ∈ default [] (r_events r) -> hung_up_empty v (r_answers r i)) (demo_rounds_of wd) ->
  (k + n)%nat = length (demo_rounds_of wd) -> (length (demo_rounds_of wd) <= 3)%nat -> demo_stage wd k = Ok y ->
  rounds_fit (lit "/w") demo_owner true (drop k (demo_rounds_of wd)) y a.
Proof.
  induction n as [|n IH]; intros k y a Hcheck Hans Hk Hlen Hy.
  - rewrite drop_ge by lia. exact I.
  - destruct (lookup_lt_is_Some_2 (demo_rounds_of wd) k) as [r Hr]; [lia|]. rewrite (drop_S _ r) by done. split.
    + pose proof (Hcheck k ltac:(lia)) as Hc. unfold stage_check in Hc. rewrite Hr, Hy in Hc.
      apply round_check_ok; [exact Hc|]. intros v i Hi _. rewrite Forall_lookup in Hans.
      destruct (Hans k r Hr i) as [Hsent Hh]. split; [by eapply fairly_refused|by apply Hh].
    + intros y1 Hp es xs a1 _ _. apply (IH (S k)); [done|done|lia|done|].
      unfold demo_stage in *. rewrite (take_S_r _ _ r Hr), play_all_snoc, Hy, bind_ok. exact Hp.
Qed.

Lemma demo_program_fit wd : wd = demo_world \/ wd = poolless_world ->
  rounds_fit (lit "/w") demo_owner true (demo_rounds_of wd) (p_loop (demo_program wd), p_table (demo_program wd)) (mkService (w_env wd) ∅).
Proof.
  intros Hwd. pose proof (demo_stage_checks wd Hwd) as Hc. rewrite forallb_forall in Hc.
  assert (Hlen : length (demo_rounds_of wd) = 3%nat) by (destruct Hwd as [->| ->]; vm_compute; reflexivity).
  apply (demo_fits_from wd 3 0); [intros k Hk; apply Hc, in_seq; lia| |by rewrite Hlen|by rewrite Hlen|done].
  assert (Hrs : exists c, demo_rounds_of wd = [round_of (demo_kernel (Some [(1, 10%nat)]) (IoErr EWOULDBLOCK)) false c;
      round_of (demo_kernel (Some [(1, 11%nat); (1, 0%nat)]) (IoOk login_text)) true None;
      round_of (demo_kernel (Some [(20, 0%nat)]) (IoErr EWOULDBLOCK)) false None])
    by (destruct Hwd as [->| ->]; eexists; vm_compute; reflexivity).
  destruct Hrs as [c ->].
  assert (Hno : forall v (i : nat), (v, i) ∈ [(1, 11%nat); (1, 0%nat)] -> has_bits v POLLHUP && negb (has_bits v POLLIN) = false).
  { intros v i. rewrite !elem_of_cons, elem_of_nil. by intros [[= -> _]|[[= -> _]|[]]]. }
  constructor; [|constructor; [|constructor; [|constructor]]]; intros i; (split; [reflexivity|intros v Hi Hup]); try exact I.
  by rewrite (Hno v i Hi) in Hup.
Qed.

Lemma demo_calls_fit wd : wd = demo_world \/ wd = poolless_world ->
  let calls := events_of_all (lit "/w") demo_owner true (demo_rounds_of wd) (p_loop (demo_program wd), p_table (demo_program wd)) in
  total_cost 5000 calls <= max_size - 2048 /\ Z.of_nat (arrivals calls) < 2 ^ 31 - 1.
Proof. intros [->| ->]; (split; [apply Z.leb_le|apply Z.ltb_lt]); vm_compute; reflexivity. Qed.

(** The visit is served; without a pool, the login breaks the program. *)
Theorem program_serves_witness :
  (exists P0, demo_launch demo_world = Ok (lit "/w", P0) /\ exists P es xs a,
    program_rounds demo_clock (fun e => e) 11 12 10 2 (lit "/w") demo_history P0 = Ok P /\
    serves_all (lit "/w") (mkService (w_env demo_world) ∅) es xs a) /\
  (exists P0, demo_launch poolless_world = Ok (lit "/w", P0) /\ exists es xs,
    program_rounds demo_clock (fun e => e) 11 12 10 2 (lit "/w") demo_history P0 = Fault AssertFailed /\
    breaks_in (lit "/w") (mkService (w_env poolless_world) ∅) es xs AssertFailed).
Proof.
  split.
  - destruct (program_serves demo_clock (fun e => e) 11 12 10 (fun _ => 0%nat) demo_setting (mkOutside None ∅) demo_world 5000
      demo_sane demo_clock_sound ltac:(discriminate) demo_limit) as (P0 & Hlaunch & Hall).
    exists P0. split; [exact Hlaunch|].
    assert (HP : P0 = demo_program demo_world) by (unfold demo_program, demo_launch; by rewrite Hlaunch). subst P0.
    destruct (demo_calls_fit demo_world (or_introl eq_refl)) as [Hcost Hroom].
    specialize (Hall 0%nat demo_history (demo_program_fit demo_world (or_introl eq_refl)) Hcost Hroom).
    pose proof demo_run as Hok. change (files_of demo_setting) with (lit "/w") in Hall.
    destruct (program_rounds _ _ _ _ _ 2 (lit "/w") demo_history (demo_program demo_world)) as [P|f]; [|destruct Hok].
    destruct Hall as (es & xs & a & Hserve & _). exists P, es, xs, a. exact (conj eq_refl Hserve).
  - destruct (program_serves demo_clock (fun e => e) 11 12 10 (fun _ => 0%nat) demo_setting (mkOutside None ∅) poolless_world 5000
      demo_sane demo_clock_sound ltac:(discriminate) demo_limit) as (P0 & Hlaunch & Hall).
    exists P0. split; [exact Hlaunch|].
    assert (HP : P0 = demo_program poolless_world) by (unfold demo_program, demo_launch; by rewrite Hlaunch). subst P0.
    destruct (demo_calls_fit poolless_world (or_intror eq_refl)) as [Hcost Hroom].
    specialize (Hall 0%nat demo_history (demo_program_fit poolless_world (or_intror eq_refl)) Hcost Hroom).
    change (files_of demo_setting) with (lit "/w") in Hall.
    pose proof poolless_run as Hrun. cbv zeta in Hall. rewrite Hrun in Hall.
    destruct Hall as [(es & xs & Hbr & _)|[Hf _]]; [|discriminate Hf]. exists es, xs. exact (conj Hrun Hbr).
Defined.
